(** * ehusby/misc: tree walker, copy strategies, task bundles, job submission

    A shallow embedding of the core of [lib/script_utils.py] (and of the
    driver loop of [file_transfer.py]) together with the properties stated
    about it.  Python strings are modelled as [string] over [ascii] code
    points 0..255, Python [int]s that count things as [nat], exceptions as
    the [Raise] branch of [result], and the calls into the operating system
    as fields of an interface record, so that every statement holds for any
    behaviour of the primitives and can still be run on a concrete one. *)

From Stdlib Require Import String Ascii List Arith Lia DecimalString DecimalNat.
From stdpp Require Import gmap strings list.

Local Open Scope list_scope.

(** ** Exceptions *)

Inductive exn : Type :=
  | InvalidArgumentError (msg : string)
  | DimensionError (msg : string)
  | TypeError
  | ValueError (msg : string)
  | ZeroDivisionError
  | AttributeError
  | IndexError
  | RecursionError
  | ExternalError (msg : string)
  | FileExistsError (path : string)
  | OSError (msg : string).

Inductive result (A : Type) : Type :=
  | Ok (a : A)
  | Raise (e : exn).
Arguments Ok {A} a.
Arguments Raise {A} e.

Definition rbind {A B} (r : result A) (f : A -> result B) : result B :=
  match r with
  | Ok a => f a
  | Raise e => Raise e
  end.

Fixpoint rmapM {A B} (f : A -> result B) (l : list A) : result (list B) :=
  match l with
  | [] => Ok []
  | x :: rest =>
      rbind (f x) (fun y => rbind (rmapM f rest) (fun ys => Ok (y :: ys)))
  end.

(** ** Python string primitives *)

Module Py.

Definition LF : ascii := ascii_of_nat 10.
Definition CR : ascii := ascii_of_nat 13.

(** The double quote, as a string. *)
Definition DQUOTE : string := String (ascii_of_nat 34) EmptyString.

(** [str.isspace] on the code points below 256. *)
Definition isspace (c : ascii) : bool :=
  let n := nat_of_ascii c in
  (((9 <=? n) && (n <=? 13)) || ((28 <=? n) && (n <=? 32))
   || (n =? 133) || (n =? 160))%nat.

(** The line boundaries of [str.splitlines] on the code points below 256. *)
Definition islinebreak (c : ascii) : bool :=
  let n := nat_of_ascii c in
  (((10 <=? n) && (n <=? 13)) || ((28 <=? n) && (n <=? 30))
   || (n =? 133))%nat.

Definition isempty (s : string) : bool :=
  match s with
  | EmptyString => true
  | String _ _ => false
  end.

(** [s.lstrip()], [s.rstrip()], [s.strip()]. *)
Fixpoint lstrip (s : string) : string :=
  match s with
  | EmptyString => EmptyString
  | String c s' => if isspace c then lstrip s' else s
  end.

Fixpoint rstrip (s : string) : string :=
  match s with
  | EmptyString => EmptyString
  | String c s' =>
      let r := rstrip s' in
      if isempty r && isspace c then EmptyString else String c r
  end.

Definition strip (s : string) : string := lstrip (rstrip s).

(** [sep.join(l)]. *)
Fixpoint join (sep : string) (l : list string) : string :=
  match l with
  | [] => EmptyString
  | [x] => x
  | x :: rest => x +:+ sep +:+ join sep rest
  end.

(** Prepend a character to the piece under construction. *)
Definition push (c : ascii) (pieces : list string) : list string :=
  match pieces with
  | h :: t => String c h :: t
  | [] => [String c EmptyString]
  end.

Fixpoint startswith (s p : string) : bool :=
  match p, s with
  | EmptyString, _ => true
  | String a p', String b s' => Ascii.eqb a b && startswith s' p'
  | String _ _, EmptyString => false
  end.

(** [s.split(sep)] for a non-empty separator; [skip] counts the
    characters of a separator occurrence that are still to be dropped. *)
Fixpoint split_go (sep : string) (skip : nat) (s : string) : list string :=
  match s with
  | EmptyString => [EmptyString]
  | String c s' =>
      match skip with
      | S k => split_go sep k s'
      | O =>
          if startswith s sep
          then EmptyString :: split_go sep (String.length sep - 1) s'
          else push c (split_go sep 0 s')
      end
  end.

Definition split (sep s : string) : result (list string) :=
  if isempty sep then Raise (ValueError "empty separator") else Ok (split_go sep 0 s).

(** Text-mode reading: ["\r\n"] and ["\r"] arrive as ["\n"]. *)
Fixpoint universal_newlines_go (after_cr : bool) (s : string) : string :=
  match s with
  | EmptyString => EmptyString
  | String c s' =>
      if after_cr && Ascii.eqb c LF then universal_newlines_go false s'
      else if Ascii.eqb c CR then String LF (universal_newlines_go true s')
      else String c (universal_newlines_go false s')
  end.

Definition universal_newlines : string -> string :=
  universal_newlines_go false.

(** [s.splitlines()]: no piece for the end of a text that ends in a line
    boundary, ["\r\n"] is one boundary. *)
Fixpoint splitlines_go (after_cr : bool) (s : string) : list string :=
  match s with
  | EmptyString => []
  | String c s' =>
      if after_cr && Ascii.eqb c LF then splitlines_go false s'
      else if islinebreak c
           then EmptyString :: splitlines_go (Ascii.eqb c CR) s'
           else push c (splitlines_go false s')
  end.

Definition splitlines : string -> list string := splitlines_go false.

(** [fp.readline()] on translated text: the line with its ["\n"], and
    what is left of the text. *)
Fixpoint readline (s : string) : string * string :=
  match s with
  | EmptyString => (EmptyString, EmptyString)
  | String c s' =>
      if Ascii.eqb c LF then (String c EmptyString, s')
      else let '(l, r) := readline s' in (String c l, r)
  end.

(** [str(n)] for a non-negative [int]. *)
Definition str (n : nat) : string :=
  NilEmpty.string_of_uint (Nat.to_uint n).

Fixpoint repeat_char (c : ascii) (n : nat) : string :=
  match n with
  | O => EmptyString
  | S k => String c (repeat_char c k)
  end.

(** ['{:0>W}'.format(s)]: right-align in width [W], fill with ['0']. *)
Definition rjust0 (width : nat) (s : string) : string :=
  repeat_char "0"%char (width - String.length s) +:+ s.

(** ['{:02d}'.format(n)] and the like, for a non-negative [n]. *)
Definition fmt_0d (width n : nat) : string := rjust0 width (str n).

(** [l[i:j]] for [0 <= i]. *)
Definition slice {A} (l : list A) (i j : nat) : list A :=
  firstn (j - i) (skipn i l).

(** [range(start, stop, step)] for a positive step; [stop] steps are
    enough to pass [stop]. *)
Fixpoint range_go (fuel cur stop step : nat) : list nat :=
  match fuel with
  | O => []
  | S f => if (cur <? stop)%nat then cur :: range_go f (cur + step) stop step
           else []
  end.

Definition range (start stop step : nat) : list nat :=
  range_go stop start stop step.

(** [enumerate(l, start)]. *)
Fixpoint enumerate {A} (start : nat) (l : list A) : list (nat * A) :=
  match l with
  | [] => []
  | x :: rest => (start, x) :: enumerate (S start) rest
  end.

(** [all(len(t) == n for t in l)]. *)
Definition all_len {A} (n : nat) (l : list (list A)) : bool :=
  forallb (fun t => (length t =? n)%nat) l.

(** POSIX [os.path.join(a, b)]. *)
Definition endswith_sep (s : string) : bool :=
  match String.length s with
  | O => false
  | S k => match String.get k s with
           | Some c => Ascii.eqb c "/"%char
           | None => false
           end
  end.

Definition path_join (a b : string) : string :=
  if startswith b "/" then b
  else if isempty a || endswith_sep a then a +:+ b
  else a +:+ "/" +:+ b.

(** [sub in s]. *)
Fixpoint contains (s sub : string) : bool :=
  startswith s sub ||
  match s with
  | EmptyString => false
  | String _ s' => contains s' sub
  end.

(** [s.upper()] on the ASCII letters. *)
Definition upper_char (c : ascii) : ascii :=
  let n := nat_of_ascii c in
  if ((97 <=? n) && (n <=? 122))%nat then ascii_of_nat (n - 32) else c.

Fixpoint upper (s : string) : string :=
  match s with
  | EmptyString => EmptyString
  | String c s' => String (upper_char c) (upper s')
  end.

(** POSIX [os.path.basename(p)]: what follows the last ['/']. *)
Fixpoint basename (p : string) : string :=
  match p with
  | EmptyString => EmptyString
  | String c p' =>
      if contains p' "/" then basename p'
      else if Ascii.eqb c "/"%char then p' else p
  end.

(** [x in l] for strings. *)
Definition mem (x : string) (l : list string) : bool :=
  existsb (String.eqb x) l.

(** [d[k]] or [None] for a dict written as a list of items. *)
Fixpoint dict_get {V} (d : list (string * V)) (k : string) : option V :=
  match d with
  | [] => None
  | (k', v) :: rest => if String.eqb k k' then Some v else dict_get rest k
  end.

(** [s.lstrip(chars)], [s.rstrip(chars)], [s.strip(chars)]. *)
Fixpoint lstrip_chars (chars : list ascii) (s : string) : string :=
  match s with
  | EmptyString => EmptyString
  | String c s' =>
      if existsb (Ascii.eqb c) chars then lstrip_chars chars s' else s
  end.

Fixpoint rstrip_chars (chars : list ascii) (s : string) : string :=
  match s with
  | EmptyString => EmptyString
  | String c s' =>
      let r := rstrip_chars chars s' in
      if isempty r && existsb (Ascii.eqb c) chars then EmptyString
      else String c r
  end.

Definition strip_chars (chars : list ascii) (s : string) : string :=
  lstrip_chars chars (rstrip_chars chars s).

(** [s.endswith(p)]. *)
Definition endswith (s p : string) : bool :=
  let n := String.length s in
  let k := String.length p in
  (k <=? n)%nat && String.eqb (String.substring (n - k) k s) p.

(** [min] of a non-empty list of strings, that is [sorted(l)[0]]. *)
Definition str_min (l : list string) : string :=
  match l with
  | [] => EmptyString
  | x :: rest => fold_left (fun m y => if String.leb m y then m else y) rest x
  end.

End Py.


(** ** Task bundles ([write_task_bundles], [read_task_bundle]) *)

Module Bundles.

(** A task is a tuple of strings, as the driver builds it:
    [(src_path, dst_path)].  What [read_task_bundle] returns is a list
    whose items are either such a row or, for a one-column file, the bare
    string. *)
Definition task : Type := list string.

Inductive item : Type :=
  | IStr (s : string)
  | IList (row : list string).

(** The text files of the bundle directory: path to content. *)
Abbreviation files := (gmap string string).

(** What surrounds the two functions: whether [import numpy] succeeds,
    numpy's writer and reader (a two-dimensional array is its column
    count and its rows), and the clock reading
    [datetime.now().strftime("%Y%m%d%H%M%S")]. *)
Record env : Type := {
  imported_numpy : bool;
  np_savetxt : list task -> string -> string -> string;
  np_loadtxt : string -> option string -> nat -> option nat ->
               result (nat * list (list string));
  now : string
}.

(** [get_index_fmtstr(num_items, min_digits=3)]: the format string
    ['{:0>W}'], represented by what [.format] does with it. *)
Definition get_index_fmtstr (num_items : nat) (min_digits : nat)
  : nat -> string :=
  fun n =>
    Py.rjust0 (Nat.max min_digits (String.length (Py.str num_items)))
              (Py.str n).

(** [int(math.ceil(n / float(d)))] for [d > 0]; the floating-point
    quotient rounds to the exact ceiling for every list length below
    2^53. *)
Definition ceil_div (n d : nat) : nat :=
  (n / d + if (n mod d =? 0)%nat then 0 else 1)%nat.

(** The text written for one task by the loop that runs without numpy. *)
Definition task_line (task_delim : string) (t : task) : string :=
  Py.join task_delim t +:+ String Py.LF EmptyString.

Definition bundle_text (task_delim : string) (task_bundle : list task)
  : string :=
  fold_right (fun t acc => task_line task_delim t +:+ acc)
             EmptyString task_bundle.

(** The body of the loop of [write_task_bundles] for one bundle: the
    content given to [bundle_file]. *)
Definition write_bundle (e : env) (task_delim task_fmt : string)
    (task_bundle : list task) : string :=
  if (length task_bundle =? 0)%nat then EmptyString
  else if imported_numpy e then np_savetxt e task_bundle task_fmt task_delim
  else bundle_text task_delim task_bundle.

Fixpoint write_loop (e : env) (task_list : list task)
    (tasks_per_bundle : nat) (bundle_prefix : string)
    (jobnum_fmt : nat -> string) (task_delim task_fmt : string)
    (todo : list (nat * nat)) (fs : files) (bundle_file_list : list string)
  : files * list string :=
  match todo with
  | [] => (fs, bundle_file_list)
  | (jobnum, tasknum) :: rest =>
      let bundle_file :=
        bundle_prefix +:+ "_" +:+ jobnum_fmt jobnum +:+ ".txt" in
      let task_bundle :=
        Py.slice task_list tasknum (tasknum + tasks_per_bundle) in
      let fs' :=
        <[bundle_file := write_bundle e task_delim task_fmt task_bundle]> fs
      in
      write_loop e task_list tasks_per_bundle bundle_prefix jobnum_fmt
                 task_delim task_fmt rest fs'
                 (bundle_file_list ++ [bundle_file])
  end.

(** [write_task_bundles(task_list, tasks_per_bundle, dstdir,
    bundle_prefix, task_delim=',', task_fmt='%s')]. *)
Definition write_task_bundles (e : env) (task_list : list task)
    (tasks_per_bundle : nat) (dstdir bundle_prefix : string)
    (task_delim task_fmt : string) (fs : files)
  : result (files * list string) :=
  if negb (imported_numpy e) && negb (String.eqb task_fmt "%s")
  then Raise (OSError "ImportError")
  else
    let bundle_prefix :=
      Py.path_join dstdir (bundle_prefix +:+ "_" +:+ now e) in
    if (tasks_per_bundle =? 0)%nat then Raise ZeroDivisionError
    else
      let jobnum_total := ceil_div (length task_list) tasks_per_bundle in
      let jobnum_fmt := get_index_fmtstr jobnum_total 3 in
      Ok (write_loop e task_list tasks_per_bundle bundle_prefix jobnum_fmt
            task_delim task_fmt
            (Py.enumerate 1
               (Py.range 0 (length task_list) tasks_per_bundle))
            fs []).

(** The [header_rows] first lines, stripped, the blank ones left out. *)
Fixpoint read_header_lines (header_rows : nat) (text : string)
  : list string :=
  match header_rows with
  | O => []
  | S k =>
      let '(line, rest) := Py.readline text in
      let header_line := Py.strip line in
      if Py.isempty header_line then read_header_lines k rest
      else header_line :: read_header_lines k rest
  end.

Definition list_min (l : list nat) : nat := fold_right Nat.min (hd 0 l) l.
Definition list_max (l : list nat) : nat := fold_right Nat.max 0 l.

(** The final column-count checks of [read_task_bundle]; the counts are
    [None] when no row was read, and comparing [None] with a number is a
    [TypeError]. *)
Definition check_ncol (ncol_min ncol_max : option nat)
    (task_list_ncols_min task_list_ncols_max : option nat)
    (bundle_file : string) : result unit :=
  rbind
    (match ncol_min, task_list_ncols_min with
     | None, _ => Ok tt
     | Some _, None => Raise TypeError
     | Some lo, Some n =>
         if (n <? lo)%nat
         then Raise (DimensionError
                ("`bundle_file` line has fewer columns than required: "
                 +:+ bundle_file))
         else Ok tt
     end)
    (fun _ =>
       match ncol_max, task_list_ncols_max with
       | None, _ => Ok tt
       | Some _, None => Raise TypeError
       | Some hi, Some n =>
           if (hi <? n)%nat
           then Raise (DimensionError
                  ("`bundle_file` line has more columns than required: "
                   +:+ bundle_file))
           else Ok tt
       end).

(** The last step: a header of one row is returned as that row. *)
Definition unwrap_header (read_header : bool) (task_list : list item)
  : list item :=
  match read_header, task_list with
  | true, [IList row] => map IStr row
  | _, _ => task_list
  end.

Definition inconsistent (bundle_file : string) : exn :=
  DimensionError
    ("Inconsistent number of columns in `bundle_file`: " +:+ bundle_file).

(** [task_list_ncols] in the branch below: [None], the one column count
    of the rows, or, when a range is given and the rows differ, the list
    of their counts. *)
Inductive ncols : Type :=
  | NoCount
  | Count (n : nat)
  | Counts (l : list nat).

(** The branch of [read_task_bundle] that parses the text itself. *)
Definition read_plain (text : string) (bundle_file : string)
    (args_delim : option string) (header_rows : nat)
    (ncol_strict : bool) (ncol_min ncol_max : option nat)
    (allow_1d_task_list read_header : bool)
  : result (list item * option nat * option nat) :=
  let lines :=
    if read_header then read_header_lines header_rows text
    else
      let all :=
        List.filter (fun line => negb (Py.isempty (Py.strip line)))
               (Py.splitlines text) in
      if (0 <? header_rows)%nat && (0 <? length all)%nat
      then skipn header_rows all else all in
  if (length lines =? 0)%nat then Ok ([], None, None)
  else
    match args_delim with
    | Some delim =>
        rbind (rmapM (fun t => rbind (Py.split delim t)
                                 (fun args => Ok (map Py.strip args)))
                     lines)
          (fun rows =>
             let lens := map (@length string) rows in
             let first_task_ncols := hd 0 lens in
             let ranged :=
               match ncol_min, ncol_max with
               | None, None => false
               | _, _ => true
               end in
             let ncols_min := if ranged then Some (list_min lens) else None in
             let ncols_max := if ranged then Some (list_max lens) else None in
             let task_list_ncols : ncols :=
               if ranged
               then if (list_min lens =? list_max lens)%nat
                    then Count (list_min lens) else Counts lens
               else if ncol_strict
                    then if Py.all_len first_task_ncols rows
                         then Count first_task_ncols else NoCount
                    else NoCount in
             match ncol_strict, task_list_ncols with
             | true, NoCount => Raise (inconsistent bundle_file)
             | _, _ =>
                 let items :=
                   if allow_1d_task_list && negb read_header
                   then map (fun row => match row with
                                        | [x] => IStr x
                                        | _ => IList row
                                        end) rows
                   else map IList rows in
                 Ok (items, ncols_min, ncols_max)
             end)
    | None =>
        if negb allow_1d_task_list || read_header
        then Ok (map (fun arg => IList [Py.strip arg]) lines, None, None)
        else Ok (map (fun arg => IStr (Py.strip arg)) lines, None, None)
    end.

(** The branch of [read_task_bundle] that hands the file to numpy. *)
Definition read_numpy (e : env) (content : string) (bundle_file : string)
    (args_delim : option string) (header_rows : nat)
    (ncol_min ncol_max : option nat)
    (allow_1d_task_list read_header : bool)
  : result (list item * option nat * option nat) :=
  let loadtxt_skiprows := if read_header then 0 else header_rows in
  let loadtxt_maxrows := if read_header then Some header_rows else None in
  match np_loadtxt e content args_delim loadtxt_skiprows loadtxt_maxrows with
  | Raise (ValueError msg) =>
      if Py.startswith msg "Wrong number of columns"
      then Raise (inconsistent bundle_file)
      else Raise (ValueError msg)
  | Raise ex => Raise ex
  | Ok (task_list_ncols, rows) =>
      rbind (check_ncol ncol_min ncol_max (Some task_list_ncols)
               (Some task_list_ncols) bundle_file)
        (fun _ =>
           let items :=
             if allow_1d_task_list && (task_list_ncols =? 1)%nat
             then map (fun row => IStr (hd EmptyString row)) rows
             else map IList rows in
           Ok (items, Some task_list_ncols, Some task_list_ncols))
  end.

(** [read_task_bundle(bundle_file, args_dtype=str, args_delim=',',
    header_rows=0, ncol_strict=True, ncol_min=None, ncol_max=None,
    allow_1d_task_list=True, read_header=False)]; a file that does not
    exist cannot be opened. *)
Definition read_task_bundle (e : env) (fs : files) (bundle_file : string)
    (args_delim : option string) (header_rows : nat)
    (ncol_strict : bool) (ncol_min ncol_max : option nat)
    (allow_1d_task_list read_header : bool) : result (list item) :=
  match fs !! bundle_file with
  | None => Raise (OSError ("No such file: " +:+ bundle_file))
  | Some content =>
      let text := Py.universal_newlines content in
      rbind
        (if ncol_strict && imported_numpy e
         then read_numpy e content bundle_file args_delim header_rows
                ncol_min ncol_max allow_1d_task_list read_header
         else read_plain text bundle_file args_delim header_rows
                ncol_strict ncol_min ncol_max allow_1d_task_list
                read_header)
        (fun '(task_list, ncols_min, ncols_max) =>
           rbind (check_ncol ncol_min ncol_max ncols_min ncols_max
                    bundle_file)
             (fun _ => Ok (unwrap_header read_header task_list)))
  end.

(** The call with every keyword but the delimiter left at its default. *)
Definition read_task_bundle_default (e : env) (delim : string) (fs : files)
    (bundle_file : string) : result (list item) :=
  read_task_bundle e fs bundle_file (Some delim) 0 true None None true false.

(** Write the bundles, read each of them back and concatenate what was
    read in the order of the returned paths. *)
Definition write_then_read (e : env) (delim : string)
    (task_list : list task) (tasks_per_bundle : nat)
    (dstdir bundle_prefix : string) (fs : files) : result (list item) :=
  rbind (write_task_bundles e task_list tasks_per_bundle dstdir
           bundle_prefix delim "%s" fs)
    (fun '(fs', bundle_file_list) =>
       rbind (rmapM (read_task_bundle_default e delim fs') bundle_file_list)
         (fun parts => Ok (concat parts))).

End Bundles.

(** ** The operating system and the effects of a run *)

(** The callables the module hands to [CopyMethod] ([os.link],
    [shutil.copy2], ...) and any other one a caller may pass. *)
Inductive callable_kind : Type :=
  | FunctionType
  | BuiltinFunctionType
  | OtherCallable.

Inductive callable : Type :=
  | os_link
  | os_symlink
  | shutil_copyfile
  | shutil_copy
  | shutil_copy2
  | shutil_move
  | other_fn (kind : callable_kind) (repr : string).

(** What a run does, in the order it does it.  [ExecCall] marks the entry
    into [CopyMethod.exec]; [Yield] is an item produced by the generator. *)
Inductive event : Type :=
  | Print (msg : string)
  | Makedirs (path : string)
  | Remove (path : string)
  | CopyFn (f : callable) (a b : string)
  | Command (cmd : string)
  | ExecCall (srcfile dstfile : string)
  | Yield (srcdir : string) (dnames fnames : list string).

(** The calls that change the file system. *)
Definition mutating (ev : event) : bool :=
  match ev with
  | Makedirs _ | Remove _ | CopyFn _ _ _ | Command _ => true
  | Print _ | ExecCall _ _ | Yield _ _ _ => false
  end.

(** The primitives of [os], [os.path], [shutil], [filecmp] and
    [subprocess] that the code calls, over a state [world] of the machine.
    The queries only read the state; a failing call leaves it as it was.
    [str_format fmt a b] is [fmt.format(a, b)] for a format string that
    comes from the caller: it gives the formatted string, or raises
    ([IndexError], [KeyError], [ValueError]) on a field it cannot fill. *)
Class OS (world : Type) : Type := {
  os_path_isdir : world -> string -> bool;
  os_path_isfile : world -> string -> bool;
  os_scandir : world -> string -> result (list (string * bool));
  os_listdir : world -> string -> result (list string);
  os_makedirs : world -> string -> result world;
  os_remove : world -> string -> result world;
  call_copy_fn : callable -> world -> string -> string -> result world;
  popen : world -> string -> world * nat;
  filecmp_cmp : world -> string -> string -> result bool;
  normpath_expanduser : string -> string;
  str_format : string -> string -> string -> result string
}.

(** A computation: from a state to the events, the state reached and the
    value or the exception. *)
Definition M (world A : Type) : Type :=
  world -> list event * world * result A.

Definition ret {world A} (a : A) : M world A :=
  fun w => ([], w, Ok a).

Definition raise {world A} (e : exn) : M world A :=
  fun w => ([], w, Raise e).

Definition bind {world A B} (m : M world A) (k : A -> M world B)
  : M world B :=
  fun w =>
    match m w with
    | (tr, w1, Ok a) =>
        let '(tr', w2, r) := k a w1 in (tr ++ tr', w2, r)
    | (tr, w1, Raise e) => (tr, w1, Raise e)
    end.

Notation "'do' x <- m ; k" := (bind m (fun x => k))
  (at level 10, x name, m at level 100, k at level 200).
Notation "'do' ' p <- m ; k" := (bind m (fun p => k))
  (at level 10, p pattern, m at level 100, k at level 200).
Notation "'run' m ; k" := (bind m (fun _ => k))
  (at level 10, m at level 100, k at level 200).

Definition emit {world} (ev : event) : M world unit :=
  fun w => ([ev], w, Ok tt).

(** A query of the state. *)
Definition observe {world A} (f : world -> A) : M world A :=
  fun w => ([], w, Ok (f w)).

(** A query that may fail. *)
Definition try_observe {world A} (f : world -> result A) : M world A :=
  fun w => ([], w, f w).

(** A call that changes the state, logged as [ev] when it is made. *)
Definition mutate {world} (ev : event) (f : world -> result world)
  : M world unit :=
  fun w =>
    match f w with
    | Ok w' => ([ev], w', Ok tt)
    | Raise e => ([ev], w, Raise e)
    end.

(** [for x in l: body x]. *)
Fixpoint for_each {world A} (l : list A) (body : A -> M world unit)
  : M world unit :=
  match l with
  | [] => ret tt
  | x :: rest => run body x; for_each rest body
  end.

(** [execute_command(cmd_str)] with its defaults: run the command in a
    shell, and raise on a non-zero exit status. *)
Definition execute_command {world} `{OS world} (cmd_str : string)
  : M world nat :=
  fun w =>
    let '(w', return_code) := popen w cmd_str in
    if (return_code =? 0)%nat then ([Command cmd_str], w', Ok return_code)
    else ([Command cmd_str], w',
          Raise (ExternalError
                   ("External call failed with non-zero exit status: "
                    +:+ cmd_str))).

(** ** Copy strategies ([CopyMethod]) *)

Module CopyMethod.

Inductive systype : Type :=
  | SYSTYPE_WINDOWS
  | SYSTYPE_LINUX
  | SYSTYPE_DARWIN.

Definition is_windows (s : systype) : bool :=
  match s with
  | SYSTYPE_WINDOWS => true
  | _ => false
  end.

Definition COPY_METHOD_VERB_TO_GERUND_DICT : list (string * string) :=
  [("link", "linking"); ("move", "moving"); ("copy", "copying")].

Definition COPY_METHOD_SHPROGS_LINUX_TO_WINDOWS_DICT
  : list (string * string) :=
  [("ln", "mklink"); ("cp", "copy"); ("mv", "move")].

Definition COPY_METHOD_SHPROGS_ACTION_VERB_DICT : list (string * string) :=
  [("ln", "linking"); ("mklink", "linking");
   ("cp", "copying"); ("copy", "copying");
   ("mv", "moving"); ("move", "moving")].

(** The first argument of the constructor: a shell command, a callable,
    or the [None] that [__copy__] passes on for a shell strategy. *)
Inductive copy_fn_arg : Type :=
  | ArgStr (shcmd : string)
  | ArgFn (f : callable)
  | ArgNone.

Record t : Type := {
  copy_fn : option callable;
  copy_fn_name : option string;
  action_verb : string;
  reverse_args : bool;
  copy_shcmd : option string;
  copy_shprog : option string;
  copy_shcmd_is_fmtstr : bool;
  copy_overwrite : bool;
  dryrun : bool;
  verbose : bool;
  debug : bool
}.

(** [type(copy_fn).__name__] for the function types the constructor
    looks at, and [str(copy_fn)]. *)
Definition type_name (f : callable) : option string :=
  match f with
  | os_link | os_symlink => Some "builtin_function_or_method"
  | shutil_copyfile | shutil_copy | shutil_copy2 | shutil_move =>
      Some "function"
  | other_fn FunctionType _ => Some "function"
  | other_fn BuiltinFunctionType _ => Some "builtin_function_or_method"
  | other_fn OtherCallable _ => None
  end.

Definition str_fn (f : callable) : string :=
  match f with
  | os_link => "<built-in function link>"
  | os_symlink => "<built-in function symlink>"
  | shutil_copyfile => "<function copyfile>"
  | shutil_copy => "<function copy>"
  | shutil_copy2 => "<function copy2>"
  | shutil_move => "<function move>"
  | other_fn _ repr => repr
  end.

(** The verb found by the loop over [COPY_METHOD_VERB_TO_GERUND_DICT]. *)
Fixpoint find_verb (verbs : list (string * string))
    (copy_shprog_verbose copy_fn_name : option string) : option string :=
  match verbs with
  | [] => None
  | (verb, gerund) :: rest =>
      if match copy_shprog_verbose with
         | Some v => Py.contains v verb
         | None => false
         end
         || match copy_fn_name with
            | Some n => Py.contains n verb
            | None => false
            end
      then Some gerund
      else find_verb rest copy_shprog_verbose copy_fn_name
  end.

(** [CopyMethod(copy_fn, copy_fn_name=None, action_verb=None,
    reverse_args=None, copy_shcmd_is_fmtstr=False)]. *)
Definition __init__ (SYSTYPE : systype) (copy_fn_0 : copy_fn_arg)
    (copy_fn_name_0 action_verb_0 : option string)
    (reverse_args_0 : option bool) (copy_shcmd_is_fmtstr_0 : bool) : t :=
  let copy_fn_name_1 :=
    match copy_fn_name_0, copy_fn_0 with
    | Some n, _ => Some n
    | None, ArgStr _ => None
    | None, ArgFn f =>
        match type_name f with
        | Some n => Some n
        | None => Some (str_fn f)
        end
    | None, ArgNone => Some "None"
    end in
  let '(copy_fn_1, copy_shcmd_1, copy_shprog_1, reverse_args_1,
        action_verb_1) :=
    match copy_fn_0 with
    | ArgStr shcmd =>
        let copy_shcmd := Py.strip shcmd in
        let copy_shcmd_parts := Py.split_go " " 0 copy_shcmd in
        let copy_shprog := hd EmptyString copy_shcmd_parts in
        let translate :=
          is_windows SYSTYPE
          && (length copy_shcmd_parts =? 1)%nat in
        let '(copy_shprog, copy_shcmd) :=
          match translate,
                Py.dict_get COPY_METHOD_SHPROGS_LINUX_TO_WINDOWS_DICT
                            copy_shprog with
          | true, Some prog =>
              (prog, Py.join " " (prog :: tl copy_shcmd_parts))
          | _, _ => (copy_shprog, copy_shcmd)
          end in
        let reverse_args :=
          match reverse_args_0 with
          | None => if String.eqb copy_shprog "mklink" then Some true
                    else None
          | Some b => Some b
          end in
        let action_verb :=
          match action_verb_0 with
          | None =>
              Py.dict_get COPY_METHOD_SHPROGS_ACTION_VERB_DICT copy_shprog
          | Some v => Some v
          end in
        (None, Some copy_shcmd, Some copy_shprog, reverse_args, action_verb)
    | ArgFn f => (Some f, None, None, reverse_args_0, action_verb_0)
    | ArgNone => (None, None, None, reverse_args_0, action_verb_0)
    end in
  let action_verb_2 :=
    match action_verb_1 with
    | Some v => v
    | None =>
        let copy_shprog_verbose :=
          match copy_shprog_1 with
          | None => None
          | Some prog =>
              match Py.dict_get COPY_METHOD_SHPROGS_LINUX_TO_WINDOWS_DICT
                                prog with
              | Some w => Some w
              | None => Some prog
              end
          end in
        match find_verb COPY_METHOD_VERB_TO_GERUND_DICT
                        copy_shprog_verbose copy_fn_name_1 with
        | Some gerund => gerund
        | None => "transferring"
        end
    end in
  {| copy_fn := copy_fn_1;
     copy_fn_name := copy_fn_name_1;
     action_verb := Py.upper action_verb_2;
     reverse_args := match reverse_args_1 with
                     | Some b => b
                     | None => false
                     end;
     copy_shcmd := copy_shcmd_1;
     copy_shprog := copy_shprog_1;
     copy_shcmd_is_fmtstr := copy_shcmd_is_fmtstr_0;
     copy_overwrite := false;
     dryrun := false;
     verbose := true;
     debug := false |}.

(** [set_options(copy_overwrite=None, dryrun=None, verbose=None,
    debug=None)]. *)
Definition set_options (self : t)
    (copy_overwrite_0 dryrun_0 verbose_0 debug_0 : option bool) : t :=
  {| copy_fn := copy_fn self;
     copy_fn_name := copy_fn_name self;
     action_verb := action_verb self;
     reverse_args := reverse_args self;
     copy_shcmd := copy_shcmd self;
     copy_shprog := copy_shprog self;
     copy_shcmd_is_fmtstr := copy_shcmd_is_fmtstr self;
     copy_overwrite := default (copy_overwrite self) copy_overwrite_0;
     dryrun := default (dryrun self) dryrun_0;
     verbose := default (verbose self) verbose_0;
     debug := default (debug self) debug_0 |}.

(** [__copy__]: a new object built from the stored fields, the options
    carried over. *)
Definition __copy__ (SYSTYPE : systype) (self : t) : t :=
  let copy_method :=
    __init__ SYSTYPE
      (match copy_fn self with
       | Some f => ArgFn f
       | None => ArgNone
       end)
      (copy_fn_name self) (Some (action_verb self))
      (Some (reverse_args self)) (copy_shcmd_is_fmtstr self) in
  set_options copy_method (Some (copy_overwrite self)) (Some (dryrun self))
              (Some (verbose self)) (Some (debug self)).

(** The line that [exec] logs when [verbose] is set. *)
Definition exec_message (self : t) (srcfile dstfile : string)
    (dstfile_exists : bool) (overwrite_action : string) : string :=
  (if dryrun self then "(dryrun) " else EmptyString) +:+ action_verb self
  +:+ ": "
  +:+ srcfile +:+ " -> " +:+ dstfile
  +:+ (if dstfile_exists then " (" +:+ overwrite_action +:+ ")"
       else EmptyString).

Definition SKIP_LINK : string := "SKIPPING; correct link already exists".
Definition SKIP_EXISTS : string :=
  "SKIPPING; destination file already exists".

(** [exec(self, srcfile, dstfile)].  The command line is made first: for
    a format string, [str.format] may raise, before anything is logged or
    called. *)
Definition exec {world} `{OS world} (self : t) (srcfile dstfile : string)
  : M world unit :=
  run emit (ExecCall srcfile dstfile);
  do copy_shcmd_full <-
    match copy_shcmd self with
    | Some shcmd =>
        if copy_shcmd_is_fmtstr self
        then do cmd <- try_observe (fun _ => str_format shcmd srcfile dstfile);
             ret (Some cmd)
        else if reverse_args self
             then ret (Some (shcmd +:+ " " +:+ dstfile +:+ " " +:+ srcfile))
             else ret (Some (shcmd +:+ " " +:+ srcfile +:+ " " +:+ dstfile))
    | None => ret None
    end;
  do dstfile_exists <- observe (fun w => os_path_isfile w dstfile);
  do ' (proceed_with_copy, overwrite_action) <-
    (if dstfile_exists
     then if copy_overwrite self
          then ret (true, "OVERWRITING")
          else
            do dstfile_is_srcfile <-
              (if Py.mem (action_verb self) ["HARDLINKING"; "LINKING"]
               then try_observe (fun w => filecmp_cmp w srcfile dstfile)
               else ret false);
            ret (false,
                 if dstfile_is_srcfile then SKIP_LINK else SKIP_EXISTS)
     else ret (true, EmptyString));
  run (if verbose self
       then emit (Print (exec_message self srcfile dstfile dstfile_exists
                           overwrite_action))
       else ret tt);
  if negb proceed_with_copy then ret tt
  else
    run (if debug self && proceed_with_copy
         then emit (Print
                (match copy_shcmd_full with
                 | Some cmd => cmd
                 | None =>
                     default "None" (copy_fn_name self) +:+ "("
                     +:+ srcfile +:+ ", " +:+ dstfile +:+ ")"
                 end))
         else ret tt);
    if negb (dryrun self) && proceed_with_copy
    then
      run (if dstfile_exists && copy_overwrite self
           then mutate (Remove dstfile) (fun w => os_remove w dstfile)
           else ret tt);
      match copy_shcmd_full, copy_fn self with
      | Some cmd, _ => run execute_command cmd; ret tt
      | None, Some f =>
          if reverse_args self
          then mutate (CopyFn f dstfile srcfile)
                      (fun w => call_copy_fn f w dstfile srcfile)
          else mutate (CopyFn f srcfile dstfile)
                      (fun w => call_copy_fn f w srcfile dstfile)
      | None, None => raise TypeError
      end
    else ret tt.

(** The strategies the module defines, where [os.link] and [os.symlink]
    exist. *)
Definition COPY_METHOD_HARDLINK_SYSTEM (SYSTYPE : systype) : t :=
  if is_windows SYSTYPE
  then __init__ SYSTYPE (ArgStr "mklink /H") None (Some "hardlinking")
                (Some true) false
  else __init__ SYSTYPE (ArgStr "ln") None (Some "hardlinking") None false.

Definition COPY_METHOD_SYMLINK_SYSTEM (SYSTYPE : systype) : t :=
  if is_windows SYSTYPE
  then __init__ SYSTYPE (ArgStr "mklink") None (Some "symlinking")
                (Some true) false
  else __init__ SYSTYPE (ArgStr "ln -s") None (Some "symlinking") None
                false.

Definition COPY_METHOD_COPY_SYSTEM (SYSTYPE : systype) : t :=
  if is_windows SYSTYPE
  then __init__ SYSTYPE (ArgStr "copy") None (Some "copying") None false
  else __init__ SYSTYPE (ArgStr "cp") None (Some "copying") None false.

Definition COPY_METHOD_MOVE_SYSTEM (SYSTYPE : systype) : t :=
  if is_windows SYSTYPE
  then __init__ SYSTYPE (ArgStr "move") None (Some "moving") None false
  else __init__ SYSTYPE (ArgStr "mv") None (Some "moving") None false.

Definition COPY_METHOD_SHPROGS (SYSTYPE : systype) : list string :=
  omap copy_shprog
    [COPY_METHOD_HARDLINK_SYSTEM SYSTYPE; COPY_METHOD_SYMLINK_SYSTEM SYSTYPE;
     COPY_METHOD_COPY_SYSTEM SYSTYPE; COPY_METHOD_MOVE_SYSTEM SYSTYPE].

Definition COPY_METHOD_HARDLINK (SYSTYPE : systype) : t :=
  __init__ SYSTYPE (ArgFn os_link) (Some "os.link") (Some "hardlinking")
           None false.
Definition COPY_METHOD_SYMLINK (SYSTYPE : systype) : t :=
  __init__ SYSTYPE (ArgFn os_symlink) (Some "os.symlink")
           (Some "symlinking") None false.
Definition COPY_METHOD_COPY_BASIC (SYSTYPE : systype) : t :=
  __init__ SYSTYPE (ArgFn shutil_copyfile) (Some "shutil.copyfile")
           (Some "copying") None false.
Definition COPY_METHOD_COPY_PERMS (SYSTYPE : systype) : t :=
  __init__ SYSTYPE (ArgFn shutil_copy) (Some "shutil.copy")
           (Some "copying") None false.
Definition COPY_METHOD_COPY_META (SYSTYPE : systype) : t :=
  __init__ SYSTYPE (ArgFn shutil_copy2) (Some "shutil.copy2")
           (Some "copying") None false.
Definition COPY_METHOD_COPY_DEFAULT := COPY_METHOD_COPY_META.
Definition COPY_METHOD_MOVE (SYSTYPE : systype) : t :=
  __init__ SYSTYPE (ArgFn shutil_move) (Some "shutil.move")
           (Some "moving") None false.

Definition COPY_METHOD_DICT (SYSTYPE : systype) : list (string * t) :=
  [("link", COPY_METHOD_HARDLINK SYSTYPE);
   ("hardlink", COPY_METHOD_HARDLINK SYSTYPE);
   ("symlink", COPY_METHOD_SYMLINK SYSTYPE);
   ("copy", COPY_METHOD_COPY_DEFAULT SYSTYPE);
   ("copy-basic", COPY_METHOD_COPY_BASIC SYSTYPE);
   ("copy-perms", COPY_METHOD_COPY_PERMS SYSTYPE);
   ("copy-meta", COPY_METHOD_COPY_META SYSTYPE);
   ("move", COPY_METHOD_MOVE SYSTYPE)].

End CopyMethod.

(** ** The tree walker ([WalkObject]) *)

(** A depth bound: an integer or [float('inf')]. *)
Inductive num : Type :=
  | Fin (z : Z)
  | PosInf.

Definition num_ltb (a b : num) : bool :=
  match a, b with
  | Fin x, Fin y => (x <? y)%Z
  | Fin _, PosInf => true
  | PosInf, _ => false
  end.

Definition num_leb (a b : num) : bool := negb (num_ltb b a).

Module WalkObject.

Section Walker.

(** Compiled regular expressions, and the functions of [re] and [fnmatch]
    that the constructor and the walker call. *)
Context {pattern : Type}.

Record regex : Type := {
  fnmatch_translate : string -> string;
  re_compile : string -> result pattern;
  re_fullmatch : pattern -> string -> bool;
  re_search : pattern -> string -> bool;
  re_sub : pattern -> string -> string -> string
}.

Inductive list_fn : Type :=
  | os_listdir_fn
  | os_scandir_fn.

Record t : Type := {
  srcdir : option string;
  dstdir : option string;
  mindepth : num;
  maxdepth : num;
  dmatch_maxdepth : num;
  dmatch_nomaxdepth : bool;
  fname_rematch : list pattern;
  fname_reexcl : list pattern;
  dname_rematch : list pattern;
  dname_reexcl : list pattern;
  fname_resub : option (list (pattern * string));
  dname_resub : option (list (pattern * string));
  copy_method : option CopyMethod.t;
  copy_method_inst : option CopyMethod.t;
  transplant_tree : bool;
  collapse_tree : bool;
  collapse_tree_inst : bool;
  mkdir_upon_file_copy : bool;
  list_function : list_fn;
  rematch_function : pattern -> string -> bool;
  resub_function : pattern -> string -> string -> string
}.

(** The arguments of the constructor.  A pattern argument is [None] or a
    list (any other value makes the constructor fail on
    [type(item) in tuple]); an entry is a string or a compiled pattern. *)
Inductive raw_pattern : Type :=
  | RawStr (s : string)
  | RawCompiled (p : pattern).

Inductive copy_method_arg : Type :=
  | CM_obj (cm : CopyMethod.t)
  | CM_str (s : string)
  | CM_fn (f : callable).

Inductive list_fn_arg : Type :=
  | LF_listdir
  | LF_scandir
  | LF_other.

Record init_args : Type := {
  arg_mindepth : num;
  arg_maxdepth : num;
  arg_dmatch_maxdepth : option num;
  arg_fmatch : option (list raw_pattern);
  arg_fmatch_re : option (list raw_pattern);
  arg_fexcl : option (list raw_pattern);
  arg_fexcl_re : option (list raw_pattern);
  arg_dmatch : option (list raw_pattern);
  arg_dmatch_re : option (list raw_pattern);
  arg_dexcl : option (list raw_pattern);
  arg_dexcl_re : option (list raw_pattern);
  arg_fsub : option (list (raw_pattern * string));
  arg_dsub : option (list (raw_pattern * string));
  arg_copy_method : option copy_method_arg;
  arg_copy_overwrite : bool;
  arg_transplant_tree : bool;
  arg_collapse_tree : bool;
  arg_copy_dryrun : bool;
  arg_copy_silent : bool;
  arg_copy_debug : bool;
  arg_mkdir_upon_file_copy : bool;
  arg_allow_nonstd_shprogs : bool;
  arg_copy_shcmd_fmtstr : option string;
  arg_list_function : option list_fn_arg;
  arg_rematch_function : option (pattern -> string -> bool);
  arg_resub_function : option (pattern -> string -> string -> string);
  arg_rematch_partial : bool
}.

Variable SYSTYPE : CopyMethod.systype.
Variable re : regex.

Definition negative (n : num) : bool := num_ltb n (Fin 0).

(** Truth value of the [copy_method] argument and of a string. *)
Definition truthy_str (s : string) : bool := negb (Py.isempty s).

Definition truthy_copy_method (a : option copy_method_arg) : bool :=
  match a with
  | None => false
  | Some (CM_str s) => truthy_str s
  | Some _ => true
  end.

(** One entry of a pattern list, compiled; an entry of a glob list goes
    through [fnmatch.translate], which takes strings only.  The source
    tells the glob lists from the others with
    [patt_list in [fmatch, fexcl, dmatch, dexcl]], a test by value: the
    lists are told apart here as they are in a call whose regex lists
    differ from its glob lists. *)
Definition compile_entry (is_glob : bool) (raw : raw_pattern)
  : result pattern :=
  match raw, is_glob with
  | RawStr s, true => re_compile re (fnmatch_translate re s)
  | RawStr s, false => re_compile re s
  | RawCompiled _, true => Raise TypeError
  | RawCompiled p, false => Ok p
  end.

Definition compile_list (is_glob : bool) (l : option (list raw_pattern))
  : result (list pattern) :=
  match l with
  | None => Ok []
  | Some raws => rmapM (compile_entry is_glob) raws
  end.

(** [fsub]/[dsub]: a list of [(pattern, repl_str)] groups; the test
    [type(item[0])] needs a first group. *)
Definition check_sub (l : option (list (raw_pattern * string)))
  : result unit :=
  match l with
  | Some [] => Raise IndexError
  | _ => Ok tt
  end.

Definition compile_sub (l : option (list (raw_pattern * string)))
  : result (option (list (pattern * string))) :=
  match l with
  | None => Ok None
  | Some groups =>
      rbind (rmapM (fun g => rbind (compile_entry false (fst g))
                               (fun p => Ok (p, snd g))) groups)
            (fun compiled => Ok (Some compiled))
  end.

(** The [copy_method] argument turned into a [CopyMethod] with the options
    of this walker.  For a name of [COPY_METHOD_DICT] the object is the
    module's own, which every walker built with that name holds: what is
    given here is its state when the constructor returns, every option
    set anew. *)
Definition resolve_copy_method (a : init_args)
    (copy_method_0 : option copy_method_arg) (copy_method_is_fmtstr : bool)
  : result (option CopyMethod.t) :=
  match copy_method_0 with
  | None => Ok None
  | Some arg =>
      rbind
        (match arg with
         | CM_obj cm => Ok (CopyMethod.__copy__ SYSTYPE cm)
         | CM_str s =>
             match Py.dict_get (CopyMethod.COPY_METHOD_DICT SYSTYPE) s with
             | Some cm => Ok cm
             | None =>
                 let cm := CopyMethod.__init__ SYSTYPE (CopyMethod.ArgStr s)
                             None None None copy_method_is_fmtstr in
                 if negb (Py.mem (default EmptyString
                                    (CopyMethod.copy_shprog cm))
                                 (CopyMethod.COPY_METHOD_SHPROGS SYSTYPE))
                    && negb (arg_allow_nonstd_shprogs a)
                 then Raise (InvalidArgumentError
                   "`copy_method` shell program is nonstandard and not allowed")
                 else Ok cm
             end
         | CM_fn f =>
             Ok (CopyMethod.__init__ SYSTYPE (CopyMethod.ArgFn f)
                   None None None false)
         end)
        (fun cm =>
           Ok (Some (CopyMethod.set_options cm
                       (Some (arg_copy_overwrite a))
                       (Some (arg_copy_dryrun a))
                       (Some (negb (arg_copy_silent a)))
                       (Some (arg_copy_debug a)))))
  end.

(** [WalkObject(mindepth=0, maxdepth=float('inf'), ...)]. *)
Definition __init__ (a : init_args) : result t :=
  if negative (arg_mindepth a) || negative (arg_maxdepth a)
     || match arg_dmatch_maxdepth a with
        | Some d => negative d
        | None => false
        end
  then Raise (InvalidArgumentError "depth arguments must be >= 0")
  else if truthy_copy_method (arg_copy_method a)
          && match arg_copy_shcmd_fmtstr a with
             | Some s => truthy_str s
             | None => false
             end
  then Raise (InvalidArgumentError
    "`copy_method` and `copy_shcmd_fmtstr` arguments are mutually exclusive")
  else
    let '(copy_method_0, copy_method_is_fmtstr) :=
      match arg_copy_shcmd_fmtstr a with
      | Some s => (Some (CM_str s), true)
      | None => (arg_copy_method a, false)
      end in
    if arg_copy_silent a && arg_copy_dryrun a
    then Raise (InvalidArgumentError
      "`copy_silent` and `copy_dryrun` arguments are mutually exclusive")
    else
      match arg_list_function a with
      | Some LF_other =>
          Raise (InvalidArgumentError
            "`list_function` must be either os.listdir or os.scandir")
      | lf =>
          let dmatch_nomaxdepth_0 :=
            match arg_dmatch a, arg_dmatch_re a with
            | None, None => true
            | _, _ =>
                match copy_method_0 with
                | None => match arg_dmatch_maxdepth a with
                          | None => true
                          | Some _ => false
                          end
                | Some _ => false
                end
            end in
          let dmatch_maxdepth_0 := default PosInf (arg_dmatch_maxdepth a) in
          let list_function_0 :=
            match lf with
            | Some LF_listdir => os_listdir_fn
            | _ => os_scandir_fn
            end in
          let rematch_function_0 :=
            match arg_rematch_function a with
            | Some f => f
            | None => if arg_rematch_partial a then re_search re
                      else re_fullmatch re
            end in
          let resub_function_0 := default (re_sub re) (arg_resub_function a) in
          rbind (check_sub (arg_fsub a)) (fun _ =>
          rbind (check_sub (arg_dsub a)) (fun _ =>
          rbind (compile_list true (arg_fmatch a)) (fun fmatch =>
          rbind (compile_list false (arg_fmatch_re a)) (fun fmatch_re =>
          rbind (compile_list true (arg_fexcl a)) (fun fexcl =>
          rbind (compile_list false (arg_fexcl_re a)) (fun fexcl_re =>
          rbind (compile_list true (arg_dmatch a)) (fun dmatch =>
          rbind (compile_list false (arg_dmatch_re a)) (fun dmatch_re =>
          rbind (compile_list true (arg_dexcl a)) (fun dexcl =>
          rbind (compile_list false (arg_dexcl_re a)) (fun dexcl_re =>
          rbind (compile_sub (arg_fsub a)) (fun fname_resub_0 =>
          rbind (compile_sub (arg_dsub a)) (fun dname_resub_0 =>
          rbind (resolve_copy_method a copy_method_0 copy_method_is_fmtstr)
            (fun copy_method_1 =>
          Ok {| srcdir := None;
                dstdir := None;
                mindepth := arg_mindepth a;
                maxdepth := arg_maxdepth a;
                dmatch_maxdepth := dmatch_maxdepth_0;
                dmatch_nomaxdepth := dmatch_nomaxdepth_0;
                fname_rematch := fmatch ++ fmatch_re;
                fname_reexcl := fexcl ++ fexcl_re;
                dname_rematch := dmatch ++ dmatch_re;
                dname_reexcl := dexcl ++ dexcl_re;
                fname_resub := fname_resub_0;
                dname_resub := dname_resub_0;
                copy_method := copy_method_1;
                copy_method_inst := copy_method_1;
                transplant_tree := arg_transplant_tree a;
                collapse_tree := arg_collapse_tree a;
                collapse_tree_inst := arg_collapse_tree a;
                mkdir_upon_file_copy := arg_mkdir_upon_file_copy a;
                list_function := list_function_0;
                rematch_function := rematch_function_0;
                resub_function := resub_function_0 |})))))))))))))
      end.

End Walker.

Arguments t : clear implicits.
Arguments regex : clear implicits.
Arguments init_args : clear implicits.

Section Traversal.

Context {pattern world : Type} `{OS world}.
Variable SYSTYPE : CopyMethod.systype.

(** The include/exclude test, written out three times in [_walk]: for the
    name of the root, of a subdirectory and of a file. *)
Definition name_matches (self : t pattern) (rematch reexcl : list pattern)
    (name : string) : bool :=
  let name_match :=
    match rematch with
    | [] => true
    | _ => existsb (fun re_pattern =>
                      rematch_function self re_pattern name) rematch
    end in
  match reexcl, name_match with
  | _ :: _, true =>
      forallb (fun re_pattern =>
                 negb (rematch_function self re_pattern name)) reexcl
  | _, _ => name_match
  end.

(** The loops over [fname_resub] and [dname_resub]. *)
Definition apply_resub (self : t pattern)
    (resub : option (list (pattern * string))) (name : string) : string :=
  match resub with
  | None => name
  | Some groups =>
      fold_left (fun n g => resub_function self (fst g) (snd g) n)
                groups name
  end.

(** [dmatch_depth] after the test of the root's own name. *)
Definition root_dmatch_depth (self : t pattern) (srcdir : string)
    (depth dmatch_depth : Z) : Z :=
  if (depth =? 1)%Z && (dmatch_depth =? 0)%Z
  then if name_matches self (dname_rematch self) (dname_reexcl self)
                       (Py.basename srcdir)
       then 1%Z else dmatch_depth
  else dmatch_depth.

Definition srcdname_passes (self : t pattern) (dmatch_depth : Z) : bool :=
  num_leb (Fin dmatch_depth) (dmatch_maxdepth self)
  && negb (dmatch_depth =? 0)%Z.

(** [dstdir_exists], and the directory made on the way. *)
Definition prepare_dstdir (self : t pattern) (dstdir : option string)
    (passes : bool) : M world bool :=
  match dstdir, copy_method_inst self with
  | None, _ | _, None => ret false
  | Some d, Some _ =>
      do isdir <- observe (fun w => os_path_isdir w d);
      if isdir then ret true
      else if mkdir_upon_file_copy self then ret false
      else if passes
           then run mutate (Makedirs d) (fun w => os_makedirs w d); ret true
           else ret false
  end.

(** The entries of [srcdir] with their [is_dir]. *)
Definition list_entries (self : t pattern) (srcdir : string)
  : M world (list (string * bool)) :=
  match list_function self with
  | os_scandir_fn => try_observe (fun w => os_scandir w srcdir)
  | os_listdir_fn =>
      do names <- try_observe (fun w => os_listdir w srcdir);
      observe (fun w =>
        map (fun pname =>
               (pname, os_path_isdir w (Py.path_join srcdir pname))) names)
  end.

Definition tracks_dnames (self : t pattern) : bool :=
  match dname_rematch self, dname_reexcl self with
  | [], [] => false
  | _, _ => true
  end.

(** The loop over the entries: [dnames], [dnames_pass] (one flag per
    directory, all [true] when no directory pattern is set and the source
    keeps [None]) and [fnames_filtered]. *)
Fixpoint scan (self : t pattern) (passes : bool)
    (entries : list (string * bool))
  : list string * list bool * list string :=
  match entries with
  | [] => ([], [], [])
  | (pname, dirent_is_dir) :: rest =>
      let '(dnames, dnames_pass, fnames_filtered) := scan self passes rest in
      if dirent_is_dir
      then (pname :: dnames,
            (if tracks_dnames self
             then name_matches self (dname_rematch self) (dname_reexcl self)
                               pname
             else true) :: dnames_pass,
            fnames_filtered)
      else if passes
              && name_matches self (fname_rematch self) (fname_reexcl self)
                              pname
           then (dnames, dnames_pass, pname :: fnames_filtered)
           else (dnames, dnames_pass, fnames_filtered)
  end.

(** The transfers of one directory. *)
Definition transfer_files (self : t pattern) (copy_method_inst_0 : CopyMethod.t)
    (srcdir dstdir : string) (dstdir_exists : bool)
    (fnames_filtered : list string) : M world unit :=
  run (if negb (CopyMethod.dryrun copy_method_inst_0) && negb dstdir_exists
          && (negb (mkdir_upon_file_copy self)
              || negb (length fnames_filtered =? 0)%nat)
       then mutate (Makedirs dstdir) (fun w => os_makedirs w dstdir)
       else ret tt);
  for_each fnames_filtered (fun fname =>
    let srcfile := Py.path_join srcdir fname in
    let fname' := apply_resub self (fname_resub self) fname in
    let dstfile := Py.path_join dstdir fname' in
    CopyMethod.exec copy_method_inst_0 srcfile dstfile).

Definition filter_by {A} (l : list A) (keep : list bool) : list A :=
  map fst (List.filter (fun p => snd p) (combine l keep)).

(** [_walk(self, srcdir, dstdir, depth, dmatch_depth)], every item of the
    generator taken.  [fuel] is the number of nested calls the interpreter
    still allows; beyond it Python raises [RecursionError]. *)
Fixpoint _walk (fuel : nat) (self : t pattern) (srcdir : string)
    (dstdir : option string) (depth dmatch_depth : Z) : M world unit :=
  match fuel with
  | O => raise RecursionError
  | S fuel' =>
      if num_ltb (maxdepth self) (Fin depth) then ret tt
      else
        let dmatch_depth := root_dmatch_depth self srcdir depth dmatch_depth in
        let passes := srcdname_passes self dmatch_depth in
        do dstdir_exists <- prepare_dstdir self dstdir passes;
        do entries <- list_entries self srcdir;
        let '(dnames, dnames_pass, fnames_filtered) :=
          scan self passes entries in
        run (if num_leb (mindepth self) (Fin depth)
             then
               run (match passes, copy_method_inst self, dstdir with
                    | true, Some cm, Some d =>
                        transfer_files self cm srcdir d dstdir_exists
                                       fnames_filtered
                    | _, _, _ => ret tt
                    end);
               let dnames_filtered :=
                 if passes && negb (dmatch_nomaxdepth self) then dnames
                 else filter_by dnames dnames_pass in
               emit (Yield srcdir dnames_filtered fnames_filtered)
             else ret tt);
        if negb (length dnames =? 0)%nat && num_ltb (Fin depth) (maxdepth self)
        then
          let depth_next := (depth + 1)%Z in
          let dmatch_depth_next_pass :=
            if (dmatch_depth <? 0)%Z then dmatch_depth else 1%Z in
          let dmatch_depth_next_fail :=
            if (dmatch_depth <=? 0)%Z then dmatch_depth
            else (dmatch_depth + 1)%Z in
          for_each (combine dnames dnames_pass) (fun '(dn, dn_pass) =>
            let srcdir_next := Py.path_join srcdir dn in
            let dmatch_depth_next :=
              if dn_pass then dmatch_depth_next_pass
              else dmatch_depth_next_fail in
            let dstdir_next :=
              match dstdir with
              | None => None
              | Some d =>
                  if collapse_tree_inst self then Some d
                  else Some (Py.path_join d
                               (apply_resub self (dname_resub self) dn))
              end in
            _walk fuel' self srcdir_next dstdir_next depth_next
                  dmatch_depth_next)
        else ret tt
  end.

(** [walk(self, srcdir, dstdir=None, copy_overwrite=None,
    transplant_tree=None, collapse_tree=None)], every item taken; the
    object with the fields the call assigns is returned. *)
Definition walk (fuel : nat) (self : t pattern) (srcdir_0 : string)
    (dstdir_0 : option string)
    (copy_overwrite_0 transplant_tree_0 collapse_tree_0 : option bool)
  : M world (t pattern) :=
  do copy_overwrite_1 <-
    match copy_overwrite_0, copy_method self with
    | Some b, _ => ret b
    | None, Some cm => ret (CopyMethod.copy_overwrite cm)
    | None, None => raise AttributeError
    end;
  let transplant_tree_1 := default (transplant_tree self) transplant_tree_0 in
  let collapse_tree_1 := default (collapse_tree self) collapse_tree_0 in
  let srcdir_1 := normpath_expanduser srcdir_0 in
  do src_isdir <- observe (fun w => os_path_isdir w srcdir_1);
  if negb src_isdir
  then raise (InvalidArgumentError
                ("`srcdir` directory does not exist: " +:+ srcdir_1))
  else
    let dstdir_1 := option_map normpath_expanduser dstdir_0 in
    do dstdir_2 <-
      (if transplant_tree_1
       then match dstdir_1 with
            | Some d => ret (Some (Py.path_join d (Py.basename srcdir_1)))
            | None => raise TypeError
            end
       else ret dstdir_1);
    do copy_method_inst_1 <-
      match copy_method self with
      | None => raise AttributeError
      | Some cm =>
          if negb (Bool.eqb copy_overwrite_1 (CopyMethod.copy_overwrite cm))
          then ret (Some (CopyMethod.set_options
                            (CopyMethod.__copy__ SYSTYPE cm)
                            (Some copy_overwrite_1) None None None))
          else ret (Some cm)
      end;
    let self' :=
      {| srcdir := Some srcdir_1;
         dstdir := dstdir_2;
         mindepth := mindepth self;
         maxdepth := maxdepth self;
         dmatch_maxdepth := dmatch_maxdepth self;
         dmatch_nomaxdepth := dmatch_nomaxdepth self;
         fname_rematch := fname_rematch self;
         fname_reexcl := fname_reexcl self;
         dname_rematch := dname_rematch self;
         dname_reexcl := dname_reexcl self;
         fname_resub := fname_resub self;
         dname_resub := dname_resub self;
         copy_method := copy_method self;
         copy_method_inst := copy_method_inst_1;
         transplant_tree := transplant_tree self;
         collapse_tree := collapse_tree self;
         collapse_tree_inst := collapse_tree_1;
         mkdir_upon_file_copy := mkdir_upon_file_copy self;
         list_function := list_function self;
         rematch_function := rematch_function self;
         resub_function := resub_function self |} in
    run (match copy_method self', dstdir self' with
         | Some _, Some d =>
             do dst_isdir <- observe (fun w => os_path_isdir w d);
             if dst_isdir
             then mutate (Makedirs d) (fun w => os_makedirs w d)
             else ret tt
         | _, _ => ret tt
         end);
    let depth := 1%Z in
    let dmatch_depth := if dmatch_nomaxdepth self' then (-1)%Z else 0%Z in
    run _walk fuel self' srcdir_1 dstdir_2 depth dmatch_depth;
    ret self'.

End Traversal.

End WalkObject.

(** ** Job submission ([ArgumentPasser], [submit_tasks_to_scheduler]) *)

Module Sched.

#[local] Set Warnings "-register-all".

(** The values an argument can hold. *)
Inductive pyval : Type :=
  | VNone
  | VBool (b : bool)
  | VInt (n : nat)
  | VStr (s : string)
  | VList (items : list pyval).

(** Truth value, [type(v) is str], and ['{}'.format(v)]. *)
Definition truthy (v : pyval) : bool :=
  match v with
  | VNone => false
  | VBool b => b
  | VInt n => negb (n =? 0)%nat
  | VStr s => negb (Py.isempty s)
  | VList items => negb (length items =? 0)%nat
  end.

Definition is_none (v : pyval) : bool :=
  match v with
  | VNone => true
  | _ => false
  end.

Fixpoint format (v : pyval) : string :=
  match v with
  | VNone => "None"
  | VBool true => "True"
  | VBool false => "False"
  | VInt n => Py.str n
  | VStr s => s
  | VList items =>
      "[" +:+ Py.join ", "
                (map (fun x => match x with
                               | VStr s => "'" +:+ s +:+ "'"
                               | _ => format x
                               end) items) +:+ "]"
  end.

Definition SCHED_PBS : string := "pbs".
Definition SCHED_SLURM : string := "slurm".

Definition ARGSTR_SCHEDULER : string := "--scheduler".
Definition ARGSTR_JOBSCRIPT : string := "--jobscript".
Definition ARGSTR_JOB_ABBREV : string := "--job-abbrev".
Definition ARGSTR_JOB_WALLTIME : string := "--job-walltime".
Definition ARGSTR_JOB_MEMORY : string := "--job-memory".
Definition ARGSTR_TASKS_PER_JOB : string := "--tasks-per-job".
Definition ARGSTR_BUNDLEDIR : string := "--bundledir".
Definition ARGSTR_LOGDIR : string := "--logdir".
Definition ARGSTR_EMAIL : string := "--email".
Definition ARGGRP_SCHEDULER : list string :=
  [ARGSTR_SCHEDULER; ARGSTR_JOBSCRIPT; ARGSTR_JOB_ABBREV;
   ARGSTR_JOB_WALLTIME; ARGSTR_JOB_MEMORY; ARGSTR_TASKS_PER_JOB;
   ARGSTR_BUNDLEDIR; ARGSTR_LOGDIR; ARGSTR_EMAIL].

(** The kinds of [argparse] action the class tells apart; [StoreAction
    true] is a store action whose type is [argtype_bool_plus]. *)
Inductive acttype : Type :=
  | StoreAction (bool_plus : bool)
  | StoreTrueAction
  | StoreFalseAction
  | OtherAction.

Record action : Type := {
  dest : string;
  option_strings : list string;
  act : acttype
}.

Record ArgumentPasser : Type := {
  exe : string;
  script_file : string;
  parser_actions : list action;
  vars_dict : list (string * pyval);
  cmd_optarg_base : string;
  cmd : string
}.

(** [s.replace('_', '-')]. *)
Fixpoint dashes (s : string) : string :=
  match s with
  | EmptyString => EmptyString
  | String c s' =>
      String (if Ascii.eqb c "_"%char then "-"%char else c) (dashes s')
  end.

Definition argstr2varstr (self : ArgumentPasser) : list (string * string) :=
  flat_map (fun a =>
              match option_strings a with
              | [] => [(dashes (dest a), dest a)]
              | l => map (fun o => (o, dest a)) l
              end) (parser_actions self).

Definition varstr2argstr (self : ArgumentPasser) : list (string * string) :=
  map (fun a =>
         match option_strings a with
         | [] => (dest a, dashes (dest a))
         | l => (dest a, Py.str_min l)
         end) (parser_actions self).

Definition varstr2action (self : ArgumentPasser) : list (string * action) :=
  map (fun a => (dest a, a)) (parser_actions self).

Definition argstr_pos (self : ArgumentPasser) : list string :=
  flat_map (fun a =>
              match option_strings a with
              | [] => [dashes (dest a)]
              | _ => []
              end) (parser_actions self).

(** The last binding of a key wins, as in a dict built by assignments. *)
Definition lookup_last {V} (d : list (string * V)) (k : string) : option V :=
  Py.dict_get (rev d) k.

(** [d[k] = v]: in place when the key is there, at the end otherwise. *)
Fixpoint dict_set {V} (d : list (string * V)) (k : string) (v : V)
  : list (string * V) :=
  match d with
  | [] => [(k, v)]
  | (k', v') :: rest =>
      if String.eqb k k' then (k, v) :: rest else (k', v') :: dict_set rest k v
  end.

Definition KeyError : exn := OSError "KeyError".

Definition get1 (self : ArgumentPasser) (argstr : string) : result pyval :=
  match lookup_last (argstr2varstr self) argstr with
  | None =>
      Raise (InvalidArgumentError
               ("This ArgumentPasser object does not have the following "
                +:+ "argument strings: " +:+ argstr))
  | Some varstr =>
      match Py.dict_get (vars_dict self) varstr with
      | Some v => Ok v
      | None => Raise KeyError
      end
  end.

Definition _argval2str (item : pyval) : string :=
  match item with
  | VStr s =>
      if (Py.startswith s Py.DQUOTE && Py.endswith s Py.DQUOTE)
         || (Py.startswith s "'" && Py.endswith s "'")
      then s
      else Py.DQUOTE +:+ s +:+ Py.DQUOTE
  | _ => format item
  end.

(** The list that [_update_cmd_base] joins into [cmd_optarg_base]. *)
Fixpoint optarg_list (self : ArgumentPasser) (items : list (string * pyval))
  : result (list string) :=
  match items with
  | [] => Ok []
  | (varstr, val) :: rest =>
      match Py.dict_get (varstr2argstr self) varstr with
      | None => Raise KeyError
      | Some argstr =>
          rbind
            (if Py.mem argstr (argstr_pos self) || is_none val then Ok []
             else
               match val with
               | VBool b =>
                   match lookup_last (varstr2action self) varstr with
                   | None => Raise KeyError
                   | Some a =>
                       match act a with
                       | StoreAction bool_plus =>
                           Ok (if bool_plus && b then [argstr] else [])
                       | StoreTrueAction => Ok (if b then [argstr] else [])
                       | StoreFalseAction => Ok (if b then [] else [argstr])
                       | OtherAction => Ok []
                       end
                   end
               | VList l =>
                   Ok [argstr +:+ " " +:+ Py.join " " (map _argval2str l)]
               | _ => Ok [argstr +:+ " " +:+ _argval2str val]
               end)
            (fun here =>
               rbind (optarg_list self rest) (fun more => Ok (here ++ more)))
      end
  end.

(** The list that [_update_cmd] joins for the positional arguments. *)
Fixpoint posarg_list (self : ArgumentPasser) (argstrs : list string)
  : result (list string) :=
  match argstrs with
  | [] => Ok []
  | argstr :: rest =>
      match lookup_last (argstr2varstr self) argstr with
      | None => Raise KeyError
      | Some varstr =>
          match Py.dict_get (vars_dict self) varstr with
          | None => Raise KeyError
          | Some val =>
              rbind (posarg_list self rest) (fun more =>
                Ok (match val with
                    | VNone => more
                    | VList l => Py.join " " (map _argval2str l) :: more
                    | _ => _argval2str val :: more
                    end))
          end
      end
  end.

Definition with_vars (self : ArgumentPasser) (d : list (string * pyval))
  : ArgumentPasser :=
  {| exe := exe self;
     script_file := script_file self;
     parser_actions := parser_actions self;
     vars_dict := d;
     cmd_optarg_base := cmd_optarg_base self;
     cmd := cmd self |}.

Definition _update_cmd (self : ArgumentPasser) : result ArgumentPasser :=
  rbind (posarg_list self (argstr_pos self)) (fun posargs =>
    Ok {| exe := exe self;
          script_file := script_file self;
          parser_actions := parser_actions self;
          vars_dict := vars_dict self;
          cmd_optarg_base := cmd_optarg_base self;
          cmd := exe self +:+ " " +:+ script_file self +:+ " "
                 +:+ Py.join " " posargs +:+ " " +:+ cmd_optarg_base self |}).

Definition _update_cmd_base (self : ArgumentPasser)
  : result ArgumentPasser :=
  rbind (optarg_list self (vars_dict self)) (fun arg_list =>
    _update_cmd
      {| exe := exe self;
         script_file := script_file self;
         parser_actions := parser_actions self;
         vars_dict := vars_dict self;
         cmd_optarg_base := Py.join " " arg_list;
         cmd := cmd self |}).

Definition refresh (self : ArgumentPasser) (argstr_list : list string)
  : result ArgumentPasser :=
  if forallb (fun a => Py.mem a (argstr_pos self)) argstr_list
  then _update_cmd self
  else _update_cmd_base self.

(** The first argument of [set]: one argument string or a list of them. *)
Inductive argstrs_arg : Type :=
  | One (argstr : string)
  | Many (argstrs : list string).

Definition no_argstr (argstr : string) : exn :=
  InvalidArgumentError
    ("This ArgumentPasser object has no '" +:+ argstr
     +:+ "' argument string").

Fixpoint set_pairwise (self : ArgumentPasser)
    (pairs : list (string * pyval)) : result ArgumentPasser :=
  match pairs with
  | [] => Ok self
  | (argstr_i, newval_i) :: rest =>
      match lookup_last (argstr2varstr self) argstr_i with
      | None => Raise (no_argstr argstr_i)
      | Some varstr =>
          set_pairwise (with_vars self (dict_set (vars_dict self) varstr
                                          newval_i)) rest
      end
  end.

(** The loop of [set] over [argstr_list]; a [newval] found for one
    argument string is kept for the next ones. *)
Fixpoint set_each (self : ArgumentPasser) (argstr_list : list string)
    (newval : pyval) : result ArgumentPasser :=
  match argstr_list with
  | [] => Ok self
  | argstr :: rest =>
      match lookup_last (argstr2varstr self) argstr with
      | None => Raise (no_argstr argstr)
      | Some varstr =>
          rbind
            (match newval with
             | VNone =>
                 match lookup_last (varstr2action self) varstr with
                 | None => Raise KeyError
                 | Some a =>
                     match act a with
                     | StoreAction true => Ok (VBool true)
                     | StoreTrueAction => Ok (VBool true)
                     | StoreFalseAction => Ok (VBool false)
                     | _ =>
                         Raise (InvalidArgumentError
                           ("Setting non-boolean argument string '"
                            +:+ argstr
                            +:+ "' requires a non-None `newval` value"))
                     end
                 end
             | v => Ok v
             end)
            (fun newval' =>
               set_each (with_vars self (dict_set (vars_dict self) varstr
                                            newval')) rest newval')
      end
  end.

(** [set(self, argstrs, newval=None)]. *)
Definition set (self : ArgumentPasser) (argstrs : argstrs_arg)
    (newval : pyval) : result ArgumentPasser :=
  match argstrs, newval with
  | Many l, VList vals =>
      if (length l =? length vals)%nat
      then rbind (set_pairwise self (combine l vals))
                 (fun self' => refresh self' l)
      else rbind (set_each self l newval) (fun self' => refresh self' l)
  | Many l, _ => rbind (set_each self l newval) (fun self' => refresh self' l)
  | One argstr, _ =>
      rbind (set_each self [argstr] newval)
            (fun self' => refresh self' [argstr])
  end.

Fixpoint unset_each (self : ArgumentPasser) (argstrs : list string)
  : result ArgumentPasser :=
  match argstrs with
  | [] => Ok self
  | argstr :: rest =>
      match lookup_last (argstr2varstr self) argstr with
      | None => Raise KeyError
      | Some varstr =>
          match lookup_last (varstr2action self) varstr with
          | None => Raise KeyError
          | Some a =>
              let newval :=
                match act a with
                | StoreAction true => VBool false
                | StoreTrueAction => VBool false
                | StoreFalseAction => VBool true
                | _ => VNone
                end in
              unset_each (with_vars self (dict_set (vars_dict self) varstr
                                            newval)) rest
          end
      end
  end.

(** [unset(self, *argstrs)] for a non-empty list of argument strings. *)
Definition unset (self : ArgumentPasser) (argstrs : list string)
  : result ArgumentPasser :=
  match argstrs with
  | [] => Raise (InvalidArgumentError
                   "One or more argument strings must be provided")
  | _ => rbind (unset_each self argstrs) (fun self' => refresh self' argstrs)
  end.

Definition get_cmd (self : ArgumentPasser) : string := cmd self.

(** [' '.join(parts)] where a part may be [None]. *)
Definition join_parts (parts : list (option string)) : result string :=
  if forallb (fun p => match p with Some _ => true | None => false end) parts
  then Ok (Py.join " " (omap id parts))
  else Raise TypeError.

Definition time_hms (time_hr time_min time_sec : option nat)
  : option string :=
  let total_sec :=
    (default 0 time_hr * 3600 + default 0 time_min * 60
     + default 0 time_sec)%nat in
  if (total_sec =? 0)%nat then None
  else
    let m := (total_sec / 60)%nat in
    let s := (total_sec mod 60)%nat in
    let h := (m / 60)%nat in
    let m := (m mod 60)%nat in
    Some (Py.str h +:+ ":" +:+ Py.fmt_0d 2 m +:+ ":" +:+ Py.fmt_0d 2 s).

(** [','.join(['p{}="{}"'.format(i, a) for i, a in enumerate(envvars)])]. *)
Definition envvars_str (envvars : list pyval) : string :=
  Py.join ","
    (map (fun '(i, a) =>
            "p" +:+ Py.str i +:+ "=" +:+ Py.DQUOTE +:+ format a +:+ Py.DQUOTE)
         (Py.enumerate 0 envvars)).

(** The list joined into the [qsub] or [sbatch] command.  In both lists the
    source writes the environment element and the mail element as two
    adjacent expressions with no comma between them, so they form one
    conditional expression: the mail flag is the [else] branch of the
    environment test. *)
Definition jobsubmit_parts (scheduler : option string)
    (jobname : option string) (time_hr time_min time_sec : option nat)
    (memory_gb : option nat) (node : option string) (email : pyval)
    (envvars : option (list pyval)) : option (list (option string)) :=
  let hms := time_hms time_hr time_min time_sec in
  let cmd_envvars := option_map envvars_str envvars in
  match scheduler with
  | Some sched =>
      if String.eqb sched SCHED_PBS
      then Some
        [Some "qsub";
         Some (match jobname with
               | Some n => "-N " +:+ n
               | None => EmptyString
               end);
         Some (match hms, memory_gb with
               | Some t, Some g =>
                   "-l " +:+ Py.strip_chars [","%char]
                     (Py.join ","
                        [match node with
                         | Some n => "nodes=" +:+ n
                         | None => EmptyString
                         end;
                         "walltime=" +:+ t;
                         "mem=" +:+ Py.str g +:+ "gb"])
               | _, _ => EmptyString
               end);
         Some (match cmd_envvars with
               | Some ev => "-v " +:+ ev
               | None => if truthy email then "-m ae" else EmptyString
               end)]
      else if String.eqb sched SCHED_SLURM
      then Some
        [Some "sbatch";
         Some (match jobname with
               | Some n => "--job-name " +:+ n
               | None => EmptyString
               end);
         Some (match hms with
               | Some t => "--time " +:+ t
               | None => EmptyString
               end);
         Some (match memory_gb with
               | Some g => "--mem " +:+ Py.str g +:+ "G"
               | None => EmptyString
               end);
         Some (match cmd_envvars with
               | Some ev => "-v " +:+ ev
               | None =>
                   if truthy email then "--mail-type FAIL,END"
                   else EmptyString
               end);
         match email with
         | VStr addr => Some ("--mail-user " +:+ addr)
         | _ => None
         end]
      else None
  | None => None
  end.

Section Submit.

(** The options collected from the [#CONDOPT_] lines of the job script:
    the loop reads the script and evaluates Python expressions found in
    it.  Arguments: the job script, the key, the variables. *)
Variable jobscript_condopts :
  string -> string -> list (string * pyval) -> result (list string).

(** [s.replace('#', '#CONDOPT_')] on the two keys. *)
Definition condoptkey (jobscript_optkey : string) : string :=
  match jobscript_optkey with
  | String "#" rest => "#CONDOPT_" +:+ rest
  | other => other
  end.

(** [get_jobsubmit_cmd(self, scheduler, jobscript=None, jobname=None,
    time_hr=None, time_min=None, time_sec=None, memory_gb=None, node=None,
    email=None, envvars=None)]. *)
Definition get_jobsubmit_cmd (self : ArgumentPasser)
    (scheduler : option string) (jobscript : option string)
    (jobname : option string) (time_hr time_min time_sec : option nat)
    (memory_gb : option nat) (node : option string) (email : pyval)
    (envvars : option (list pyval)) : result string :=
  let quoted cmd :=
    cmd +:+ " " +:+ Py.DQUOTE +:+ default "None" jobscript +:+ Py.DQUOTE in
  match jobsubmit_parts scheduler jobname time_hr time_min time_sec
                        memory_gb node email envvars with
  | None => Ok (quoted "None")
  | Some parts =>
      rbind (join_parts parts) (fun cmd =>
        let jobscript_optkey :=
          if String.eqb (default EmptyString scheduler) SCHED_PBS
          then "#PBS" else "#SBATCH" in
        match jobscript with
        | None => Raise TypeError
        | Some js =>
            rbind (jobscript_condopts js (condoptkey jobscript_optkey)
                     (vars_dict self))
              (fun condopts =>
                 Ok (quoted (match condopts with
                             | [] => cmd
                             | _ => cmd +:+ " " +:+ Py.join " " condopts
                             end)))
        end)
  end.

Definition as_opt_str (v : pyval) : option string :=
  match v with
  | VStr s => Some s
  | _ => None
  end.

Definition as_opt_nat (v : pyval) : option nat :=
  match v with
  | VInt n => Some n
  | _ => None
  end.

(** The body of the loop of [submit_tasks_to_scheduler] for the jobs that
    are left: the command of each job, in order. *)
Fixpoint submit_loop (parent_args child_args : ArgumentPasser)
    (child_task_argstrs : argstrs_arg) (jobname_fmt : nat -> string)
    (last_job_email : pyval) (python_version_accepted_min : string)
    (num_jobs job_num : nat) (child_tasks : list pyval)
  : result (list string) :=
  match child_tasks with
  | [] => Ok []
  | task_items :: rest =>
      let job_num := S job_num in
      rbind (set child_args child_task_argstrs task_items)
        (fun child_args =>
      rbind (if (job_num =? num_jobs)%nat && truthy last_job_email
             then set child_args (One ARGSTR_EMAIL) last_job_email
             else Ok child_args)
        (fun child_args =>
      let cmd_single := get_cmd child_args in
      let job_name := jobname_fmt job_num in
      rbind (get1 parent_args ARGSTR_SCHEDULER) (fun scheduler =>
      rbind (get1 parent_args ARGSTR_JOBSCRIPT) (fun jobscript =>
      rbind (get1 parent_args ARGSTR_JOB_ABBREV) (fun job_abbrev =>
      rbind (get1 parent_args ARGSTR_JOB_WALLTIME) (fun job_walltime_hr =>
      rbind (get1 parent_args ARGSTR_JOB_MEMORY) (fun job_memory_gb =>
      rbind (get1 parent_args ARGSTR_EMAIL) (fun email =>
      rbind (get_jobsubmit_cmd child_args (as_opt_str scheduler)
               (as_opt_str jobscript) (Some job_name)
               (as_opt_nat job_walltime_hr) None None
               (as_opt_nat job_memory_gb) None email
               (Some [jobscript; job_abbrev; VStr cmd_single;
                      VStr python_version_accepted_min]))
        (fun cmd =>
      rbind (submit_loop parent_args child_args child_task_argstrs
               jobname_fmt last_job_email python_version_accepted_min
               num_jobs job_num rest)
        (fun cmds => Ok (cmd :: cmds)))))))))))
  end.

(** [submit_tasks_to_scheduler(parent_args, parent_tasks,
    parent_task_argstrs, child_bundle_argstr, child_args=None,
    task_items_descr=None, task_delim=',', ...)]: the bundle directory
    after the call and the command of every job, in the order in which
    they are printed and, unless [dryrun] is set, handed to
    [subprocess.call]. *)
Definition submit_tasks_to_scheduler (e : Bundles.env)
    (parent_args : ArgumentPasser) (parent_tasks : list Bundles.task)
    (parent_task_argstrs : list string) (child_bundle_argstr : string)
    (child_args : option ArgumentPasser) (task_items_descr : option string)
    (task_delim : string) (python_version_accepted_min : string)
    (fs : Bundles.files) : result (Bundles.files * list string) :=
  rbind (unset (default parent_args child_args) ARGGRP_SCHEDULER)
    (fun child_args =>
  rbind (get1 parent_args ARGSTR_TASKS_PER_JOB) (fun tasks_per_job =>
  rbind (get1 parent_args ARGSTR_BUNDLEDIR) (fun bundledir =>
  rbind (get1 parent_args ARGSTR_JOB_ABBREV) (fun job_abbrev =>
  rbind
    (match tasks_per_job with
     | VNone =>
         Ok (fs, map (fun t => VList (map VStr t)) parent_tasks,
             Many parent_task_argstrs)
     | _ =>
         rbind (Bundles.write_task_bundles e parent_tasks
                  (default 0 (as_opt_nat tasks_per_job)) (format bundledir)
                  (format job_abbrev +:+ "_"
                   +:+ default (Py.lstrip_chars ["-"%char]
                                  child_bundle_argstr) task_items_descr)
                  task_delim "%s" fs)
           (fun '(fs', bundle_file_list) =>
              Ok (fs', map VStr bundle_file_list, One child_bundle_argstr))
     end)
    (fun '(fs', child_tasks, child_task_argstrs) =>
  let jobname_fmt n :=
    format job_abbrev +:+ Bundles.get_index_fmtstr (length child_tasks) 3 n in
  rbind (get1 parent_args ARGSTR_EMAIL) (fun last_job_email =>
  rbind (submit_loop parent_args child_args child_task_argstrs jobname_fmt
           last_job_email python_version_accepted_min (length child_tasks)
           0 child_tasks)
    (fun cmds => Ok (fs', cmds)))))))).

End Submit.

End Sched.

(** ** The plain walker ([walk_simple]) *)

Module WalkSimple.

Section Walk.

Context {world : Type} `{OS world}.

(** The entries of [rootdir] with their [is_dir], as the loop over
    [list_function(rootdir)] sees them. *)
Definition list_dirents (list_function : WalkObject.list_fn)
    (rootdir : string) : M world (list (string * bool)) :=
  match list_function with
  | WalkObject.os_scandir_fn => try_observe (fun w => os_scandir w rootdir)
  | WalkObject.os_listdir_fn =>
      do names <- try_observe (fun w => os_listdir w rootdir);
      observe (fun w =>
        map (fun pname =>
               (pname, os_path_isdir w (Py.path_join rootdir pname))) names)
  end.

(** [(dnames if dirent_is_dir else fnames).append(pname)] over the
    entries. *)
Fixpoint split_entries (entries : list (string * bool))
  : list string * list string :=
  match entries with
  | [] => ([], [])
  | (pname, dirent_is_dir) :: rest =>
      let '(dnames, fnames) := split_entries rest in
      if dirent_is_dir then (pname :: dnames, fnames)
      else (dnames, pname :: fnames)
  end.

(** [_walk_simple(rootdir, depth, mindepth, maxdepth, list_function)],
    every item of the generator taken; [fuel] bounds the nesting of the
    calls as in [WalkObject._walk]. *)
Fixpoint _walk_simple (fuel : nat) (rootdir : string) (depth : Z)
    (mindepth maxdepth : num) (list_function : WalkObject.list_fn)
  : M world unit :=
  match fuel with
  | O => raise RecursionError
  | S fuel' =>
      if num_ltb maxdepth (Fin depth) then ret tt
      else
        do entries <- list_dirents list_function rootdir;
        let '(dnames, fnames) := split_entries entries in
        run (if num_leb mindepth (Fin depth) && num_leb (Fin depth) maxdepth
             then emit (Yield rootdir dnames fnames)
             else ret tt);
        if num_ltb (Fin depth) maxdepth
        then for_each dnames (fun dname =>
               _walk_simple fuel' (Py.path_join rootdir dname) (depth + 1)%Z
                            mindepth maxdepth list_function)
        else ret tt
  end.

(** [walk_simple(srcdir, mindepth, maxdepth,
    list_function=WALK_LIST_FUNCTION_DEFAULT)]. *)
Definition walk_simple (fuel : nat) (srcdir : string)
    (mindepth maxdepth : num) (list_function : WalkObject.list_fn)
  : M world unit :=
  do src_isdir <- observe (fun w => os_path_isdir w srcdir);
  if negb src_isdir
  then raise (InvalidArgumentError
                ("`srcdir` directory does not exist: " +:+ srcdir))
  else if num_ltb mindepth (Fin 0) || num_ltb maxdepth (Fin 0)
  then raise (InvalidArgumentError "depth arguments must be >= 0")
  else _walk_simple fuel srcdir 1 mindepth maxdepth list_function.

End Walk.

End WalkSimple.

(** ** Version strings ([VersionString]) *)

Module VersionString.

(** [int(s)] for a string of code points below 256: white space around,
    an optional sign, decimal digits with single underscores between
    them.  In a string of ASCII characters the white space is that of C
    (blank, tab, line feed, vertical tab, form feed, carriage return); a
    string with another character has its Unicode white space turned into
    blanks first. *)
Definition c_isspace (c : ascii) : bool :=
  let n := nat_of_ascii c in
  (((9 <=? n) && (n <=? 13)) || (n =? 32))%nat.

Fixpoint isascii (s : string) : bool :=
  match s with
  | EmptyString => true
  | String c s' => (nat_of_ascii c <? 128)%nat && isascii s'
  end.

Fixpoint lstrip_c (s : string) : string :=
  match s with
  | EmptyString => EmptyString
  | String c s' => if c_isspace c then lstrip_c s' else s
  end.

Fixpoint rstrip_c (s : string) : string :=
  match s with
  | EmptyString => EmptyString
  | String c s' =>
      match rstrip_c s' with
      | EmptyString => if c_isspace c then EmptyString
                       else String c EmptyString
      | r => String c r
      end
  end.

Definition digit_val (c : ascii) : option Z :=
  let n := nat_of_ascii c in
  if ((48 <=? n) && (n <=? 57))%nat then Some (Z.of_nat (n - 48)) else None.

Fixpoint int_digits (acc : Z) (after_digit : bool) (s : string)
  : option Z :=
  match s with
  | EmptyString => if after_digit then Some acc else None
  | String c s' =>
      if Ascii.eqb c "_"%char
      then if after_digit then int_digits acc false s' else None
      else match digit_val c with
           | Some d => int_digits (10 * acc + d)%Z true s'
           | None => None
           end
  end.

Definition int (s : string) : result Z :=
  let t := if isascii s then lstrip_c (rstrip_c s) else Py.strip s in
  let '(sign, body) :=
    match t with
    | String "-" r => ((-1)%Z, r)
    | String "+" r => (1%Z, r)
    | _ => (1%Z, t)
    end in
  match int_digits 0 false body with
  | Some v => Ok (sign * v)%Z
  | None =>
      Raise (ValueError ("invalid literal for int() with base 10: '"
                         +:+ s +:+ "'"))
  end.

Record t : Type := {
  ver_str : string;
  ver_num_list : list Z
}.

(** [VersionString(ver_str_or_num)], given [str(ver_str_or_num)]. *)
Definition __init__ (ver_str_0 : string) : result t :=
  rbind (rmapM int (Py.split_go "." 0 ver_str_0))
        (fun nums => Ok {| ver_str := ver_str_0; ver_num_list := nums |}).

Definition get_comparable_lists (self other : t) : list Z * list Z :=
  let this_list := ver_num_list self in
  let other_list := ver_num_list other in
  if (length this_list <? length other_list)%nat
  then (this_list ++ repeat 0%Z (length other_list - length this_list),
        other_list)
  else if (length other_list <? length this_list)%nat
  then (this_list,
        other_list ++ repeat 0%Z (length this_list - length other_list))
  else (this_list, other_list).

Definition __str__ (self : t) : string := ver_str self.

(** The loops of [__compare_absolute] and [__compare_relative] over
    [range(len(this_ver_num_list))], on lists of one length. *)
Fixpoint compare_absolute_loop (this_list other_list : list Z)
    (inequality : bool) : bool :=
  match this_list, other_list with
  | x :: this', y :: other' =>
      if negb (x =? y)%Z then inequality
      else compare_absolute_loop this' other' inequality
  | _, _ => negb inequality
  end.

Fixpoint compare_relative_loop (this_list other_list : list Z)
    (op : Z -> Z -> bool) (allow_equal : bool) : bool :=
  match this_list, other_list with
  | x :: this', y :: other' =>
      if negb (x =? y)%Z then op x y
      else compare_relative_loop this' other' op allow_equal
  | _, _ => allow_equal
  end.

Definition __compare_absolute (self other : t) (inequality : bool) : bool :=
  let '(this_ver_num_list, other_ver_num_list) :=
    get_comparable_lists self other in
  compare_absolute_loop this_ver_num_list other_ver_num_list inequality.

Definition __compare_relative (self other : t) (op : Z -> Z -> bool)
    (allow_equal : bool) : bool :=
  let '(this_ver_num_list, other_ver_num_list) :=
    get_comparable_lists self other in
  compare_relative_loop this_ver_num_list other_ver_num_list op allow_equal.

Definition __eq__ (self other : t) : bool :=
  __compare_absolute self other false.
Definition __ne__ (self other : t) : bool :=
  __compare_absolute self other true.
Definition __gt__ (self other : t) : bool :=
  __compare_relative self other Z.gtb false.
Definition __ge__ (self other : t) : bool :=
  __compare_relative self other Z.gtb true.
Definition __lt__ (self other : t) : bool :=
  __compare_relative self other Z.ltb false.
Definition __le__ (self other : t) : bool :=
  __compare_relative self other Z.leb true.

End VersionString.

(** ** String collections ([startswith_one_of_coll] and the like) *)

Module Coll.

(** [s.lower()] on the code points below 256, where it stays below 256. *)
Definition lower_char (c : ascii) : ascii :=
  let n := nat_of_ascii c in
  if (((65 <=? n) && (n <=? 90))
      || ((192 <=? n) && (n <=? 222) && negb (n =? 215)))%nat
  then ascii_of_nat (n + 32) else c.

Fixpoint lower (s : string) : string :=
  match s with
  | EmptyString => EmptyString
  | String c s' => String (lower_char c) (lower s')
  end.

(** What the four functions return: [True]/[False], or with
    [return_match=True] the matching item or [None]. *)
Inductive answer : Type :=
  | Truth (b : bool)
  | Match (item : option string).

(** The truth value of an answer in an [if]. *)
Definition holds (a : answer) : bool :=
  match a with
  | Truth b => b
  | Match (Some s) => negb (Py.isempty s)
  | Match None => false
  end.

(** The loop the four functions share: the first item that passes. *)
Fixpoint first_hit (test : string -> bool) (coll : list string)
    (return_match : bool) : answer :=
  match coll with
  | [] => if return_match then Match None else Truth false
  | s :: rest =>
      if test s then (if return_match then Match (Some s) else Truth true)
      else first_hit test rest return_match
  end.

Definition startswith_one_of_coll (check_string : string)
    (string_starting_coll : list string) (case_sensitive return_match : bool)
  : answer :=
  first_hit (fun s_start =>
               Py.startswith check_string s_start
               || (negb case_sensitive
                   && Py.startswith (lower check_string) (lower s_start)))
            string_starting_coll return_match.

Definition starts_one_of_coll (string_starting : string)
    (string_coll : list string) (case_sensitive return_match : bool)
  : answer :=
  first_hit (fun s =>
               Py.startswith s string_starting
               || (negb case_sensitive
                   && Py.startswith (lower s) (lower string_starting)))
            string_coll return_match.

Definition endswith_one_of_coll (check_string : string)
    (string_ending_coll : list string) (case_sensitive return_match : bool)
  : answer :=
  first_hit (fun s_end =>
               Py.endswith check_string s_end
               || (negb case_sensitive
                   && Py.endswith (lower check_string) (lower s_end)))
            string_ending_coll return_match.

Definition ends_one_of_coll (string_ending : string)
    (string_coll : list string) (case_sensitive return_match : bool)
  : answer :=
  first_hit (fun s =>
               Py.endswith s string_ending
               || (negb case_sensitive
                   && Py.endswith (lower s) (lower string_ending)))
            string_coll return_match.

End Coll.

(** ** The transfer script ([file_transfer.py]) *)

Module FileTransfer.

Definition BACKSLASH : ascii := ascii_of_nat 92.

Definition PATH_SEPARATORS_LIST : list string :=
  ["/"; String BACKSLASH EmptyString].
Definition PATH_SEPARATORS_CAT : list ascii := ["/"%char; BACKSLASH].

Definition ARGMOD_SYNC_MODE_NULL : nat := 0.
Definition ARGMOD_SYNC_MODE_SYNC_TREE : nat := 1.
Definition ARGMOD_SYNC_MODE_TRANSPLANT_TREE : nat := 2.

Definition PATH_TYPE_UNKNOWN : nat := 0.
Definition PATH_TYPE_FILE : nat := 1.
Definition PATH_TYPE_DIR : nat := 2.
Definition PATH_TYPE_DNE : nat := 3.

(** What [adjust_dst_path] gives: the adjusted path, or the
    [ScriptArgumentError] it raises. *)
Inductive adjusted : Type :=
  | Adjusted (dst_path : string)
  | ScriptArgumentError (msg : string).

(** [mode == value] for the global [SYNC_MODE_GLOBAL], which is [None]
    until [main] sets it. *)
Definition mode_is (mode : option nat) (value : nat) : bool :=
  match mode with
  | Some m => (m =? value)%nat
  | None => false
  end.

Section Script.

Context {world : Type} `{OS world}.

Definition ends_with_separator (path : string) : bool :=
  Coll.holds (Coll.endswith_one_of_coll path PATH_SEPARATORS_LIST true false).

(** [adjust_dst_path(src_path, dst_path, dst_can_be_file=False,
    dst_path_type=PATH_TYPE_UNKNOWN, sync_mode_default=ARGMOD_SYNC_MODE_NULL)]
    in the state [w], with the value of the global [SYNC_MODE_GLOBAL]. *)
Definition adjust_dst_path (SYNC_MODE_GLOBAL : option nat) (w : world)
    (src_path dst_path : string) (dst_can_be_file : bool)
    (dst_path_type sync_mode_default : nat) : adjusted :=
  let transplant (dst_path : string) :=
    Py.path_join dst_path
      (Py.basename (Py.rstrip_chars PATH_SEPARATORS_CAT src_path)) in
  let close (dst_path : string) :=
    if negb (ends_with_separator dst_path) then dst_path +:+ "/"
    else dst_path in
  if (dst_path_type =? PATH_TYPE_DIR)%nat
     || ((dst_path_type =? PATH_TYPE_UNKNOWN)%nat
         && os_path_isdir w dst_path)
  then
    if os_path_isfile w src_path
    then Adjusted (Py.path_join dst_path (Py.basename src_path))
    else
      let sync_mode := SYNC_MODE_GLOBAL in
      let sync_mode :=
        if mode_is sync_mode ARGMOD_SYNC_MODE_NULL
        then if ends_with_separator src_path
             then Some ARGMOD_SYNC_MODE_SYNC_TREE
             else Some ARGMOD_SYNC_MODE_TRANSPLANT_TREE
        else sync_mode in
      let dst_path :=
        if mode_is sync_mode ARGMOD_SYNC_MODE_TRANSPLANT_TREE
        then transplant dst_path else dst_path in
      Adjusted (close dst_path)
  else if (dst_path_type =? PATH_TYPE_FILE)%nat
          || ((dst_path_type =? PATH_TYPE_UNKNOWN)%nat
              && os_path_isfile w dst_path)
  then
    if os_path_isdir w src_path
    then ScriptArgumentError
           ("source directory (" +:+ src_path
            +:+ ") cannot overwrite existing destination file ("
            +:+ dst_path +:+ ")")
    else Adjusted dst_path
  else
    if os_path_isfile w src_path
    then
      if dst_can_be_file && negb (ends_with_separator dst_path)
      then Adjusted dst_path
      else Adjusted (Py.path_join dst_path (Py.basename src_path))
    else
      let sync_mode :=
        if negb (mode_is SYNC_MODE_GLOBAL ARGMOD_SYNC_MODE_NULL)
        then SYNC_MODE_GLOBAL else Some sync_mode_default in
      let sync_mode :=
        if mode_is sync_mode ARGMOD_SYNC_MODE_NULL
        then Some ARGMOD_SYNC_MODE_SYNC_TREE else sync_mode in
      let dst_path :=
        if mode_is sync_mode ARGMOD_SYNC_MODE_TRANSPLANT_TREE
        then transplant dst_path else dst_path in
      Adjusted (close dst_path).

(** The values that [perform_tasks] reads from [args]. *)
Record task_args : Type := {
  arg_copy_method : string;
  arg_overwrite : bool;
  arg_dryrun : bool;
  arg_silent : bool;
  arg_debug : bool;
  arg_mindepth : num;
  arg_maxdepth : num;
  arg_collapse_tree : bool
}.

Definition COPY_METHOD_FUNCTION_DICT (SYSTYPE : CopyMethod.systype)
  : list (string * CopyMethod.t) :=
  [("copy", CopyMethod.COPY_METHOD_COPY_DEFAULT SYSTYPE);
   ("move", CopyMethod.COPY_METHOD_MOVE SYSTYPE);
   ("link", CopyMethod.COPY_METHOD_HARDLINK SYSTYPE);
   ("symlink", CopyMethod.COPY_METHOD_SYMLINK SYSTYPE)].

(** The arguments [perform_tasks] constructs its [WalkObject] with. *)
Definition walker_args {pattern : Type} (args : task_args)
    (copy_method_obj : CopyMethod.t) : WalkObject.init_args pattern :=
  {| WalkObject.arg_mindepth := arg_mindepth args;
     WalkObject.arg_maxdepth := arg_maxdepth args;
     WalkObject.arg_dmatch_maxdepth := None;
     WalkObject.arg_fmatch := None;
     WalkObject.arg_fmatch_re := None;
     WalkObject.arg_fexcl := None;
     WalkObject.arg_fexcl_re := None;
     WalkObject.arg_dmatch := None;
     WalkObject.arg_dmatch_re := None;
     WalkObject.arg_dexcl := None;
     WalkObject.arg_dexcl_re := None;
     WalkObject.arg_fsub := None;
     WalkObject.arg_dsub := None;
     WalkObject.arg_copy_method := Some (WalkObject.CM_obj copy_method_obj);
     WalkObject.arg_copy_overwrite := arg_overwrite args;
     WalkObject.arg_transplant_tree := false;
     WalkObject.arg_collapse_tree := arg_collapse_tree args;
     WalkObject.arg_copy_dryrun := arg_dryrun args;
     WalkObject.arg_copy_silent := arg_silent args;
     WalkObject.arg_copy_debug := arg_debug args;
     WalkObject.arg_mkdir_upon_file_copy := false;
     WalkObject.arg_allow_nonstd_shprogs := false;
     WalkObject.arg_copy_shcmd_fmtstr := None;
     WalkObject.arg_list_function := None;
     WalkObject.arg_rematch_function := None;
     WalkObject.arg_resub_function := None;
     WalkObject.arg_rematch_partial := false |}.

(** [perform_tasks(args, task_list)].  For a task whose source is not a
    file the source calls [walk_object.walk(task_srcdir, task_dstdir)] and
    drops the generator it returns without taking an item from it, so
    nothing of [walk] runs. *)
Definition perform_tasks {pattern : Type} (SYSTYPE : CopyMethod.systype)
    (re : WalkObject.regex pattern) (args : task_args)
    (task_list : list (string * string)) : M world unit :=
  match Py.dict_get (COPY_METHOD_FUNCTION_DICT SYSTYPE)
                    (arg_copy_method args) with
  | None => raise Sched.KeyError
  | Some copy_method =>
      let copy_method_obj :=
        CopyMethod.set_options (CopyMethod.__copy__ SYSTYPE copy_method)
          (Some (arg_overwrite args)) (Some (arg_dryrun args))
          (Some (negb (arg_silent args))) (Some (arg_debug args)) in
      match WalkObject.__init__ SYSTYPE re
              (walker_args args copy_method_obj) with
      | Raise ex => raise ex
      | Ok walk_object =>
          for_each task_list (fun '(task_srcpath, task_dstpath) =>
            do src_isfile <- observe (fun w => os_path_isfile w task_srcpath);
            if src_isfile
            then CopyMethod.exec copy_method_obj task_srcpath task_dstpath
            else ret tt)
      end
  end.

End Script.

End FileTransfer.

(** ** The functions [walk] and [find] of the module *)

Module Find.

Definition FIND_RETURN_FILES : Z := 1.
Definition FIND_RETURN_DIRS : Z := 2.
Definition FIND_RETURN_MIX : Z := 3.
Definition FIND_RETURN_ITEMS_DICT : list (string * Z) :=
  [("files", FIND_RETURN_FILES); ("dirs", FIND_RETURN_DIRS);
   ("mix", FIND_RETURN_MIX)].

(** The [vreturn] argument: an [int], a string, or a list or tuple of
    them. *)
Inductive item : Type :=
  | ItemInt (z : Z)
  | ItemStr (s : string).

Inductive items_arg : Type :=
  | Single (i : item)
  | Several (l : list item).

(** What [find] returns when [vreturn] asks for one kind of item, and
    when it asks for several. *)
Inductive found : Type :=
  | Paths (l : list string)
  | PathLists (l : list (list string)).

(** [str(z)]. *)
Definition str_int (z : Z) : string :=
  if (z <? 0)%Z then "-" +:+ Py.str (Z.to_nat (- z)) else Py.str (Z.to_nat z).

(** The loop of [find] over [return_items] for one item. *)
Definition convert_item (i : item) : result Z :=
  match i with
  | ItemStr s =>
      match Py.dict_get FIND_RETURN_ITEMS_DICT s with
      | Some z => Ok z
      | None =>
          Raise (InvalidArgumentError
            ("`vreturn`/`vyield` string arguments must be one of "
             +:+ "['files', 'dirs', 'mix'], but was " +:+ s))
      end
  | ItemInt z =>
      if existsb (Z.eqb z) (map snd FIND_RETURN_ITEMS_DICT) then Ok z
      else Raise (InvalidArgumentError
             ("`vreturn`/`vyield` int arguments must be one of "
              +:+ "[1, 2, 3], but was " +:+ str_int z))
  end.

(** [len(set(l))]. *)
Fixpoint count_distinct (l : list Z) : nat :=
  match l with
  | [] => 0
  | z :: rest =>
      if existsb (Z.eqb z) rest then count_distinct rest
      else S (count_distinct rest)
  end.

(** What the body of [_find_iter] computes for one item of the walk:
    [dirs], [files] and [mix] as they stand after the [if return_mix]
    block. *)
Definition item_lists (return_items : list Z) (rootdir : string)
    (dnames fnames : list string)
  : option (list string) * option (list string) * option (list string) :=
  let return_mix := existsb (Z.eqb FIND_RETURN_MIX) return_items in
  let return_mix_only :=
    match return_items with
    | [z] => (z =? FIND_RETURN_MIX)%Z
    | _ => false
    end in
  let dirs :=
    if existsb (Z.eqb FIND_RETURN_DIRS) return_items || return_mix
    then Some (map (Py.path_join rootdir) dnames) else None in
  let files :=
    if existsb (Z.eqb FIND_RETURN_FILES) return_items || return_mix
    then Some (map (Py.path_join rootdir) fnames) else None in
  if return_mix
  then
    let mix := Some (default [] dirs ++ default [] files) in
    if return_mix_only then (None, None, mix) else (dirs, files, mix)
  else (dirs, files, None).

(** A list that is there and not empty. *)
Definition filled (l : option (list string)) : bool :=
  match l with
  | Some (_ :: _) => true
  | _ => false
  end.

(** The lines that the [debug] block writes for one item. *)
Definition debug_lines (lists : option (list string) * option (list string)
                                * option (list string)) : list string :=
  let '(dirs, files, mix) := lists in
  if filled mix then default [] mix
  else (if filled dirs then default [] dirs else [])
       ++ (if filled files then default [] files else []).

(** The items of a walk in a trace, each followed by the lines that
    [find] writes for it. *)
Definition with_debug_lines (return_items : list Z) (debug : bool)
    (tr : list event) : list event :=
  flat_map (fun ev =>
              match ev with
              | Yield rootdir dnames fnames =>
                  ev :: (if debug
                         then map Print
                                  (debug_lines (item_lists return_items rootdir
                                                           dnames fnames))
                         else [])
              | _ => [ev]
              end) tr.

(** [dirs_all], [files_all] and [mix_all] after the items of a trace. *)
Definition collect (return_items : list Z) (tr : list event)
  : list string * list string * list string :=
  fold_left (fun '(dirs_all, files_all, mix_all) ev =>
               match ev with
               | Yield rootdir dnames fnames =>
                   let '(dirs, files, mix) :=
                     item_lists return_items rootdir dnames fnames in
                   (dirs_all ++ default [] dirs,
                    files_all ++ default [] files,
                    mix_all ++ default [] mix)
               | _ => (dirs_all, files_all, mix_all)
               end) tr ([], [], []).

(** [files_all if item == FIND_RETURN_FILES else (dirs_all if item ==
    FIND_RETURN_FILES else mix_all)]. *)
Definition pick (all : list string * list string * list string) (item : Z)
  : list string :=
  let '(dirs_all, files_all, mix_all) := all in
  if (item =? FIND_RETURN_FILES)%Z then files_all
  else if (item =? FIND_RETURN_FILES)%Z then dirs_all
  else mix_all.

Section Functions.

Context {pattern world : Type} `{OS world}.
Variable SYSTYPE : CopyMethod.systype.
Variable re : WalkObject.regex pattern.

(** [walk(srcdir, dstdir=None, mindepth=0, ...)], every item taken; the
    arguments after [dstdir] are those of the constructor of
    [WalkObject]. *)
Definition walk (fuel : nat) (srcdir : string) (dstdir : option string)
    (a : WalkObject.init_args pattern) : M world unit :=
  do src_isdir <- observe (fun w => os_path_isdir w srcdir);
  if negb src_isdir
  then raise (InvalidArgumentError
                ("`srcdir` directory does not exist: " +:+ srcdir))
  else if match dstdir with None => true | Some _ => false end
          && (WalkObject.truthy_copy_method (WalkObject.arg_copy_method a)
              || WalkObject.arg_copy_silent a
              || WalkObject.arg_copy_dryrun a
              || match WalkObject.arg_copy_shcmd_fmtstr a with
                 | Some s => WalkObject.truthy_str s
                 | None => false
                 end)
  then raise (InvalidArgumentError
                "`dstdir` must be provided to use file copy options")
  else
    match WalkObject.__init__ SYSTYPE re a with
    | Raise ex => raise ex
    | Ok walk_object =>
        run WalkObject.walk SYSTYPE fuel walk_object srcdir dstdir
              (Some (WalkObject.arg_copy_overwrite a))
              (Some (WalkObject.arg_transplant_tree a))
              (Some (WalkObject.arg_collapse_tree a));
        ret tt
    end.

(** [find(srcdir, dstdir=None, vreturn=None, vyield=None, debug=False,
    mindepth=0, ...)] called with [vyield] left at [None]: the walk is run
    to its end and the collected paths are returned. *)
Definition find (fuel : nat) (srcdir : string) (dstdir : option string)
    (vreturn : option items_arg) (debug : bool)
    (a : WalkObject.init_args pattern) : M world found :=
  let given (l : option (list WalkObject.raw_pattern)) :=
    match l with Some _ => true | None => false end in
  let ffilter :=
    given (WalkObject.arg_fmatch a) || given (WalkObject.arg_fmatch_re a)
    || given (WalkObject.arg_fexcl a) || given (WalkObject.arg_fexcl_re a)
    || match WalkObject.arg_fsub a with Some _ => true | None => false end in
  let dfilter :=
    given (WalkObject.arg_dmatch a) || given (WalkObject.arg_dmatch_re a)
    || given (WalkObject.arg_dexcl a) || given (WalkObject.arg_dexcl_re a)
    || match WalkObject.arg_dsub a with Some _ => true | None => false end in
  let vreturn_1 :=
    match vreturn with
    | Some v => v
    | None =>
        Single (ItemInt (if ffilter && dfilter then FIND_RETURN_MIX
                         else if ffilter then FIND_RETURN_FILES
                         else if dfilter then FIND_RETURN_DIRS
                         else FIND_RETURN_MIX))
    end in
  let return_items_0 :=
    match vreturn_1 with
    | Several l => l
    | Single i => [i]
    end in
  match rmapM convert_item return_items_0 with
  | Raise ex => raise ex
  | Ok return_items =>
      if negb ((1 <=? count_distinct return_items)%nat
               && (count_distinct return_items <=? 2)%nat)
      then raise (InvalidArgumentError
                    "`vreturn`/`vyield` argument contains duplicate items")
      else
        fun w =>
          let '(tr, w', r) := walk fuel srcdir dstdir a w in
          (with_debug_lines return_items debug tr, w',
           match r with
           | Raise ex => Raise ex
           | Ok _ =>
               let all := collect return_items tr in
               match return_items with
               | [item] => Ok (Paths (pick all item))
               | _ => Ok (PathLists (map (pick all) return_items))
               end
           end)
  end.

End Functions.

End Find.

(** * Vocabulary of the statements *)

(** ** Task bundles *)

Fixpoint str_forall (P : ascii -> bool) (s : string) : bool :=
  match s with
  | EmptyString => true
  | String c s' => P c && str_forall P s'
  end.

(** A field that the text format carries unchanged: no delimiter and no
    line boundary inside, no white space at either end. *)
Definition clean_field (delim : ascii) (f : string) : bool :=
  str_forall (fun c => negb (Ascii.eqb c delim) && negb (Py.islinebreak c)) f
  && String.eqb (Py.strip f) f.

(** A task of [k] clean fields. *)
Definition clean_task (delim : ascii) (k : nat) (t : Bundles.task) : bool :=
  (length t =? k)%nat && forallb (clean_field delim) t.

(** The [j]-th chunk (from 0) of [tasks_per_bundle] tasks. *)
Definition chunk (task_list : list Bundles.task) (tasks_per_bundle j : nat)
  : list Bundles.task :=
  Py.slice task_list (j * tasks_per_bundle)
           (j * tasks_per_bundle + tasks_per_bundle).

(** The path of the bundle file of job [jobnum]. *)
Definition bundle_file (bundle_prefix : string) (jobnum_fmt : nat -> string)
    (jobnum : nat) : string :=
  bundle_prefix +:+ "_" +:+ jobnum_fmt jobnum +:+ ".txt".

(** The name of the [j]-th bundle file (from 0) among [total]. *)
Definition bundle_name (e : Bundles.env) (dstdir bundle_prefix : string)
    (total j : nat) : string :=
  Py.path_join dstdir (bundle_prefix +:+ "_" +:+ Bundles.now e)
  +:+ "_"
  +:+ Py.rjust0 (Nat.max 3 (String.length (Py.str total))) (Py.str (S j))
  +:+ ".txt".

(** The text that holds [rows]: one line per task, in order, the fields
    of the task separated by the delimiter. *)
Definition rows_text (delim : string) (rows : list Bundles.task) : string :=
  String.concat EmptyString
    (map (fun t => String.concat delim t +:+ String Py.LF EmptyString) rows).

(** What a bundle file holds after [write_task_bundles]: the text of its
    tasks, written line by line or, where numpy is importable, by
    [numpy.savetxt]. *)
Definition bundle_content (e : Bundles.env) (delim : string)
    (rows : list Bundles.task) : string :=
  if Bundles.imported_numpy e then Bundles.np_savetxt e rows "%s" delim
  else rows_text delim rows.

(** No field of the task contains ['#']. *)
Definition hash_free (t : Bundles.task) : bool :=
  forallb (str_forall (fun c => negb (Ascii.eqb c "#"))) t.

(** numpy as documented, on rows of [k] clean fields without ['#'], for
    a delimiter other than ['#']: [savetxt] with [fmt='%s'] writes one
    line per row, the fields separated by the delimiter, and [loadtxt]
    with [dtype=str], for which ['#'] starts a comment, reads such lines
    back as an array of [k] columns. *)
Definition numpy_writes_rows (e : Bundles.env) (delim : ascii) (k : nat)
  : Prop :=
  forall rows : list Bundles.task,
    rows <> [] ->
    forallb (clean_task delim k) rows = true ->
    forallb hash_free rows = true ->
    Bundles.np_savetxt e rows "%s" (String delim EmptyString)
    = rows_text (String delim EmptyString) rows.

Definition numpy_reads_rows (e : Bundles.env) (delim : ascii) (k : nat)
  : Prop :=
  forall rows : list Bundles.task,
    rows <> [] ->
    forallb (clean_task delim k) rows = true ->
    forallb hash_free rows = true ->
    Bundles.np_loadtxt e (rows_text (String delim EmptyString) rows)
      (Some (String delim EmptyString)) 0 None
    = Ok (k, rows).

(** What the two functions need where numpy is importable: numpy as
    documented, a delimiter other than ['#'] and no ['#'] in a field. *)
Definition numpy_ready (e : Bundles.env) (delim : ascii) (k : nat)
    (task_list : list Bundles.task) : Prop :=
  delim <> "#"%char
  /\ forallb hash_free task_list = true
  /\ numpy_writes_rows e delim k
  /\ numpy_reads_rows e delim k.

(** An interpreter without numpy, at a fixed time. *)
Definition env_plain : Bundles.env :=
  {| Bundles.imported_numpy := false;
     Bundles.np_savetxt := fun _ _ _ => EmptyString;
     Bundles.np_loadtxt := fun _ _ _ _ => Raise (OSError "ImportError");
     Bundles.now := "20200101120000" |}.

(** An interpreter with numpy.  [loadtxt] skips [skiprows] lines, drops
    what follows a ['#'] on a line, skips the lines that are left empty,
    keeps [max_rows] of the others and splits them at the delimiter (at
    white space without one); the rows must have one length. *)
Fixpoint cut_comment (line : string) : string :=
  match line with
  | EmptyString => EmptyString
  | String c rest =>
      if Ascii.eqb c "#" then EmptyString else String c (cut_comment rest)
  end.

Fixpoint words_go (cur : string) (s : string) : list string :=
  let close (l : list string) :=
    if Py.isempty cur then l else cur :: l in
  match s with
  | EmptyString => close []
  | String c rest =>
      if Py.isspace c then close (words_go EmptyString rest)
      else words_go (cur +:+ String c EmptyString) rest
  end.

Definition np_loadtxt_doc (content : string) (delimiter : option string)
    (skiprows : nat) (max_rows : option nat)
  : result (nat * list (list string)) :=
  let lines := skipn skiprows (Py.splitlines content) in
  let data :=
    List.filter (fun line => negb (Py.isempty line))
                (map cut_comment lines) in
  let data :=
    match max_rows with
    | Some n => firstn n data
    | None => data
    end in
  rbind (rmapM (fun line =>
                  match delimiter with
                  | Some d => Py.split d line
                  | None => Ok (words_go EmptyString line)
                  end) data)
    (fun rows =>
       let ncols := length (hd [] rows) in
       if Py.all_len ncols rows then Ok (ncols, rows)
       else Raise (ValueError "Wrong number of columns")).

Definition env_numpy : Bundles.env :=
  {| Bundles.imported_numpy := true;
     Bundles.np_savetxt := fun rows _ delim => rows_text delim rows;
     Bundles.np_loadtxt := np_loadtxt_doc;
     Bundles.now := "20200101120000" |}.

(** Ten tasks [(s0, d0)], ..., [(s9, d9)]. *)
Definition ten_tasks : list Bundles.task :=
  map (fun n => ["s" +:+ Py.str n; "d" +:+ Py.str n]) (seq 0 10).

(** ** Traces *)

(** The [(srcfile, dstfile)] of the calls of [CopyMethod.exec], the items
    yielded, and the calls that change the file system, in order. *)
Definition exec_calls (tr : list event) : list (string * string) :=
  flat_map (fun ev => match ev with
                      | ExecCall s d => [(s, d)]
                      | _ => []
                      end) tr.

Definition yields (tr : list event)
  : list (string * list string * list string) :=
  flat_map (fun ev => match ev with
                      | Yield s dn fn => [(s, dn, fn)]
                      | _ => []
                      end) tr.

Definition mutations (tr : list event) : list event :=
  List.filter mutating tr.

(** The names of the entries of a listing that are not directories, and
    of those that are. *)
Definition files_of (entries : list (string * bool)) : list string :=
  map fst (List.filter (fun p => negb (snd p)) entries).

Definition dirs_of (entries : list (string * bool)) : list string :=
  map fst (List.filter (fun p => snd p) entries).

(** ** A small file system to run the code on *)

Inductive node : Type :=
  | File (data : string)
  | Dir.

Abbreviation fsys := (gmap string node).

Definition fs_isdir (w : fsys) (p : string) : bool :=
  match w !! p with
  | Some Dir => true
  | _ => false
  end.

Definition fs_isfile (w : fsys) (p : string) : bool :=
  match w !! p with
  | Some (File _) => true
  | _ => false
  end.

(** What precedes the last ['/'] of a path. *)
Fixpoint dirname (p : string) : string :=
  match p with
  | EmptyString => EmptyString
  | String c p' =>
      if Py.contains p' "/" then String c (dirname p') else EmptyString
  end.

Fixpoint ancestors (fuel : nat) (p : string) : list string :=
  match fuel with
  | O => []
  | S f =>
      let d := dirname p in
      if Py.isempty d then [] else d :: ancestors f d
  end.

(** [path] as an entry of the directory [d]. *)
Definition child_name (d path : string) : option string :=
  let pre := d +:+ "/" in
  if Py.startswith path pre
  then
    let rest :=
      String.substring (String.length pre)
                       (String.length path - String.length pre) path in
    if Py.isempty rest || Py.contains rest "/" then None else Some rest
  else None.

Definition fs_scandir (w : fsys) (d : string)
  : result (list (string * bool)) :=
  if fs_isdir w d
  then Ok (omap (fun '(path, n) =>
                   option_map (fun name =>
                                 (name, match n with
                                        | Dir => true
                                        | File _ => false
                                        end))
                              (child_name d path))
                (map_to_list w))
  else Raise (OSError ("Not a directory: " +:+ d)).

Definition fs_listdir (w : fsys) (d : string) : result (list string) :=
  rbind (fs_scandir w d) (fun entries => Ok (map fst entries)).

(** [os.makedirs(d)]: an error when [d] exists, else [d] and its missing
    ancestors become directories. *)
Definition fs_makedirs (w : fsys) (d : string) : result fsys :=
  match w !! d with
  | Some _ => Raise (FileExistsError d)
  | None =>
      Ok (fold_right (fun p acc => match acc !! p with
                                   | Some _ => acc
                                   | None => <[p := Dir]> acc
                                   end)
                     w (d :: ancestors (String.length d) d))
  end.

Definition fs_remove (w : fsys) (p : string) : result fsys :=
  if fs_isfile w p then Ok (delete p w)
  else Raise (OSError ("No such file: " +:+ p)).

Definition parent_exists (w : fsys) (p : string) : bool :=
  Py.isempty (dirname p) || fs_isdir w (dirname p).

(** The library functions on files: [f(src, dst)]. *)
Definition fs_call (f : callable) (w : fsys) (src dst : string)
  : result fsys :=
  match w !! src with
  | Some (File data) =>
      if negb (parent_exists w dst)
      then Raise (OSError ("No such file or directory: " +:+ dst))
      else
        match f with
        | os_link | os_symlink =>
            match w !! dst with
            | Some _ => Raise (FileExistsError dst)
            | None => Ok (<[dst := File data]> w)
            end
        | shutil_copyfile | shutil_copy | shutil_copy2 =>
            if fs_isdir w dst then Raise (OSError "Is a directory")
            else Ok (<[dst := File data]> w)
        | shutil_move =>
            if fs_isdir w dst then Raise (OSError "Is a directory")
            else Ok (<[dst := File data]> (delete src w))
        | other_fn _ _ => Raise (OSError "unknown callable")
        end
  | _ => Raise (OSError ("No such file: " +:+ src))
  end.

Definition fs_filecmp (w : fsys) (a b : string) : result bool :=
  match w !! a, w !! b with
  | Some (File x), Some (File y) => Ok (String.eqb x y)
  | _, _ => Raise (OSError "No such file")
  end.

(** Trailing separators dropped; nothing else to normalise in the paths
    used below. *)
Definition fs_normpath (p : string) : string :=
  let q := Py.rstrip_chars ["/"%char] p in
  if Py.isempty q then p else q.

(** [fmt.format(a, b)] for the format strings of the examples, whose
    replacement fields are plain: ["{}"], an index or a name, with ["{{"]
    and ["}}"] for the braces themselves.  [numbering] is what the fields
    seen so far have fixed: nothing, automatic numbering up to an index,
    or explicit indices. *)
Inductive numbering : Type :=
  | Unnumbered
  | Automatic (next : nat)
  | Explicit.

Definition is_digit (c : ascii) : bool :=
  let n := nat_of_ascii c in ((48 <=? n) && (n <=? 57))%nat.

Fixpoint digits_value (acc : nat) (s : string) : nat :=
  match s with
  | EmptyString => acc
  | String c rest => digits_value (10 * acc + (nat_of_ascii c - 48)) rest
  end.

Definition fill_field (st : numbering) (name a b : string)
  : result (string * numbering) :=
  let pick (i : nat) (st' : numbering) :=
    match i with
    | 0 => Ok (a, st')
    | 1 => Ok (b, st')
    | _ => Raise IndexError
    end in
  if Py.isempty name
  then match st with
       | Unnumbered => pick 0 (Automatic 1)
       | Automatic i => pick i (Automatic (S i))
       | Explicit =>
           Raise (ValueError
                    ("cannot switch from manual field specification to "
                     +:+ "automatic field numbering"))
       end
  else if str_forall is_digit name
       then match st with
            | Automatic _ =>
                Raise (ValueError
                         ("cannot switch from automatic field numbering to "
                          +:+ "manual field specification"))
            | _ => pick (digits_value 0 name) Explicit
            end
       else Raise (OSError ("KeyError: " +:+ name)).

Fixpoint fs_format_go (fmt : string) (st : numbering) (field : option string)
    (a b : string) : result string :=
  match fmt with
  | EmptyString =>
      match field with
      | None => Ok EmptyString
      | Some _ => Raise (ValueError "expected '}' before end of string")
      end
  | String c rest =>
      match field with
      | Some name =>
          if Ascii.eqb c "}"
          then rbind (fill_field st name a b) (fun '(text, st') =>
               rbind (fs_format_go rest st' None a b) (fun out =>
               Ok (text +:+ out)))
          else fs_format_go rest st (Some (name +:+ String c EmptyString))
                            a b
      | None =>
          if Ascii.eqb c "{"
          then match rest with
               | EmptyString =>
                   Raise (ValueError "Single '{' encountered in format string")
               | String "{" rest' =>
                   rbind (fs_format_go rest' st None a b) (fun out =>
                   Ok (String "{" out))
               | _ => fs_format_go rest st (Some EmptyString) a b
               end
          else if Ascii.eqb c "}"
          then match rest with
               | String "}" rest' =>
                   rbind (fs_format_go rest' st None a b) (fun out =>
                   Ok (String "}" out))
               | _ =>
                   Raise (ValueError "Single '}' encountered in format string")
               end
          else rbind (fs_format_go rest st None a b) (fun out =>
               Ok (String c out))
      end
  end.

Definition fs_format (fmt a b : string) : result string :=
  fs_format_go fmt Unnumbered None a b.

#[export] Instance fs_os : OS fsys := {|
  os_path_isdir := fs_isdir;
  os_path_isfile := fs_isfile;
  os_scandir := fs_scandir;
  os_listdir := fs_listdir;
  os_makedirs := fs_makedirs;
  os_remove := fs_remove;
  call_copy_fn := fs_call;
  popen := fun w _ => (w, 0);
  filecmp_cmp := fs_filecmp;
  normpath_expanduser := fs_normpath;
  str_format := fs_format
|}.

(** Patterns for the examples: ["*suffix"] matches the names that end in
    [suffix], any other pattern matches itself. *)
Definition glob_match (p s : string) : bool :=
  match p with
  | String "*" suffix => Py.endswith s suffix
  | _ => String.eqb p s
  end.

Definition glob_re : WalkObject.regex string :=
  {| WalkObject.fnmatch_translate := fun s => s;
     WalkObject.re_compile := fun s => Ok s;
     WalkObject.re_fullmatch := glob_match;
     WalkObject.re_search := fun p s => Py.contains s p;
     WalkObject.re_sub := fun p repl s =>
                            if String.eqb p s then repl else s |}.

(** The constructor's defaults. *)
Definition default_args : WalkObject.init_args string :=
  {| WalkObject.arg_mindepth := Fin 0;
     WalkObject.arg_maxdepth := PosInf;
     WalkObject.arg_dmatch_maxdepth := None;
     WalkObject.arg_fmatch := None;
     WalkObject.arg_fmatch_re := None;
     WalkObject.arg_fexcl := None;
     WalkObject.arg_fexcl_re := None;
     WalkObject.arg_dmatch := None;
     WalkObject.arg_dmatch_re := None;
     WalkObject.arg_dexcl := None;
     WalkObject.arg_dexcl_re := None;
     WalkObject.arg_fsub := None;
     WalkObject.arg_dsub := None;
     WalkObject.arg_copy_method := None;
     WalkObject.arg_copy_overwrite := false;
     WalkObject.arg_transplant_tree := false;
     WalkObject.arg_collapse_tree := false;
     WalkObject.arg_copy_dryrun := false;
     WalkObject.arg_copy_silent := false;
     WalkObject.arg_copy_debug := false;
     WalkObject.arg_mkdir_upon_file_copy := false;
     WalkObject.arg_allow_nonstd_shprogs := false;
     WalkObject.arg_copy_shcmd_fmtstr := None;
     WalkObject.arg_list_function := None;
     WalkObject.arg_rematch_function := None;
     WalkObject.arg_resub_function := None;
     WalkObject.arg_rematch_partial := false |}.

(** The constructor called with a copy method by name, depth bounds, a
    file pattern and the dry-run flag; every other argument at its
    default. *)
Definition args_with (copy_method : string) (mindepth maxdepth : num)
    (fmatch : option (list string)) (dryrun : bool)
  : WalkObject.init_args string :=
  {| WalkObject.arg_mindepth := mindepth;
     WalkObject.arg_maxdepth := maxdepth;
     WalkObject.arg_dmatch_maxdepth := None;
     WalkObject.arg_fmatch :=
       option_map (map (@WalkObject.RawStr string)) fmatch;
     WalkObject.arg_fmatch_re := None;
     WalkObject.arg_fexcl := None;
     WalkObject.arg_fexcl_re := None;
     WalkObject.arg_dmatch := None;
     WalkObject.arg_dmatch_re := None;
     WalkObject.arg_dexcl := None;
     WalkObject.arg_dexcl_re := None;
     WalkObject.arg_fsub := None;
     WalkObject.arg_dsub := None;
     WalkObject.arg_copy_method := Some (WalkObject.CM_str copy_method);
     WalkObject.arg_copy_overwrite := false;
     WalkObject.arg_transplant_tree := false;
     WalkObject.arg_collapse_tree := false;
     WalkObject.arg_copy_dryrun := dryrun;
     WalkObject.arg_copy_silent := false;
     WalkObject.arg_copy_debug := false;
     WalkObject.arg_mkdir_upon_file_copy := false;
     WalkObject.arg_allow_nonstd_shprogs := false;
     WalkObject.arg_copy_shcmd_fmtstr := None;
     WalkObject.arg_list_function := None;
     WalkObject.arg_rematch_function := None;
     WalkObject.arg_resub_function := None;
     WalkObject.arg_rematch_partial := false |}.

Definition LINUX : CopyMethod.systype := CopyMethod.SYSTYPE_LINUX.

(** The source tree [/src/a.txt], [/src/notes], [/src/sub/b.txt],
    [/src/sub/deep/c.txt]; no destination yet. *)
Definition src_tree : fsys :=
  list_to_map
    [("/src", Dir); ("/src/a.txt", File "A"); ("/src/notes", File "N");
     ("/src/sub", Dir); ("/src/sub/b.txt", File "B");
     ("/src/sub/deep", Dir); ("/src/sub/deep/c.txt", File "C")].

(** Build a walker and walk [/src] into [/dst]. *)
Definition walk_src (a : WalkObject.init_args string) (fuel : nat)
    (w : fsys) : list event * fsys * result unit :=
  match WalkObject.__init__ LINUX glob_re a with
  | Raise ex => ([], w, Raise ex)
  | Ok walker =>
      let '(tr, w', r) :=
        WalkObject.walk LINUX fuel walker "/src" (Some "/dst")
                        None None None w in
      (tr, w', rbind r (fun _ => Ok tt))
  end.

(** ** Copy strategies *)

(** Whether the strategy is one for which [exec] compares the files. *)
Definition compares_files (cm : CopyMethod.t) : bool :=
  Py.mem (CopyMethod.action_verb cm) ["HARDLINKING"; "LINKING"].

(** The command line of a shell strategy for one transfer, as the
    strategy's fields say: the format string filled by [str.format], or
    the command followed by the two paths. *)
Definition command_line {world} `{OS world} (cm : CopyMethod.t)
    (srcfile dstfile : string) : result (option string) :=
  match CopyMethod.copy_shcmd cm with
  | Some shcmd =>
      if CopyMethod.copy_shcmd_is_fmtstr cm
      then match str_format shcmd srcfile dstfile with
           | Ok cmd => Ok (Some cmd)
           | Raise ex => Raise ex
           end
      else if CopyMethod.reverse_args cm
           then Ok (Some (shcmd +:+ " " +:+ dstfile +:+ " " +:+ srcfile))
           else Ok (Some (shcmd +:+ " " +:+ srcfile +:+ " " +:+ dstfile))
  | None => Ok None
  end.

Arguments command_line world {_} cm srcfile dstfile.

(** The call that transfers [srcfile] to [dstfile], if the strategy has a
    command line or a function to make it with. *)
Definition transfer_event (cm : CopyMethod.t) (line : option string)
    (srcfile dstfile : string) : option event :=
  match line, CopyMethod.copy_fn cm with
  | Some cmd, _ => Some (Command cmd)
  | None, Some f =>
      Some (if CopyMethod.reverse_args cm then CopyFn f dstfile srcfile
            else CopyFn f srcfile dstfile)
  | None, None => None
  end.

(** The line logged for a skipped transfer. *)
Definition skip_line (cm : CopyMethod.t) (srcfile dstfile : string)
    (same : bool) : event :=
  Print (CopyMethod.exec_message cm srcfile dstfile true
           (if same then CopyMethod.SKIP_LINK else CopyMethod.SKIP_EXISTS)).

(** "The log reports whether the destination is identical to the source":
    the comparison has an answer and the line for that answer is in the
    trace. *)
Definition reports_identity {world} `{OS world} (cm : CopyMethod.t)
    (w : world) (srcfile dstfile : string) (tr : list event) : Prop :=
  exists same, filecmp_cmp w srcfile dstfile = Ok same
               /\ In (skip_line cm srcfile dstfile same) tr.

(** A source file and an identical file at the destination. *)
Definition linked_tree : fsys :=
  list_to_map
    [("/src", Dir); ("/src/a.txt", File "A");
     ("/dst", Dir); ("/dst/a.txt", File "A")].

(** ** The tree walker *)

Section WalkerVocabulary.

Context {pattern world : Type} `{OS world}.

(** The file include/exclude test of a walker. *)
Definition file_passes (self : WalkObject.t pattern) : string -> bool :=
  WalkObject.name_matches self (WalkObject.fname_rematch self)
                          (WalkObject.fname_reexcl self).

(** Source and destination path of the transfer of a file of [srcdir]. *)
Definition transfer_paths (self : WalkObject.t pattern) (srcdir d : string)
    (fname : string) : string * string :=
  (Py.path_join srcdir fname,
   Py.path_join d (WalkObject.apply_resub self (WalkObject.fname_resub self)
                     fname)).

(** The directories that a walker called on [root] finds in it. *)
Definition root_dirs (self : WalkObject.t pattern) (root : string)
    (dstdir : option string) (dmatch_depth : Z) (w : world) : list string :=
  let passes :=
    WalkObject.srcdname_passes self
      (WalkObject.root_dmatch_depth self root 1 dmatch_depth) in
  match WalkObject.prepare_dstdir self dstdir passes w with
  | (_, w1, Ok _) =>
      match WalkObject.list_entries self root w1 with
      | (_, _, Ok entries) => dirs_of entries
      | _ => []
      end
  | _ => []
  end.

End WalkerVocabulary.

Definition yielded_dir (y : string * list string * list string) : string :=
  fst (fst y).

(** ** The source tree of a traversal *)

(** A directory as it lists: its entries in the order of the listing, each
    a file or a subdirectory with the entries of its own. *)
Inductive tree : Type :=
  | Listing (es : entries)
with entries : Type :=
  | no_entry
  | file_entry (name : string) (rest : entries)
  | dir_entry (name : string) (sub : tree) (rest : entries).

(** The listing itself: the names with their [is_dir]. *)
Fixpoint flags (es : entries) : list (string * bool) :=
  match es with
  | no_entry => []
  | file_entry name rest => (name, false) :: flags rest
  | dir_entry name _ rest => (name, true) :: flags rest
  end.

Definition listing (t : tree) : list (string * bool) :=
  match t with
  | Listing es => flags es
  end.

(** The number of levels of a tree. *)
Fixpoint height (t : tree) : nat :=
  match t with
  | Listing es => S (height_of es)
  end
with height_of (es : entries) : nat :=
  match es with
  | no_entry => 0
  | file_entry _ rest => height_of rest
  | dir_entry _ sub rest => Nat.max (height sub) (height_of rest)
  end.

(** The directories of a tree, each with the names that lead to it from
    the root ([chain] for the root itself): a directory before the
    directories below it, these in the order of the listing. *)
Fixpoint subdirs (chain : list string) (t : tree) {struct t}
  : list (list string * tree) :=
  match t with
  | Listing es => (chain, t) :: subdirs_of chain es
  end
with subdirs_of (chain : list string) (es : entries) {struct es}
  : list (list string * tree) :=
  match es with
  | no_entry => []
  | file_entry _ rest => subdirs_of chain rest
  | dir_entry name sub rest =>
      subdirs (chain ++ [name]) sub ++ subdirs_of chain rest
  end.

(** The directory reached from [root] through the names of [chain], and
    its depth as the walker counts it: 1 for the root, whose entries are
    at depth 1. *)
Definition path_of (root : string) (chain : list string) : string :=
  fold_left Py.path_join chain root.

Definition depth_of (chain : list string) : Z :=
  (1 + Z.of_nat (length chain))%Z.

Fixpoint same_entries (a b : list (string * bool)) : bool :=
  match a, b with
  | [], [] => true
  | (x, i) :: a', (y, j) :: b' =>
      String.eqb x y && Bool.eqb i j && same_entries a' b'
  | _, _ => false
  end.

Definition items (tr : list event) : list (string * list string) :=
  map (fun y => (fst (fst y), snd y)) (yields tr).

Definition is_ok {A} (r : result A) : bool :=
  match r with
  | Ok _ => true
  | Raise _ => false
  end.

Section SourceTree.

Context {pattern world : Type} `{OS world}.

(** What the list function of a walker reports for a directory: the
    entries of [os.scandir], or the names of [os.listdir] with
    [os.path.isdir] of each. *)
Definition os_entries (lf : WalkObject.list_fn) (w : world) (d : string)
  : result (list (string * bool)) :=
  match lf with
  | WalkObject.os_scandir_fn => os_scandir w d
  | WalkObject.os_listdir_fn =>
      match os_listdir w d with
      | Ok names =>
          Ok (map (fun name =>
                     (name, os_path_isdir w (Py.path_join d name))) names)
      | Raise ex => Raise ex
      end
  end.

(** In state [w] the directory [d], whose entries are at depth [depth],
    lists as the tree [t], level by level down to [maxdepth]. *)
Fixpoint listed (self : WalkObject.t pattern) (w : world) (d : string)
    (depth : Z) (t : tree) {struct t} : bool :=
  match t with
  | Listing es =>
      if num_ltb (WalkObject.maxdepth self) (Fin depth) then true
      else match os_entries (WalkObject.list_function self) w d with
           | Ok l => same_entries l (flags es)
           | Raise _ => false
           end
           && listed_in self w d (depth + 1) es
  end
with listed_in (self : WalkObject.t pattern) (w : world) (d : string)
    (depth : Z) (es : entries) {struct es} : bool :=
  match es with
  | no_entry => true
  | file_entry _ rest => listed_in self w d depth rest
  | dir_entry name sub rest =>
      listed self w (Py.path_join d name) depth sub
      && listed_in self w d depth rest
  end.

(** The state after the calls of a trace, made one after the other. *)
Definition apply_event (w : world) (ev : event) : world :=
  let after (r : result world) :=
    match r with
    | Ok w' => w'
    | Raise _ => w
    end in
  match ev with
  | Makedirs d => after (os_makedirs w d)
  | Remove d => after (os_remove w d)
  | CopyFn f a b => after (call_copy_fn f w a b)
  | Command cmd => fst (popen w cmd)
  | Print _ | ExecCall _ _ | Yield _ _ _ => w
  end.

Definition replay (w : world) (tr : list event) : world :=
  fold_left apply_event tr w.

(** The source is [t] all along the run: before and after every call of
    the trace, [root] lists as [t]. *)
Definition source_is (self : WalkObject.t pattern) (w : world)
    (tr : list event) (root : string) (t : tree) : Prop :=
  forall tr1 tr2, tr = tr1 ++ tr2 ->
                  listed self (replay w tr1) root 1 t = true.

(** The same, computed. *)
Definition source_isb (self : WalkObject.t pattern) (w : world)
    (tr : list event) (root : string) (t : tree) : bool :=
  forallb (fun n => listed self (replay w (firstn n tr)) root 1 t)
          (seq 0 (S (length tr))).

(** A run has failed by a call when the exception is that of a call to
    the operating system, to a copy function, to a shell (whose command
    ended with a non-zero status) or to [str.format], made in the state
    the run has ended in, or the [TypeError] of a strategy that has
    nothing to call. *)
Definition failed_call (w' : world) (ex : exn) : Prop :=
  (exists d, os_makedirs w' d = Raise ex)
  \/ (exists d, os_remove w' d = Raise ex)
  \/ (exists f a b, call_copy_fn f w' a b = Raise ex)
  \/ (exists a b, filecmp_cmp w' a b = Raise ex)
  \/ (exists d, os_scandir w' d = Raise ex)
  \/ (exists d, os_listdir w' d = Raise ex)
  \/ (exists fmt a b, str_format fmt a b = Raise ex)
  \/ (exists w0 cmd,
        w' = fst (popen w0 cmd) /\ snd (popen w0 cmd) <> 0
        /\ ex = ExternalError
                  ("External call failed with non-zero exit status: "
                   +:+ cmd))
  \/ ex = TypeError.

(** The include/exclude rules: a name passes when it matches one of the
    patterns to include, or there is none, and matches none of the
    patterns to exclude. *)
Definition name_rule (self : WalkObject.t pattern)
    (incl excl : list pattern) (name : string) : bool :=
  match incl with
  | [] => true
  | _ => existsb (fun p => WalkObject.rematch_function self p name) incl
  end
  && negb (existsb (fun p => WalkObject.rematch_function self p name) excl).

Definition file_rule (self : WalkObject.t pattern) : string -> bool :=
  name_rule self (WalkObject.fname_rematch self)
            (WalkObject.fname_reexcl self).

Definition dir_rule (self : WalkObject.t pattern) : string -> bool :=
  name_rule self (WalkObject.dname_rematch self)
            (WalkObject.dname_reexcl self).

(** The number of levels from a directory up to the nearest directory on
    its path whose name passes the directory rules, 1 when its own name
    does; [up] are the names from the directory up to the root. *)
Fixpoint levels_since_match (rule : string -> bool) (up : list string)
  : option nat :=
  match up with
  | [] => None
  | name :: above =>
      if rule name then Some 1
      else option_map S (levels_since_match rule above)
  end.

(** A directory passes directory matching when a directory on its path,
    itself or above, has a name that passes the directory rules and is at
    most [dmatch_maxdepth] levels away; without a [dmatch_maxdepth] the
    rules do not restrict the files (the walker then uses them on what it
    yields only). *)
Definition dir_passes (self : WalkObject.t pattern) (root : string)
    (chain : list string) : bool :=
  if WalkObject.dmatch_nomaxdepth self
  then num_leb (Fin (-1)) (WalkObject.dmatch_maxdepth self)
  else match levels_since_match (dir_rule self)
               (rev (Py.basename root :: chain)) with
       | Some k => num_leb (Fin (Z.of_nat k)) (WalkObject.dmatch_maxdepth self)
       | None => false
       end.

(** The files of a directory that a traversal takes. *)
Definition passing_files (self : WalkObject.t pattern) (root : string)
    (chain : list string) (t : tree) : list string :=
  if dir_passes self root chain
  then List.filter (file_rule self) (files_of (listing t))
  else [].

Definition in_bounds (self : WalkObject.t pattern) (chain : list string)
  : bool :=
  num_leb (WalkObject.mindepth self) (Fin (depth_of chain))
  && num_leb (Fin (depth_of chain)) (WalkObject.maxdepth self).

(** The directories of the tree within the depth bounds, in the order of
    the traversal. *)
Definition visited (self : WalkObject.t pattern) (chain : list string)
    (t : tree) : list (list string * tree) :=
  List.filter (fun d => in_bounds self (fst d)) (subdirs chain t).

(** The destination directory of the directory at [chain]: the
    destination of the root for all of them in a collapsed tree, else the
    path through the names of [chain] after their substitution. *)
Definition dst_of (self : WalkObject.t pattern) (collapse : bool)
    (top : string) (chain : list string) : string :=
  if collapse then top
  else fold_left
         (fun d name =>
            Py.path_join d (WalkObject.apply_resub self
                              (WalkObject.dname_resub self) name))
         chain top.

(** What is due for the directories [dirs]: for each one item, with its
    files that pass, and one call of [exec] per such file. *)
Definition items_due (self : WalkObject.t pattern) (root : string)
    (dirs : list (list string * tree)) : list (string * list string) :=
  map (fun d => (path_of root (fst d),
                 passing_files self root (fst d) (snd d))) dirs.

Definition calls_due (self : WalkObject.t pattern) (root : string)
    (collapse : bool) (top : string) (dirs : list (list string * tree))
  : list (string * string) :=
  flat_map (fun d =>
              map (transfer_paths self (path_of root (fst d))
                                  (dst_of self collapse top (fst d)))
                  (passing_files self root (fst d) (snd d))) dirs.

(** The destination of the root in a call of [walk]: the destination
    given, normalised, and with [transplant_tree] the directory of the
    name of the source below it. *)
Definition walk_top (self : WalkObject.t pattern) (root dstdir : string)
    (transplant_tree : option bool) : string :=
  if default (WalkObject.transplant_tree self) transplant_tree
  then Py.path_join (normpath_expanduser dstdir) (Py.basename root)
  else normpath_expanduser dstdir.

(** The calls due when the traversal has a destination [top] and a
    strategy for this run; none otherwise. *)
Definition calls_expected (self : WalkObject.t pattern) (root : string)
    (top : option string) (dirs : list (list string * tree))
  : list (string * string) :=
  match top, WalkObject.copy_method_inst self with
  | Some d, Some _ =>
      calls_due self root (WalkObject.collapse_tree_inst self) d dirs
  | _, _ => []
  end.

(** The walker's count [dmatch_depth] for the directory at [chain]: the
    levels since the nearest directory that passes the rules, 0 when
    there is none, -1 throughout without a [dmatch_maxdepth]; and the
    value [_walk] is called with, the root being tested in the call. *)
Definition dmd_of (self : WalkObject.t pattern) (root : string)
    (chain : list string) : Z :=
  if WalkObject.dmatch_nomaxdepth self then (-1)%Z
  else match levels_since_match (dir_rule self)
               (rev (Py.basename root :: chain)) with
       | Some k => Z.of_nat k
       | None => 0%Z
       end.

Definition entry_dmd (self : WalkObject.t pattern) (root : string)
    (chain : list string) : Z :=
  match chain with
  | [] => if WalkObject.dmatch_nomaxdepth self then (-1)%Z else 0%Z
  | _ => dmd_of self root chain
  end.

(** [l] is all of [due] when the run is [done], and a beginning of it when
    the run has stopped on the way. *)
Definition upto {A} (done : bool) (l due : list A) : Prop :=
  if done then l = due else l `prefix_of` due.

(** A computation that changes the state by the calls it logs only, and
    fails only where a call fails. *)
Definition sound {A} (m : M world A) : Prop :=
  forall w tr w' r,
    m w = (tr, w', r) ->
    w' = replay w tr /\ forall ex, r = Raise ex -> failed_call w' ex.

(** What a run from [w] has done of what was due: the items and the
    calls of [exec] are those due, or a beginning of them if the run has
    failed; the state is that after the calls logged; and with enough
    fuel a failure is that of a call. *)
Definition outcome {A} (due_items : list (string * list string))
    (due_calls : list (string * string)) (enough_fuel : Prop) (w : world)
    (out : list event * world * result A) : Prop :=
  let '(tr, w', r) := out in
  w' = replay w tr
  /\ upto (is_ok r) (items tr) due_items
  /\ upto (is_ok r) (exec_calls tr) due_calls
  /\ forall ex, r = Raise ex -> enough_fuel -> failed_call w' ex.

End SourceTree.

(** The tree of [/src] in [src_tree], as the file system of the examples
    lists it. *)
Definition src_listing : tree :=
  Listing
    (dir_entry "sub"
       (Listing
          (file_entry "b.txt"
             (dir_entry "deep" (Listing (file_entry "c.txt" no_entry))
                no_entry)))
       (file_entry "a.txt" (file_entry "notes" no_entry))).

(** The number of levels of [path] below [root]. *)
Fixpoint count_char (c : ascii) (s : string) : nat :=
  match s with
  | EmptyString => 0
  | String a s' => (if Ascii.eqb a c then 1 else 0) + count_char c s'
  end.

Definition levels_below (root path : string) : nat :=
  count_char "/"
    (String.substring (String.length root)
                      (String.length path - String.length root) path).

(** The walker that [WalkObject(copy_method='link', fmatch=['*.txt'])]
    builds. *)
Definition link_walker : WalkObject.t string :=
  {| WalkObject.srcdir := None;
     WalkObject.dstdir := None;
     WalkObject.mindepth := Fin 0;
     WalkObject.maxdepth := PosInf;
     WalkObject.dmatch_maxdepth := PosInf;
     WalkObject.dmatch_nomaxdepth := true;
     WalkObject.fname_rematch := ["*.txt"];
     WalkObject.fname_reexcl := [];
     WalkObject.dname_rematch := [];
     WalkObject.dname_reexcl := [];
     WalkObject.fname_resub := None;
     WalkObject.dname_resub := None;
     WalkObject.copy_method := Some (CopyMethod.COPY_METHOD_HARDLINK LINUX);
     WalkObject.copy_method_inst :=
       Some (CopyMethod.COPY_METHOD_HARDLINK LINUX);
     WalkObject.transplant_tree := false;
     WalkObject.collapse_tree := false;
     WalkObject.collapse_tree_inst := false;
     WalkObject.mkdir_upon_file_copy := false;
     WalkObject.list_function := WalkObject.os_scandir_fn;
     WalkObject.rematch_function := glob_match;
     WalkObject.resub_function :=
       fun p repl s => if String.eqb p s then repl else s |}.

(** A walker with other depth bounds. *)
Definition with_depths {pattern} (self : WalkObject.t pattern)
    (lo hi : num) : WalkObject.t pattern :=
  {| WalkObject.srcdir := WalkObject.srcdir self;
     WalkObject.dstdir := WalkObject.dstdir self;
     WalkObject.mindepth := lo;
     WalkObject.maxdepth := hi;
     WalkObject.dmatch_maxdepth := WalkObject.dmatch_maxdepth self;
     WalkObject.dmatch_nomaxdepth := WalkObject.dmatch_nomaxdepth self;
     WalkObject.fname_rematch := WalkObject.fname_rematch self;
     WalkObject.fname_reexcl := WalkObject.fname_reexcl self;
     WalkObject.dname_rematch := WalkObject.dname_rematch self;
     WalkObject.dname_reexcl := WalkObject.dname_reexcl self;
     WalkObject.fname_resub := WalkObject.fname_resub self;
     WalkObject.dname_resub := WalkObject.dname_resub self;
     WalkObject.copy_method := WalkObject.copy_method self;
     WalkObject.copy_method_inst := WalkObject.copy_method_inst self;
     WalkObject.transplant_tree := WalkObject.transplant_tree self;
     WalkObject.collapse_tree := WalkObject.collapse_tree self;
     WalkObject.collapse_tree_inst := WalkObject.collapse_tree_inst self;
     WalkObject.mkdir_upon_file_copy := WalkObject.mkdir_upon_file_copy self;
     WalkObject.list_function := WalkObject.list_function self;
     WalkObject.rematch_function := WalkObject.rematch_function self;
     WalkObject.resub_function := WalkObject.resub_function self |}.

(** The trace of the traversal of [/src] into [/dst] with
    [mindepth = maxdepth = 2]. *)
Definition depth_two_trace : list event :=
  fst (fst (walk_src (args_with "link" (Fin 2) (Fin 2) None false) 10
                     src_tree)).

(** ** Job submission *)

(** A parser with the arguments of the copy script that matter here and
    the scheduler group of [add_scheduler_arguments]. *)
Definition copy_script_actions : list Sched.action :=
  [ {| Sched.dest := "src"; Sched.option_strings := ["--src"];
       Sched.act := Sched.StoreAction false |};
    {| Sched.dest := "dst"; Sched.option_strings := ["-d"; "--dst"];
       Sched.act := Sched.StoreAction false |};
    {| Sched.dest := "srclist"; Sched.option_strings := ["-sl"; "--srclist"];
       Sched.act := Sched.StoreAction false |};
    {| Sched.dest := "overwrite";
       Sched.option_strings := ["-o"; "--overwrite"];
       Sched.act := Sched.StoreTrueAction |};
    {| Sched.dest := "scheduler"; Sched.option_strings := ["--scheduler"];
       Sched.act := Sched.StoreAction false |};
    {| Sched.dest := "job_abbrev"; Sched.option_strings := ["--job-abbrev"];
       Sched.act := Sched.StoreAction false |};
    {| Sched.dest := "job_walltime";
       Sched.option_strings := ["--job-walltime"];
       Sched.act := Sched.StoreAction false |};
    {| Sched.dest := "job_memory"; Sched.option_strings := ["--job-memory"];
       Sched.act := Sched.StoreAction false |};
    {| Sched.dest := "jobscript"; Sched.option_strings := ["--jobscript"];
       Sched.act := Sched.StoreAction false |};
    {| Sched.dest := "tasks_per_job";
       Sched.option_strings := ["--tasks-per-job"];
       Sched.act := Sched.StoreAction false |};
    {| Sched.dest := "bundledir"; Sched.option_strings := ["--bundledir"];
       Sched.act := Sched.StoreAction false |};
    {| Sched.dest := "logdir"; Sched.option_strings := ["--logdir"];
       Sched.act := Sched.StoreAction false |};
    {| Sched.dest := "email"; Sched.option_strings := ["--email"];
       Sched.act := Sched.StoreAction true |} ].

(** The parent invocation: two tasks to submit to [scheduler], one job
    each, a completion email asked for at [user@example.org]. *)
Definition parent_args (scheduler : string) : Sched.ArgumentPasser :=
  {| Sched.exe := "python -u";
     Sched.script_file := "/opt/file_transfer.py";
     Sched.parser_actions := copy_script_actions;
     Sched.vars_dict :=
       [("src", Sched.VNone); ("dst", Sched.VNone);
        ("srclist", Sched.VNone); ("overwrite", Sched.VBool false);
        ("scheduler", Sched.VStr scheduler);
        ("job_abbrev", Sched.VStr "Copy");
        ("job_walltime", Sched.VInt 1); ("job_memory", Sched.VInt 5);
        ("jobscript", Sched.VStr "/opt/jobscripts/head.sh");
        ("tasks_per_job", Sched.VNone);
        ("bundledir", Sched.VStr "/scratch/task_bundles");
        ("logdir", Sched.VNone);
        ("email", Sched.VStr "user@example.org")];
     Sched.cmd_optarg_base := EmptyString;
     Sched.cmd := EmptyString |}.

Definition two_tasks : list Bundles.task :=
  [["/src/a"; "/dst/a"]; ["/src/b"; "/dst/b"]].

(** A job script without conditional options. *)
Definition no_condopts (jobscript condoptkey : string)
    (vars : list (string * Sched.pyval)) : result (list string) :=
  Ok [].

(** The commands submitted for the two tasks. *)
Definition submitted (scheduler : string) : result (list string) :=
  rbind (Sched.submit_tasks_to_scheduler no_condopts env_plain
           (parent_args scheduler) two_tasks ["--src"; "--dst"] "--srclist"
           None (Some "srclist") "," "2.7" ∅)
        (fun '(_, cmds) => Ok cmds).

(** ** Vocabulary of the proofs *)

(** The number that a string of decimal digits writes. *)
Definition parse_nat (s : string) : option nat :=
  option_map Nat.of_uint (NilEmpty.uint_of_string s).

(** Every event of every run of [m] satisfies [P]. *)
Definition emits {world A} (P : event -> bool) (m : M world A) : Prop :=
  forall w tr w' r, m w = (tr, w', r) -> forallb P tr = true.

(** No run of [m] changes the state. *)
Definition frames {world A} (m : M world A) : Prop :=
  forall w tr w' r, m w = (tr, w', r) -> w' = w.

(** Events that are neither a call of [exec] nor a yielded item. *)
Definition quiet (ev : event) : bool :=
  match ev with
  | ExecCall _ _ | Yield _ _ _ => false
  | _ => true
  end.

Definition not_yield (ev : event) : bool :=
  match ev with
  | Yield _ _ _ => false
  | _ => true
  end.

(** What a run of a loop over subdirectories yields, when the body run on
    [x] yields at most the one item of the directory [g x], and exactly
    that item when it ends well. *)
Definition one_item {world A} (g : A -> string) (body : A -> M world unit)
  : Prop :=
  forall x w tr w' r,
    body x w = (tr, w', r) ->
    (yields tr = [] \/ exists dn fn, yields tr = [(g x, dn, fn)])
    /\ (r = Ok tt -> exists dn fn, yields tr = [(g x, dn, fn)]).

(** * Vocabulary of the further properties *)

(** ** Task bundles *)

(** A task whose line in a bundle file is read back as it was written:
    every field is clean and the line is not blank (so there is at least
    one field, and a single field is not empty). *)
Definition clean_row (delim : ascii) (t : Bundles.task) : bool :=
  forallb (clean_field delim) t
  && negb (Py.isempty (Py.join (String delim EmptyString) t)).

(** Tasks of one field each. *)
Definition one_field_tasks (names : list string) : list Bundles.task :=
  map (fun s => [s]) names.

(** ** The tree walker *)

(** Events that are items of the generator. *)
Definition is_yield (ev : event) : bool :=
  match ev with
  | Yield _ _ _ => true
  | _ => false
  end.

(** The walker that [WalkObject(mindepth=lo, maxdepth=hi)] builds: no
    pattern, no copy method. *)
Definition plain_walker (lo hi : num) : WalkObject.t string :=
  {| WalkObject.srcdir := None;
     WalkObject.dstdir := None;
     WalkObject.mindepth := lo;
     WalkObject.maxdepth := hi;
     WalkObject.dmatch_maxdepth := PosInf;
     WalkObject.dmatch_nomaxdepth := true;
     WalkObject.fname_rematch := [];
     WalkObject.fname_reexcl := [];
     WalkObject.dname_rematch := [];
     WalkObject.dname_reexcl := [];
     WalkObject.fname_resub := None;
     WalkObject.dname_resub := None;
     WalkObject.copy_method := None;
     WalkObject.copy_method_inst := None;
     WalkObject.transplant_tree := false;
     WalkObject.collapse_tree := false;
     WalkObject.collapse_tree_inst := false;
     WalkObject.mkdir_upon_file_copy := false;
     WalkObject.list_function := WalkObject.os_scandir_fn;
     WalkObject.rematch_function := glob_match;
     WalkObject.resub_function :=
       fun p repl s => if String.eqb p s then repl else s |}.

(** ** Version strings *)

(** Comparison of two lists of numbers, component by component up to the
    end of the shorter one. *)
Fixpoint lex_compare (a b : list Z) : comparison :=
  match a, b with
  | x :: a', y :: b' =>
      match (x ?= y)%Z with
      | Eq => lex_compare a' b'
      | c => c
      end
  | _, _ => Eq
  end.

(** A list of numbers filled with zeros up to [n] components. *)
Definition zero_pad (n : nat) (l : list Z) : list Z :=
  l ++ repeat 0%Z (n - length l).

(** The order of versions: by components, a missing component counting
    as zero. *)
Definition version_compare (a b : VersionString.t) : comparison :=
  let n := Nat.max (length (VersionString.ver_num_list a))
                   (length (VersionString.ver_num_list b)) in
  lex_compare (zero_pad n (VersionString.ver_num_list a))
              (zero_pad n (VersionString.ver_num_list b)).

(** The version with the components [l]. *)
Definition version_of (l : list Z) : VersionString.t :=
  {| VersionString.ver_str :=
       Py.join "." (map (fun z => Py.str (Z.to_nat z)) l);
     VersionString.ver_num_list := l |}.

(** ** The transfer script *)

(** The arguments of [file_transfer.py --copy-method copy], with the
    dry-run and silent flags as given and every other option at its
    default. *)
Definition copy_args (dryrun silent : bool) : FileTransfer.task_args :=
  {| FileTransfer.arg_copy_method := "copy";
     FileTransfer.arg_overwrite := false;
     FileTransfer.arg_dryrun := dryrun;
     FileTransfer.arg_silent := silent;
     FileTransfer.arg_debug := false;
     FileTransfer.arg_mindepth := Fin 0;
     FileTransfer.arg_maxdepth := PosInf;
     FileTransfer.arg_collapse_tree := false |}.

(** ** Job submission *)

(** The parent invocation of the examples without [--email]. *)
Definition parent_args_no_email (scheduler : string) : Sched.ArgumentPasser :=
  Sched.with_vars (parent_args scheduler)
    (Sched.dict_set (Sched.vars_dict (parent_args scheduler)) "email"
                    Sched.VNone).

(** ** Dry runs and collapsed trees *)

Definition is_makedirs (ev : event) : bool :=
  match ev with
  | Makedirs _ => true
  | _ => false
  end.

(** Events that leave every file as it is: those that change nothing, and
    the creation of directories. *)
Definition keeps_files (ev : event) : bool :=
  negb (mutating ev) || is_makedirs ev.

(** Every event of every run of [m] satisfies the proposition [P]. *)
Definition always {world A} (P : event -> Prop) (m : M world A) : Prop :=
  forall w tr w' r, m w = (tr, w', r) -> Forall P tr.

(** The only directory that is made, if one is, is [d]. *)
Definition makes_only (d : string) (ev : event) : Prop :=
  match ev with
  | Makedirs p => p = d
  | _ => True
  end.

(** * Properties *)

(** ** Strings *)

#[local] Arguments String.append !_ _ / : simpl nomatch.

Lemma append_assoc (a b c : string) : (a +:+ b) +:+ c = a +:+ (b +:+ c).
Proof. induction a as [|x a IH]; simpl; [reflexivity | now rewrite IH]. Qed.

Lemma append_empty_r (a : string) : a +:+ EmptyString = a.
Proof. induction a as [|x a IH]; simpl; [reflexivity | now rewrite IH]. Qed.

Lemma length_append (a b : string) :
  String.length (a +:+ b) = String.length a + String.length b.
Proof. induction a as [|x a IH]; simpl; [reflexivity | now rewrite IH]. Qed.

Lemma append_inj_l (a b c : string) : a +:+ b = a +:+ c -> b = c.
Proof. induction a as [|x a IH]; simpl; [auto | intros [= E]; auto]. Qed.

Lemma append_inj_r (a b c : string) : a +:+ c = b +:+ c -> a = b.
Proof.
  revert b. induction a as [|x a IH]; intros [|y b] E; simpl in E.
  - reflexivity.
  - apply (f_equal String.length) in E. simpl in E.
    rewrite length_append in E. lia.
  - apply (f_equal String.length) in E. simpl in E.
    rewrite length_append in E. lia.
  - injection E as -> E. f_equal. now apply IH.
Qed.

Lemma str_forall_append P a b :
  str_forall P (a +:+ b) = str_forall P a && str_forall P b.
Proof.
  induction a as [|x a IH]; simpl; [reflexivity |].
  now rewrite IH, andb_assoc.
Qed.

(** ** Decimal numerals *)

Lemma parse_str (n : nat) : parse_nat (Py.str n) = Some n.
Proof.
  unfold parse_nat, Py.str. rewrite NilEmpty.usu. simpl.
  now rewrite DecimalNat.Unsigned.of_to.
Qed.

Lemma parse_zero_prefix (k : nat) (s : string) :
  parse_nat (Py.repeat_char "0" k +:+ s) = parse_nat s.
Proof.
  induction k as [|k IH]; simpl; [reflexivity |].
  unfold parse_nat in *. simpl.
  destruct (NilEmpty.uint_of_string (Py.repeat_char "0" k +:+ s)) as [d|];
    destruct (NilEmpty.uint_of_string s) as [d'|]; simpl in *;
    try discriminate; try reflexivity.
  - injection IH as IH. f_equal. exact IH.
Qed.

Lemma rjust0_inj (w a b : nat) :
  Py.rjust0 w (Py.str a) = Py.rjust0 w (Py.str b) -> a = b.
Proof.
  intros E. apply (f_equal parse_nat) in E. unfold Py.rjust0 in E.
  rewrite !parse_zero_prefix, !parse_str in E. now injection E.
Qed.

Lemma get_index_fmtstr_inj (total m a b : nat) :
  Bundles.get_index_fmtstr total m a = Bundles.get_index_fmtstr total m b ->
  a = b.
Proof. apply rjust0_inj. Qed.

(** ** Chunks of a task list *)

Lemma ceil_div_zero (d : nat) : Bundles.ceil_div 0 d = 0.
Proof.
  unfold Bundles.ceil_div. destruct d as [|d]; [reflexivity |].
  rewrite Nat.Div0.div_0_l, Nat.Div0.mod_0_l. reflexivity.
Qed.

Lemma ceil_div_bounds (n d : nat) :
  0 < n -> 0 < d ->
  (Bundles.ceil_div n d - 1) * d < n /\ n <= Bundles.ceil_div n d * d.
Proof.
  intros Hn Hd. unfold Bundles.ceil_div.
  pose proof (Nat.div_mod_eq n d) as E.
  pose proof (Nat.mod_upper_bound n d ltac:(lia)) as U.
  destruct (Nat.eqb_spec (n mod d) 0) as [Z | NZ]; nia.
Qed.

Lemma ceil_div_step (n d : nat) :
  0 < n -> 0 < d -> Bundles.ceil_div n d = S (Bundles.ceil_div (n - d) d).
Proof.
  intros Hn Hd. destruct (Nat.le_gt_cases n d) as [Le | Gt].
  - replace (n - d) with 0 by lia. rewrite ceil_div_zero.
    destruct (ceil_div_bounds n d Hn Hd) as [Lo Hi]. nia.
  - destruct (ceil_div_bounds n d Hn Hd) as [Lo Hi].
    destruct (ceil_div_bounds (n - d) d ltac:(lia) Hd) as [Lo' Hi']. nia.
Qed.

Lemma range_go_spec (fuel cur stop step : nat) :
  0 < step -> stop - cur <= fuel ->
  Py.range_go fuel cur stop step
  = map (fun j => cur + j * step)
        (seq 0 (Bundles.ceil_div (stop - cur) step)).
Proof.
  intros Hs. revert cur. induction fuel as [|fuel IH]; intros cur Hf.
  - replace (stop - cur) with 0 by lia. now rewrite ceil_div_zero.
  - simpl. destruct (Nat.ltb_spec cur stop) as [Lt | Ge].
    + rewrite (ceil_div_step (stop - cur) step) by lia.
      cbn [seq map]. f_equal; [lia |].
      rewrite IH by lia. rewrite <- seq_shift, map_map.
      replace (stop - cur - step) with (stop - (cur + step)) by lia.
      apply map_ext. intros j. lia.
    + replace (stop - cur) with 0 by lia. now rewrite ceil_div_zero.
Qed.

Lemma range_spec (stop step : nat) :
  0 < step ->
  Py.range 0 stop step
  = map (fun j => j * step) (seq 0 (Bundles.ceil_div stop step)).
Proof.
  intros Hs. unfold Py.range. rewrite range_go_spec by lia.
  now rewrite Nat.sub_0_r.
Qed.

Lemma enumerate_map {A B} (f : A -> B) (start : nat) (l : list A) :
  Py.enumerate start (map f l)
  = map (fun p => (fst p, f (snd p))) (Py.enumerate start l).
Proof.
  revert start. induction l as [|x l IH]; intros start; simpl;
    [reflexivity | now rewrite IH].
Qed.

Lemma enumerate_seq (start a n : nat) :
  Py.enumerate start (seq a n)
  = map (fun j => (start + j, a + j)) (seq 0 n).
Proof.
  revert start a. induction n as [|n IH]; intros start a; simpl;
    [reflexivity |].
  f_equal; [f_equal; lia |].
  rewrite IH, <- seq_shift, map_map. apply map_ext. intros j.
  f_equal; lia.
Qed.

(** The pairs the loop of [write_task_bundles] runs over. *)
Lemma todo_spec (n step : nat) :
  0 < step ->
  Py.enumerate 1 (Py.range 0 n step)
  = map (fun j => (S j, j * step)) (seq 0 (Bundles.ceil_div n step)).
Proof.
  intros Hs. rewrite range_spec, enumerate_map, enumerate_seq, map_map by lia.
  apply map_ext. intros j. reflexivity.
Qed.

Lemma concat_chunks {A} (step n : nat) (l : list A) :
  length l <= n * step ->
  concat (map (fun j => Py.slice l (j * step) (j * step + step)) (seq 0 n))
  = l.
Proof.
  revert l. induction n as [|n IH]; intros l Hl.
  - destruct l; [reflexivity | simpl in Hl; lia].
  - cbn [seq map concat]. rewrite <- seq_shift, map_map.
    transitivity (firstn step l ++ skipn step l);
      [| apply firstn_skipn].
    f_equal.
    + unfold Py.slice. simpl. now rewrite Nat.sub_0_r.
    + etransitivity;
        [| apply (IH (skipn step l)); rewrite length_skipn; lia].
      f_equal. apply map_ext. intros j. unfold Py.slice.
      rewrite skipn_skipn. f_equal; [lia | f_equal; lia].
Qed.

Lemma chunk_length (task_list : list Bundles.task) (B j : nat) :
  length (chunk task_list B j) = Nat.min B (length task_list - j * B).
Proof.
  unfold chunk, Py.slice. rewrite length_firstn, length_skipn. lia.
Qed.

(** ** The loop of [write_task_bundles] *)

Section WriteLoop.

Variables (e : Bundles.env) (task_list : list Bundles.task) (B : nat).
Variables (bundle_prefix : string) (jobnum_fmt : nat -> string).
Variables (task_delim task_fmt : string).
Hypothesis fmt_inj : forall a b, jobnum_fmt a = jobnum_fmt b -> a = b.

#[local] Abbreviation file_of := (bundle_file bundle_prefix jobnum_fmt).

#[local] Abbreviation loop :=
  (Bundles.write_loop e task_list B bundle_prefix jobnum_fmt task_delim
                      task_fmt).

Lemma file_of_inj a b : file_of a = file_of b -> a = b.
Proof.
  unfold bundle_file. intros E. apply append_inj_l in E.
  apply (append_inj_l "_") in E. apply append_inj_r in E. now apply fmt_inj.
Qed.

Lemma write_loop_paths todo fs acc :
  snd (loop todo fs acc) = acc ++ map (fun p => file_of (fst p)) todo.
Proof.
  revert fs acc. induction todo as [|[jobnum tasknum] todo IH];
    intros fs acc; simpl.
  - now rewrite app_nil_r.
  - rewrite IH, <- app_assoc. reflexivity.
Qed.

Lemma write_loop_other todo (fs : gmap string string) acc path :
  (forall p, In p todo -> file_of (fst p) <> path) ->
  fst (loop todo fs acc) !! path = fs !! path.
Proof.
  revert fs acc. induction todo as [|[jobnum tasknum] todo IH];
    intros fs acc Hne; [reflexivity |].
  simpl. rewrite IH.
  - apply lookup_insert_ne. apply (Hne (jobnum, tasknum)). now left.
  - intros p Hp. apply Hne. now right.
Qed.

Lemma write_loop_lookup todo (fs : gmap string string) acc jobnum tasknum :
  List.NoDup (map fst todo) -> In (jobnum, tasknum) todo ->
  fst (loop todo fs acc) !! file_of jobnum
  = Some (Bundles.write_bundle e task_delim task_fmt
            (Py.slice task_list tasknum (tasknum + B))).
Proof.
  revert fs acc. induction todo as [|[jn tn] todo IH]; intros fs acc ND Hin;
    [destruct Hin |].
  simpl in ND. apply NoDup_cons_iff in ND as [Hnot ND].
  destruct Hin as [[= -> ->] | Hin].
  - simpl. rewrite write_loop_other.
    + apply lookup_insert_eq.
    + intros p Hp E. apply file_of_inj in E. apply Hnot.
      rewrite <- E. now apply in_map.
  - simpl. now apply IH.
Qed.

End WriteLoop.

(** ** [write_task_bundles] *)

Lemma write_task_bundles_unfold e task_list B dstdir prefix delim fs :
  1 <= B ->
  Bundles.write_task_bundles e task_list B dstdir prefix delim "%s" fs
  = Ok (Bundles.write_loop e task_list B
          (Py.path_join dstdir (prefix +:+ "_" +:+ Bundles.now e))
          (Bundles.get_index_fmtstr
             (Bundles.ceil_div (length task_list) B) 3)
          delim "%s"
          (map (fun j => (S j, j * B))
               (seq 0 (Bundles.ceil_div (length task_list) B)))
          fs []).
Proof.
  intros HB. unfold Bundles.write_task_bundles.
  rewrite andb_false_r.
  destruct (Nat.eqb_spec B 0) as [-> | _]; [lia |].
  now rewrite todo_spec by lia.
Qed.

Lemma write_task_bundles_result e task_list B dstdir prefix delim fs :
  1 <= B ->
  let total := Bundles.ceil_div (length task_list) B in
  exists fs' : gmap string string,
    Bundles.write_task_bundles e task_list B dstdir prefix delim "%s" fs
    = Ok (fs', map (bundle_name e dstdir prefix total) (seq 0 total))
    /\ forall j, j < total ->
         fs' !! bundle_name e dstdir prefix total j
         = Some (Bundles.write_bundle e delim "%s" (chunk task_list B j)).
Proof.
  intros HB total. rewrite write_task_bundles_unfold by exact HB.
  fold total.
  set (pfx := Py.path_join dstdir (prefix +:+ "_" +:+ Bundles.now e)).
  set (fmt := Bundles.get_index_fmtstr total 3).
  set (todo := map (fun j => (S j, j * B)) (seq 0 total)).
  set (out := Bundles.write_loop e task_list B pfx fmt delim "%s" todo fs []).
  exists (fst out). split.
  - rewrite (surjective_pairing out) at 1. do 2 f_equal.
    unfold out. rewrite write_loop_paths. simpl. unfold todo.
    rewrite map_map. apply map_ext. intros j. reflexivity.
  - intros j Hj. unfold out.
    change (bundle_name e dstdir prefix total j)
      with (pfx +:+ "_" +:+ fmt (S j) +:+ ".txt").
    apply (write_loop_lookup e task_list B pfx fmt delim "%s"
             (get_index_fmtstr_inj total 3) todo fs [] (S j) (j * B)).
    + unfold todo. rewrite map_map. simpl. rewrite seq_shift.
      apply List.seq_NoDup.
    + unfold todo. apply in_map_iff. exists j. split; [reflexivity |].
      apply in_seq. lia.
Qed.

Lemma join_concat (sep : string) (l : list string) :
  Py.join sep l = String.concat sep l.
Proof.
  induction l as [|x l IH]; [reflexivity |].
  destruct l as [|y l]; [reflexivity |].
  change (Py.join sep (x :: y :: l))
    with (x +:+ sep +:+ Py.join sep (y :: l)).
  change (String.concat sep (x :: y :: l))
    with (x +:+ sep +:+ String.concat sep (y :: l)).
  now rewrite IH.
Qed.

Lemma concat_lines (lines : list string) (text : string) :
  String.concat EmptyString (text :: lines)
  = text +:+ String.concat EmptyString lines.
Proof.
  destruct lines as [|l lines]; cbn [String.concat];
    [now rewrite append_empty_r | reflexivity].
Qed.

Lemma bundle_text_rows_text (delim : string) (rows : list Bundles.task) :
  Bundles.bundle_text delim rows = rows_text delim rows.
Proof.
  unfold rows_text.
  induction rows as [|t rows IH]; [reflexivity |].
  cbn [Bundles.bundle_text fold_right map]. rewrite concat_lines.
  unfold Bundles.bundle_text in IH. rewrite IH.
  unfold Bundles.task_line. now rewrite join_concat.
Qed.

Lemma write_bundle_content (e : Bundles.env) (delim : string)
    (rows : list Bundles.task) :
  rows <> [] ->
  Bundles.write_bundle e delim "%s" rows = bundle_content e delim rows.
Proof.
  intros Hne. unfold Bundles.write_bundle, bundle_content.
  replace (length rows =? 0) with false
    by (destruct rows; [congruence | reflexivity]).
  destruct (Bundles.imported_numpy e); [reflexivity |].
  apply bundle_text_rows_text.
Qed.

(** C6.  For a non-empty list of [N] tasks and a bundle size [B >= 1],
    [write_task_bundles] returns [ceil(N/B)] paths; the [j]-th (from 0) is
    named with the index [j+1] right-aligned with zeros in width
    [max(3, digits of ceil(N/B))] and the file of that name holds the
    [j]-th run of [B] consecutive tasks, one line per task with the fields
    separated by the delimiter (or what [numpy.savetxt] writes for that
    run, where numpy is importable); every run but the last has [B]
    tasks, the last has between 1 and [B], and the runs in order make up
    the list. *)
Theorem write_task_bundles_chunks e task_list B dstdir prefix delim fs :
  task_list <> [] -> 1 <= B ->
  let total := Bundles.ceil_div (length task_list) B in
  exists fs' : gmap string string,
    Bundles.write_task_bundles e task_list B dstdir prefix delim "%s" fs
    = Ok (fs', map (bundle_name e dstdir prefix total) (seq 0 total))
    /\ 1 <= total
    /\ (forall j, j < total ->
          fs' !! bundle_name e dstdir prefix total j
          = Some (if Bundles.imported_numpy e
                  then Bundles.np_savetxt e (chunk task_list B j) "%s" delim
                  else rows_text delim (chunk task_list B j)))
    /\ (forall j, j + 1 < total -> length (chunk task_list B j) = B)
    /\ 1 <= length (chunk task_list B (total - 1)) <= B
    /\ concat (map (chunk task_list B) (seq 0 total)) = task_list.
Proof.
  intros Hne HB total.
  assert (HN : 0 < length task_list)
    by (destruct task_list; [congruence | simpl; lia]).
  destruct (ceil_div_bounds (length task_list) B HN ltac:(lia)) as [Lo Hi].
  fold total in Lo, Hi.
  destruct (write_task_bundles_result e task_list B dstdir prefix delim fs HB)
    as (fs' & Hw & Hl).
  exists fs'. split; [exact Hw |].
  split; [destruct total; simpl in Hi; lia |].
  split; [| split; [| split]].
  - intros j Hj. fold (bundle_content e delim (chunk task_list B j)).
    rewrite <- write_bundle_content; [exact (Hl j Hj) |].
    intros E. apply (f_equal (@length _)) in E.
    rewrite chunk_length in E. simpl in E. nia.
  - intros j Hj. rewrite chunk_length. nia.
  - rewrite chunk_length. nia.
  - apply concat_chunks. exact Hi.
Qed.

Lemma write_task_bundles_chunks_witness :
  exists fs' : gmap string string,
    Bundles.write_task_bundles env_plain ten_tasks 4 "/bundles" "Copy_srclist"
      "," "%s" ∅
    = Ok (fs', map (bundle_name env_plain "/bundles" "Copy_srclist" 3)
                   (seq 0 3))
    /\ 1 <= 3
    /\ (forall j, j < 3 ->
          fs' !! bundle_name env_plain "/bundles" "Copy_srclist" 3 j
          = Some (rows_text "," (chunk ten_tasks 4 j)))
    /\ (forall j, j + 1 < 3 -> length (chunk ten_tasks 4 j) = 4)
    /\ 1 <= length (chunk ten_tasks 4 (3 - 1)) <= 4
    /\ concat (map (chunk ten_tasks 4) (seq 0 3)) = ten_tasks.
Proof.
  apply (write_task_bundles_chunks env_plain ten_tasks 4 "/bundles"
           "Copy_srclist" "," ∅).
  - discriminate.
  - lia.
Defined.

(** Ten tasks in bundles of four: three files, of 4, 4 and 2 tasks. *)
Example ten_tasks_by_four :
  exists fs' : gmap string string,
    Bundles.write_task_bundles env_plain ten_tasks 4 "/bundles" "Copy_srclist"
      "," "%s" ∅
    = Ok (fs', ["/bundles/Copy_srclist_20200101120000_001.txt";
                "/bundles/Copy_srclist_20200101120000_002.txt";
                "/bundles/Copy_srclist_20200101120000_003.txt"])
    /\ fs' !! "/bundles/Copy_srclist_20200101120000_001.txt"
       = Some ("s0,d0" +:+ String Py.LF ("s1,d1" +:+ String Py.LF
               ("s2,d2" +:+ String Py.LF ("s3,d3" +:+ String Py.LF
                EmptyString))))
    /\ fs' !! "/bundles/Copy_srclist_20200101120000_002.txt"
       = Some ("s4,d4" +:+ String Py.LF ("s5,d5" +:+ String Py.LF
               ("s6,d6" +:+ String Py.LF ("s7,d7" +:+ String Py.LF
                EmptyString))))
    /\ fs' !! "/bundles/Copy_srclist_20200101120000_003.txt"
       = Some ("s8,d8" +:+ String Py.LF ("s9,d9" +:+ String Py.LF
                EmptyString)).
Proof.
  assert (HB : 1 <= 4) by lia.
  destruct (write_task_bundles_result env_plain ten_tasks 4 "/bundles"
              "Copy_srclist" "," ∅ HB) as (fs' & Hw & Hl).
  change (Bundles.ceil_div (length ten_tasks) 4) with 3 in Hl.
  exists fs'. split; [exact Hw |].
  split; [exact (Hl 0 ltac:(lia)) |].
  split; [exact (Hl 1 ltac:(lia)) | exact (Hl 2 ltac:(lia))].
Qed.

(** C7.  On the empty task list the loop of [write_task_bundles] has
    nothing to run over: no file is written and the list of paths that is
    returned is empty. *)
Theorem write_task_bundles_empty_list e b dstdir prefix delim fs :
  Bundles.write_task_bundles e [] (S b) dstdir prefix delim "%s" fs
  = Ok (fs, []).
Proof.
  unfold Bundles.write_task_bundles. rewrite andb_false_r. reflexivity.
Qed.

(** ** Parsing a bundle text *)

Lemma linebreak_is_space (c : ascii) :
  Py.islinebreak c = true -> Py.isspace c = true.
Proof.
  destruct c as [[] [] [] [] [] [] [] []]; vm_compute; congruence.
Qed.

Lemma str_forall_impl (P Q : ascii -> bool) (s : string) :
  (forall c, P c = true -> Q c = true) ->
  str_forall P s = true -> str_forall Q s = true.
Proof.
  intros PQ. induction s as [|c s IH]; simpl; [reflexivity |].
  rewrite !andb_true_iff. intros [Hc Hs]. auto.
Qed.

Lemma str_forall_join (P : ascii -> bool) (sep : string) (l : list string) :
  str_forall P sep = true ->
  forallb (str_forall P) l = true ->
  str_forall P (Py.join sep l) = true.
Proof.
  intros Hsep. induction l as [|x l IH]; simpl; [reflexivity |].
  rewrite andb_true_iff. intros [Hx Hl]. destruct l as [|y l]; [exact Hx |].
  rewrite !str_forall_append, Hx, Hsep. simpl. apply IH. exact Hl.
Qed.

Lemma universal_newlines_id (s : string) :
  str_forall (fun c => negb (Py.islinebreak c) || Ascii.eqb c Py.LF) s = true ->
  Py.universal_newlines s = s.
Proof.
  unfold Py.universal_newlines. induction s as [|c s IH]; simpl;
    [reflexivity |].
  rewrite andb_true_iff. intros [Hc Hs].
  destruct (Ascii.eqb_spec c Py.CR) as [-> | _]; [discriminate Hc |].
  now rewrite IH.
Qed.

Lemma splitlines_line (line rest : string) :
  str_forall (fun c => negb (Py.islinebreak c)) line = true ->
  Py.splitlines (line +:+ String Py.LF rest) = line :: Py.splitlines rest.
Proof.
  unfold Py.splitlines. induction line as [|c line IH]; simpl.
  - reflexivity.
  - rewrite andb_true_iff, negb_true_iff. intros [Hc Hl].
    rewrite Hc, IH by exact Hl. reflexivity.
Qed.

Lemma startswith_empty (s : string) : Py.startswith s EmptyString = true.
Proof. destruct s; reflexivity. Qed.

Lemma split_go_field (c : ascii) (x : string) :
  str_forall (fun a => negb (Ascii.eqb a c)) x = true ->
  Py.split_go (String c EmptyString) 0 x = [x].
Proof.
  induction x as [|a x IH]; simpl; [reflexivity |].
  rewrite andb_true_iff, negb_true_iff. intros [Ha Hx].
  rewrite Ascii.eqb_sym, Ha, IH by exact Hx. reflexivity.
Qed.

Lemma split_go_join (c : ascii) (t : list string) :
  t <> [] ->
  forallb (str_forall (fun a => negb (Ascii.eqb a c))) t = true ->
  Py.split_go (String c EmptyString) 0 (Py.join (String c EmptyString) t) = t.
Proof.
  induction t as [|x t IH]; [congruence |]. intros _.
  simpl. rewrite andb_true_iff. intros [Hx Ht].
  destruct t as [|y t]; [now apply split_go_field |].
  specialize (IH ltac:(discriminate) Ht).
  change (Py.join (String c EmptyString) (x :: y :: t))
    with (x +:+ String c EmptyString
          +:+ Py.join (String c EmptyString) (y :: t)).
  set (J := Py.join (String c EmptyString) (y :: t)) in *.
  revert Hx. induction x as [|a x IHx]; intros Hx.
  - simpl. rewrite Ascii.eqb_refl, startswith_empty. simpl. now rewrite IH.
  - simpl in Hx. rewrite andb_true_iff, negb_true_iff in Hx.
    destruct Hx as [Ha Hx]. simpl.
    rewrite Ascii.eqb_sym, Ha. simpl. now rewrite IHx.
Qed.

Lemma rstrip_keeps_nonspace (s : string) :
  str_forall Py.isspace s = false ->
  str_forall Py.isspace (Py.rstrip s) = false.
Proof.
  induction s as [|c s IH]; simpl; [auto |].
  destruct (Py.isspace c) eqn:Hc; simpl.
  - intros Hs. specialize (IH Hs).
    destruct (Py.rstrip s) as [|d r] eqn:Er; [discriminate IH |].
    simpl. rewrite Hc. exact IH.
  - intros _. rewrite andb_false_r. simpl. now rewrite Hc.
Qed.

Lemma lstrip_nonempty (s : string) :
  str_forall Py.isspace s = false -> Py.isempty (Py.lstrip s) = false.
Proof.
  induction s as [|c s IH]; simpl; [discriminate |].
  destruct (Py.isspace c) eqn:Hc; simpl; auto.
Qed.

Lemma strip_nonempty (s : string) :
  str_forall Py.isspace s = false -> Py.isempty (Py.strip s) = false.
Proof.
  intros H. unfold Py.strip. now apply lstrip_nonempty, rstrip_keeps_nonspace.
Qed.

Lemma join_has_delim (c : ascii) (x y : string) (t : list string) :
  Py.isspace c = false ->
  str_forall Py.isspace (Py.join (String c EmptyString) (x :: y :: t))
  = false.
Proof.
  intros Hc. cbn [Py.join]. rewrite str_forall_append. simpl.
  rewrite Hc. simpl. apply andb_false_r.
Qed.

Lemma rmapM_ok {A B} (f : A -> result B) (g : A -> B) (l : list A) :
  (forall x, In x l -> f x = Ok (g x)) -> rmapM f l = Ok (map g l).
Proof.
  induction l as [|x l IH]; intros H; simpl; [reflexivity |].
  rewrite (H x) by now left. simpl. rewrite IH; [reflexivity |].
  intros y Hy. apply H. now right.
Qed.

Section CleanRows.

Variables (c : ascii) (k : nat).
Hypothesis c_not_space : Py.isspace c = false.
Hypothesis two_columns : 2 <= k.

#[local] Abbreviation delim := (String c EmptyString).

Lemma clean_task_fields (t : Bundles.task) :
  clean_task c k t = true ->
  length t = k
  /\ forallb (str_forall (fun a => negb (Ascii.eqb a c))) t = true
  /\ forallb (str_forall (fun a => negb (Py.islinebreak a))) t = true
  /\ map Py.strip t = t.
Proof.
  unfold clean_task. rewrite andb_true_iff. intros [Hlen Hf].
  apply Nat.eqb_eq in Hlen. split; [exact Hlen |]. clear Hlen.
  induction t as [|f t IH]; simpl in *; [auto |].
  apply andb_true_iff in Hf as [Hc Ht]. destruct (IH Ht) as (I1 & I2 & I3).
  unfold clean_field in Hc. apply andb_true_iff in Hc as [Hchars Hstrip].
  apply String.eqb_eq in Hstrip.
  rewrite I1, I2, I3, Hstrip, !andb_true_r.
  split; [| split; [| reflexivity]].
  - eapply str_forall_impl; [| exact Hchars]. intros a Ha.
    now apply andb_true_iff in Ha as [Ha _].
  - eapply str_forall_impl; [| exact Hchars]. intros a Ha.
    now apply andb_true_iff in Ha as [_ Ha].
Qed.

Lemma c_not_linebreak : Py.islinebreak c = false.
Proof.
  destruct (Py.islinebreak c) eqn:E; [| reflexivity].
  apply linebreak_is_space in E. congruence.
Qed.

Lemma clean_line (t : Bundles.task) :
  clean_task c k t = true ->
  str_forall (fun a => negb (Py.islinebreak a)) (Py.join delim t) = true.
Proof.
  intros Ht. destruct (clean_task_fields t Ht) as (_ & _ & Hlb & _).
  apply str_forall_join; [| exact Hlb].
  simpl. now rewrite c_not_linebreak.
Qed.

Lemma splitlines_bundle_text (rows : list Bundles.task) :
  forallb (clean_task c k) rows = true ->
  Py.splitlines (Bundles.bundle_text delim rows) = map (Py.join delim) rows.
Proof.
  induction rows as [|t rows IH]; simpl; [reflexivity |].
  rewrite andb_true_iff. intros [Ht Hrows].
  unfold Bundles.task_line. rewrite append_assoc. simpl.
  rewrite splitlines_line by now apply clean_line.
  now rewrite IH.
Qed.

Lemma bundle_text_translated (rows : list Bundles.task) :
  forallb (clean_task c k) rows = true ->
  Py.universal_newlines (Bundles.bundle_text delim rows)
  = Bundles.bundle_text delim rows.
Proof.
  intros Hrows. apply universal_newlines_id.
  induction rows as [|t rows IH]; simpl in *; [reflexivity |].
  apply andb_true_iff in Hrows as [Ht Hrows].
  unfold Bundles.task_line. rewrite !str_forall_append. simpl.
  rewrite IH by exact Hrows. rewrite !andb_true_r.
  eapply str_forall_impl; [| apply (clean_line t Ht)].
  intros a Ha. simpl in Ha. now rewrite Ha.
Qed.

Lemma lines_kept (rows : list Bundles.task) :
  forallb (clean_task c k) rows = true ->
  List.filter (fun line => negb (Py.isempty (Py.strip line)))
              (map (Py.join delim) rows)
  = map (Py.join delim) rows.
Proof.
  induction rows as [|t rows IH]; simpl; [reflexivity |].
  rewrite andb_true_iff. intros [Ht Hrows].
  destruct (clean_task_fields t Ht) as (Hlen & _).
  destruct t as [|x [|y t]]; simpl in Hlen; try lia.
  rewrite strip_nonempty by now apply join_has_delim.
  simpl. now rewrite IH.
Qed.

Lemma rows_parsed (rows : list Bundles.task) :
  forallb (clean_task c k) rows = true ->
  rmapM (fun t => rbind (Py.split delim t)
                    (fun args => Ok (map Py.strip args)))
        (map (Py.join delim) rows)
  = Ok rows.
Proof.
  induction rows as [|t rows IH]; intros Hrows; [reflexivity |].
  cbn [forallb] in Hrows. apply andb_true_iff in Hrows as [Ht Hrows].
  destruct (clean_task_fields t Ht) as (Hlen & Hc & _ & Hstrip).
  cbn [map rmapM]. rewrite IH by exact Hrows.
  unfold Py.split. change (Py.isempty delim) with false. cbn iota.
  rewrite split_go_join; [| intros ->; simpl in Hlen; lia | exact Hc].
  cbn [rbind]. now rewrite Hstrip.
Qed.

Lemma rows_all_len (rows : list Bundles.task) :
  forallb (clean_task c k) rows = true ->
  Py.all_len k rows = true /\ map (@length string) rows = map (fun _ => k) rows.
Proof.
  induction rows as [|t rows IH]; simpl; [auto |].
  rewrite andb_true_iff. intros [Ht Hrows].
  destruct (clean_task_fields t Ht) as (Hlen & _).
  destruct (IH Hrows) as [I1 I2].
  rewrite Hlen, Nat.eqb_refl, I1, I2. auto.
Qed.

Lemma rows_stay_lists (rows : list Bundles.task) :
  forallb (clean_task c k) rows = true ->
  map (fun row : list string =>
         match row with
         | [x] => Bundles.IStr x
         | _ => Bundles.IList row
         end) rows
  = map Bundles.IList rows.
Proof.
  induction rows as [|t rows IH]; simpl; [reflexivity |].
  rewrite andb_true_iff. intros [Ht Hrows].
  destruct (clean_task_fields t Ht) as (Hlen & _).
  rewrite IH by exact Hrows.
  destruct t as [|x [|y t]]; simpl in Hlen; try lia; reflexivity.
Qed.

(** The parser of [read_task_bundle] on the text written for clean rows
    gives the rows back. *)
Lemma read_plain_bundle_text (rows : list Bundles.task) (file : string) :
  rows <> [] ->
  forallb (clean_task c k) rows = true ->
  Bundles.read_plain (Bundles.bundle_text delim rows) file (Some delim) 0
                     true None None true false
  = Ok (map Bundles.IList rows, None, None).
Proof.
  intros Hne Hrows. unfold Bundles.read_plain.
  rewrite splitlines_bundle_text by exact Hrows.
  rewrite lines_kept by exact Hrows.
  cbn [Nat.ltb Nat.leb andb]. rewrite length_map.
  destruct (rows_all_len rows Hrows) as [Hall Hlens].
  assert (Hhd : hd 0 (map (fun _ : Bundles.task => k) rows) = k)
    by (destruct rows; [congruence | reflexivity]).
  rewrite rows_parsed by exact Hrows. cbn [rbind].
  rewrite Hlens, Hhd, Hall. cbn [andb negb].
  rewrite rows_stay_lists by exact Hrows.
  destruct rows; [congruence | reflexivity].
Qed.

(** The reader of the numpy of the examples on such text. *)
Lemma rows_split (rows : list Bundles.task) :
  forallb (clean_task c k) rows = true ->
  rmapM (Py.split delim) (map (Py.join delim) rows) = Ok rows.
Proof.
  induction rows as [|t rows IH]; intros Hrows; [reflexivity |].
  cbn [forallb] in Hrows. apply andb_true_iff in Hrows as [Ht Hrows].
  destruct (clean_task_fields t Ht) as (Hlen & Hc & _ & _).
  cbn [map rmapM]. rewrite IH by exact Hrows.
  unfold Py.split. change (Py.isempty delim) with false. cbn iota.
  rewrite split_go_join; [reflexivity | intros ->; simpl in Hlen; lia |
                          exact Hc].
Qed.

Lemma cut_comment_id (s : string) :
  str_forall (fun a => negb (Ascii.eqb a "#")) s = true -> cut_comment s = s.
Proof.
  induction s as [|a s IH]; simpl; [reflexivity |].
  rewrite andb_true_iff, negb_true_iff. intros [-> Hs]. now rewrite IH.
Qed.

Lemma lines_without_comment (rows : list Bundles.task) :
  c <> "#"%char ->
  forallb hash_free rows = true ->
  map cut_comment (map (Py.join delim) rows) = map (Py.join delim) rows.
Proof.
  intros Hc. induction rows as [|t rows IH]; simpl; [reflexivity |].
  rewrite andb_true_iff. intros [Ht Hrows]. rewrite IH by exact Hrows.
  f_equal. apply cut_comment_id. apply str_forall_join; [| exact Ht].
  simpl. rewrite andb_true_r. apply negb_true_iff, Ascii.eqb_neq. exact Hc.
Qed.

Lemma lines_not_empty (rows : list Bundles.task) :
  forallb (clean_task c k) rows = true ->
  List.filter (fun line => negb (Py.isempty line)) (map (Py.join delim) rows)
  = map (Py.join delim) rows.
Proof.
  induction rows as [|t rows IH]; simpl; [reflexivity |].
  rewrite andb_true_iff. intros [Ht Hrows].
  destruct (clean_task_fields t Ht) as (Hlen & _).
  rewrite IH by exact Hrows.
  destruct t as [|x [|y t]]; simpl in Hlen; try lia.
  pose proof (join_has_delim c x y t c_not_space) as Hj.
  destruct (Py.join delim (x :: y :: t)); [discriminate Hj | reflexivity].
Qed.

Lemma np_loadtxt_doc_rows : c <> "#"%char -> numpy_reads_rows env_numpy c k.
Proof.
  intros Hc rows Hne Hrows Hfree.
  cbn [Bundles.np_loadtxt env_numpy]. unfold np_loadtxt_doc.
  rewrite <- bundle_text_rows_text.
  rewrite splitlines_bundle_text by exact Hrows. rewrite drop_0.
  rewrite lines_without_comment by assumption.
  rewrite lines_not_empty by exact Hrows.
  rewrite rows_split by exact Hrows. cbn [rbind].
  destruct (rows_all_len rows Hrows) as [Hall _].
  assert (Hhd : length (hd [] rows) = k).
  { destruct rows as [|t rows']; [congruence |].
    cbn [forallb] in Hrows. apply andb_true_iff in Hrows as [Ht _].
    now destruct (clean_task_fields t Ht) as (Hlen & _). }
  now rewrite Hhd, Hall.
Qed.

End CleanRows.

(** ** Reading back what was written *)

Lemma forallb_firstn {A} (P : A -> bool) (n : nat) (l : list A) :
  forallb P l = true -> forallb P (firstn n l) = true.
Proof.
  revert l. induction n as [|n IH]; intros [|x l]; simpl; auto.
  rewrite !andb_true_iff. intros [Hx Hl]. auto.
Qed.

Lemma forallb_skipn {A} (P : A -> bool) (n : nat) (l : list A) :
  forallb P l = true -> forallb P (skipn n l) = true.
Proof.
  revert l. induction n as [|n IH]; intros [|x l]; simpl; auto.
  rewrite andb_true_iff. intros [Hx Hl]. auto.
Qed.

Lemma forallb_slice {A} (P : A -> bool) (l : list A) (i j : nat) :
  forallb P l = true -> forallb P (Py.slice l i j) = true.
Proof.
  intros H. unfold Py.slice. now apply forallb_firstn, forallb_skipn.
Qed.

Lemma read_written_bundle (e : Bundles.env) (c : ascii) (k : nat)
    (fs : gmap string string) (file : string) (rows : list Bundles.task) :
  Py.isspace c = false -> 2 <= k ->
  (Bundles.imported_numpy e = true ->
     forallb hash_free rows = true
     /\ numpy_writes_rows e c k /\ numpy_reads_rows e c k) ->
  rows <> [] ->
  forallb (clean_task c k) rows = true ->
  fs !! file
  = Some (Bundles.write_bundle e (String c EmptyString) "%s" rows) ->
  Bundles.read_task_bundle_default e (String c EmptyString) fs file
  = Ok (map Bundles.IList rows).
Proof.
  intros Hc Hk Hnp Hne Hrows Hfile.
  unfold Bundles.read_task_bundle_default, Bundles.read_task_bundle.
  rewrite Hfile. unfold Bundles.write_bundle.
  replace (length rows =? 0) with false
    by (destruct rows; [congruence | reflexivity]).
  cbn [andb]. destruct (Bundles.imported_numpy e) eqn:Enp.
  - destruct (Hnp eq_refl) as (Hfree & Hsave & Hload).
    unfold Bundles.read_numpy.
    rewrite (Hsave rows Hne Hrows Hfree), (Hload rows Hne Hrows Hfree).
    cbn [Bundles.check_ncol rbind andb].
    replace (k =? 1) with false by (symmetry; apply Nat.eqb_neq; lia).
    reflexivity.
  - rewrite (bundle_text_translated c k Hc rows Hrows).
    rewrite (read_plain_bundle_text c k Hc Hk rows file Hne Hrows).
    reflexivity.
Qed.

Lemma rmapM_map_ok {A B C} (f : B -> result C) (h : A -> B) (g : A -> C)
    (l : list A) :
  (forall x, In x l -> f (h x) = Ok (g x)) ->
  rmapM f (map h l) = Ok (map g l).
Proof.
  induction l as [|x l IH]; intros H; simpl; [reflexivity |].
  rewrite (H x) by now left. simpl. rewrite IH; [reflexivity |].
  intros y Hy. apply H. now right.
Qed.

(** C5, as the code has it.  For a single-character delimiter that is not
    white space and tasks of [k >= 2] fields each, none of which contains
    the delimiter or a line boundary or starts or ends with white space,
    writing the tasks with [write_task_bundles] (bundle size [B >= 1]),
    reading every returned file back with [read_task_bundle] and
    concatenating in the order of the returned paths gives the tasks back,
    in order, each as the list of its fields.  Where numpy is importable
    the two functions hand the file to it: then, in addition, the
    delimiter is not ['#'] and no field contains ['#'] (which
    [numpy.loadtxt], called without [comments=], takes for the start of a
    comment), and numpy writes one line per row and reads such lines as
    its documentation says. *)
Theorem write_then_read_clean_tasks (e : Bundles.env) (c : ascii) (k : nat)
    (task_list : list Bundles.task) (B : nat) (dstdir prefix : string)
    (fs : gmap string string) :
  Py.isspace c = false -> 2 <= k -> 1 <= B ->
  (Bundles.imported_numpy e = true -> numpy_ready e c k task_list) ->
  forallb (clean_task c k) task_list = true ->
  Bundles.write_then_read e (String c EmptyString) task_list B dstdir prefix fs
  = Ok (map Bundles.IList task_list).
Proof.
  intros Hc Hk HB Hnp Hclean. unfold Bundles.write_then_read.
  destruct (write_task_bundles_result e task_list B dstdir prefix
              (String c EmptyString) fs HB) as (fs' & Hw & Hl).
  rewrite Hw. cbn [rbind].
  set (total := Bundles.ceil_div (length task_list) B) in *.
  assert (Hcover : length task_list <= total * B).
  { destruct (Nat.eq_dec (length task_list) 0) as [Z | NZ]; [lia |].
    apply ceil_div_bounds; lia. }
  rewrite (rmapM_map_ok _ _ (fun j => map Bundles.IList (chunk task_list B j))).
  - cbn [rbind]. f_equal.
    rewrite <- (map_map (chunk task_list B) (map Bundles.IList)).
    rewrite <- concat_map. f_equal. now apply concat_chunks.
  - intros j Hj. apply in_seq in Hj.
    assert (HN : 0 < length task_list).
    { destruct (length task_list) eqn:E; [| lia].
      unfold total in Hj. rewrite ceil_div_zero in Hj. lia. }
    destruct (ceil_div_bounds (length task_list) B HN ltac:(lia)) as [Lo _].
    fold total in Lo.
    apply (read_written_bundle e c k fs' _ (chunk task_list B j) Hc Hk).
    + intros Enp. destruct (Hnp Enp) as (_ & Hfree & Hsave & Hload).
      split; [now apply forallb_slice | auto].
    + intros E. apply (f_equal (@length _)) in E.
      rewrite chunk_length in E. simpl in E. nia.
    + now apply forallb_slice.
    + apply Hl. lia.
Qed.

Lemma write_then_read_clean_tasks_witness :
  Bundles.write_then_read env_numpy "," ten_tasks 4 "/bundles" "Copy_srclist"
                          ∅
  = Ok (map Bundles.IList ten_tasks).
Proof.
  apply (write_then_read_clean_tasks env_numpy ","%char 2 ten_tasks 4).
  - reflexivity.
  - lia.
  - lia.
  - intros _. split; [discriminate |]. split; [reflexivity |].
    split.
    + intros rows _ _ _. reflexivity.
    + apply np_loadtxt_doc_rows; [reflexivity | lia | discriminate].
  - reflexivity.
Defined.

(** The same tasks without numpy. *)
Example write_then_read_without_numpy :
  Bundles.write_then_read env_plain "," ten_tasks 4 "/bundles" "Copy_srclist"
                          ∅
  = Ok (map Bundles.IList ten_tasks).
Proof. vm_compute. reflexivity. Qed.

(** With numpy a field that contains ['#'] does not come back: the row
    [("a#1", "b")] is read as the one field ["a"]. *)
Example write_then_read_hash_in_field :
  Bundles.write_then_read env_numpy "," [["a#1"; "b"]] 1 "/bundles" "Copy" ∅
  = Ok [Bundles.IStr "a"].
Proof. vm_compute. reflexivity. Qed.

(** A field that contains the delimiter does not come back: the task
    [("a,b", "c")] is read as a row of three fields. *)
Lemma write_then_read_comma_in_field :
  Bundles.write_then_read env_plain "," [["a,b"; "c"]] 1 "/bundles" "Copy" ∅
  <> Ok (map Bundles.IList [["a,b"; "c"]]).
Proof. vm_compute. intros E. discriminate E. Qed.

(** White space around a field is lost as well. *)
Example write_then_read_space_around_field :
  Bundles.write_then_read env_plain "," [[" a"; "b"]] 1 "/bundles" "Copy" ∅
  = Ok [Bundles.IList ["a"; "b"]].
Proof. reflexivity. Qed.

(** ** Computations and their traces *)

Section Computations.

Context {world : Type}.

Lemma bind_ok {A B} (m : M world A) (k : A -> M world B) w tr w' b :
  bind m k w = (tr, w', Ok b) ->
  exists tr1 w1 a tr2,
    m w = (tr1, w1, Ok a) /\ k a w1 = (tr2, w', Ok b) /\ tr = tr1 ++ tr2.
Proof.
  unfold bind. destruct (m w) as [[tr1 w1] [a | ex]]; [| discriminate].
  destruct (k a w1) as [[tr2 w2] r] eqn:Ek. intros [= <- <- ->].
  exists tr1, w1, a, tr2. auto.
Qed.

Lemma emits_ret {A} P (a : A) : emits P (@ret world A a).
Proof. intros w tr w' r [= <- _ _]. reflexivity. Qed.

Lemma emits_raise {A} P ex : emits P (@raise world A ex).
Proof. intros w tr w' r [= <- _ _]. reflexivity. Qed.

Lemma emits_observe {A} P (f : world -> A) : emits P (observe f).
Proof. intros w tr w' r [= <- _ _]. reflexivity. Qed.

Lemma emits_try_observe {A} P (f : world -> result A) :
  emits P (try_observe f).
Proof. intros w tr w' r [= <- _ _]. reflexivity. Qed.

Lemma emits_emit P ev : P ev = true -> emits P (@emit world ev).
Proof. intros H w tr w' r [= <- _ _]. simpl. now rewrite H. Qed.

Lemma emits_mutate P ev f : P ev = true -> emits P (@mutate world ev f).
Proof.
  intros H w tr w' r. unfold mutate.
  destruct (f w); intros [= <- _ _]; simpl; now rewrite H.
Qed.

Lemma emits_bind {A B} P (m : M world A) (k : A -> M world B) :
  emits P m -> (forall a, emits P (k a)) -> emits P (bind m k).
Proof.
  intros Hm Hk w tr w' r. unfold bind.
  destruct (m w) as [[tr1 w1] [a | ex]] eqn:Em.
  - destruct (k a w1) as [[tr2 w2] r2] eqn:Ek. intros [= <- _ _].
    rewrite forallb_app, (Hm _ _ _ _ Em), (Hk _ _ _ _ _ Ek). reflexivity.
  - intros [= <- _ _]. exact (Hm _ _ _ _ Em).
Qed.

Lemma emits_for_each {A} P (l : list A) (body : A -> M world unit) :
  (forall x, emits P (body x)) -> emits P (for_each l body).
Proof.
  intros Hb. induction l as [|x l IH]; simpl.
  - apply emits_ret.
  - apply emits_bind; [apply Hb | intros _; exact IH].
Qed.

Lemma frames_ret {A} (a : A) : frames (@ret world A a).
Proof. intros w tr w' r [= _ <- _]. reflexivity. Qed.

Lemma frames_raise {A} ex : frames (@raise world A ex).
Proof. intros w tr w' r [= _ <- _]. reflexivity. Qed.

Lemma frames_observe {A} (f : world -> A) : frames (observe f).
Proof. intros w tr w' r [= _ <- _]. reflexivity. Qed.

Lemma frames_try_observe {A} (f : world -> result A) :
  frames (try_observe f).
Proof. intros w tr w' r [= _ <- _]. reflexivity. Qed.

Lemma frames_emit ev : frames (@emit world ev).
Proof. intros w tr w' r [= _ <- _]. reflexivity. Qed.

Lemma frames_bind {A B} (m : M world A) (k : A -> M world B) :
  frames m -> (forall a, frames (k a)) -> frames (bind m k).
Proof.
  intros Hm Hk w tr w' r. unfold bind.
  destruct (m w) as [[tr1 w1] [a | ex]] eqn:Em.
  - destruct (k a w1) as [[tr2 w2] r2] eqn:Ek. intros [= _ <- _].
    rewrite (Hk _ _ _ _ _ Ek). exact (Hm _ _ _ _ Em).
  - intros [= _ <- _]. exact (Hm _ _ _ _ Em).
Qed.

Lemma frames_for_each {A} (l : list A) (body : A -> M world unit) :
  (forall x, frames (body x)) -> frames (for_each l body).
Proof.
  intros Hb. induction l as [|x l IH]; simpl.
  - apply frames_ret.
  - apply frames_bind; [apply Hb | intros _; exact IH].
Qed.

Context `{OS world}.

Lemma emits_execute_command P cmd :
  P (Command cmd) = true -> emits P (execute_command cmd).
Proof.
  intros HP w tr w' r. unfold execute_command.
  destruct (popen w cmd) as [w1 rc].
  destruct (rc =? 0)%nat; intros [= <- _ _]; simpl; now rewrite HP.
Qed.

End Computations.

(** Break a computation down to its primitive steps. *)
Ltac emits_step :=
  match goal with
  | |- emits _ (bind _ _) => apply emits_bind; [| intros ?]
  | |- emits _ (ret _) => apply emits_ret
  | |- emits _ (raise _) => apply emits_raise
  | |- emits _ (observe _) => apply emits_observe
  | |- emits _ (try_observe _) => apply emits_try_observe
  | |- emits _ (emit _) => apply emits_emit; reflexivity
  | |- emits _ (mutate _ _) => apply emits_mutate; reflexivity
  | |- emits _ (execute_command _) =>
      apply emits_execute_command; reflexivity
  | |- emits _ (if ?b then _ else _) => destruct b
  | |- emits _ (match ?x with _ => _ end) => destruct x
  end.

Ltac frames_step :=
  match goal with
  | |- frames (bind _ _) => apply frames_bind; [| intros ?]
  | |- frames (ret _) => apply frames_ret
  | |- frames (raise _) => apply frames_raise
  | |- frames (observe _) => apply frames_observe
  | |- frames (try_observe _) => apply frames_try_observe
  | |- frames (emit _) => apply frames_emit
  | |- frames (if ?b then _ else _) => destruct b
  | |- frames (match ?x with _ => _ end) => destruct x
  end.

Lemma exec_calls_app tr1 tr2 :
  exec_calls (tr1 ++ tr2) = exec_calls tr1 ++ exec_calls tr2.
Proof. apply flat_map_app. Qed.

Lemma yields_app tr1 tr2 : yields (tr1 ++ tr2) = yields tr1 ++ yields tr2.
Proof. apply flat_map_app. Qed.

Lemma mutations_app tr1 tr2 :
  mutations (tr1 ++ tr2) = mutations tr1 ++ mutations tr2.
Proof. unfold mutations. apply List.filter_app. Qed.

Lemma quiet_trace tr :
  forallb quiet tr = true -> exec_calls tr = [] /\ yields tr = [].
Proof.
  induction tr as [|ev tr IH]; simpl; [auto |].
  rewrite andb_true_iff. intros [Hev Htr]. destruct (IH Htr) as [-> ->].
  destruct ev; try discriminate; auto.
Qed.

Lemma no_mutation_trace tr :
  forallb (fun ev => negb (mutating ev)) tr = true -> mutations tr = [].
Proof.
  induction tr as [|ev tr IH]; simpl; [auto |].
  rewrite andb_true_iff, negb_true_iff. intros [-> Htr]. now apply IH.
Qed.

(** ** [CopyMethod.exec] *)

Section Exec.

Context {world : Type} `{OS world}.

(** A call of [exec] is logged once, at its start. *)
Lemma exec_trace (cm : CopyMethod.t) (s d : string) (w w' : world) tr r :
  CopyMethod.exec cm s d w = (tr, w', r) ->
  exists tr', tr = ExecCall s d :: tr' /\ forallb quiet tr' = true.
Proof.
  unfold CopyMethod.exec.
  match goal with
  | |- bind (emit ?ev) ?k w = _ -> _ =>
      assert (Hk : emits quiet (k tt)); [| unfold bind at 1; cbn [emit];
        destruct (k tt w) as [[tr' w2] r2] eqn:Ek; intros [= <- _ _];
        exists tr'; split; [reflexivity | exact (Hk _ _ _ _ Ek)]]
  end.
  repeat emits_step.
Qed.

(** In dry-run mode [exec] changes nothing. *)
Lemma exec_dryrun (cm : CopyMethod.t) (s d : string) :
  CopyMethod.dryrun cm = true ->
  frames (CopyMethod.exec cm s d)
  /\ emits (fun ev => negb (mutating ev)) (CopyMethod.exec cm s d).
Proof.
  intros Hdry. unfold CopyMethod.exec. rewrite Hdry. cbn [negb andb].
  split.
  - repeat frames_step.
  - repeat emits_step.
Qed.

End Exec.

Section ExecExisting.

Context {world : Type} `{OS world}.

(** A format string that [str.format] cannot fill: the call raises before
    anything is logged, removed or transferred. *)
Lemma exec_format_error (cm : CopyMethod.t) (s d : string) (w : world) ex :
  command_line world cm s d = Raise ex ->
  CopyMethod.exec cm s d w = ([ExecCall s d], w, Raise ex).
Proof.
  unfold command_line, CopyMethod.exec, bind, emit, try_observe, ret.
  destruct (CopyMethod.copy_shcmd cm) as [shcmd |]; [| discriminate].
  destruct (CopyMethod.copy_shcmd_is_fmtstr cm).
  - destruct (str_format shcmd s d); [discriminate | now intros [= ->]].
  - destruct (CopyMethod.reverse_args cm); discriminate.
Qed.

Lemma exec_skip (cm : CopyMethod.t) (s d : string) (w : world) line :
  command_line world cm s d = Ok line ->
  os_path_isfile w d = true -> CopyMethod.copy_overwrite cm = false ->
  CopyMethod.exec cm s d w
  = match (if compares_files cm then filecmp_cmp w s d else Ok false) with
    | Ok same =>
        (ExecCall s d
           :: (if CopyMethod.verbose cm then [skip_line cm s d same] else []),
         w, Ok tt)
    | Raise ex => ([ExecCall s d], w, Raise ex)
    end.
Proof.
  intros Hline Hfile Hov.
  unfold CopyMethod.exec, compares_files, skip_line, bind, emit, observe,
    try_observe, ret.
  revert Hline. unfold command_line.
  destruct (CopyMethod.copy_shcmd cm) as [shcmd |];
    [destruct (CopyMethod.copy_shcmd_is_fmtstr cm);
     [destruct (str_format shcmd s d); [| discriminate]
     | destruct (CopyMethod.reverse_args cm)] |];
    intros _; rewrite Hfile, Hov;
    (destruct (Py.mem (CopyMethod.action_verb cm) ["HARDLINKING"; "LINKING"]);
     [destruct (filecmp_cmp w s d) as [same | ex]; [| reflexivity] |]);
    destruct (CopyMethod.verbose cm); reflexivity.
Qed.

Lemma exec_overwrite (cm : CopyMethod.t) (s d : string) (w w' : world) tr r
    line :
  command_line world cm s d = Ok line ->
  os_path_isfile w d = true -> CopyMethod.copy_overwrite cm = true ->
  CopyMethod.dryrun cm = false ->
  CopyMethod.exec cm s d w = (tr, w', r) ->
  match os_remove w d with
  | Ok w1 =>
      mutations tr
      = Remove d :: match transfer_event cm line s d with
                    | Some ev => [ev]
                    | None => []
                    end
  | Raise ex => mutations tr = [Remove d] /\ r = Raise ex /\ w' = w
  end.
Proof.
  intros Hline Hfile Hov Hdry.
  unfold CopyMethod.exec, transfer_event, bind, emit, observe, try_observe,
    ret, mutate, raise, execute_command.
  revert Hline. unfold command_line.
  destruct (CopyMethod.copy_shcmd cm) as [shcmd |];
    [destruct (CopyMethod.copy_shcmd_is_fmtstr cm);
     [destruct (str_format shcmd s d); [| discriminate]
     | destruct (CopyMethod.reverse_args cm)] |];
    intros [= <-]; rewrite Hfile, Hov, Hdry; cbn [negb andb];
    destruct (CopyMethod.verbose cm), (CopyMethod.debug cm); cbn [andb];
    (destruct (os_remove w d) as [w1 | ex];
     [ try match goal with
           | |- context [popen w1 ?c] =>
               destruct (popen w1 c) as [w2 rc]; destruct (rc =? 0)%nat
           end;
       try (destruct (CopyMethod.copy_fn cm) as [f |];
            [ destruct (CopyMethod.reverse_args cm);
              match goal with
              | |- context [call_copy_fn f w1 ?a ?b] =>
                  destruct (call_copy_fn f w1 a b)
              end
            | ])
     | ]);
    intros [= <- <- <-]; auto.
Qed.

(** C4, as the code has it.  The command line of a shell strategy is made
    first; if the strategy's format string cannot be filled, the call
    raises what [str.format] raises and nothing is logged, removed or
    transferred.  Otherwise, when the destination is an existing file:
    with overwrite off the transfer is skipped (no call that changes the
    file system, the state as it was) and, if [verbose] is set, the one
    line logged says "correct link already exists" when the strategy's
    verb is HARDLINKING or LINKING and [filecmp.cmp] finds the files equal,
    and "destination file already exists" in every other case (for the
    symlink and copy strategies without any comparison); with overwrite
    on and dry-run off the first call that changes the file system is the
    removal of the destination and, when it succeeds, the second and last
    one is the transfer. *)
Theorem exec_existing_destination (cm : CopyMethod.t) (s d : string)
    (w w' : world) tr r :
  os_path_isfile w d = true ->
  CopyMethod.exec cm s d w = (tr, w', r) ->
  match command_line world cm s d with
  | Raise ex => tr = [ExecCall s d] /\ w' = w /\ r = Raise ex
  | Ok line =>
      (CopyMethod.copy_overwrite cm = false ->
         w' = w /\ mutations tr = []
         /\ match (if compares_files cm then filecmp_cmp w s d
                   else Ok false) with
            | Ok same =>
                r = Ok tt
                /\ (CopyMethod.verbose cm = true ->
                      tr = [ExecCall s d; skip_line cm s d same])
            | Raise ex => r = Raise ex
            end)
      /\ (CopyMethod.copy_overwrite cm = true ->
          CopyMethod.dryrun cm = false ->
            match os_remove w d with
            | Ok w1 =>
                mutations tr
                = Remove d :: match transfer_event cm line s d with
                              | Some ev => [ev]
                              | None => []
                              end
            | Raise ex => mutations tr = [Remove d] /\ r = Raise ex /\ w' = w
            end)
  end.
Proof.
  intros Hfile Hrun.
  destruct (command_line world cm s d) as [line | ex] eqn:Hline.
  - split.
    + intros Hov. rewrite (exec_skip cm s d w line Hline Hfile Hov) in Hrun.
      destruct (if compares_files cm then filecmp_cmp w s d else Ok false)
        as [same | ex].
      * injection Hrun as <- <- <-.
        destruct (CopyMethod.verbose cm); repeat split; auto; discriminate.
      * injection Hrun as <- <- <-. auto.
    + intros Hov Hdry.
      exact (exec_overwrite cm s d w w' tr r line Hline Hfile Hov Hdry Hrun).
  - rewrite (exec_format_error cm s d w ex Hline) in Hrun.
    injection Hrun as <- <- <-. auto.
Qed.

End ExecExisting.

Lemma exec_existing_destination_witness :
  let cm := CopyMethod.COPY_METHOD_HARDLINK LINUX in
  let out := CopyMethod.exec cm "/src/a.txt" "/dst/a.txt" linked_tree in
  match command_line fsys cm "/src/a.txt" "/dst/a.txt" with
  | Raise ex =>
      fst (fst out) = [ExecCall "/src/a.txt" "/dst/a.txt"]
      /\ snd (fst out) = linked_tree /\ snd out = Raise ex
  | Ok line =>
      (CopyMethod.copy_overwrite cm = false ->
         snd (fst out) = linked_tree /\ mutations (fst (fst out)) = []
         /\ match (if compares_files cm
                   then filecmp_cmp linked_tree "/src/a.txt" "/dst/a.txt"
                   else Ok false) with
            | Ok same =>
                snd out = Ok tt
                /\ (CopyMethod.verbose cm = true ->
                      fst (fst out)
                      = [ExecCall "/src/a.txt" "/dst/a.txt";
                         skip_line cm "/src/a.txt" "/dst/a.txt" same])
            | Raise ex => snd out = Raise ex
            end)
      /\ (CopyMethod.copy_overwrite cm = true ->
          CopyMethod.dryrun cm = false ->
            match os_remove linked_tree "/dst/a.txt" with
            | Ok w1 =>
                mutations (fst (fst out))
                = Remove "/dst/a.txt"
                    :: match transfer_event cm line "/src/a.txt"
                               "/dst/a.txt" with
                       | Some ev => [ev]
                       | None => []
                       end
            | Raise ex =>
                mutations (fst (fst out)) = [Remove "/dst/a.txt"]
                /\ snd out = Raise ex /\ snd (fst out) = linked_tree
            end)
  end.
Proof.
  intros cm out.
  apply (exec_existing_destination cm "/src/a.txt" "/dst/a.txt" linked_tree
           (snd (fst out)) (fst (fst out)) (snd out)).
  - reflexivity.
  - subst out. vm_compute. reflexivity.
Defined.

(** A format-string strategy whose string names a third argument: the
    call raises [IndexError] at once, the destination is left alone. *)
Example exec_format_string_index_error :
  CopyMethod.exec
    (CopyMethod.set_options
       (CopyMethod.__init__ LINUX (CopyMethod.ArgStr "cp {0} {2}") None None
                            None true)
       (Some true) None None None)
    "/src/a.txt" "/dst/a.txt" linked_tree
  = ([ExecCall "/src/a.txt" "/dst/a.txt"], linked_tree, Raise IndexError).
Proof. reflexivity. Qed.

(** The hard-link strategy on an identical destination: skipped, and the
    log says that the link is there. *)
Example exec_hardlink_identical :
  CopyMethod.exec (CopyMethod.COPY_METHOD_HARDLINK LINUX)
                  "/src/a.txt" "/dst/a.txt" linked_tree
  = ([ExecCall "/src/a.txt" "/dst/a.txt";
      Print ("HARDLINKING: /src/a.txt -> /dst/a.txt "
             +:+ "(SKIPPING; correct link already exists)")],
     linked_tree, Ok tt).
Proof. reflexivity. Qed.

(** The symlink strategy on an identical destination: skipped, but the
    files are not compared and the log only says that the destination
    exists. *)
Example exec_symlink_identical :
  CopyMethod.exec (CopyMethod.COPY_METHOD_SYMLINK LINUX)
                  "/src/a.txt" "/dst/a.txt" linked_tree
  = ([ExecCall "/src/a.txt" "/dst/a.txt";
      Print ("SYMLINKING: /src/a.txt -> /dst/a.txt "
             +:+ "(SKIPPING; destination file already exists)")],
     linked_tree, Ok tt).
Proof. reflexivity. Qed.

Lemma exec_symlink_does_not_report_identity :
  ~ reports_identity (CopyMethod.COPY_METHOD_SYMLINK LINUX) linked_tree
      "/src/a.txt" "/dst/a.txt"
      (fst (fst (CopyMethod.exec (CopyMethod.COPY_METHOD_SYMLINK LINUX)
                   "/src/a.txt" "/dst/a.txt" linked_tree))).
Proof.
  intros (same & Hcmp & Hin). vm_compute in Hcmp. injection Hcmp as <-.
  rewrite exec_symlink_identical in Hin. simpl in Hin.
  destruct Hin as [E | [E | []]]; vm_compute in E; discriminate E.
Qed.

(** The overwrite branch on the copy strategy: removal, then transfer. *)
Example exec_overwrite_copy :
  mutations
    (fst (fst (CopyMethod.exec
                 (CopyMethod.set_options (CopyMethod.COPY_METHOD_COPY_META LINUX)
                    (Some true) None None None)
                 "/src/a.txt" "/dst/a.txt" linked_tree)))
  = [Remove "/dst/a.txt"; CopyFn shutil_copy2 "/src/a.txt" "/dst/a.txt"].
Proof. reflexivity. Qed.

(** ** One directory of a traversal *)

Section Visit.

Context {pattern world : Type} `{OS world}.
Variable self : WalkObject.t pattern.

#[local] Abbreviation file_ok := (file_passes self).

Lemma scan_dnames passes entries :
  fst (fst (WalkObject.scan self passes entries)) = dirs_of entries.
Proof.
  induction entries as [|[pname is_dir] entries IH]; [reflexivity |].
  cbn [WalkObject.scan].
  destruct (WalkObject.scan self passes entries) as [[dn dp] fn].
  cbn [fst] in IH. unfold dirs_of in *. cbn [List.filter snd].
  destruct is_dir; cbn [map fst]; [now rewrite IH |].
  destruct (passes && _); exact IH.
Qed.

Lemma scan_flags_length passes entries :
  length (snd (fst (WalkObject.scan self passes entries)))
  = length (fst (fst (WalkObject.scan self passes entries))).
Proof.
  induction entries as [|[pname is_dir] entries IH]; [reflexivity |].
  cbn [WalkObject.scan].
  destruct (WalkObject.scan self passes entries) as [[dn dp] fn].
  cbn [fst snd] in *.
  destruct is_dir; [cbn [fst snd length]; now rewrite IH |].
  destruct (passes && _); exact IH.
Qed.

Lemma scan_fnames entries :
  snd (WalkObject.scan self true entries)
  = List.filter file_ok (files_of entries).
Proof.
  induction entries as [|[pname is_dir] entries IH]; [reflexivity |].
  cbn [WalkObject.scan].
  destruct (WalkObject.scan self true entries) as [[dn dp] fn].
  cbn [snd] in IH. unfold files_of in *. cbn [List.filter snd negb].
  destruct is_dir; cbn [negb map fst List.filter]; [exact IH |].
  cbn [andb]. fold (file_passes self pname).
  destruct (file_passes self pname); cbn [snd];
    now rewrite IH.
Qed.

Lemma scan_fnames_fail entries :
  snd (WalkObject.scan self false entries) = [].
Proof.
  induction entries as [|[pname is_dir] entries IH]; [reflexivity |].
  cbn [WalkObject.scan].
  destruct (WalkObject.scan self false entries) as [[dn dp] fn].
  destruct is_dir; exact IH.
Qed.

Lemma list_entries_pure srcdir (w : world) :
  exists r, WalkObject.list_entries self srcdir w = ([], w, r).
Proof.
  unfold WalkObject.list_entries.
  destruct (WalkObject.list_function self).
  - unfold bind, try_observe, observe.
    destruct (os_listdir w srcdir); eauto.
  - unfold try_observe. eauto.
Qed.

Lemma prepare_dstdir_quiet dstdir passes :
  emits quiet (WalkObject.prepare_dstdir self dstdir passes).
Proof. unfold WalkObject.prepare_dstdir. repeat emits_step. Qed.

Lemma for_each_exec cm (src dst : string -> string) fnames
    (w w' : world) tr :
  for_each fnames (fun f => CopyMethod.exec cm (src f) (dst f)) w
  = (tr, w', Ok tt) ->
  exec_calls tr = map (fun f => (src f, dst f)) fnames /\ yields tr = [].
Proof.
  revert w tr. induction fnames as [|f fnames IH]; intros w tr.
  - intros [= <- _]. auto.
  - cbn [for_each]. intros Hrun.
    apply bind_ok in Hrun as (tr1 & w1 & [] & tr2 & H1 & H2 & ->).
    apply exec_trace in H1 as (tr' & -> & Hq).
    destruct (quiet_trace tr' Hq) as [Hc Hy].
    destruct (IH _ _ H2) as [Hc2 Hy2].
    rewrite exec_calls_app, yields_app. cbn [exec_calls yields flat_map].
    fold (exec_calls tr') (yields tr'). rewrite Hc, Hy, Hc2, Hy2.
    auto.
Qed.

Lemma transfer_files_trace cm srcdir d dstdir_exists fnames
    (w w' : world) tr :
  WalkObject.transfer_files self cm srcdir d dstdir_exists fnames w
  = (tr, w', Ok tt) ->
  exec_calls tr
  = map (fun f => (Py.path_join srcdir f,
                   Py.path_join d (WalkObject.apply_resub self
                                     (WalkObject.fname_resub self) f)))
        fnames
  /\ yields tr = [].
Proof.
  unfold WalkObject.transfer_files. intros Hrun.
  apply bind_ok in Hrun as (tr1 & w1 & [] & tr2 & H1 & H2 & ->).
  assert (Hq : forallb quiet tr1 = true).
  { revert H1. match goal with |- ?m w = _ -> _ =>
      assert (Hm : emits quiet m) by repeat emits_step end.
    intros H1. exact (Hm _ _ _ _ H1). }
  destruct (quiet_trace tr1 Hq) as [Hc Hy].
  apply for_each_exec in H2 as [Hc2 Hy2].
  rewrite exec_calls_app, yields_app, Hc, Hy, Hc2, Hy2. auto.
Qed.

End Visit.

Lemma files_of_NoDup (entries : list (string * bool)) :
  List.NoDup (map fst entries) -> List.NoDup (files_of entries).
Proof.
  unfold files_of. induction entries as [|[n b] entries IH]; simpl.
  - intros _. constructor.
  - intros ND. apply NoDup_cons_iff in ND as [Hn ND].
    destruct b; simpl; [now apply IH |].
    constructor; [| now apply IH].
    intros Hin. apply Hn. apply in_map_iff in Hin as ([n' b'] & E & Hin).
    simpl in E. subst n'. apply filter_In in Hin as [Hin _].
    apply in_map_iff. now exists (n, b').
Qed.

Example link_walker_built :
  WalkObject.__init__ LINUX glob_re
    (args_with "link" (Fin 0) PosInf (Some ["*.txt"]) false)
  = Ok link_walker.
Proof. reflexivity. Qed.

(** The root of the example: [a.txt] passes the pattern, [notes] does
    not; one call of [exec], then the item of [/src]. *)
Example walk_src_root_item :
  firstn 5 (fst (fst (WalkObject._walk 5 link_walker "/src" (Some "/dst")
                        1 (-1) src_tree)))
  = [Makedirs "/dst"; ExecCall "/src/a.txt" "/dst/a.txt";
     Print "HARDLINKING: /src/a.txt -> /dst/a.txt";
     CopyFn os_link "/src/a.txt" "/dst/a.txt";
     Yield "/src" ["sub"] ["a.txt"]].
Proof. reflexivity. Qed.

(** ** Dry runs and repeated runs of [walk] *)

(** C2.  A traversal in dry-run mode of [/src] into a destination that
    does not exist yet: no file is transferred, but the destination
    directory and its subdirectories are made, by the [os.makedirs] of
    [_walk] that does not look at the dry-run flag. *)
Theorem dryrun_walk_makes_directories :
  let '(tr, w', r) :=
    walk_src (args_with "link" (Fin 0) PosInf None true) 10 src_tree in
  r = Ok tt
  /\ mutations tr
     = [Makedirs "/dst"; Makedirs "/dst/sub"; Makedirs "/dst/sub/deep"]
  /\ src_tree !! "/dst" = None
  /\ w' !! "/dst" = Some Dir.
Proof. vm_compute. repeat split; reflexivity. Qed.

Section WalkExistingDestination.

Context {pattern world : Type} `{OS world}.

(** [walk] on a destination that is a directory already calls
    [os.makedirs] on it; where that call fails, as it does on an existing
    directory, [walk] fails before anything is traversed. *)
Lemma walk_existing_destination SYSTYPE fuel (self : WalkObject.t pattern)
    (cm : CopyMethod.t) (srcdir dstdir : string) (w : world) (ex : exn) :
  WalkObject.copy_method self = Some cm ->
  WalkObject.transplant_tree self = false ->
  os_path_isdir w (normpath_expanduser srcdir) = true ->
  os_path_isdir w (normpath_expanduser dstdir) = true ->
  os_makedirs w (normpath_expanduser dstdir) = Raise ex ->
  exists r,
    WalkObject.walk SYSTYPE fuel self srcdir (Some dstdir) None None None w
    = ([Makedirs (normpath_expanduser dstdir)], w, r)
    /\ (forall self', r <> Ok self')
    /\ match r with
       | Raise ex' => ex' = ex
       | Ok _ => False
       end.
Proof.
  intros Hcm Htr Hsrc Hdst Hmk.
  unfold WalkObject.walk, bind, observe, ret, raise, mutate.
  rewrite Hcm, Htr, Hsrc. cbn [default negb option_map].
  rewrite Bool.eqb_reflx. cbn [negb WalkObject.copy_method WalkObject.dstdir].
  rewrite Hdst, Hmk. cbn [app].
  eexists. split; [reflexivity |]. split; [discriminate | reflexivity].
Qed.

End WalkExistingDestination.

(** C3.  The same copy run twice, overwrite off: the first run creates
    [/dst]; the second run finds [/dst], calls [os.makedirs] on it and
    stops with the error of that call. *)
Theorem second_run_raises :
  let '(tr1, w1, r1) :=
    walk_src (args_with "copy" (Fin 0) PosInf None false) 10 src_tree in
  r1 = Ok tt
  /\ walk_src (args_with "copy" (Fin 0) PosInf None false) 10 w1
     = ([Makedirs "/dst"], w1, Raise (FileExistsError "/dst")).
Proof. vm_compute. split; reflexivity. Qed.

(** ** The constructor of [WalkObject] *)

Lemma init_rejects_silent_dryrun {pattern : Type}
    (SYSTYPE : CopyMethod.systype) (re : WalkObject.regex pattern)
    (a : WalkObject.init_args pattern) :
  WalkObject.arg_copy_silent a = true ->
  WalkObject.arg_copy_dryrun a = true ->
  exists msg,
    WalkObject.__init__ SYSTYPE re a = Raise (InvalidArgumentError msg).
Proof.
  intros Hs Hd. unfold WalkObject.__init__. rewrite Hs, Hd.
  destruct (_ || _); [eauto |].
  destruct (_ && _); [eauto |].
  destruct (WalkObject.arg_copy_shcmd_fmtstr a); cbn [andb]; eauto.
Qed.

(** C10.  With [copy_silent] and [copy_dryrun] both set, the constructor
    raises [InvalidArgumentError], whatever the other arguments are; no
    object is returned. *)
Theorem init_silent_dryrun_raises {pattern : Type}
    (SYSTYPE : CopyMethod.systype) (re : WalkObject.regex pattern)
    (a : WalkObject.init_args pattern) :
  WalkObject.arg_copy_silent a = true ->
  WalkObject.arg_copy_dryrun a = true ->
  (exists msg,
     WalkObject.__init__ SYSTYPE re a = Raise (InvalidArgumentError msg))
  /\ forall self, WalkObject.__init__ SYSTYPE re a <> Ok self.
Proof.
  intros Hs Hd.
  destruct (init_rejects_silent_dryrun SYSTYPE re a Hs Hd) as [msg E].
  split; [now exists msg |]. rewrite E. discriminate.
Qed.

Lemma init_silent_dryrun_raises_witness :
  let a := {| WalkObject.arg_mindepth := Fin 0;
              WalkObject.arg_maxdepth := PosInf;
              WalkObject.arg_dmatch_maxdepth := None;
              WalkObject.arg_fmatch := None;
              WalkObject.arg_fmatch_re := None;
              WalkObject.arg_fexcl := None;
              WalkObject.arg_fexcl_re := None;
              WalkObject.arg_dmatch := None;
              WalkObject.arg_dmatch_re := None;
              WalkObject.arg_dexcl := None;
              WalkObject.arg_dexcl_re := None;
              WalkObject.arg_fsub := None;
              WalkObject.arg_dsub := None;
              WalkObject.arg_copy_method := Some (WalkObject.CM_str "copy");
              WalkObject.arg_copy_overwrite := false;
              WalkObject.arg_transplant_tree := false;
              WalkObject.arg_collapse_tree := false;
              WalkObject.arg_copy_dryrun := true;
              WalkObject.arg_copy_silent := true;
              WalkObject.arg_copy_debug := false;
              WalkObject.arg_mkdir_upon_file_copy := false;
              WalkObject.arg_allow_nonstd_shprogs := false;
              WalkObject.arg_copy_shcmd_fmtstr := None;
              WalkObject.arg_list_function := None;
              WalkObject.arg_rematch_function := None;
              WalkObject.arg_resub_function := None;
              WalkObject.arg_rematch_partial := false |} in
  (exists msg,
     WalkObject.__init__ LINUX glob_re a = Raise (InvalidArgumentError msg))
  /\ forall self, WalkObject.__init__ LINUX glob_re a <> Ok self.
Proof.
  intros a. apply (init_silent_dryrun_raises LINUX glob_re a); reflexivity.
Defined.

(** An object that the constructor returns with a copy method has the
    dry-run flag off or logging on. *)
Lemma init_never_silent_dryrun {pattern : Type}
    (SYSTYPE : CopyMethod.systype) (re : WalkObject.regex pattern)
    (a : WalkObject.init_args pattern) (self : WalkObject.t pattern) :
  WalkObject.__init__ SYSTYPE re a = Ok self ->
  WalkObject.arg_copy_silent a && WalkObject.arg_copy_dryrun a = false.
Proof.
  intros E.
  destruct (WalkObject.arg_copy_silent a) eqn:Hs;
    destruct (WalkObject.arg_copy_dryrun a) eqn:Hd; try reflexivity.
  destruct (init_rejects_silent_dryrun SYSTYPE re a Hs Hd) as [msg N].
  rewrite N in E. discriminate E.
Qed.

(** ** Depth bounds *)

Lemma not_yield_trace tr : forallb not_yield tr = true -> yields tr = [].
Proof.
  induction tr as [|ev tr IH]; simpl; [auto |].
  rewrite andb_true_iff. intros [Hev Htr]. rewrite (IH Htr).
  destruct ev; try discriminate; reflexivity.
Qed.

Section DepthBounds.

Context {pattern world : Type} `{OS world}.

Lemma bind_inv {A B} (m : M world A) (k : A -> M world B) w tr w' r :
  bind m k w = (tr, w', r) ->
  (exists tr1 w1 a tr2,
     m w = (tr1, w1, Ok a) /\ k a w1 = (tr2, w', r) /\ tr = tr1 ++ tr2)
  \/ (exists ex, m w = (tr, w', Raise ex) /\ r = Raise ex).
Proof.
  unfold bind. destruct (m w) as [[tr1 w1] [a | ex]].
  - destruct (k a w1) as [[tr2 w2] r2] eqn:Ek. intros [= <- <- <-].
    left. exists tr1, w1, a, tr2. auto.
  - intros [= <- <- <-]. right. eauto.
Qed.

Variable self : WalkObject.t pattern.

Lemma exec_no_yield cm s d : emits not_yield (CopyMethod.exec cm s d).
Proof. unfold CopyMethod.exec. repeat emits_step. Qed.

Lemma transfer_files_no_yield cm srcdir d dstdir_exists fnames :
  emits not_yield
    (WalkObject.transfer_files self cm srcdir d dstdir_exists fnames).
Proof.
  unfold WalkObject.transfer_files.
  apply emits_bind; [repeat emits_step | intros _].
  apply emits_for_each. intros f. apply exec_no_yield.
Qed.

Lemma prepare_dstdir_no_yield dstdir passes :
  emits not_yield (WalkObject.prepare_dstdir self dstdir passes).
Proof. unfold WalkObject.prepare_dstdir. repeat emits_step. Qed.

Lemma for_each_one_item {A} (g : A -> string) (body : A -> M world unit)
    (l : list A) w tr w' r :
  one_item g body ->
  for_each l body w = (tr, w', r) ->
  Forall (fun y => In (yielded_dir y) (map g l)) (yields tr)
  /\ (r = Ok tt -> map yielded_dir (yields tr) = map g l).
Proof.
  intros Hbody. revert w tr. induction l as [|x l IH]; intros w tr.
  - intros [= <- _ <-]. split; [constructor | reflexivity].
  - cbn [for_each]. intros Hrun.
    apply bind_inv in Hrun
      as [(tr1 & w1 & [] & tr2 & H1 & H2 & ->) | (ex & H1 & ->)].
    + destruct (Hbody _ _ _ _ _ H1) as [_ Hone].
      destruct (Hone eq_refl) as (dn & fn & Hy1).
      destruct (IH _ _ H2) as [Hall Heq].
      rewrite yields_app, Hy1. cbn [app map]. split.
      * constructor; [now left |].
        eapply List.Forall_impl; [| exact Hall]. intros y Hy. now right.
      * intros Hr. cbn [map yielded_dir fst]. f_equal. exact (Heq Hr).
    + destruct (Hbody _ _ _ _ _ H1) as [[Hy | (dn & fn & Hy)] _];
        rewrite Hy; split; try discriminate.
      * constructor.
      * constructor; [now left | constructor].
Qed.

Hypothesis mindepth_two : WalkObject.mindepth self = Fin 2.
Hypothesis maxdepth_two : WalkObject.maxdepth self = Fin 2.

(** A call at depth 2 yields the item of its directory and goes no
    deeper. *)
Lemma walk_at_depth_two fuel srcdir dstdir dmatch_depth w tr w' r :
  WalkObject._walk fuel self srcdir dstdir 2 dmatch_depth w = (tr, w', r) ->
  (yields tr = [] \/ exists dn fn, yields tr = [(srcdir, dn, fn)])
  /\ (r = Ok tt -> exists dn fn, yields tr = [(srcdir, dn, fn)]).
Proof.
  destruct fuel as [|fuel].
  { intros [= <- _ <-]. split; [now left | discriminate]. }
  cbn [WalkObject._walk]. rewrite mindepth_two, maxdepth_two.
  cbn [num_ltb num_leb Z.ltb Z.compare Pos.compare Pos.compare_cont negb].
  set (dm := WalkObject.root_dmatch_depth self srcdir 2 dmatch_depth).
  set (passes := WalkObject.srcdname_passes self dm).
  intros Hrun.
  apply bind_inv in Hrun
    as [(tr0 & w1 & dstdir_exists & tr2 & Hprep & Hrun & ->) | (ex & Hprep & ->)].
  2: { rewrite (not_yield_trace _ (prepare_dstdir_no_yield _ _ _ _ _ _ Hprep)).
       split; [now left | discriminate]. }
  pose proof (not_yield_trace _ (prepare_dstdir_no_yield _ _ _ _ _ _ Hprep))
    as Hy0.
  destruct (list_entries_pure self srcdir w1) as [rl Hpure].
  apply bind_inv in Hrun
    as [(tr1 & w2 & entries & tr3 & Hlist & Hrun & ->) | (ex & Hlist & ->)].
  2: { rewrite Hpure in Hlist. injection Hlist as <- _ _.
       rewrite app_nil_r, Hy0.
       split; [now left | discriminate]. }
  rewrite Hpure in Hlist. injection Hlist as <- <- _.
  destruct (WalkObject.scan self passes entries)
    as [[dnames dnames_pass] fnames].
  rewrite andb_false_r in Hrun.
  apply bind_inv in Hrun
    as [(tr4 & w3 & [] & tr5 & Hvisit & Hrest & ->) | (ex & Hvisit & ->)].
  - injection Hrest as <- _ <-.
    apply bind_inv in Hvisit
      as [(tr6 & w4 & [] & tr7 & Htrans & Hyield & ->) | (ex & _ & Hbad)];
      [| discriminate Hbad].
    injection Hyield as <- _.
    assert (Hy6 : yields tr6 = []).
    { apply not_yield_trace. revert Htrans.
      match goal with |- ?m w1 = _ -> _ =>
        assert (Hm : emits not_yield m)
          by (repeat emits_step; apply transfer_files_no_yield) end.
      intros Htrans. exact (Hm _ _ _ _ Htrans). }
    rewrite !yields_app, Hy0, Hy6. cbn.
    split; [right |]; eauto.
  - apply bind_inv in Hvisit
      as [(tr6 & w4 & [] & tr7 & Htrans & Hyield & ->) | (ex' & Htrans & _)].
    + discriminate Hyield.
    + assert (Hy6 : yields tr3 = []).
      { apply not_yield_trace. revert Htrans.
        match goal with |- ?m w1 = _ -> _ =>
          assert (Hm : emits not_yield m)
            by (repeat emits_step; apply transfer_files_no_yield) end.
        intros Htrans. exact (Hm _ _ _ _ Htrans). }
      rewrite !yields_app, Hy0, Hy6. split; [now left | discriminate].
Qed.

(** C8, as the code has it.  The walker counts the entries of the root
    as depth 1, so with [mindepth = maxdepth = 2] a traversal started on
    [root] (at depth 1, as [walk] starts it) yields nothing for the root
    itself, yields items only for directories found in the root, that is
    one level below it, and goes no deeper; when it runs to its end it
    has yielded exactly one item for each of them, in listing order. *)
Theorem depth_two_yields_children_of_root fuel root dstdir dmatch_depth
    w tr w' r :
  WalkObject._walk fuel self root dstdir 1 dmatch_depth w = (tr, w', r) ->
  let children :=
    map (Py.path_join root) (root_dirs self root dstdir dmatch_depth w) in
  Forall (fun y => In (yielded_dir y) children) (yields tr)
  /\ (r = Ok tt -> map yielded_dir (yields tr) = children).
Proof.
  intros Hrun children. subst children. unfold root_dirs.
  destruct fuel as [|fuel].
  { injection Hrun as <- _ <-. split; [constructor | discriminate]. }
  cbn [WalkObject._walk] in Hrun.
  rewrite mindepth_two, maxdepth_two in Hrun.
  cbn [num_ltb num_leb Z.ltb Z.compare Pos.compare Pos.compare_cont negb]
    in Hrun.
  set (dm := WalkObject.root_dmatch_depth self root 1 dmatch_depth) in *.
  set (passes := WalkObject.srcdname_passes self dm) in *.
  apply bind_inv in Hrun
    as [(tr0 & w1 & dstdir_exists & tr2 & Hprep & Hrun & ->) | (ex & Hprep & ->)].
  2: { rewrite Hprep.
       rewrite (not_yield_trace _ (prepare_dstdir_no_yield _ _ _ _ _ _ Hprep)).
       split; [constructor | discriminate]. }
  pose proof (not_yield_trace _ (prepare_dstdir_no_yield _ _ _ _ _ _ Hprep))
    as Hy0.
  rewrite Hprep.
  destruct (list_entries_pure self root w1) as [rl Hpure].
  rewrite Hpure.
  apply bind_inv in Hrun
    as [(tr1 & w2 & entries & tr3 & Hlist & Hrun & ->) | (ex & Hlist & ->)].
  2: { rewrite Hpure in Hlist. injection Hlist as <- _ ->.
       rewrite app_nil_r, Hy0.
       split; [constructor | discriminate]. }
  rewrite Hpure in Hlist. injection Hlist as <- <- ->.
  pose proof (scan_dnames self passes entries) as Hdn.
  pose proof (scan_flags_length self passes entries) as Hlen.
  destruct (WalkObject.scan self passes entries)
    as [[dnames dnames_pass] fnames].
  cbn [fst snd] in Hdn, Hlen. rewrite <- Hdn.
  rewrite andb_true_r in Hrun.
  apply bind_inv in Hrun
    as [(tr4 & w3 & [] & tr5 & Hvisit & Hrest & ->) | (ex & Hbad & _)];
    [| discriminate Hbad].
  injection Hvisit as <- <-.
  cbn [app]. rewrite yields_app, Hy0. cbn [app].
  destruct dnames as [|dn0 dnames'] eqn:Ednames.
  { injection Hrest as <- _ <-. split; [constructor | reflexivity]. }
  rewrite <- Ednames in *. 
  replace (negb (length dnames =? 0)) with true in Hrest
    by (rewrite Ednames; reflexivity).
  apply (for_each_one_item (fun p => Py.path_join root (fst p))) in Hrest.
  - replace (map (fun x => Py.path_join root (fst x))
                 (combine dnames dnames_pass))
      with (map (Py.path_join root) dnames) in Hrest; [exact Hrest |].
    rewrite <- (map_map fst (Py.path_join root)).
    f_equal. clear -Hlen. revert dnames_pass Hlen.
    induction dnames as [|x l IH]; intros [|b bs] Hl; simpl in *;
      try discriminate; [reflexivity |].
    f_equal. apply IH. lia.
  - intros [dn dn_pass] w0 tr0' w0' r0 Hbody.
    exact (walk_at_depth_two _ _ _ _ _ _ _ _ Hbody).
Qed.

End DepthBounds.

Lemma depth_two_yields_children_of_root_witness :
  let self := with_depths link_walker (Fin 2) (Fin 2) in
  let out := WalkObject._walk 5 self "/src" (Some "/dst") 1 (-1) src_tree in
  let children :=
    map (Py.path_join "/src")
        (root_dirs self "/src" (Some "/dst") (-1) src_tree) in
  Forall (fun y => In (yielded_dir y) children) (yields (fst (fst out)))
  /\ (snd out = Ok tt -> map yielded_dir (yields (fst (fst out))) = children).
Proof.
  intros self out.
  apply (depth_two_yields_children_of_root self eq_refl eq_refl 5 "/src"
           (Some "/dst") (-1) src_tree (fst (fst out)) (snd (fst out))
           (snd out)).
  subst out. vm_compute. reflexivity.
Defined.

(** With [mindepth = maxdepth = 2] the example yields the files of
    [/src/sub], one level below the root, and nothing for
    [/src/sub/deep], two levels below it. *)
Lemma depth_two_walk_yields_one_level_below :
  yields depth_two_trace = [("/src/sub", ["deep"], ["b.txt"])]
  /\ levels_below "/src" "/src/sub" = 1
  /\ ~ Forall (fun y => levels_below "/src" (yielded_dir y) = 2)
              (yields depth_two_trace).
Proof.
  assert (E : yields depth_two_trace = [("/src/sub", ["deep"], ["b.txt"])])
    by (vm_compute; reflexivity).
  split; [exact E |]. split; [reflexivity |].
  rewrite E. intros F. inversion F as [| y l Hy Hl]. subst.
  vm_compute in Hy. discriminate Hy.
Qed.

(** ** Job submission *)

(** For [slurm] and an email address, the recipient flag is in the list
    of every command that [get_jobsubmit_cmd] builds. *)
Lemma slurm_parts_mail_user jobname time_hr time_min time_sec memory_gb node
    addr envvars :
  exists parts,
    Sched.jobsubmit_parts (Some Sched.SCHED_SLURM) jobname time_hr time_min
      time_sec memory_gb node (Sched.VStr addr) envvars = Some parts
    /\ In (Some ("--mail-user " +:+ addr)) parts.
Proof.
  eexists. split; [reflexivity |]. simpl. auto 10.
Qed.

(** With environment variables given, as [submit_tasks_to_scheduler]
    always gives them, the element that would carry the mail flag of
    [qsub] or [sbatch] is the [-v] element instead. *)
Lemma parts_env_element scheduler jobname time_hr time_min time_sec
    memory_gb node email envvars parts :
  Sched.jobsubmit_parts scheduler jobname time_hr time_min time_sec
    memory_gb node email (Some envvars) = Some parts ->
  In (Some ("-v " +:+ Sched.envvars_str envvars)) parts
  /\ ~ In (Some "-m ae") parts
  /\ ~ In (Some "--mail-type FAIL,END") parts.
Proof.
  unfold Sched.jobsubmit_parts.
  destruct scheduler as [sched |]; [| discriminate].
  destruct (String.eqb sched Sched.SCHED_PBS).
  - intros [= <-]. split; [simpl; auto 10 |].
    split; simpl; intros Hin;
      repeat (destruct Hin as [E | Hin]; [try discriminate E |]);
      try destruct Hin;
      repeat match goal with
             | E : Some (match ?x with _ => _ end) = _ |- _ =>
                 destruct x; try discriminate E
             end.
  - destruct (String.eqb sched Sched.SCHED_SLURM); [| discriminate].
    intros [= <-]. split; [simpl; auto 10 |].
    split; simpl; intros Hin;
      repeat (destruct Hin as [E | Hin]; [try discriminate E |]);
      try destruct Hin;
      repeat match goal with
             | E : Some (match ?x with _ => _ end) = _ |- _ =>
                 destruct x; try discriminate E
             | E : match ?x with _ => _ end = _ |- _ =>
                 destruct x; try discriminate E
             end.
Qed.

(** C9.  Two jobs submitted to [slurm] with an email address configured:
    the command of the first job carries the recipient flag
    [--mail-user] just as that of the last job does; only the script's
    own [--email] argument, inside the command that the job is to run, is
    confined to the last job; and no command carries [--mail-type]. *)
Theorem slurm_first_job_has_mail_user :
  exists cmd1 cmd2,
    submitted "slurm" = Ok [cmd1; cmd2]
    /\ Py.contains cmd1 "--mail-user user@example.org" = true
    /\ Py.contains cmd2 "--mail-user user@example.org" = true
    /\ Py.contains cmd1 "--email" = false
    /\ Py.contains cmd2
         ("--email " +:+ Py.DQUOTE +:+ "user@example.org" +:+ Py.DQUOTE)
       = true
    /\ Py.contains cmd1 "--mail-type" = false
    /\ Py.contains cmd2 "--mail-type" = false.
Proof.
  eexists _, _. split; [vm_compute; reflexivity |].
  repeat split; vm_compute; reflexivity.
Qed.

(** The same two jobs submitted to [pbs]: no command carries [-m ae]. *)
Example pbs_no_mail_flag :
  exists cmd1 cmd2,
    submitted "pbs" = Ok [cmd1; cmd2]
    /\ Py.contains cmd1 "-m ae" = false
    /\ Py.contains cmd2 "-m ae" = false
    /\ Py.contains cmd1 "--email" = false
    /\ Py.contains cmd2
         ("--email " +:+ Py.DQUOTE +:+ "user@example.org" +:+ Py.DQUOTE)
       = true.
Proof.
  eexists _, _. split; [vm_compute; reflexivity |].
  repeat split; vm_compute; reflexivity.
Qed.

(** * The whole traversal *)

(** ** Trees *)

Lemma tree_entries_ind (P : tree -> Prop) (Q : entries -> Prop) :
  (forall es, Q es -> P (Listing es)) ->
  Q no_entry ->
  (forall name rest, Q rest -> Q (file_entry name rest)) ->
  (forall name sub rest, P sub -> Q rest -> Q (dir_entry name sub rest)) ->
  (forall t, P t) /\ (forall es, Q es).
Proof.
  intros HL H0 HF HD.
  assert (HP : forall t, P t).
  { fix ft 1 with (fe (es : entries) {struct es} : Q es).
    - intros [es]. apply HL, fe.
    - intros [|name rest|name sub rest].
      + exact H0.
      + apply HF, fe.
      + apply HD; [apply ft | apply fe]. }
  split; [exact HP |].
  induction es as [|name rest IH|name sub rest IH];
    [exact H0 | now apply HF | apply HD; [apply HP | exact IH]].
Qed.

Lemma same_entries_eq (a b : list (string * bool)) :
  same_entries a b = true -> a = b.
Proof.
  revert b. induction a as [|[x i] a IH]; intros [|[y j] b]; simpl;
    try discriminate; [reflexivity |].
  rewrite !andb_true_iff. intros [[Hx Hi] Hab].
  apply String.eqb_eq in Hx. apply Bool.eqb_prop in Hi.
  now rewrite Hx, Hi, (IH b Hab).
Qed.

Lemma subdirs_longer :
  (forall t chain d, In d (subdirs chain t) -> length chain <= length (fst d))
  /\ (forall es chain d, In d (subdirs_of chain es) ->
                          S (length chain) <= length (fst d)).
Proof.
  apply tree_entries_ind.
  - intros es IH chain d [<- | Hin]; [reflexivity |].
    specialize (IH chain d Hin). lia.
  - intros chain d [].
  - intros name rest IH chain d Hin. exact (IH chain d Hin).
  - intros name sub rest IHs IHr chain d Hin. cbn [subdirs_of] in Hin.
    apply in_app_iff in Hin as [Hin | Hin].
    + specialize (IHs _ _ Hin). rewrite length_app in IHs. simpl in IHs. lia.
    + exact (IHr _ _ Hin).
Qed.

Lemma subdirs_of_no_dir (es : entries) (chain : list string) :
  dirs_of (flags es) = [] -> subdirs_of chain es = [].
Proof.
  unfold dirs_of.
  induction es as [|name rest IH|name sub rest IH]; simpl;
    [reflexivity | exact IH | discriminate].
Qed.

Lemma filter_none {A} (f : A -> bool) (l : list A) :
  (forall x, In x l -> f x = false) -> List.filter f l = [].
Proof.
  induction l as [|x l IH]; intros Hf; [reflexivity |].
  cbn [List.filter]. rewrite (Hf x) by now left.
  apply IH. intros y Hy. apply Hf. now right.
Qed.

(** ** The rules *)

Section Rules.

Context {pattern world : Type} `{OS world}.
Variable self : WalkObject.t pattern.

Lemma name_matches_rule (incl excl : list pattern) (name : string) :
  WalkObject.name_matches self incl excl name
  = name_rule self incl excl name.
Proof.
  unfold WalkObject.name_matches, name_rule.
  set (hit := fun p => WalkObject.rematch_function self p name).
  assert (Hex : forall l, forallb (fun p => negb (hit p)) l
                          = negb (existsb hit l)).
  { induction l as [|p l IH]; simpl; [reflexivity |].
    rewrite IH. now destruct (hit p). }
  destruct (match incl with
            | [] => true
            | _ :: _ => existsb hit incl
            end); destruct excl as [|p excl]; cbn [andb existsb negb];
    try reflexivity.
  exact (Hex (p :: excl)).
Qed.

Lemma scan_flags (passes : bool) (es : entries) :
  WalkObject.scan self passes (flags es)
  = (dirs_of (flags es), map (dir_rule self) (dirs_of (flags es)),
     if passes then List.filter (file_rule self) (files_of (flags es))
     else []).
Proof.
  unfold dirs_of, files_of.
  induction es as [|name rest IH|name sub rest IH];
    cbn [flags WalkObject.scan]; [now destruct passes | |].
  - rewrite IH. cbn [List.filter snd negb fst map].
    rewrite name_matches_rule. fold (file_rule self).
    destruct passes; [| reflexivity]. cbn [andb].
    now destruct (file_rule self name).
  - rewrite IH. cbn [List.filter snd negb fst map]. f_equal. f_equal.
    f_equal. unfold WalkObject.tracks_dnames, dir_rule.
    rewrite name_matches_rule.
    destruct (WalkObject.dname_rematch self), (WalkObject.dname_reexcl self);
      reflexivity.
Qed.

Lemma levels_since_match_pos (rule : string -> bool) (up : list string) k :
  levels_since_match rule up = Some k -> 1 <= k.
Proof.
  revert k. induction up as [|name above IH]; simpl; [discriminate |].
  intros k. destruct (rule name); [intros [= <-]; lia |].
  destruct (levels_since_match rule above) as [j |]; [| discriminate].
  intros [= <-]. lia.
Qed.

Variable root : string.

Lemma root_dmd (chain : list string) :
  WalkObject.root_dmatch_depth self (path_of root chain) (depth_of chain)
    (entry_dmd self root chain)
  = dmd_of self root chain.
Proof.
  unfold WalkObject.root_dmatch_depth, entry_dmd, dmd_of, depth_of.
  destruct chain as [|name chain].
  - cbn [length Z.of_nat Z.add Z.eqb Pos.eqb andb path_of fold_left rev app
         levels_since_match].
    destruct (WalkObject.dmatch_nomaxdepth self); [reflexivity |].
    cbn [Z.eqb]. rewrite name_matches_rule. fold (dir_rule self).
    now destruct (dir_rule self (Py.basename root)).
  - replace (1 + Z.of_nat (length (name :: chain)) =? 1)%Z with false
      by (symmetry; apply Z.eqb_neq; simpl length; lia).
    reflexivity.
Qed.

Lemma passes_dmd (chain : list string) :
  WalkObject.srcdname_passes self (dmd_of self root chain)
  = dir_passes self root chain.
Proof.
  unfold WalkObject.srcdname_passes, dmd_of, dir_passes.
  destruct (WalkObject.dmatch_nomaxdepth self); [apply andb_true_r |].
  destruct (levels_since_match _ _) as [k |] eqn:E.
  - apply levels_since_match_pos in E.
    replace (Z.of_nat k =? 0)%Z with false
      by (symmetry; apply Z.eqb_neq; lia).
    apply andb_true_r.
  - apply andb_false_r.
Qed.

Lemma child_dmd (chain : list string) (name : string) :
  (if dir_rule self name
   then if (dmd_of self root chain <? 0)%Z then dmd_of self root chain
        else 1%Z
   else if (dmd_of self root chain <=? 0)%Z then dmd_of self root chain
        else (dmd_of self root chain + 1)%Z)
  = entry_dmd self root (chain ++ [name]).
Proof.
  assert (Hentry : entry_dmd self root (chain ++ [name])
                   = dmd_of self root (chain ++ [name]))
    by (unfold entry_dmd; destruct chain; reflexivity).
  rewrite Hentry. unfold dmd_of.
  destruct (WalkObject.dmatch_nomaxdepth self);
    [now destruct (dir_rule self name) |].
  replace (rev (Py.basename root :: chain ++ [name]))
    with (name :: rev (Py.basename root :: chain))
    by (cbn [rev]; now rewrite rev_app_distr).
  cbn [levels_since_match].
  destruct (levels_since_match _ (rev (Py.basename root :: chain)))
    as [k |] eqn:E.
  - apply levels_since_match_pos in E.
    destruct (dir_rule self name).
    + replace (Z.of_nat k <? 0)%Z with false
        by (symmetry; apply Z.ltb_ge; lia). reflexivity.
    + replace (Z.of_nat k <=? 0)%Z with false
        by (symmetry; apply Z.leb_gt; lia).
      cbn [option_map]. lia.
  - now destruct (dir_rule self name).
Qed.

Lemma path_of_child (chain : list string) (name : string) :
  path_of root (chain ++ [name]) = Py.path_join (path_of root chain) name.
Proof. unfold path_of. now rewrite fold_left_app. Qed.

Lemma depth_of_child (chain : list string) (name : string) :
  depth_of (chain ++ [name]) = (depth_of chain + 1)%Z.
Proof. unfold depth_of. rewrite length_app. simpl. lia. Qed.

Lemma dst_of_child (collapse : bool) (top : string) (chain : list string)
    (name : string) :
  dst_of self collapse top (chain ++ [name])
  = if collapse then dst_of self collapse top chain
    else Py.path_join (dst_of self collapse top chain)
           (WalkObject.apply_resub self (WalkObject.dname_resub self) name).
Proof.
  unfold dst_of. destruct collapse; [reflexivity |].
  now rewrite fold_left_app.
Qed.

(** Below [maxdepth] nothing is visited. *)
Lemma visited_too_deep (chain : list string) (t : tree) :
  num_ltb (WalkObject.maxdepth self) (Fin (depth_of chain)) = true ->
  visited self chain t = [].
Proof.
  intros Hdeep. unfold visited.
  apply filter_none. intros d Hin.
  apply (proj1 subdirs_longer) in Hin.
  unfold in_bounds, num_leb, depth_of in *.
  destruct (WalkObject.maxdepth self) as [z |]; [| discriminate].
  cbn [num_ltb] in *. apply Z.ltb_lt in Hdeep.
  replace (z <? 1 + Z.of_nat (length (fst d)))%Z with true
    by (symmetry; apply Z.ltb_lt; lia).
  apply andb_false_r.
Qed.

Lemma below_too_deep (chain : list string) (es : entries) :
  num_ltb (Fin (depth_of chain)) (WalkObject.maxdepth self) = false ->
  List.filter (fun d => in_bounds self (fst d)) (subdirs_of chain es) = [].
Proof.
  intros Hdeep.
  apply filter_none. intros d Hin.
  apply (proj2 subdirs_longer) in Hin.
  unfold in_bounds, num_leb, depth_of in *.
  destruct (WalkObject.maxdepth self) as [z |]; [| discriminate].
  cbn [num_ltb] in *. apply Z.ltb_ge in Hdeep.
  replace (z <? 1 + Z.of_nat (length (fst d)))%Z with true
    by (symmetry; apply Z.ltb_lt; lia).
  apply andb_false_r.
Qed.

End Rules.

(** ** What a run changes and how it fails *)

Section Sound.

Context {pattern world : Type} `{OS world}.

Lemma replay_app (w : world) (a b : list event) :
  replay w (a ++ b) = replay (replay w a) b.
Proof. unfold replay. apply fold_left_app. Qed.

Lemma items_app (a b : list event) : items (a ++ b) = items a ++ items b.
Proof. unfold items. now rewrite yields_app, map_app. Qed.

Lemma sound_ret {A} (a : A) : sound (@ret world A a).
Proof.
  intros w tr w' r [= <- <- <-]. split; [reflexivity | discriminate].
Qed.

Lemma sound_raise_TypeError {A} : sound (@raise world A TypeError).
Proof.
  intros w tr w' r [= <- <- <-]. split; [reflexivity |].
  intros ex [= <-]. unfold failed_call. tauto.
Qed.

Lemma sound_observe {A} (f : world -> A) : sound (observe f).
Proof.
  intros w tr w' r [= <- <- <-]. split; [reflexivity | discriminate].
Qed.

Lemma sound_try_observe {A} (f : world -> result A) :
  (forall w ex, f w = Raise ex -> failed_call w ex) ->
  sound (try_observe f).
Proof.
  intros Hf w tr w' r [= <- <- <-]. split; [reflexivity |].
  intros ex E. now apply Hf.
Qed.

Lemma sound_emit (ev : event) : mutating ev = false -> sound (emit ev).
Proof.
  intros Hev w tr w' r [= <- <- <-]. split; [| discriminate].
  destruct ev; try discriminate Hev; reflexivity.
Qed.

Lemma sound_mutate (ev : event) (f : world -> result world) :
  (forall w, apply_event w ev = match f w with
                                | Ok w' => w'
                                | Raise _ => w
                                end) ->
  (forall w ex, f w = Raise ex -> failed_call w ex) ->
  sound (mutate ev f).
Proof.
  intros Hev Hf w tr w' r. unfold mutate.
  destruct (f w) as [w1 | ex] eqn:E; intros [= <- <- <-];
    cbn [replay fold_left]; rewrite Hev, E; (split; [reflexivity |]).
  - discriminate.
  - intros ex' [= <-]. now apply Hf.
Qed.

Lemma sound_makedirs (d : string) :
  sound (mutate (Makedirs d) (fun w => os_makedirs w d)).
Proof.
  apply sound_mutate; [reflexivity |].
  intros w ex E. left. now exists d.
Qed.

Lemma sound_execute_command (cmd : string) : sound (execute_command cmd).
Proof.
  intros w tr w' r. unfold execute_command.
  destruct (popen w cmd) as [w1 rc] eqn:E.
  destruct (rc =? 0) eqn:Erc; intros [= <- <- <-];
    cbn [replay fold_left apply_event]; rewrite E; (split; [reflexivity |]);
    [discriminate |].
  intros ex [= <-]. do 7 right. left. exists w, cmd. rewrite E.
  cbn [fst snd]. apply Nat.eqb_neq in Erc. auto.
Qed.

Lemma sound_bind {A B} (m : M world A) (k : A -> M world B) :
  sound m -> (forall a, sound (k a)) -> sound (bind m k).
Proof.
  intros Hm Hk w tr w' r. unfold bind.
  destruct (m w) as [[tr1 w1] [a | ex]] eqn:Em.
  - destruct (k a w1) as [[tr2 w2] r2] eqn:Ek. intros [= <- <- <-].
    destruct (Hm _ _ _ _ Em) as [-> _].
    destruct (Hk _ _ _ _ _ Ek) as [-> Hfail].
    split; [now rewrite replay_app | exact Hfail].
  - intros [= <- <- <-]. destruct (Hm _ _ _ _ Em) as [Hw Hfail].
    split; [exact Hw |]. intros ex' [= <-]. now apply Hfail.
Qed.

Lemma sound_for_each {A} (l : list A) (body : A -> M world unit) :
  (forall x, sound (body x)) -> sound (for_each l body).
Proof.
  intros Hb. induction l as [|x l IH]; cbn [for_each].
  - apply sound_ret.
  - apply sound_bind; [apply Hb | intros _; exact IH].
Qed.

Ltac sound_step :=
  match goal with
  | |- sound (bind _ _) => apply sound_bind; [| intros ?]
  | |- sound (ret _) => apply sound_ret
  | |- sound (raise TypeError) => apply sound_raise_TypeError
  | |- sound (observe _) => apply sound_observe
  | |- sound (emit _) => apply sound_emit; reflexivity
  | |- sound (mutate (Makedirs _) _) => apply sound_makedirs
  | |- sound (execute_command _) => apply sound_execute_command
  | |- sound (if ?b then _ else _) => destruct b
  | |- sound (match ?x with _ => _ end) => destruct x
  | |- sound (let '(_, _) := ?x in _) => destruct x
  end.

Lemma sound_exec (cm : CopyMethod.t) (s d : string) :
  sound (CopyMethod.exec cm s d).
Proof.
  unfold CopyMethod.exec.
  apply sound_bind; [apply sound_emit; reflexivity | intros _].
  apply sound_bind.
  { destruct (CopyMethod.copy_shcmd cm) as [shcmd |]; [| apply sound_ret].
    destruct (CopyMethod.copy_shcmd_is_fmtstr cm);
      [| destruct (CopyMethod.reverse_args cm); apply sound_ret].
    apply sound_bind; [| intros cmd; apply sound_ret].
    apply sound_try_observe. intros w ex E. do 6 right. left. eauto. }
  intros copy_shcmd_full.
  apply sound_bind; [apply sound_observe | intros dstfile_exists].
  apply sound_bind.
  { destruct dstfile_exists; [| apply sound_ret].
    destruct (CopyMethod.copy_overwrite cm); [apply sound_ret |].
    apply sound_bind; [| intros same; apply sound_ret].
    destruct (Py.mem _ _); [| apply sound_ret].
    apply sound_try_observe. intros w ex E. do 3 right. left. eauto. }
  intros [proceed_with_copy overwrite_action].
  apply sound_bind; [repeat sound_step | intros _].
  destruct (negb proceed_with_copy); [apply sound_ret |].
  apply sound_bind; [repeat sound_step | intros _].
  destruct (negb (CopyMethod.dryrun cm) && proceed_with_copy);
    [| apply sound_ret].
  apply sound_bind.
  { destruct (dstfile_exists && CopyMethod.copy_overwrite cm);
      [| apply sound_ret].
    apply sound_mutate; [reflexivity |].
    intros w ex E. right. left. eauto. }
  intros _.
  destruct copy_shcmd_full as [cmd |]; [repeat sound_step |].
  destruct (CopyMethod.copy_fn cm) as [f |]; [| apply sound_raise_TypeError].
  destruct (CopyMethod.reverse_args cm);
    (apply sound_mutate; [reflexivity |]);
    intros w ex E; do 2 right; left; eauto.
Qed.

Variable self : WalkObject.t pattern.

Lemma sound_prepare_dstdir (dstdir : option string) (passes : bool) :
  sound (WalkObject.prepare_dstdir self dstdir passes).
Proof. unfold WalkObject.prepare_dstdir. repeat sound_step. Qed.

Lemma sound_transfer_files cm srcdir d dstdir_exists fnames :
  sound (WalkObject.transfer_files self cm srcdir d dstdir_exists fnames).
Proof.
  unfold WalkObject.transfer_files.
  apply sound_bind; [repeat sound_step | intros _].
  apply sound_for_each. intros f. apply sound_exec.
Qed.

Lemma list_entries_os (srcdir : string) (w : world) :
  WalkObject.list_entries self srcdir w
  = ([], w, os_entries (WalkObject.list_function self) w srcdir).
Proof.
  unfold WalkObject.list_entries, os_entries.
  destruct (WalkObject.list_function self); [| reflexivity].
  unfold bind, try_observe, observe.
  now destruct (os_listdir w srcdir).
Qed.

(** The calls of [exec] of a loop of transfers, whether it ends or
    not. *)
Lemma for_each_exec_upto cm (src dst : string -> string) fnames
    (w w' : world) tr r :
  for_each fnames (fun f => CopyMethod.exec cm (src f) (dst f)) w
  = (tr, w', r) ->
  yields tr = []
  /\ upto (is_ok r) (exec_calls tr) (map (fun f => (src f, dst f)) fnames).
Proof.
  revert w tr. induction fnames as [|f fnames IH]; intros w tr.
  - intros [= <- _ <-]. split; reflexivity.
  - cbn [for_each]. intros Hrun.
    apply bind_inv in Hrun
      as [(tr1 & w1 & [] & tr2 & H1 & H2 & ->) | (ex & H1 & ->)].
    + apply exec_trace in H1 as (tr' & -> & Hq).
      destruct (quiet_trace tr' Hq) as [Hc Hy].
      destruct (IH _ _ H2) as [Hy2 Hc2].
      rewrite exec_calls_app, yields_app. cbn [exec_calls yields flat_map].
      fold (exec_calls tr') (yields tr'). rewrite Hc, Hy, Hy2.
      split; [reflexivity |]. cbn [app map].
      unfold upto in *. destruct (is_ok r).
      * now rewrite Hc2.
      * now apply prefix_cons.
    + apply exec_trace in H1 as (tr' & -> & Hq).
      destruct (quiet_trace tr' Hq) as [Hc Hy].
      cbn [exec_calls yields flat_map].
      fold (exec_calls tr') (yields tr'). rewrite Hc, Hy.
      split; [reflexivity |]. cbn [is_ok upto app map].
      apply prefix_cons, prefix_nil.
Qed.

Lemma transfer_files_upto cm srcdir d dstdir_exists fnames
    (w w' : world) tr r :
  WalkObject.transfer_files self cm srcdir d dstdir_exists fnames w
  = (tr, w', r) ->
  yields tr = []
  /\ upto (is_ok r) (exec_calls tr) (map (transfer_paths self srcdir d) fnames).
Proof.
  unfold WalkObject.transfer_files. intros Hrun.
  assert (Hm : forall tr1 w1 r1,
            (if negb (CopyMethod.dryrun cm) && negb dstdir_exists
                && (negb (WalkObject.mkdir_upon_file_copy self)
                    || negb (length fnames =? 0))
             then mutate (Makedirs d) (fun w => os_makedirs w d)
             else ret tt) w = (tr1, w1, r1) ->
            exec_calls tr1 = [] /\ yields tr1 = []).
  { intros tr1 w1 r1 H1. apply quiet_trace. revert H1.
    match goal with |- ?m w = _ -> _ =>
      assert (Hq : emits quiet m) by repeat emits_step end.
    intros H1. exact (Hq _ _ _ _ H1). }
  apply bind_inv in Hrun
    as [(tr1 & w1 & [] & tr2 & H1 & H2 & ->) | (ex & H1 & ->)].
  - destruct (Hm _ _ _ H1) as [Hc Hy].
    apply for_each_exec_upto in H2 as [Hy2 Hc2].
    rewrite exec_calls_app, yields_app, Hc, Hy, Hy2. auto.
  - destruct (Hm _ _ _ H1) as [Hc Hy]. rewrite Hc, Hy.
    split; [reflexivity | apply prefix_nil].
Qed.

End Sound.

Ltac sound_walk_step :=
  match goal with
  | |- sound (bind _ _) => apply sound_bind; [| intros ?]
  | |- sound (ret _) => apply sound_ret
  | |- sound (raise TypeError) => apply sound_raise_TypeError
  | |- sound (observe _) => apply sound_observe
  | |- sound (emit _) => apply sound_emit; reflexivity
  | |- sound (mutate (Makedirs _) _) => apply sound_makedirs
  | |- sound (execute_command _) => apply sound_execute_command
  | |- sound (if ?b then _ else _) => destruct b
  | |- sound (match ?x with _ => _ end) => destruct x
  | |- sound (let '(_, _) := ?x in _) => destruct x
  end.

(** ** The run of [_walk] over a tree *)

Section Outcome.

Context {pattern world : Type} `{OS world}.

Lemma upto_nil {A} (done : bool) : upto done (@nil A) [].
Proof. destruct done; [reflexivity | apply prefix_nil]. Qed.

Lemma upto_prefix {A} (done : bool) (l due : list A) :
  upto done l due -> l `prefix_of` due.
Proof. destruct done; [intros -> | auto]. reflexivity. Qed.

Lemma outcome_quiet {A} (m : M world A) (enough_fuel : Prop) w tr w' r :
  sound m -> emits quiet m -> m w = (tr, w', r) ->
  outcome [] [] enough_fuel w (tr, w', r).
Proof.
  intros Hs Hq Hrun. destruct (Hs _ _ _ _ Hrun) as [Hw Hfail].
  destruct (quiet_trace tr (Hq _ _ _ _ Hrun)) as [Hc Hy].
  unfold outcome, items. rewrite Hc, Hy.
  split; [exact Hw |]. split; [apply upto_nil |]. split; [apply upto_nil |].
  intros ex E _. now apply Hfail.
Qed.

Lemma outcome_fuel {A} due_items due_calls (P Q : Prop) w
    (out : list event * world * result A) :
  (Q -> P) -> outcome due_items due_calls P w out ->
  outcome due_items due_calls Q w out.
Proof.
  destruct out as [[tr w'] r]. intros PQ (Hw & Hi & Hc & Hf).
  repeat split; auto.
Qed.

Lemma outcome_bind {A B} (m : M world A) (k : A -> M world B)
    (enough_fuel : Prop) w tr w' r items1 calls1 items2 calls2 :
  bind m k w = (tr, w', r) ->
  (forall tr1 w1 r1,
     m w = (tr1, w1, r1) -> (exists tr2, tr = tr1 ++ tr2) ->
     outcome items1 calls1 enough_fuel w (tr1, w1, r1)) ->
  (forall tr1 w1 a tr2,
     m w = (tr1, w1, Ok a) -> w1 = replay w tr1 -> tr = tr1 ++ tr2 ->
     k a w1 = (tr2, w', r) ->
     outcome items2 calls2 enough_fuel w1 (tr2, w', r)) ->
  outcome (items1 ++ items2) (calls1 ++ calls2) enough_fuel w (tr, w', r).
Proof.
  intros Hrun Hm Hk.
  apply bind_inv in Hrun
    as [(tr1 & w1 & a & tr2 & H1 & H2 & ->) | (ex & H1 & ->)].
  - destruct (Hm _ _ _ H1 (ex_intro _ tr2 eq_refl)) as (Hw1 & Hi1 & Hc1 & _).
    destruct (Hk _ _ _ _ H1 Hw1 eq_refl H2) as (Hw2 & Hi2 & Hc2 & Hf2).
    cbn [is_ok upto] in Hi1, Hc1.
    split; [now rewrite replay_app, <- Hw1 |].
    rewrite items_app, exec_calls_app, Hi1, Hc1.
    split; [| split; [| exact Hf2]]; unfold upto in *; destruct (is_ok r);
      try (now f_equal); now apply prefix_app.
  - destruct (Hm _ _ _ H1 (ex_intro _ [] (eq_sym (app_nil_r _))))
      as (Hw1 & Hi1 & Hc1 & Hf1).
    cbn [is_ok upto] in *.
    split; [exact Hw1 |].
    split; [now apply prefix_app_r |]. split; [now apply prefix_app_r |].
    intros ex' [= <-]. now apply Hf1.
Qed.

Lemma bind_pure {A B} (m : M world A) (k : A -> M world B) w a :
  m w = ([], w, Ok a) -> bind m k w = k a w.
Proof.
  intros E. unfold bind. rewrite E. now destruct (k a w) as [[tr w'] r].
Qed.

Lemma combine_map {A B} (f : A -> B) (l : list A) :
  combine l (map f l) = map (fun x => (x, f x)) l.
Proof. induction l as [|x l IH]; simpl; [reflexivity | now rewrite IH]. Qed.

Variable self : WalkObject.t pattern.
Variable root : string.
Variable top : option string.

#[local] Abbreviation dst_at chain :=
  (option_map
     (fun d => dst_of self (WalkObject.collapse_tree_inst self) d chain) top).

#[local] Abbreviation below chain es :=
  (List.filter (fun d => in_bounds self (fst d)) (subdirs_of chain es)).

Lemma items_due_app (a b : list (list string * tree)) :
  items_due self root (a ++ b) = items_due self root a ++ items_due self root b.
Proof. unfold items_due. apply map_app. Qed.

Lemma calls_expected_app (a b : list (list string * tree)) :
  calls_expected self root top (a ++ b)
  = calls_expected self root top a ++ calls_expected self root top b.
Proof.
  unfold calls_expected, calls_due.
  destruct top, (WalkObject.copy_method_inst self); try reflexivity.
  apply flat_map_app.
Qed.

Lemma calls_expected_nil : calls_expected self root top [] = [].
Proof.
  unfold calls_expected.
  now destruct top, (WalkObject.copy_method_inst self).
Qed.

Lemma dst_at_child (chain : list string) (name : string) :
  match dst_at chain with
  | None => None
  | Some d =>
      if WalkObject.collapse_tree_inst self then Some d
      else Some (Py.path_join d
                   (WalkObject.apply_resub self (WalkObject.dname_resub self)
                      name))
  end
  = dst_at (chain ++ [name]).
Proof.
  destruct top as [d |]; [| reflexivity]. cbn [option_map].
  rewrite dst_of_child. now destruct (WalkObject.collapse_tree_inst self).
Qed.

(** The loop of [_walk] over the subdirectories of the directory at
    [chain]. *)
#[local] Abbreviation children fuel chain names :=
  (for_each (map (fun name => (name, dir_rule self name)) names)
     (fun '(dn, dn_pass) =>
        WalkObject._walk fuel self (Py.path_join (path_of root chain) dn)
          match dst_at chain with
          | None => None
          | Some d =>
              if WalkObject.collapse_tree_inst self then Some d
              else Some (Py.path_join d
                           (WalkObject.apply_resub self
                              (WalkObject.dname_resub self) dn))
          end
          (Z.add (depth_of chain) 1)
          (if dn_pass
           then if Z.ltb (dmd_of self root chain) 0
                then dmd_of self root chain else Zpos xH
           else if Z.leb (dmd_of self root chain) 0
                then dmd_of self root chain
                else Z.add (dmd_of self root chain) 1))).

Lemma _walk_outcome :
  (forall t fuel chain w tr w' r,
     WalkObject._walk fuel self (path_of root chain) (dst_at chain)
       (depth_of chain) (entry_dmd self root chain) w = (tr, w', r) ->
     (forall tr1 tr2, tr = tr1 ++ tr2 ->
        listed self (replay w tr1) (path_of root chain) (depth_of chain) t
        = true) ->
     outcome (items_due self root (visited self chain t))
             (calls_expected self root top (visited self chain t))
             (height t < fuel) w (tr, w', r))
  /\ (forall es fuel chain w tr w' r,
        children fuel chain (dirs_of (flags es)) w = (tr, w', r) ->
        (forall tr1 tr2, tr = tr1 ++ tr2 ->
           listed_in self (replay w tr1) (path_of root chain)
                     (depth_of chain + 1) es = true) ->
        outcome (items_due self root (below chain es))
                (calls_expected self root top (below chain es))
                (height_of es < fuel) w (tr, w', r)).
Proof.
  apply tree_entries_ind.
  - (* a directory *)
    intros es IHes fuel chain w tr w' r Hrun Hsrc.
    destruct fuel as [|fuel].
    { injection Hrun as <- <- <-.
      split; [reflexivity |]. split; [apply prefix_nil |].
      split; [apply prefix_nil |]. intros ex _ Hfuel. lia. }
    cbn [WalkObject._walk] in Hrun.
    destruct (num_ltb (WalkObject.maxdepth self) (Fin (depth_of chain)))
      eqn:Hmax.
    { injection Hrun as <- <- <-. rewrite visited_too_deep by exact Hmax.
      rewrite calls_expected_nil.
      split; [reflexivity |]. split; [reflexivity |].
      split; [reflexivity | discriminate]. }
    rewrite root_dmd, passes_dmd in Hrun.
    assert (Hvis : visited self chain (Listing es)
                   = (if num_leb (WalkObject.mindepth self)
                                 (Fin (depth_of chain))
                      then [(chain, Listing es)] else [])
                     ++ below chain es).
    { unfold visited. cbn [subdirs List.filter fst]. unfold in_bounds at 1.
      unfold num_leb at 2. rewrite Hmax. cbn [negb]. rewrite andb_true_r.
      now destruct (num_leb _ _). }
    rewrite Hvis, items_due_app, calls_expected_app. clear Hvis.
    (* the destination is prepared *)
    apply (outcome_bind _ _ _ w tr w' r [] [] _ _ Hrun);
      [intros tr0 w1 r1 H1 _;
       exact (outcome_quiet _ _ _ _ _ _ (sound_prepare_dstdir self _ _)
                (prepare_dstdir_quiet self _ _) H1) |].
    clear Hrun. intros tr0 w1 dstdir_exists tr2 _ Hw1 -> Hrun.
    (* the directory is listed *)
    rewrite (bind_pure _ _ w1 (flags es)) in Hrun.
    2:{ rewrite list_entries_os. f_equal.
        pose proof (Hsrc tr0 tr2 eq_refl) as Hl. rewrite <- Hw1 in Hl.
        cbn [listed] in Hl. rewrite Hmax in Hl.
        destruct (os_entries _ w1 _) as [l |]; [| discriminate Hl].
        apply andb_true_iff in Hl as [Hl _].
        now rewrite (same_entries_eq _ _ Hl). }
    rewrite scan_flags in Hrun. cbv iota beta in Hrun.
    assert (Hbelow : forall tr1 tr3, tr2 = tr1 ++ tr3 ->
              listed_in self (replay w1 tr1) (path_of root chain)
                        (depth_of chain + 1) es = true).
    { intros tr1 tr3 ->. subst w1. rewrite <- replay_app.
      pose proof (Hsrc (tr0 ++ tr1) tr3 (app_assoc _ _ _)) as Hl.
      cbn [listed] in Hl. rewrite Hmax in Hl.
      now apply andb_true_iff in Hl as [_ Hl]. }
    clear Hsrc.
    (* the files are transferred and the item is yielded *)
    apply (outcome_bind _ _ _ w1 tr2 w' r _ _ _ _ Hrun).
    + clear Hrun. intros tr1 w2 r1 Hvisit _.
      destruct (num_leb (WalkObject.mindepth self) (Fin (depth_of chain)));
        [| injection Hvisit as <- <- <-; rewrite calls_expected_nil;
           split; [reflexivity |]; split; [reflexivity |];
           split; [reflexivity | discriminate]].
      assert (Hitems : items_due self root [(chain, Listing es)]
                       = [] ++ [(path_of root chain,
                                 passing_files self root chain (Listing es))])
        by reflexivity.
      rewrite Hitems. clear Hitems.
      rewrite <- (app_nil_r
                    (calls_expected self root top [(chain, Listing es)])).
      apply (outcome_bind _ _ _ w1 tr1 w2 r1 _ _ _ _ Hvisit).
      * clear Hvisit. intros tr3 w3 r3 Htrans _.
        unfold calls_expected, calls_due, passing_files.
        cbn [flat_map fst snd listing].
        destruct (dir_passes self root chain);
          [| destruct top, (WalkObject.copy_method_inst self);
             injection Htrans as <- <- <-;
             (split; [reflexivity |]); (split; [reflexivity |]);
             (split; [reflexivity | discriminate])].
        destruct (WalkObject.copy_method_inst self) as [cm |];
          [| destruct top; injection Htrans as <- <- <-;
             (split; [reflexivity |]); (split; [reflexivity |]);
             (split; [reflexivity | discriminate])].
        destruct top as [d |]; cbn [option_map] in Htrans;
          [| injection Htrans as <- <- <-;
             (split; [reflexivity |]); (split; [reflexivity |]);
             (split; [reflexivity | discriminate])].
        rewrite app_nil_r.
        destruct (sound_transfer_files self _ _ _ _ _ _ _ _ _ Htrans)
          as [Hw3 Hf3].
        destruct (transfer_files_upto self _ _ _ _ _ _ _ _ _ Htrans)
          as [Hy3 Hc3].
        split; [exact Hw3 |]. unfold items. rewrite Hy3.
        split; [apply upto_nil |]. split; [exact Hc3 |].
        intros ex E _. now apply Hf3.
      * clear Hvisit. intros tr3 w3 [] tr4 _ _ _ [= <- <- <-].
        unfold passing_files. cbn [listing].
        split; [reflexivity |]. split; [reflexivity |].
        split; [reflexivity | discriminate].
    + (* the subdirectories *)
      clear Hrun. intros tr1 w2 [] tr3 _ Hw2 -> Hrun.
      destruct (negb (length (dirs_of (flags es)) =? 0)) eqn:Hdirs.
      * destruct (num_ltb (Fin (depth_of chain)) (WalkObject.maxdepth self))
          eqn:Hdeep; cbn [andb] in Hrun.
        -- rewrite combine_map in Hrun.
           apply (outcome_fuel _ _ (height_of es < fuel));
             [cbn [height]; lia |].
           apply (IHes fuel chain w2 tr3 w' r Hrun).
           intros tr4 tr5 ->. subst w2. rewrite <- replay_app.
           apply (Hbelow (tr1 ++ tr4) tr5). now rewrite app_assoc.
        -- injection Hrun as <- <- <-. rewrite below_too_deep by exact Hdeep.
           rewrite calls_expected_nil.
           split; [reflexivity |]. split; [reflexivity |].
           split; [reflexivity | discriminate].
      * cbn [andb] in Hrun. injection Hrun as <- <- <-.
        apply negb_false_iff, Nat.eqb_eq, length_zero_iff_nil in Hdirs.
        rewrite (subdirs_of_no_dir es chain Hdirs). cbn [List.filter].
        rewrite calls_expected_nil.
        split; [reflexivity |]. split; [reflexivity |].
        split; [reflexivity | discriminate].
  - (* no entry left *)
    intros fuel chain w tr w' r [= <- <- <-] _.
    cbn [subdirs_of List.filter]. rewrite calls_expected_nil.
    split; [reflexivity |]. split; [reflexivity |].
    split; [reflexivity | discriminate].
  - (* a file *)
    intros name rest IH fuel chain w tr w' r Hrun Hsrc.
    exact (IH fuel chain w tr w' r Hrun Hsrc).
  - (* a subdirectory, then the other entries *)
    intros name sub rest IHsub IHrest fuel chain w tr w' r Hrun Hsrc.
    change (dirs_of (flags (dir_entry name sub rest)))
      with (name :: dirs_of (flags rest)) in Hrun.
    cbn [map for_each] in Hrun.
    rewrite (child_dmd self root chain name), (dst_at_child chain name),
      <- (path_of_child root chain name) in Hrun.
    rewrite <- (depth_of_child chain name) in Hrun at 1.
    cbn [subdirs_of]. rewrite List.filter_app.
    fold (visited self (chain ++ [name]) sub).
    rewrite items_due_app, calls_expected_app.
    apply (outcome_fuel _ _ (height sub < fuel /\ height_of rest < fuel));
      [cbn [height_of]; lia |].
    apply (outcome_bind _ _ _ w tr w' r _ _ _ _ Hrun).
    + intros tr1 w1 r1 H1 [tr4 ->].
      apply (outcome_fuel _ _ (height sub < fuel)); [tauto |].
      apply (IHsub fuel (chain ++ [name]) w tr1 w1 r1 H1).
      intros tr2 tr3 ->.
      pose proof (Hsrc tr2 (tr3 ++ tr4) (eq_sym (app_assoc _ _ _))) as Hl.
      cbn [listed_in] in Hl. apply andb_true_iff in Hl as [Hl _].
      now rewrite path_of_child, depth_of_child.
    + intros tr1 w1 [] tr2 _ Hw1 -> Hrest.
      apply (outcome_fuel _ _ (height_of rest < fuel)); [tauto |].
      apply (IHrest fuel chain w1 tr2 w' r Hrest).
      intros tr3 tr4 ->. subst w1. rewrite <- replay_app.
      pose proof (Hsrc (tr1 ++ tr3) tr4 (app_assoc _ _ _)) as Hl.
      cbn [listed_in] in Hl. now apply andb_true_iff in Hl as [_ Hl].
Qed.

End Outcome.

(** ** The run of [walk] *)

Section WalkOutcome.

Context {pattern world : Type} `{OS world}.
Variable SYSTYPE : CopyMethod.systype.

Lemma outcome_stopped {A} due_items due_calls (P : Prop) (w : world)
    (ex : exn) :
  ~ P -> outcome due_items due_calls P w ([], w, @Raise A ex).
Proof.
  intros HP. split; [reflexivity |]. split; [apply prefix_nil |].
  split; [apply prefix_nil |]. intros ex' _ HP'. now destruct HP.
Qed.

Lemma outcome_ret {A} (P : Prop) (w : world) (a : A) :
  outcome [] [] P w ([], w, Ok a).
Proof.
  split; [reflexivity |]. split; [reflexivity |].
  split; [reflexivity | discriminate].
Qed.

Lemma source_isb_is (self : WalkObject.t pattern) (w : world)
    (tr : list event) (root : string) (t : tree) :
  source_isb self w tr root t = true -> source_is self w tr root t.
Proof.
  unfold source_isb, source_is. intros Hb tr1 tr2 ->.
  rewrite forallb_forall in Hb.
  specialize (Hb (length tr1)).
  rewrite firstn_app, Nat.sub_diag, firstn_all, firstn_O, app_nil_r in Hb.
  apply Hb, in_seq. rewrite length_app. lia.
Qed.

Lemma listed_same (s1 s2 : WalkObject.t pattern) :
  WalkObject.maxdepth s1 = WalkObject.maxdepth s2 ->
  WalkObject.list_function s1 = WalkObject.list_function s2 ->
  (forall t w d depth, listed s1 w d depth t = listed s2 w d depth t)
  /\ (forall es w d depth,
         listed_in s1 w d depth es = listed_in s2 w d depth es).
Proof.
  intros Hmax Hlf. apply tree_entries_ind.
  - intros es IH w d depth. cbn [listed]. now rewrite Hmax, Hlf, IH.
  - reflexivity.
  - intros name rest IH w d depth. exact (IH w d depth).
  - intros name sub rest IHs IHr w d depth. cbn [listed_in].
    now rewrite IHs, IHr.
Qed.

(** What a call of [walk] has done of what is due for the tree [t] of its
    source, whatever its arguments. *)
Lemma walk_outcome (fuel : nat) (self : WalkObject.t pattern)
    (srcdir : string) (dstdir : option string) (ov tp ct : option bool)
    (t : tree) (w w' : world) tr r :
  let root := normpath_expanduser srcdir in
  WalkObject.walk SYSTYPE fuel self srcdir dstdir ov tp ct w = (tr, w', r) ->
  source_is self w tr root t ->
  outcome (items_due self root (visited self [] t))
          match dstdir with
          | Some dst =>
              calls_due self root (default (WalkObject.collapse_tree self) ct)
                        (walk_top self root dst tp) (visited self [] t)
          | None => []
          end
          (WalkObject.copy_method self <> None
           /\ os_path_isdir w root = true /\ height t < fuel)
          w (tr, w', r).
Proof.
  intros root Hrun Hsrc. unfold WalkObject.walk in Hrun. fold root in Hrun.
  set (due_items := items_due self root (visited self [] t)).
  set (due_calls := match dstdir with
                    | Some dst => calls_due self root _ _ _
                    | None => []
                    end).
  (* the overwrite flag *)
  apply (outcome_bind _ _ _ w tr w' r [] [] due_items due_calls Hrun).
  { intros tr1 w1 r1 Hov _. revert Hov. destruct ov as [b |];
      [| destruct (WalkObject.copy_method self) as [cm |]];
      intros [= <- <- <-];
      [apply outcome_ret | apply outcome_ret | apply outcome_stopped; tauto]. }
  clear Hrun. intros tr0 w0 ov1 tr2 Hov _ -> Hrun.
  assert (tr0 = [] /\ w0 = w) as [-> ->].
  { destruct ov as [b |];
      [| destruct (WalkObject.copy_method self) as [cm |]];
      now injection Hov as <- <- _. }
  clear Hov. cbn [app] in Hsrc.
  (* the source directory *)
  rewrite (bind_pure _ _ w (os_path_isdir w root)) in Hrun by reflexivity.
  destruct (os_path_isdir w root) eqn:Hisdir; cbn [negb] in Hrun;
    [| injection Hrun as <- <- <-; apply outcome_stopped;
       intros (_ & E & _); discriminate E].
  (* the destination of the root *)
  apply (outcome_bind _ _ _ w tr2 w' r [] [] due_items due_calls Hrun).
  { intros tr1 w1 r1 H1 _.
    refine (outcome_quiet _ _ _ _ _ _ _ _ H1);
      [repeat sound_walk_step | repeat emits_step]. }
  clear Hrun. intros tr0 w0 dstdir_2 tr3 Hdst _ -> Hrun.
  assert (tr0 = [] /\ w0 = w
          /\ dstdir_2 = option_map (fun dst => walk_top self root dst tp)
                                   dstdir) as (-> & -> & ->).
  { unfold walk_top. fold root.
    destruct (default (WalkObject.transplant_tree self) tp);
      [destruct dstdir as [dst |] |]; try discriminate Hdst;
      injection Hdst as <- <- <-; auto. }
  clear Hdst. cbn [app] in Hsrc.
  (* the strategy of this run *)
  apply (outcome_bind _ _ _ w tr3 w' r [] [] due_items due_calls Hrun).
  { intros tr1 w1 r1 Hcmi _. revert Hcmi.
    destruct (WalkObject.copy_method self) as [cm |];
      [destruct (negb _) |]; intros [= <- <- <-];
      [apply outcome_ret | apply outcome_ret | apply outcome_stopped; tauto]. }
  clear Hrun. intros tr0 w0 cmi tr4 Hcmi _ -> Hrun.
  assert (tr0 = [] /\ w0 = w /\ exists cm1, cmi = Some cm1)
    as (-> & -> & cm1 & ->).
  { destruct (WalkObject.copy_method self) as [cm |];
      [destruct (negb _) |]; try discriminate Hcmi;
      injection Hcmi as <- <- <-; eauto. }
  clear Hcmi. cbn [app] in Hsrc.
  cbn [WalkObject.copy_method WalkObject.dstdir] in Hrun.
  (* the directory made by [walk] *)
  apply (outcome_bind _ _ _ w tr4 w' r [] [] due_items due_calls Hrun).
  { intros tr1 w1 r1 H1 _.
    refine (outcome_quiet _ _ _ _ _ _ _ _ H1);
      [repeat sound_walk_step | repeat emits_step]. }
  clear Hrun. intros tr0 w0 [] tr5 _ Hw0 -> Hrun.
  (* the traversal *)
  rewrite <- (app_nil_r due_items), <- (app_nil_r due_calls).
  apply (outcome_bind _ _ _ w0 tr5 w' r _ _ [] [] Hrun);
    [| intros tr1 w1 [] tr6 _ _ _ [= <- <- <-]; apply outcome_ret].
  clear Hrun. intros tr1 w1 r1 Hwalk [tr6 ->].
  apply (outcome_fuel _ _ (height t < fuel)); [tauto |].
  match type of Hwalk with
  | WalkObject._walk _ ?s _ _ _ _ _ = _ => set (self' := s) in *
  end.
  set (top := option_map (fun dst => walk_top self root dst tp) dstdir) in *.
  assert (Htop : option_map
                   (fun d => dst_of self' (WalkObject.collapse_tree_inst self')
                                    d []) top = top).
  { destruct top as [d |]; [| reflexivity]. cbn [option_map]. f_equal.
    unfold dst_of. now destruct (WalkObject.collapse_tree_inst self'). }
  rewrite <- Htop in Hwalk.
  pose proof (proj1 (_walk_outcome self' root top) t fuel [] w0 tr1 w1 r1
                Hwalk) as Hout.
  subst due_items due_calls top. destruct dstdir as [dst |]; apply Hout;
    intros tr7 tr8 ->; subst w0; rewrite <- replay_app;
    rewrite (proj1 (listed_same self' self eq_refl eq_refl));
    apply (Hsrc (tr0 ++ tr7) (tr8 ++ tr6)); now rewrite <- !app_assoc.
Qed.

End WalkOutcome.

(** ** Every directory of a traversal *)

Section WholeTraversal.

Context {pattern world : Type} `{OS world}.
Variable SYSTYPE : CopyMethod.systype.


End WholeTraversal.


(** The traversal of the example: the three directories of [/src], the
    files that match [*.txt], one call for each. *)
Example walk_src_items_and_calls :
  let tr :=
    fst (fst (WalkObject.walk LINUX 10 link_walker "/src" (Some "/dst") None
                None None src_tree)) in
  items tr
  = [("/src", ["a.txt"]); ("/src/sub", ["b.txt"]);
     ("/src/sub/deep", ["c.txt"])]
  /\ items_due link_walker "/src" (visited link_walker [] src_listing)
     = items tr
  /\ exec_calls tr
     = [("/src/a.txt", "/dst/a.txt"); ("/src/sub/b.txt", "/dst/sub/b.txt");
        ("/src/sub/deep/c.txt", "/dst/sub/deep/c.txt")]
  /\ calls_due link_walker "/src" false "/dst"
       (visited link_walker [] src_listing)
     = exec_calls tr.
Proof. vm_compute. repeat split; reflexivity. Qed.

(** * Further properties of the code *)

(** ** Bundle files *)

(** X1.  [get_index_fmtstr]: two different indices never format to the
    same string, whatever the total and the minimum width, so no two
    bundles of one call share a file name. *)
Theorem index_format_distinct (num_items min_digits a b : nat) :
  a <> b ->
  Bundles.get_index_fmtstr num_items min_digits a
  <> Bundles.get_index_fmtstr num_items min_digits b.
Proof.
  intros Hab E. apply Hab. unfold Bundles.get_index_fmtstr in E.
  apply (f_equal parse_nat) in E. unfold Py.rjust0 in E.
  rewrite !parse_zero_prefix, !parse_str in E. now injection E.
Qed.

Lemma index_format_distinct_witness :
  Bundles.get_index_fmtstr 12 3 7 <> Bundles.get_index_fmtstr 12 3 11.
Proof. apply (index_format_distinct 12 3 7 11). lia. Defined.

(** X2.  [write_task_bundles] touches no file but the ones whose paths it
    returns: any other path of the bundle directory holds after the call
    what it held before. *)
Theorem write_task_bundles_keeps_other_files e task_list B dstdir prefix
    delim fmt (fs fs' : gmap string string) paths path :
  Bundles.write_task_bundles e task_list B dstdir prefix delim fmt fs
  = Ok (fs', paths) ->
  ~ In path paths ->
  fs' !! path = fs !! path.
Proof.
  unfold Bundles.write_task_bundles.
  destruct (negb (Bundles.imported_numpy e) && negb (String.eqb fmt "%s"));
    [discriminate |].
  destruct (B =? 0)%nat; [discriminate |].
  match goal with
  | |- Ok ?out = _ -> _ => set (o := out)
  end.
  intros E Hnot.
  assert (Hfs : fs' = fst o) by (injection E as E; now rewrite E).
  assert (Hp : paths = snd o) by (injection E as E; now rewrite E).
  subst fs'. unfold o. apply write_loop_other.
  intros p Hin Heq. apply Hnot. rewrite Hp. unfold o.
  rewrite write_loop_paths. simpl. apply in_map_iff. exists p. auto.
Qed.

Lemma write_task_bundles_keeps_other_files_witness :
  exists fs' paths,
    Bundles.write_task_bundles env_plain ten_tasks 4 "/bundles"
      "Copy_srclist" "," "%s" {["/bundles/old.txt" := "kept"]}
    = Ok (fs', paths)
    /\ ~ In "/bundles/old.txt" paths
    /\ fs' !! "/bundles/old.txt" = Some "kept".
Proof.
  destruct (write_task_bundles_result env_plain ten_tasks 4 "/bundles"
              "Copy_srclist" "," {["/bundles/old.txt" := "kept"]}
              ltac:(lia)) as (fs' & E & _).
  assert (Hnot : ~ In "/bundles/old.txt"
                      (map (bundle_name env_plain "/bundles" "Copy_srclist"
                              (Bundles.ceil_div (length ten_tasks) 4))
                           (seq 0 (Bundles.ceil_div (length ten_tasks) 4)))).
  { vm_compute. intros [H | [H | [H | []]]]; discriminate H. }
  eexists fs', _. split; [exact E |]. split; [exact Hnot |].
  rewrite (write_task_bundles_keeps_other_files env_plain ten_tasks 4
             "/bundles" "Copy_srclist" "," "%s"
             {["/bundles/old.txt" := "kept"]} fs' _ "/bundles/old.txt"
             E Hnot).
  apply lookup_singleton_eq.
Defined.

(** ** Reading rows of any width *)

Section CleanLines.

Variable c : ascii.
Hypothesis c_not_space : Py.isspace c = false.

#[local] Abbreviation dlm := (String c EmptyString).

Lemma clean_row_task (t : Bundles.task) :
  clean_row c t = true -> clean_task c (length t) t = true /\ t <> [].
Proof.
  unfold clean_row, clean_task. rewrite andb_true_iff, negb_true_iff.
  intros [Hf Hne]. rewrite Nat.eqb_refl, Hf. split; [reflexivity |].
  intros ->. discriminate Hne.
Qed.

Lemma clean_row_kept (t : Bundles.task) :
  clean_row c t = true -> Py.isempty (Py.strip (Py.join dlm t)) = false.
Proof.
  intros Ht. destruct (clean_row_task t Ht) as [Hk Hne].
  destruct (clean_task_fields c _ t Hk) as (_ & _ & _ & Hstrip).
  destruct t as [|x [|y t]]; [congruence | |].
  - injection Hstrip as Hx. cbn [Py.join]. rewrite Hx.
    unfold clean_row in Ht. apply andb_true_iff in Ht as [_ Ht].
    now apply negb_true_iff in Ht.
  - apply strip_nonempty. now apply join_has_delim.
Qed.

Lemma clean_row_parsed (t : Bundles.task) :
  clean_row c t = true ->
  rbind (Py.split dlm (Py.join dlm t)) (fun args => Ok (map Py.strip args))
  = Ok t.
Proof.
  intros Ht. destruct (clean_row_task t Ht) as [Hk Hne].
  destruct (clean_task_fields c _ t Hk) as (_ & Hc & _ & Hstrip).
  unfold Py.split. change (Py.isempty dlm) with false. cbn iota.
  rewrite split_go_join by assumption. cbn [rbind]. now rewrite Hstrip.
Qed.

Lemma clean_rows_text (rows : list Bundles.task) :
  forallb (clean_row c) rows = true ->
  Py.universal_newlines (Bundles.bundle_text dlm rows)
  = Bundles.bundle_text dlm rows
  /\ Py.splitlines (Bundles.bundle_text dlm rows) = map (Py.join dlm) rows.
Proof.
  intros Hrows.
  assert (Hlines : forall t, In t rows ->
            str_forall (fun a => negb (Py.islinebreak a)) (Py.join dlm t)
            = true).
  { intros t Hin. rewrite forallb_forall in Hrows.
    destruct (clean_row_task t (Hrows t Hin)) as [Hk _].
    exact (clean_line c _ c_not_space t Hk). }
  clear Hrows. split.
  - apply universal_newlines_id.
    induction rows as [|t rows IH]; simpl; [reflexivity |].
    unfold Bundles.task_line. rewrite !str_forall_append. simpl.
    rewrite IH by (intros u Hu; apply Hlines; now right).
    rewrite !andb_true_r.
    eapply str_forall_impl; [| apply (Hlines t); now left].
    intros a Ha. simpl in Ha. now rewrite Ha.
  - induction rows as [|t rows IH]; simpl; [reflexivity |].
    unfold Bundles.task_line. rewrite append_assoc. simpl.
    rewrite splitlines_line by (apply Hlines; now left).
    rewrite IH by (intros u Hu; apply Hlines; now right). reflexivity.
Qed.

Lemma clean_rows_kept (rows : list Bundles.task) :
  forallb (clean_row c) rows = true ->
  List.filter (fun line => negb (Py.isempty (Py.strip line)))
              (map (Py.join dlm) rows)
  = map (Py.join dlm) rows.
Proof.
  induction rows as [|t rows IH]; simpl; [reflexivity |].
  rewrite andb_true_iff. intros [Ht Hrows].
  rewrite (clean_row_kept t Ht). simpl. now rewrite IH.
Qed.

Lemma clean_rows_parsed (rows : list Bundles.task) :
  forallb (clean_row c) rows = true ->
  rmapM (fun t => rbind (Py.split dlm t)
                    (fun args => Ok (map Py.strip args)))
        (map (Py.join dlm) rows)
  = Ok rows.
Proof.
  induction rows as [|t rows IH]; intros Hrows; [reflexivity |].
  cbn [forallb] in Hrows. apply andb_true_iff in Hrows as [Ht Hrows].
  cbn [map rmapM]. rewrite IH by exact Hrows.
  now rewrite (clean_row_parsed t Ht).
Qed.

(** What the parser of [read_task_bundle] makes of the text written for
    clean rows, with the column bounds left out. *)
Lemma read_plain_clean_rows (rows : list Bundles.task) (file : string)
    (ncol_strict allow_1d : bool) :
  rows <> [] ->
  forallb (clean_row c) rows = true ->
  Bundles.read_plain (Bundles.bundle_text dlm rows) file (Some dlm) 0
                     ncol_strict None None allow_1d false
  = if ncol_strict && negb (Py.all_len (length (hd [] rows)) rows)
    then Raise (Bundles.inconsistent file)
    else Ok (if allow_1d
             then map (fun row : list string =>
                         match row with
                         | [x] => Bundles.IStr x
                         | _ => Bundles.IList row
                         end) rows
             else map Bundles.IList rows, None, None).
Proof.
  intros Hne Hrows. unfold Bundles.read_plain.
  destruct (clean_rows_text rows Hrows) as [_ ->].
  rewrite clean_rows_kept by exact Hrows.
  cbn [Nat.ltb Nat.leb andb]. rewrite length_map.
  destruct (Nat.eqb_spec (@length (list string) rows) 0) as [Hz | _];
    [destruct rows; [congruence | discriminate Hz] |].
  rewrite clean_rows_parsed by exact Hrows. cbn [rbind].
  replace (hd 0 (map (@length string) rows)) with (length (hd [] rows))
    by (destruct rows; [congruence | reflexivity]).
  destruct ncol_strict; cbn [andb].
  - destruct (Py.all_len (length (hd [] rows)) rows); cbn [negb];
      [| reflexivity].
    rewrite andb_true_r. reflexivity.
  - rewrite andb_true_r. reflexivity.
Qed.

End CleanLines.

(** X3.  Without numpy, [read_task_bundle] with its defaults rejects a
    bundle file in which some line has another number of fields than the
    first one: it raises [DimensionError] ("Inconsistent number of
    columns") and returns no task. *)
Theorem read_task_bundle_rejects_ragged_rows (e : Bundles.env) (c : ascii)
    (fs : gmap string string) (file : string) (rows : list Bundles.task) :
  Py.isspace c = false ->
  Bundles.imported_numpy e = false ->
  forallb (clean_row c) rows = true ->
  Py.all_len (length (hd [] rows)) rows = false ->
  fs !! file = Some (Bundles.bundle_text (String c EmptyString) rows) ->
  Bundles.read_task_bundle_default e (String c EmptyString) fs file
  = Raise (DimensionError
             ("Inconsistent number of columns in `bundle_file`: " +:+ file)).
Proof.
  intros Hc Hnp Hrows Hragged Hfile.
  assert (Hne : rows <> []) by (intros ->; discriminate Hragged).
  unfold Bundles.read_task_bundle_default, Bundles.read_task_bundle.
  rewrite Hfile, Hnp. cbn [andb].
  destruct (clean_rows_text c Hc rows Hrows) as [-> _].
  rewrite (read_plain_clean_rows c Hc rows file true true Hne Hrows).
  rewrite Hragged. reflexivity.
Qed.

Lemma read_task_bundle_rejects_ragged_rows_witness :
  Bundles.read_task_bundle_default env_plain ","
    {["/bundles/b.txt" := Bundles.bundle_text "," [["a"; "b"]; ["c"]]]}
    "/bundles/b.txt"
  = Raise (DimensionError
             ("Inconsistent number of columns in `bundle_file`: "
              +:+ "/bundles/b.txt")).
Proof.
  apply (read_task_bundle_rejects_ragged_rows env_plain ","%char
           {["/bundles/b.txt" := Bundles.bundle_text "," [["a"; "b"]; ["c"]]]}
           "/bundles/b.txt" [["a"; "b"]; ["c"]]).
  - reflexivity.
  - reflexivity.
  - reflexivity.
  - reflexivity.
  - apply lookup_singleton_eq.
Defined.

Lemma one_field_chunk (c : ascii) (names : list string) (i j : nat) :
  forallb (fun s => clean_field c s && negb (Py.isempty s)) names = true ->
  let rows := Py.slice (one_field_tasks names) i j in
  forallb (clean_row c) rows = true
  /\ Py.all_len (length (hd [] rows)) rows = true
  /\ map (fun row : list string =>
            match row with
            | [x] => Bundles.IStr x
            | _ => Bundles.IList row
            end) rows
     = map Bundles.IStr (Py.slice names i j).
Proof.
  intros Hnames. cbn zeta. unfold one_field_tasks, Py.slice.
  rewrite skipn_map, firstn_map.
  assert (Hsl : forallb (fun s => clean_field c s && negb (Py.isempty s))
                        (firstn (j - i) (skipn i names)) = true)
    by now apply forallb_firstn, forallb_skipn.
  clear Hnames. induction (firstn (j - i) (skipn i names)) as [|s l IH];
    [auto |].
  cbn [forallb] in Hsl. apply andb_true_iff in Hsl as [Hs Hl].
  destruct (IH Hl) as (I1 & I2 & I3). cbn [map forallb hd length].
  rewrite I1, I3.
  split; [| split; [| reflexivity]].
  - rewrite andb_true_r. unfold clean_row. cbn [forallb Py.join].
    now rewrite andb_true_r.
  - unfold Py.all_len. cbn [forallb length Nat.eqb]. clear.
    induction l as [|x l IHl]; [reflexivity | exact IHl].
Qed.

(** X4.  Tasks of a single field do not come back as they were given:
    without numpy, writing a list of one-field tasks with
    [write_task_bundles] and reading the bundles back with
    [read_task_bundle] gives the bare field strings, in order, not
    one-element rows (the fields being clean and not empty). *)
Theorem write_then_read_one_field_tasks (e : Bundles.env) (c : ascii)
    (names : list string) (B : nat) (dstdir prefix : string)
    (fs : gmap string string) :
  Py.isspace c = false -> 1 <= B ->
  Bundles.imported_numpy e = false ->
  forallb (fun s => clean_field c s && negb (Py.isempty s)) names = true ->
  Bundles.write_then_read e (String c EmptyString) (one_field_tasks names) B
                          dstdir prefix fs
  = Ok (map Bundles.IStr names).
Proof.
  intros Hc HB Hnp Hnames. unfold Bundles.write_then_read.
  set (task_list := one_field_tasks names).
  destruct (write_task_bundles_result e task_list B dstdir prefix
              (String c EmptyString) fs HB) as (fs' & Hw & Hl).
  rewrite Hw. cbn [rbind].
  set (total := Bundles.ceil_div (length task_list) B) in *.
  assert (Hlen : length task_list = length names)
    by apply length_map.
  assert (Hcover : length names <= total * B).
  { rewrite <- Hlen.
    destruct (Nat.eq_dec (length task_list) 0) as [Z | NZ]; [lia |].
    apply ceil_div_bounds; lia. }
  rewrite (rmapM_map_ok _ _
             (fun j => map Bundles.IStr (Py.slice names (j * B) (j * B + B)))).
  - cbn [rbind]. f_equal.
    rewrite <- (map_map (fun j => Py.slice names (j * B) (j * B + B))
                        (map Bundles.IStr)).
    rewrite <- concat_map. f_equal. now apply concat_chunks.
  - intros j Hj. apply in_seq in Hj.
    assert (HN : 0 < length task_list).
    { destruct (length task_list) eqn:E; [| lia].
      unfold total in Hj. rewrite ceil_div_zero in Hj. lia. }
    destruct (ceil_div_bounds (length task_list) B HN ltac:(lia)) as [Lo _].
    fold total in Lo.
    destruct (one_field_chunk c names (j * B) (j * B + B) Hnames)
      as (Hrows & Hall & Hitems).
    fold task_list in Hrows, Hall, Hitems.
    assert (Hne : Py.slice task_list (j * B) (j * B + B) <> []).
    { intros E. apply (f_equal (@length _)) in E.
      change (Py.slice task_list (j * B) (j * B + B))
        with (chunk task_list B j) in E.
      rewrite chunk_length in E. simpl in E. nia. }
    unfold Bundles.read_task_bundle_default, Bundles.read_task_bundle.
    rewrite (Hl j ltac:(lia)). unfold Bundles.write_bundle, chunk.
    destruct (Nat.eqb_spec
                (length (Py.slice task_list (j * B) (j * B + B))) 0)
      as [Hz | _];
      [destruct (Py.slice task_list (j * B) (j * B + B));
         [congruence | discriminate Hz] |].
    rewrite Hnp. cbn [andb].
    destruct (clean_rows_text c Hc _ Hrows) as [-> _].
    rewrite (read_plain_clean_rows c Hc _ _ true true Hne Hrows).
    rewrite Hall. cbn [negb andb rbind Bundles.check_ncol
                       Bundles.unwrap_header].
    now rewrite Hitems.
Qed.

Lemma write_then_read_one_field_tasks_witness :
  Bundles.write_then_read env_plain "," (one_field_tasks ["a"; "b"; "c"]) 2
                          "/bundles" "Copy" ∅
  = Ok (map Bundles.IStr ["a"; "b"; "c"]).
Proof.
  apply (write_then_read_one_field_tasks env_plain ","%char ["a"; "b"; "c"] 2).
  - reflexivity.
  - lia.
  - reflexivity.
  - reflexivity.
Defined.

(** ** Copy strategies *)

Lemma init_shell_strategy (SYSTYPE : CopyMethod.systype) (shcmd : string)
    (name verb : option string) (rev : option bool) (is_fmtstr : bool) :
  let cm := CopyMethod.__init__ SYSTYPE (CopyMethod.ArgStr shcmd) name verb
                                rev is_fmtstr in
  CopyMethod.copy_fn cm = None /\ CopyMethod.dryrun cm = false.
Proof.
  cbn zeta. unfold CopyMethod.__init__.
  destruct (CopyMethod.is_windows SYSTYPE
            && (length (Py.split_go " " 0 (Py.strip shcmd)) =? 1)%nat);
    [destruct (Py.dict_get CopyMethod.COPY_METHOD_SHPROGS_LINUX_TO_WINDOWS_DICT
                 (hd EmptyString (Py.split_go " " 0 (Py.strip shcmd)))) |];
    split; reflexivity.
Qed.

Lemma copy_of_shell_strategy (SYSTYPE : CopyMethod.systype) (shcmd : string)
    (name verb : option string) (rev : option bool) (is_fmtstr : bool) :
  let cm := CopyMethod.__copy__ SYSTYPE
              (CopyMethod.__init__ SYSTYPE (CopyMethod.ArgStr shcmd) name
                                   verb rev is_fmtstr) in
  CopyMethod.copy_fn cm = None /\ CopyMethod.copy_shcmd cm = None
  /\ CopyMethod.dryrun cm = false.
Proof.
  cbn zeta.
  destruct (init_shell_strategy SYSTYPE shcmd name verb rev is_fmtstr)
    as [Hfn Hdry].
  unfold CopyMethod.__copy__. rewrite Hfn, Hdry.
  repeat split.
Qed.

Section ExecMore.

Context {world : Type} `{OS world}.

(** X5.  In dry-run mode one call of [CopyMethod.exec] leaves the machine
    as it found it and makes no call that changes the file system (no
    removal, no copy function, no shell command), whatever the strategy,
    the overwrite flag and the state of the destination. *)
Theorem exec_dry_run_changes_nothing (cm : CopyMethod.t) (s d : string)
    (w w' : world) tr r :
  CopyMethod.dryrun cm = true ->
  CopyMethod.exec cm s d w = (tr, w', r) ->
  w' = w /\ mutations tr = [].
Proof.
  intros Hdry Hrun. destruct (exec_dryrun cm s d Hdry) as [Hf He].
  split; [exact (Hf _ _ _ _ Hrun) |].
  apply no_mutation_trace. exact (He _ _ _ _ Hrun).
Qed.

(** X6.  When the destination file does not exist and dry-run is off,
    [exec] makes exactly one call that changes the file system: the
    transfer itself (the shell command, or the copy function with its
    arguments in the order [reverse_args] asks for), and no removal.  A
    strategy that has neither a command nor a function raises [TypeError]
    without changing anything, and a format string that [str.format]
    cannot fill raises what [str.format] raises, equally without a
    call. *)
Theorem exec_fresh_destination (cm : CopyMethod.t) (s d : string)
    (w w' : world) tr r :
  os_path_isfile w d = false ->
  CopyMethod.dryrun cm = false ->
  CopyMethod.exec cm s d w = (tr, w', r) ->
  match command_line world cm s d with
  | Raise ex => mutations tr = [] /\ r = Raise ex /\ w' = w
  | Ok line =>
      match transfer_event cm line s d with
      | Some ev => mutations tr = [ev]
      | None => mutations tr = [] /\ r = Raise TypeError /\ w' = w
      end
  end.
Proof.
  intros Hfile Hdry.
  unfold CopyMethod.exec, command_line, transfer_event, bind, emit, observe,
    try_observe, ret, mutate, raise, execute_command.
  destruct (CopyMethod.copy_shcmd cm) as [shcmd |];
    [destruct (CopyMethod.copy_shcmd_is_fmtstr cm);
     [destruct (str_format shcmd s d) as [cmd | ex];
      [| intros [= <- <- <-]; auto]
     | destruct (CopyMethod.reverse_args cm)] |];
    rewrite Hfile, Hdry; cbn [negb andb];
    destruct (CopyMethod.verbose cm), (CopyMethod.debug cm); cbn [andb];
    try match goal with
        | |- context [popen w ?c] =>
            destruct (popen w c) as [w2 rc]; destruct (rc =? 0)%nat
        end;
    try (destruct (CopyMethod.copy_fn cm) as [f |];
         [ destruct (CopyMethod.reverse_args cm);
           match goal with
           | |- context [call_copy_fn f w ?a ?b] =>
               destruct (call_copy_fn f w a b)
           end
         | ]);
    intros [= <- <- <-]; auto.
Qed.

(** A strategy with neither a command nor a function cannot transfer. *)
Lemma exec_without_method (cm : CopyMethod.t) (s d : string)
    (w w' : world) tr r :
  CopyMethod.copy_shcmd cm = None -> CopyMethod.copy_fn cm = None ->
  CopyMethod.dryrun cm = false ->
  os_path_isfile w d = false ->
  CopyMethod.exec cm s d w = (tr, w', r) ->
  r = Raise TypeError /\ w' = w /\ mutations tr = [].
Proof.
  intros Hcmd Hfn Hdry Hfile.
  unfold CopyMethod.exec, bind, emit, observe, ret, raise.
  rewrite Hcmd, Hfn, Hfile, Hdry. cbn [negb andb].
  destruct (CopyMethod.verbose cm), (CopyMethod.debug cm); cbn [andb];
    intros [= <- <- <-]; auto.
Qed.

(** X7.  A copy of a shell-command strategy has lost its command:
    [__copy__] hands only [copy_fn] (which is [None] for such a strategy)
    to the constructor, so [exec] on the copy, for a destination that does
    not exist yet, raises [TypeError] and transfers nothing. *)
Theorem copied_shell_strategy_cannot_transfer (SYSTYPE : CopyMethod.systype)
    (shcmd : string) (name verb : option string) (rev : option bool)
    (is_fmtstr : bool) (s d : string) (w w' : world) tr r :
  os_path_isfile w d = false ->
  CopyMethod.exec
    (CopyMethod.__copy__ SYSTYPE
       (CopyMethod.__init__ SYSTYPE (CopyMethod.ArgStr shcmd) name verb rev
                            is_fmtstr))
    s d w = (tr, w', r) ->
  r = Raise TypeError /\ w' = w /\ mutations tr = [].
Proof.
  intros Hfile Hrun.
  destruct (copy_of_shell_strategy SYSTYPE shcmd name verb rev is_fmtstr)
    as (Hfn & Hcmd & Hdry).
  exact (exec_without_method _ s d w w' tr r Hcmd Hfn Hdry Hfile Hrun).
Qed.

End ExecMore.

Lemma exec_dry_run_changes_nothing_witness :
  let cm := CopyMethod.set_options (CopyMethod.COPY_METHOD_MOVE LINUX)
              (Some true) (Some true) None None in
  let out := CopyMethod.exec cm "/src/a.txt" "/dst/a.txt" linked_tree in
  snd (fst out) = linked_tree /\ mutations (fst (fst out)) = [].
Proof.
  cbn zeta.
  destruct (CopyMethod.exec _ "/src/a.txt" "/dst/a.txt" linked_tree)
    as [[tr w'] r] eqn:E.
  cbn [fst snd].
  exact (exec_dry_run_changes_nothing
           (CopyMethod.set_options (CopyMethod.COPY_METHOD_MOVE LINUX)
              (Some true) (Some true) None None)
           "/src/a.txt" "/dst/a.txt" linked_tree w' tr r eq_refl E).
Defined.

Lemma exec_fresh_destination_witness :
  let cm := CopyMethod.COPY_METHOD_COPY_META LINUX in
  let out := CopyMethod.exec cm "/src/a.txt" "/src/copy.txt" src_tree in
  mutations (fst (fst out))
  = [CopyFn shutil_copy2 "/src/a.txt" "/src/copy.txt"].
Proof.
  cbn zeta.
  destruct (CopyMethod.exec _ "/src/a.txt" "/src/copy.txt" src_tree)
    as [[tr w'] r] eqn:E.
  cbn [fst snd].
  exact (exec_fresh_destination (CopyMethod.COPY_METHOD_COPY_META LINUX)
           "/src/a.txt" "/src/copy.txt" src_tree w' tr r eq_refl eq_refl E).
Defined.

Lemma copied_shell_strategy_cannot_transfer_witness :
  let cm := CopyMethod.__copy__ LINUX
              (CopyMethod.__init__ LINUX (CopyMethod.ArgStr "cp -p") None
                                   None None false) in
  let out := CopyMethod.exec cm "/src/a.txt" "/src/copy.txt" src_tree in
  snd out = Raise TypeError /\ snd (fst out) = src_tree
  /\ mutations (fst (fst out)) = [].
Proof.
  cbn zeta.
  destruct (CopyMethod.exec _ "/src/a.txt" "/src/copy.txt" src_tree)
    as [[tr w'] r] eqn:E.
  cbn [fst snd].
  exact (copied_shell_strategy_cannot_transfer LINUX "cp -p" None None None
           false "/src/a.txt" "/src/copy.txt" src_tree w' tr r eq_refl E).
Defined.

Lemma upper_char_idem (c : ascii) :
  Py.upper_char (Py.upper_char c) = Py.upper_char c.
Proof. destruct c as [[] [] [] [] [] [] [] []]; reflexivity. Qed.

Lemma upper_idem (s : string) : Py.upper (Py.upper s) = Py.upper s.
Proof.
  induction s as [|c s IH]; simpl; [reflexivity |].
  now rewrite upper_char_idem, IH.
Qed.

(** X8.  A strategy built on a function is copied faithfully: whatever
    name, verb, argument order and options it was given, [__copy__]
    returns a strategy with the same function, name, verb, argument order
    and options. *)
Theorem copy_of_function_strategy (SYSTYPE : CopyMethod.systype)
    (f : callable) (name verb : option string) (rev : option bool)
    (is_fmtstr : bool) (ov dry vb dbg : option bool) :
  let cm := CopyMethod.set_options
              (CopyMethod.__init__ SYSTYPE (CopyMethod.ArgFn f) name verb rev
                                   is_fmtstr)
              ov dry vb dbg in
  CopyMethod.__copy__ SYSTYPE cm = cm.
Proof.
  cbn zeta. unfold CopyMethod.__copy__, CopyMethod.set_options,
    CopyMethod.__init__.
  cbn [CopyMethod.copy_fn CopyMethod.copy_fn_name CopyMethod.action_verb
       CopyMethod.reverse_args CopyMethod.copy_shcmd CopyMethod.copy_shprog
       CopyMethod.copy_shcmd_is_fmtstr CopyMethod.copy_overwrite
       CopyMethod.dryrun CopyMethod.verbose CopyMethod.debug default].
  rewrite upper_idem.
  destruct name as [n |]; [| destruct (CopyMethod.type_name f)];
    destruct rev as [[] |]; reflexivity.
Qed.

(** ** The tree walker without a copy method or without a destination *)

Lemma init_copy_method {pattern : Type} (SYSTYPE : CopyMethod.systype)
    (re : WalkObject.regex pattern) (a : WalkObject.init_args pattern)
    (self : WalkObject.t pattern) :
  WalkObject.__init__ SYSTYPE re a = Ok self ->
  WalkObject.copy_method_inst self = WalkObject.copy_method self
  /\ WalkObject.resolve_copy_method SYSTYPE a
       (match WalkObject.arg_copy_shcmd_fmtstr a with
        | Some s => Some (WalkObject.CM_str s)
        | None => WalkObject.arg_copy_method a
        end)
       (match WalkObject.arg_copy_shcmd_fmtstr a with
        | Some _ => true
        | None => false
        end)
     = Ok (WalkObject.copy_method self).
Proof.
  unfold WalkObject.__init__.
  destruct (_ || _); [discriminate |].
  destruct (_ && _); [discriminate |].
  destruct (WalkObject.arg_copy_shcmd_fmtstr a) as [fmtstr |];
    (destruct (_ && _); [discriminate |]);
    (destruct (WalkObject.arg_list_function a) as [[] |]; try discriminate);
    repeat match goal with
           | |- rbind ?m _ = _ -> _ =>
               destruct m; cbn [rbind]; [| discriminate]
           end;
    intros [= <-]; cbn; auto.
Qed.

Section NoCopyMethod.

Context {pattern world : Type} `{OS world}.
Variable SYSTYPE : CopyMethod.systype.

Lemma walk_no_copy_method (fuel : nat) (self : WalkObject.t pattern)
    (srcdir : string) (dstdir : option string)
    (ov tp ct : option bool) (w : world) :
  WalkObject.copy_method self = None ->
  exists ex,
    WalkObject.walk SYSTYPE fuel self srcdir dstdir ov tp ct w
    = ([], w, Raise ex).
Proof.
  intros Hcm. unfold WalkObject.walk. rewrite Hcm.
  destruct ov as [b |]; [| eexists; reflexivity].
  unfold bind, ret, observe, raise. cbn.
  destruct (negb (os_path_isdir w (normpath_expanduser srcdir)));
    [eexists; reflexivity |].
  destruct (default (WalkObject.transplant_tree self) tp);
    [destruct (option_map normpath_expanduser dstdir) |];
    eexists; reflexivity.
Qed.

(** X9.  A walker constructed without a copy method (neither
    [copy_method] nor [copy_shcmd_fmtstr]) cannot walk: every call of
    [walk], whatever its arguments and the state of the file system, ends
    in an exception before anything is listed, yielded or changed, because
    [walk] reads [self.copy_method.copy_overwrite] unconditionally. *)
Theorem walker_without_copy_method_cannot_walk
    (re : WalkObject.regex pattern) (a : WalkObject.init_args pattern)
    (self : WalkObject.t pattern) (fuel : nat) (srcdir : string)
    (dstdir : option string) (ov tp ct : option bool) (w : world) :
  WalkObject.__init__ SYSTYPE re a = Ok self ->
  WalkObject.arg_copy_method a = None ->
  WalkObject.arg_copy_shcmd_fmtstr a = None ->
  exists ex,
    WalkObject.walk SYSTYPE fuel self srcdir dstdir ov tp ct w
    = ([], w, Raise ex).
Proof.
  intros Hinit Hcm Hfmt. apply walk_no_copy_method.
  destruct (init_copy_method SYSTYPE re a self Hinit) as [_ Hres].
  rewrite Hfmt, Hcm in Hres. cbn in Hres. now injection Hres.
Qed.

End NoCopyMethod.

Lemma walker_without_copy_method_cannot_walk_witness :
  exists self ex,
    WalkObject.__init__ LINUX glob_re default_args = Ok self
    /\ WalkObject.walk LINUX 10 self "/src" None None None None src_tree
       = ([], src_tree, Raise ex).
Proof.
  destruct (WalkObject.__init__ LINUX glob_re default_args)
    as [self | ex0] eqn:Hinit; [| discriminate Hinit].
  destruct (walker_without_copy_method_cannot_walk LINUX glob_re
              default_args self 10 "/src" None None None None src_tree
              Hinit eq_refl eq_refl) as [ex Hex].
  exists self, ex. split; [reflexivity | exact Hex].
Defined.

Section Listing.

Context {pattern world : Type} `{OS world}.
Variable SYSTYPE : CopyMethod.systype.

Lemma _walk_listing (fuel : nat) (self : WalkObject.t pattern)
    (srcdir : string) (depth dmatch_depth : Z) :
  frames (WalkObject._walk fuel self srcdir None depth dmatch_depth)
  /\ emits is_yield
       (WalkObject._walk fuel self srcdir None depth dmatch_depth).
Proof.
  revert srcdir depth dmatch_depth.
  induction fuel as [|fuel IH]; intros srcdir depth dmatch_depth;
    cbn [WalkObject._walk].
  - split; [apply frames_raise | apply emits_raise].
  - destruct (num_ltb (WalkObject.maxdepth self) (Fin depth));
      [split; [apply frames_ret | apply emits_ret] |].
    cbn [WalkObject.prepare_dstdir].
    set (passes := WalkObject.srcdname_passes self _).
    split.
    + apply frames_bind; [apply frames_ret | intros dstdir_exists].
      apply frames_bind;
        [unfold WalkObject.list_entries; repeat frames_step | intros entries].
      destruct (WalkObject.scan self passes entries)
        as [[dnames dnames_pass] fnames_filtered].
      apply frames_bind; [| intros _].
      * destruct (num_leb (WalkObject.mindepth self) (Fin depth));
          [| apply frames_ret].
        apply frames_bind; [| intros _; apply frames_emit].
        destruct passes; [destruct (WalkObject.copy_method_inst self) |];
          apply frames_ret.
      * destruct (_ && _); [| apply frames_ret].
        apply frames_for_each. intros [dn dn_pass]. apply IH.
    + apply emits_bind; [apply emits_ret | intros dstdir_exists].
      apply emits_bind;
        [unfold WalkObject.list_entries; repeat emits_step | intros entries].
      destruct (WalkObject.scan self passes entries)
        as [[dnames dnames_pass] fnames_filtered].
      apply emits_bind; [| intros _].
      * destruct (num_leb (WalkObject.mindepth self) (Fin depth));
          [| apply emits_ret].
        apply emits_bind; [| intros _; apply emits_emit; reflexivity].
        destruct passes; [destruct (WalkObject.copy_method_inst self) |];
          apply emits_ret.
      * destruct (_ && _); [| apply emits_ret].
        apply emits_for_each. intros [dn dn_pass]. apply IH.
Qed.

Lemma frames_bind_ret {A B} (a : A) (k : A -> M world B) :
  frames (k a) -> frames (bind (ret a) k).
Proof.
  intros Hk w tr w' r. unfold bind, ret.
  destruct (k a w) as [[tr2 w2] r2] eqn:Ek. intros [= _ <- _].
  exact (Hk _ _ _ _ Ek).
Qed.

Lemma emits_bind_ret {A B} P (a : A) (k : A -> M world B) :
  emits P (k a) -> emits P (bind (ret a) k).
Proof.
  intros Hk w tr w' r. unfold bind, ret.
  destruct (k a w) as [[tr2 w2] r2] eqn:Ek. intros [= <- _ _].
  exact (Hk _ _ _ _ Ek).
Qed.

Lemma frames_bind_raise {A B} ex (k : A -> M world B) :
  frames (bind (raise ex) k).
Proof. intros w tr w' r [= _ <- _]. reflexivity. Qed.

Lemma emits_bind_raise {A B} P ex (k : A -> M world B) :
  emits P (bind (raise ex) k).
Proof. intros w tr w' r [= <- _ _]. reflexivity. Qed.

(** X10.  A walk without a destination only lists: whatever the walker,
    its copy method and the tree, [walk(srcdir)] with [dstdir=None]
    leaves the file system as it was and does nothing but yield items (no
    directory is made, [exec] is never called). *)
Theorem walk_without_destination_only_lists (fuel : nat)
    (self : WalkObject.t pattern) (srcdir : string)
    (ov tp ct : option bool) :
  frames (WalkObject.walk SYSTYPE fuel self srcdir None ov tp ct)
  /\ emits is_yield (WalkObject.walk SYSTYPE fuel self srcdir None ov tp ct).
Proof.
  unfold WalkObject.walk. cbn [option_map].
  split.
  - apply frames_bind; [repeat frames_step | intros copy_overwrite_1].
    apply frames_bind; [apply frames_observe | intros src_isdir].
    destruct (negb src_isdir); [apply frames_raise |].
    destruct (default (WalkObject.transplant_tree self) tp);
      [apply frames_bind_raise | apply frames_bind_ret].
    apply frames_bind; [repeat frames_step | intros copy_method_inst_1].
    cbn [WalkObject.copy_method WalkObject.dstdir].
    apply frames_bind;
      [destruct (WalkObject.copy_method self); apply frames_ret | intros _].
    apply frames_bind; [apply _walk_listing | intros _; apply frames_ret].
  - apply emits_bind; [repeat emits_step | intros copy_overwrite_1].
    apply emits_bind; [apply emits_observe | intros src_isdir].
    destruct (negb src_isdir); [apply emits_raise |].
    destruct (default (WalkObject.transplant_tree self) tp);
      [apply emits_bind_raise | apply emits_bind_ret].
    apply emits_bind; [repeat emits_step | intros copy_method_inst_1].
    cbn [WalkObject.copy_method WalkObject.dstdir].
    apply emits_bind;
      [destruct (WalkObject.copy_method self); apply emits_ret | intros _].
    apply emits_bind; [apply _walk_listing | intros _; apply emits_ret].
Qed.

End Listing.

(** ** The plain walker *)

Section Pointwise.

Context {world : Type}.

Lemma bind_ret_l {A B} (a : A) (k : A -> M world B) (w : world) :
  bind (ret a) k w = k a w.
Proof. unfold bind, ret. now destruct (k a w) as [[tr w2] r]. Qed.

Lemma bind_ext {A B} (m m' : M world A) (k k' : A -> M world B) (w : world) :
  m w = m' w -> (forall a w1, k a w1 = k' a w1) ->
  bind m k w = bind m' k' w.
Proof.
  intros Hm Hk. unfold bind. rewrite Hm.
  destruct (m' w) as [[tr w1] [a | ex]]; [| reflexivity].
  now rewrite Hk.
Qed.

Lemma for_each_ext {A} (l : list A) (f g : A -> M world unit) :
  (forall x w, f x w = g x w) -> forall w, for_each l f w = for_each l g w.
Proof.
  intros Hfg. induction l as [|x l IH]; intros w; simpl; [reflexivity |].
  apply bind_ext; [apply Hfg | intros _ w1; apply IH].
Qed.

Lemma for_each_all_true {A} (l : list A) (f : A -> bool -> M world unit) :
  forall w,
    for_each (combine l (map (fun _ => true) l)) (fun '(x, b) => f x b) w
    = for_each l (fun x => f x true) w.
Proof.
  induction l as [|x l IH]; intros w; simpl; [reflexivity |].
  apply bind_ext; [reflexivity | intros _ w1; apply IH].
Qed.

End Pointwise.

Lemma filter_by_all_true {A} (l : list A) :
  WalkObject.filter_by l (map (fun _ => true) l) = l.
Proof.
  unfold WalkObject.filter_by.
  induction l as [|x l IH]; simpl; [reflexivity | now rewrite IH].
Qed.

Section WalkSimpleProps.

Context {world : Type} `{OS world}.

Lemma _walk_simple_lists (fuel : nat) (rootdir : string) (depth : Z)
    (mindepth maxdepth : num) (lf : WalkObject.list_fn) :
  frames (WalkSimple._walk_simple fuel rootdir depth mindepth maxdepth lf)
  /\ emits is_yield
       (WalkSimple._walk_simple fuel rootdir depth mindepth maxdepth lf).
Proof.
  revert rootdir depth.
  induction fuel as [|fuel IH]; intros rootdir depth;
    cbn [WalkSimple._walk_simple].
  - split; [apply frames_raise | apply emits_raise].
  - destruct (num_ltb maxdepth (Fin depth));
      [split; [apply frames_ret | apply emits_ret] |].
    split.
    + apply frames_bind;
        [unfold WalkSimple.list_dirents; repeat frames_step | intros entries].
      destruct (WalkSimple.split_entries entries) as [dnames fnames].
      apply frames_bind; [repeat frames_step | intros _].
      destruct (num_ltb (Fin depth) maxdepth); [| apply frames_ret].
      apply frames_for_each. intros dn. apply IH.
    + apply emits_bind;
        [unfold WalkSimple.list_dirents; repeat emits_step | intros entries].
      destruct (WalkSimple.split_entries entries) as [dnames fnames].
      apply emits_bind; [repeat emits_step | intros _].
      destruct (num_ltb (Fin depth) maxdepth); [| apply emits_ret].
      apply emits_for_each. intros dn. apply IH.
Qed.

(** X11.  [walk_simple] only reads: whatever the tree and the depth
    bounds, a run leaves the file system as it was and produces nothing
    but the items it yields. *)
Theorem walk_simple_only_lists (fuel : nat) (srcdir : string)
    (mindepth maxdepth : num) (lf : WalkObject.list_fn) :
  frames (WalkSimple.walk_simple fuel srcdir mindepth maxdepth lf)
  /\ emits is_yield (WalkSimple.walk_simple fuel srcdir mindepth maxdepth lf).
Proof.
  unfold WalkSimple.walk_simple. split.
  - apply frames_bind; [apply frames_observe | intros src_isdir].
    destruct (negb src_isdir); [apply frames_raise |].
    destruct (_ || _); [apply frames_raise | apply _walk_simple_lists].
  - apply emits_bind; [apply emits_observe | intros src_isdir].
    destruct (negb src_isdir); [apply emits_raise |].
    destruct (_ || _); [apply emits_raise | apply _walk_simple_lists].
Qed.

End WalkSimpleProps.

Section WalkAgreement.

Context {pattern world : Type} `{OS world}.
Variable self : WalkObject.t pattern.
Hypothesis no_fmatch : WalkObject.fname_rematch self = [].
Hypothesis no_fexcl : WalkObject.fname_reexcl self = [].
Hypothesis no_dmatch : WalkObject.dname_rematch self = [].
Hypothesis no_dexcl : WalkObject.dname_reexcl self = [].
Hypothesis dmatch_unbounded :
  num_leb (Fin (-1)) (WalkObject.dmatch_maxdepth self) = true.

Lemma scan_no_patterns (entries : list (string * bool)) :
  WalkObject.scan self true entries
  = (fst (WalkSimple.split_entries entries),
     map (fun _ => true) (fst (WalkSimple.split_entries entries)),
     snd (WalkSimple.split_entries entries)).
Proof.
  induction entries as [|[pname is_dir] entries IH]; [reflexivity |].
  cbn [WalkObject.scan WalkSimple.split_entries]. rewrite IH.
  destruct (WalkSimple.split_entries entries) as [dnames fnames].
  unfold WalkObject.tracks_dnames, WalkObject.name_matches.
  rewrite no_fmatch, no_fexcl, no_dmatch, no_dexcl.
  destruct is_dir; reflexivity.
Qed.

(** X12.  [walk_simple] is the walker of [WalkObject] without patterns
    and without a destination: for a [WalkObject] with no file or
    directory pattern, [_walk] started with [dstdir=None] and no directory
    matching pending does, in every state and at every depth, exactly what
    [_walk_simple] does with the same depth bounds and listing function
    (the same items in the same order, the same errors). *)
Theorem walk_without_patterns_is_walk_simple (fuel : nat) :
  forall (srcdir : string) (depth : Z) (w : world),
    WalkObject._walk fuel self srcdir None depth (-1) w
    = WalkSimple._walk_simple fuel srcdir depth (WalkObject.mindepth self)
        (WalkObject.maxdepth self) (WalkObject.list_function self) w.
Proof.
  induction fuel as [|fuel IH]; intros srcdir depth w; [reflexivity |].
  cbn [WalkObject._walk WalkSimple._walk_simple].
  destruct (num_ltb (WalkObject.maxdepth self) (Fin depth)) eqn:Hmax;
    [reflexivity |].
  assert (Hroot : WalkObject.root_dmatch_depth self srcdir depth (-1)
                  = (-1)%Z).
  { unfold WalkObject.root_dmatch_depth. now rewrite andb_false_r. }
  rewrite Hroot.
  assert (Hpass : WalkObject.srcdname_passes self (-1) = true).
  { unfold WalkObject.srcdname_passes. now rewrite dmatch_unbounded. }
  rewrite Hpass. cbn [WalkObject.prepare_dstdir]. rewrite bind_ret_l.
  apply bind_ext; [reflexivity | intros entries w1].
  rewrite scan_no_patterns.
  destruct (WalkSimple.split_entries entries) as [dnames fnames].
  cbn [fst snd].
  apply bind_ext.
  - replace (num_leb (Fin depth) (WalkObject.maxdepth self)) with true
      by (unfold num_leb; now rewrite Hmax).
    rewrite andb_true_r.
    destruct (num_leb (WalkObject.mindepth self) (Fin depth));
      [| reflexivity].
    rewrite filter_by_all_true.
    assert (Hnone : forall w2,
              match WalkObject.copy_method_inst self with
              | Some _ | _ => @ret world unit tt
              end w2 = ret tt w2)
      by (intros w2; now destruct (WalkObject.copy_method_inst self)).
    etransitivity; [apply bind_ext; [apply Hnone | reflexivity] |].
    rewrite bind_ret_l.
    now destruct (true && negb (WalkObject.dmatch_nomaxdepth self)).
  - intros _ w2.
    destruct (num_ltb (Fin depth) (WalkObject.maxdepth self));
      [| now rewrite andb_false_r].
    rewrite andb_true_r.
    destruct dnames as [|dn dnames]; [reflexivity |].
    cbn [length Nat.eqb negb].
    etransitivity;
      [apply (for_each_all_true (dn :: dnames)
                (fun dn0 dn_pass =>
                   WalkObject._walk fuel self (Py.path_join srcdir dn0) None
                     (depth + 1)
                     (if dn_pass
                      then if (-1 <? 0)%Z then (-1)%Z else 1%Z
                      else if (-1 <=? 0)%Z then (-1)%Z else (-1 + 1)%Z))) |].
    apply for_each_ext. intros dn0 w3. apply IH.
Qed.

End WalkAgreement.

Example plain_walker_built :
  WalkObject.__init__ LINUX glob_re default_args
  = Ok (plain_walker (Fin 0) PosInf).
Proof. reflexivity. Qed.

Lemma walk_without_patterns_is_walk_simple_witness :
  WalkObject._walk 10 (plain_walker (Fin 0) (Fin 2)) "/src" None 1 (-1)
                   src_tree
  = WalkSimple._walk_simple 10 "/src" 1 (Fin 0) (Fin 2)
                            WalkObject.os_scandir_fn src_tree.
Proof.
  apply (walk_without_patterns_is_walk_simple
           (plain_walker (Fin 0) (Fin 2)) eq_refl eq_refl eq_refl eq_refl
           eq_refl 10 "/src" 1%Z src_tree).
Defined.

(** ** Version strings *)

Lemma comparable_lists_padded (a b : VersionString.t) :
  let n := Nat.max (length (VersionString.ver_num_list a))
                   (length (VersionString.ver_num_list b)) in
  VersionString.get_comparable_lists a b
  = (zero_pad n (VersionString.ver_num_list a),
     zero_pad n (VersionString.ver_num_list b)).
Proof.
  cbn zeta. unfold VersionString.get_comparable_lists, zero_pad.
  set (la := length (VersionString.ver_num_list a)).
  set (lb := length (VersionString.ver_num_list b)).
  destruct (Nat.ltb_spec la lb) as [Hlt | Hge].
  - replace (Nat.max la lb) with lb by lia.
    replace (lb - lb) with 0 by lia. now rewrite app_nil_r.
  - destruct (Nat.ltb_spec lb la) as [Hlt | Hge'].
    + replace (Nat.max la lb) with la by lia.
      replace (la - la) with 0 by lia. now rewrite app_nil_r.
    + replace (Nat.max la lb) with la by lia.
      replace (la - la) with 0 by lia. replace (la - lb) with 0 by lia.
      now rewrite !app_nil_r.
Qed.

Lemma relative_loop_lex (l1 l2 : list Z) (op : Z -> Z -> bool)
    (allow_equal : bool) (on_lt on_gt : bool) :
  (forall x y, (x < y)%Z -> op x y = on_lt) ->
  (forall x y, (y < x)%Z -> op x y = on_gt) ->
  VersionString.compare_relative_loop l1 l2 op allow_equal
  = match lex_compare l1 l2 with
    | Eq => allow_equal
    | Lt => on_lt
    | Gt => on_gt
    end.
Proof.
  intros Hlt Hgt. revert l2.
  induction l1 as [|x l1 IH]; intros [|y l2]; try reflexivity.
  cbn [VersionString.compare_relative_loop lex_compare].
  destruct (Z.compare_spec x y) as [-> | Lt | Gt].
  - rewrite Z.eqb_refl. cbn [negb]. apply IH.
  - replace (x =? y)%Z with false by (symmetry; apply Z.eqb_neq; lia).
    cbn [negb]. now apply Hlt.
  - replace (x =? y)%Z with false by (symmetry; apply Z.eqb_neq; lia).
    cbn [negb]. now apply Hgt.
Qed.

Lemma absolute_loop_lex (l1 l2 : list Z) (inequality : bool) :
  VersionString.compare_absolute_loop l1 l2 inequality
  = match lex_compare l1 l2 with
    | Eq => negb inequality
    | _ => inequality
    end.
Proof.
  revert l2. induction l1 as [|x l1 IH]; intros [|y l2]; try reflexivity.
  cbn [VersionString.compare_absolute_loop lex_compare].
  destruct (Z.compare_spec x y) as [-> | Lt | Gt].
  - rewrite Z.eqb_refl. cbn [negb]. apply IH.
  - replace (x =? y)%Z with false by (symmetry; apply Z.eqb_neq; lia).
    reflexivity.
  - replace (x =? y)%Z with false by (symmetry; apply Z.eqb_neq; lia).
    reflexivity.
Qed.

(** The six comparison methods, read off [version_compare]. *)
Lemma version_methods (a b : VersionString.t) :
  VersionString.__eq__ a b
  = match version_compare a b with Eq => true | _ => false end
  /\ VersionString.__ne__ a b
     = match version_compare a b with Eq => false | _ => true end
  /\ VersionString.__lt__ a b
     = match version_compare a b with Lt => true | _ => false end
  /\ VersionString.__le__ a b
     = match version_compare a b with Gt => false | _ => true end
  /\ VersionString.__gt__ a b
     = match version_compare a b with Gt => true | _ => false end
  /\ VersionString.__ge__ a b
     = match version_compare a b with Lt => false | _ => true end.
Proof.
  unfold VersionString.__eq__, VersionString.__ne__, VersionString.__lt__,
    VersionString.__le__, VersionString.__gt__, VersionString.__ge__,
    VersionString.__compare_absolute, VersionString.__compare_relative,
    version_compare.
  rewrite comparable_lists_padded. cbn zeta.
  set (l1 := zero_pad _ (VersionString.ver_num_list a)).
  set (l2 := zero_pad _ (VersionString.ver_num_list b)).
  rewrite !absolute_loop_lex.
  rewrite (relative_loop_lex l1 l2 Z.ltb false true false);
    [| intros x y Hxy; apply Z.ltb_lt; lia
     | intros x y Hxy; apply Z.ltb_ge; lia].
  rewrite (relative_loop_lex l1 l2 Z.leb true true false);
    [| intros x y Hxy; apply Z.leb_le; lia
     | intros x y Hxy; apply Z.leb_gt; lia].
  rewrite (relative_loop_lex l1 l2 Z.gtb false false true);
    [| intros x y Hxy; rewrite Z.gtb_ltb; apply Z.ltb_ge; lia
     | intros x y Hxy; rewrite Z.gtb_ltb; apply Z.ltb_lt; lia].
  rewrite (relative_loop_lex l1 l2 Z.gtb true false true);
    [| intros x y Hxy; rewrite Z.gtb_ltb; apply Z.ltb_ge; lia
     | intros x y Hxy; rewrite Z.gtb_ltb; apply Z.ltb_lt; lia].
  destruct (lex_compare l1 l2); repeat split; reflexivity.
Qed.

Lemma lex_compare_antisym (l1 l2 : list Z) :
  lex_compare l2 l1 = CompOpp (lex_compare l1 l2).
Proof.
  revert l2. induction l1 as [|x l1 IH]; intros [|y l2]; try reflexivity.
  cbn [lex_compare]. rewrite (Z.compare_antisym x y).
  destruct (x ?= y)%Z; cbn [CompOpp]; auto.
Qed.

Lemma version_compare_antisym (a b : VersionString.t) :
  version_compare b a = CompOpp (version_compare a b).
Proof.
  unfold version_compare. rewrite (Nat.max_comm (length _) (length _)).
  apply lex_compare_antisym.
Qed.

(** X13.  The six comparisons of [VersionString] agree with one another
    as those of a total order do: [!=] is the negation of [==], [>=] of
    [<], [<=] of [>]; [a > b] says the same as [b < a]; and [a <= b] holds
    exactly when [a < b] or [a == b]. *)
Theorem version_comparisons_consistent (a b : VersionString.t) :
  VersionString.__ne__ a b = negb (VersionString.__eq__ a b)
  /\ VersionString.__ge__ a b = negb (VersionString.__lt__ a b)
  /\ VersionString.__le__ a b = negb (VersionString.__gt__ a b)
  /\ VersionString.__gt__ a b = VersionString.__lt__ b a
  /\ VersionString.__le__ a b
     = VersionString.__lt__ a b || VersionString.__eq__ a b.
Proof.
  destruct (version_methods a b) as (-> & -> & -> & -> & -> & ->).
  destruct (version_methods b a) as (_ & _ & -> & _).
  rewrite (version_compare_antisym a b).
  destruct (version_compare a b); repeat split; reflexivity.
Qed.

Lemma lex_compare_refl (l : list Z) : lex_compare l l = Eq.
Proof.
  induction l as [|x l IH]; [reflexivity |].
  cbn [lex_compare]. now rewrite Z.compare_refl.
Qed.

Lemma lex_compare_app (l1 l2 z1 z2 : list Z) :
  length l1 = length l2 ->
  lex_compare (l1 ++ z1) (l2 ++ z2)
  = match lex_compare l1 l2 with
    | Eq => lex_compare z1 z2
    | c => c
    end.
Proof.
  revert l2. induction l1 as [|x l1 IH]; intros [|y l2] Hlen;
    try discriminate Hlen; [reflexivity |].
  cbn [app lex_compare]. destruct (x ?= y)%Z; try reflexivity.
  apply IH. now injection Hlen.
Qed.

Lemma zero_pad_length (n : nat) (l : list Z) :
  length l <= n -> length (zero_pad n l) = n.
Proof.
  intros Hn. unfold zero_pad. rewrite length_app, repeat_length. lia.
Qed.

Lemma zero_pad_more (n m : nat) (l : list Z) :
  length l <= n -> n <= m ->
  zero_pad m l = zero_pad n l ++ repeat 0%Z (m - n).
Proof.
  intros Hn Hm. unfold zero_pad. rewrite <- app_assoc, <- repeat_app.
  do 2 f_equal. lia.
Qed.

Lemma version_compare_padded (a b : VersionString.t) (m : nat) :
  length (VersionString.ver_num_list a) <= m ->
  length (VersionString.ver_num_list b) <= m ->
  lex_compare (zero_pad m (VersionString.ver_num_list a))
              (zero_pad m (VersionString.ver_num_list b))
  = version_compare a b.
Proof.
  intros Ha Hb. unfold version_compare.
  set (n := Nat.max _ _).
  rewrite (zero_pad_more n m (VersionString.ver_num_list a)) by lia.
  rewrite (zero_pad_more n m (VersionString.ver_num_list b)) by lia.
  rewrite lex_compare_app by (rewrite !zero_pad_length; lia).
  rewrite lex_compare_refl. now destruct (lex_compare _ _).
Qed.

(** X14.  Trailing zero components do not count: a version equals
    ([==]) the version with any number of [.0] added, whatever the two
    strings look like. *)
Theorem version_equal_with_trailing_zeros (s1 s2 : string) (l : list Z)
    (k : nat) :
  VersionString.__eq__
    {| VersionString.ver_str := s1; VersionString.ver_num_list := l |}
    {| VersionString.ver_str := s2;
       VersionString.ver_num_list := l ++ repeat 0%Z k |}
  = true.
Proof.
  destruct (version_methods
              {| VersionString.ver_str := s1;
                 VersionString.ver_num_list := l |}
              {| VersionString.ver_str := s2;
                 VersionString.ver_num_list := l ++ repeat 0%Z k |})
    as (-> & _).
  rewrite <- (version_compare_padded _ _ (length l + k));
    cbn [VersionString.ver_num_list];
    [| lia | rewrite length_app, repeat_length; lia].
  unfold zero_pad. rewrite length_app, repeat_length.
  replace (length l + k - length l) with k by lia.
  replace (length l + k - (length l + k)) with 0 by lia.
  cbn [repeat]. rewrite app_nil_r. now rewrite lex_compare_refl.
Qed.

Lemma lex_compare_trans (l1 l2 l3 : list Z) :
  length l1 = length l2 -> length l2 = length l3 ->
  lex_compare l1 l2 = Lt -> lex_compare l2 l3 = Lt ->
  lex_compare l1 l3 = Lt.
Proof.
  revert l2 l3. induction l1 as [|x l1 IH]; intros [|y l2] [|z l3] H12 H23;
    try discriminate; cbn [lex_compare].
  injection H12 as H12. injection H23 as H23.
  destruct (Z.compare_spec x y) as [-> | Hxy | Hxy]; try discriminate.
  - destruct (Z.compare_spec y z) as [-> | Hyz | Hyz]; try discriminate;
      [| reflexivity].
    now apply IH.
  - intros _.
    destruct (Z.compare_spec y z) as [-> | Hyz | Hyz]; try discriminate;
      intros _.
    + destruct (Z.compare_spec x z); [lia | reflexivity | lia].
    + destruct (Z.compare_spec x z); [lia | reflexivity | lia].
Qed.

(** X15.  [<] on versions is transitive, also across versions with
    different numbers of components: from [a < b] and [b < c] follows
    [a < c]. *)
Theorem version_lt_transitive (a b c : VersionString.t) :
  VersionString.__lt__ a b = true ->
  VersionString.__lt__ b c = true ->
  VersionString.__lt__ a c = true.
Proof.
  destruct (version_methods a b) as (_ & _ & -> & _).
  destruct (version_methods b c) as (_ & _ & -> & _).
  destruct (version_methods a c) as (_ & _ & -> & _).
  set (m := Nat.max (length (VersionString.ver_num_list a))
              (Nat.max (length (VersionString.ver_num_list b))
                       (length (VersionString.ver_num_list c)))).
  rewrite <- (version_compare_padded a b m) by lia.
  rewrite <- (version_compare_padded b c m) by lia.
  rewrite <- (version_compare_padded a c m) by lia.
  intros Hab Hbc.
  rewrite (lex_compare_trans _ (zero_pad m (VersionString.ver_num_list b)));
    [reflexivity | | | |].
  - rewrite !zero_pad_length; lia.
  - rewrite !zero_pad_length; lia.
  - clear Hbc. revert Hab.
    now destruct (lex_compare (zero_pad m (VersionString.ver_num_list a)) _).
  - clear Hab. revert Hbc.
    now destruct (lex_compare (zero_pad m (VersionString.ver_num_list b)) _).
Qed.

Lemma version_lt_transitive_witness :
  VersionString.__lt__ (version_of [2; 7]%Z) (version_of [3]%Z) = true
  /\ VersionString.__lt__ (version_of [3]%Z) (version_of [3; 0; 1]%Z) = true
  /\ VersionString.__lt__ (version_of [2; 7]%Z) (version_of [3; 0; 1]%Z)
     = true.
Proof.
  split; [reflexivity |]. split; [reflexivity |].
  apply (version_lt_transitive (version_of [2; 7]%Z) (version_of [3]%Z)
           (version_of [3; 0; 1]%Z)); reflexivity.
Defined.

(** The constructor on the strings the scripts pass: ["3.10"] is above
    ["3.9"], and ["1.0"] equals ["1"]. *)
Example version_strings_parsed :
  VersionString.__init__ "3.10" = Ok {| VersionString.ver_str := "3.10";
                                         VersionString.ver_num_list :=
                                           [3; 10]%Z |}
  /\ rbind (VersionString.__init__ "3.10") (fun a =>
       rbind (VersionString.__init__ "3.9") (fun b =>
         Ok (VersionString.__gt__ a b))) = Ok true
  /\ rbind (VersionString.__init__ "1.0") (fun a =>
       rbind (VersionString.__init__ "1") (fun b =>
         Ok (VersionString.__eq__ a b))) = Ok true
  /\ VersionString.__init__ "3.9.0+"
     = Raise (ValueError "invalid literal for int() with base 10: '0+'").
Proof. repeat split; reflexivity. Qed.

(** ** The transfer script *)

Lemma substring_all (s : string) : String.substring 0 (String.length s) s = s.
Proof. induction s as [|c s IH]; simpl; [reflexivity | now rewrite IH]. Qed.

Lemma substring_append_tail (p q : string) :
  String.substring (String.length p) (String.length q) (p +:+ q) = q.
Proof.
  induction p as [|c p IH]; simpl; [apply substring_all | exact IH].
Qed.

Lemma endswith_append (p q : string) : Py.endswith (p +:+ q) q = true.
Proof.
  unfold Py.endswith. rewrite length_append.
  replace (String.length p + String.length q - String.length q)
    with (String.length p) by lia.
  rewrite substring_append_tail, String.eqb_refl.
  rewrite andb_true_r. apply Nat.leb_le. lia.
Qed.

Section AdjustDstPath.

Context {world : Type} `{OS world}.

Lemma closed_path_ends_with_separator (p : string) :
  FileTransfer.ends_with_separator
    (if negb (FileTransfer.ends_with_separator p) then p +:+ "/" else p)
  = true.
Proof.
  destruct (FileTransfer.ends_with_separator p) eqn:E; cbn [negb];
    [exact E |].
  unfold FileTransfer.ends_with_separator, Coll.endswith_one_of_coll,
    FileTransfer.PATH_SEPARATORS_LIST.
  cbn [Coll.first_hit]. now rewrite endswith_append.
Qed.

(** X16.  For a source that is a directory, [adjust_dst_path] returns a
    destination that ends with a path separator (the sync-style path of a
    directory), whatever the sync mode and the kind of the destination;
    the only other outcome is the [ScriptArgumentError] raised when the
    destination is (or is declared to be) an existing file. *)
Theorem adjust_dst_path_of_directory (SYNC_MODE_GLOBAL : option nat)
    (w : world) (src_path dst_path : string) (dst_can_be_file : bool)
    (dst_path_type sync_mode_default : nat) :
  os_path_isdir w src_path = true ->
  os_path_isfile w src_path = false ->
  match FileTransfer.adjust_dst_path SYNC_MODE_GLOBAL w src_path dst_path
          dst_can_be_file dst_path_type sync_mode_default with
  | FileTransfer.Adjusted p => FileTransfer.ends_with_separator p = true
  | FileTransfer.ScriptArgumentError _ =>
      dst_path_type = FileTransfer.PATH_TYPE_FILE
      \/ (dst_path_type = FileTransfer.PATH_TYPE_UNKNOWN
          /\ os_path_isfile w dst_path = true)
  end.
Proof.
  intros Hdir Hfile. unfold FileTransfer.adjust_dst_path.
  rewrite Hdir, Hfile.
  destruct (_ || _); [apply closed_path_ends_with_separator |].
  destruct (Nat.eqb_spec dst_path_type FileTransfer.PATH_TYPE_FILE)
    as [-> | _]; cbn [orb]; [now left |].
  destruct (Nat.eqb_spec dst_path_type FileTransfer.PATH_TYPE_UNKNOWN)
    as [-> | _]; cbn [andb].
  - destruct (os_path_isfile w dst_path); [now right |].
    apply closed_path_ends_with_separator.
  - apply closed_path_ends_with_separator.
Qed.

(** For a source that is a file (and not a directory),
    [adjust_dst_path] never fails, and the destination it returns is
    either the given path itself or that path joined with the base name of
    the source; it is the given path itself only when that path is (or is
    declared to be) an existing file, or when the caller allows a file
    name and the path does not end with a separator. *)
Lemma adjust_dst_path_of_file (SYNC_MODE_GLOBAL : option nat)
    (w : world) (src_path dst_path : string) (dst_can_be_file : bool)
    (dst_path_type sync_mode_default : nat) :
  os_path_isfile w src_path = true ->
  os_path_isdir w src_path = false ->
  FileTransfer.adjust_dst_path SYNC_MODE_GLOBAL w src_path dst_path
    dst_can_be_file dst_path_type sync_mode_default
  = FileTransfer.Adjusted (Py.path_join dst_path (Py.basename src_path))
  \/ (FileTransfer.adjust_dst_path SYNC_MODE_GLOBAL w src_path dst_path
        dst_can_be_file dst_path_type sync_mode_default
      = FileTransfer.Adjusted dst_path
      /\ (dst_path_type = FileTransfer.PATH_TYPE_FILE
          \/ (dst_path_type = FileTransfer.PATH_TYPE_UNKNOWN
              /\ os_path_isfile w dst_path = true)
          \/ (dst_can_be_file = true
              /\ FileTransfer.ends_with_separator dst_path = false))).
Proof.
  intros Hfile Hdir. unfold FileTransfer.adjust_dst_path.
  rewrite Hdir, Hfile.
  destruct (_ || _); [now left |].
  destruct (Nat.eqb_spec dst_path_type FileTransfer.PATH_TYPE_FILE)
    as [-> | _]; cbn [orb]; [right; split; [reflexivity | now left] |].
  destruct (Nat.eqb_spec dst_path_type FileTransfer.PATH_TYPE_UNKNOWN)
    as [-> | _]; cbn [andb].
  - destruct (os_path_isfile w dst_path) eqn:Edst;
      [right; split; [reflexivity | right; left; auto] |].
    destruct dst_can_be_file; cbn [andb]; [| now left].
    destruct (FileTransfer.ends_with_separator dst_path) eqn:Esep;
      cbn [negb]; [now left |].
    right. split; [reflexivity | right; right; auto].
  - destruct dst_can_be_file; cbn [andb]; [| now left].
    destruct (FileTransfer.ends_with_separator dst_path) eqn:Esep;
      cbn [negb]; [now left |].
    right. split; [reflexivity | right; right; auto].
Qed.

End AdjustDstPath.

Lemma adjust_dst_path_of_directory_witness :
  match FileTransfer.adjust_dst_path (Some 0) src_tree "/src/sub" "/dst"
          false 0 0 with
  | FileTransfer.Adjusted p => FileTransfer.ends_with_separator p = true
  | FileTransfer.ScriptArgumentError _ =>
      0 = FileTransfer.PATH_TYPE_FILE
      \/ (0 = FileTransfer.PATH_TYPE_UNKNOWN
          /\ os_path_isfile src_tree "/dst" = true)
  end.
Proof.
  apply (adjust_dst_path_of_directory (Some 0) src_tree "/src/sub" "/dst"
           false 0 0); reflexivity.
Defined.

(** The cases of [adjust_dst_path] on the example tree. *)
Example adjust_dst_path_examples :
  FileTransfer.adjust_dst_path (Some 0) src_tree "/src/sub" "/dst" false 0 0
  = FileTransfer.Adjusted "/dst/"
  /\ FileTransfer.adjust_dst_path (Some 2) src_tree "/src/sub" "/dst" false
       0 0
     = FileTransfer.Adjusted "/dst/sub/"
  /\ FileTransfer.adjust_dst_path (Some 0) src_tree "/src/sub" "/src" false
       0 0
     = FileTransfer.Adjusted "/src/sub/"
  /\ FileTransfer.adjust_dst_path (Some 0) src_tree "/src/sub/" "/src" false
       0 0
     = FileTransfer.Adjusted "/src/"
  /\ FileTransfer.adjust_dst_path (Some 0) src_tree "/src/a.txt" "/src/sub"
       false 0 0
     = FileTransfer.Adjusted "/src/sub/a.txt".
Proof. repeat split; reflexivity. Qed.

Section PerformTasks.

Context {pattern world : Type} `{OS world}.
Variable SYSTYPE : CopyMethod.systype.
Variable re : WalkObject.regex pattern.

Lemma skip_directory_tasks (task_list : list (string * string))
    (body : string -> string -> M world unit) (w : world) :
  (forall t, In t task_list -> os_path_isfile w (fst t) = false) ->
  for_each task_list (fun '(task_srcpath, task_dstpath) =>
    do src_isfile <- observe (fun w => os_path_isfile w task_srcpath);
    if src_isfile then body task_srcpath task_dstpath else ret tt) w
  = ([], w, Ok tt).
Proof.
  induction task_list as [|[src dst] task_list IH]; intros Hdirs;
    [reflexivity |].
  pose proof (Hdirs (src, dst) ltac:(now left)) as Hsrc. cbn [fst] in Hsrc.
  cbn [for_each]. unfold bind at 1. unfold bind at 1. unfold observe at 1.
  rewrite Hsrc. cbn [ret].
  rewrite IH by (intros t Ht; apply Hdirs; now right). reflexivity.
Qed.

(** X17.  [perform_tasks] does nothing for a task whose source is not a
    file: the generator that [walk_object.walk] returns is dropped without
    an item being taken, so no directory is walked.  A task list without
    file sources is performed like the empty list: no call, no output,
    the file system unchanged. *)
Theorem perform_tasks_skips_directories (args : FileTransfer.task_args)
    (task_list : list (string * string)) (w : world) :
  (forall t, In t task_list -> os_path_isfile w (fst t) = false) ->
  FileTransfer.perform_tasks SYSTYPE re args task_list w
  = FileTransfer.perform_tasks SYSTYPE re args [] w
  /\ fst (FileTransfer.perform_tasks SYSTYPE re args task_list w) = ([], w).
Proof.
  intros Hdirs. unfold FileTransfer.perform_tasks.
  destruct (Py.dict_get _ _) as [cm |]; [| split; reflexivity].
  destruct (WalkObject.__init__ _ _ _) as [walker | ex];
    [| split; reflexivity].
  rewrite (skip_directory_tasks task_list _ w Hdirs). split; reflexivity.
Qed.

(** X18.  With both [--silent] and [--dryrun] given, [perform_tasks]
    performs no task at all: the construction of its [WalkObject] raises
    [InvalidArgumentError] before the task list is looked at, for every
    copy method the script knows. *)
Theorem perform_tasks_silent_dryrun (args : FileTransfer.task_args)
    (task_list : list (string * string)) (w : world) :
  FileTransfer.arg_silent args = true ->
  FileTransfer.arg_dryrun args = true ->
  Py.mem (FileTransfer.arg_copy_method args)
         ["copy"; "move"; "link"; "symlink"] = true ->
  exists msg,
    FileTransfer.perform_tasks SYSTYPE re args task_list w
    = ([], w, Raise (InvalidArgumentError msg)).
Proof.
  intros Hs Hd Hcm. unfold FileTransfer.perform_tasks.
  destruct (Py.dict_get _ _) as [cm |] eqn:Eget.
  - set (a := FileTransfer.walker_args args _).
    destruct (init_rejects_silent_dryrun SYSTYPE re a Hs Hd) as [msg ->].
    now exists msg.
  - exfalso. revert Hcm Eget.
    unfold Py.mem, FileTransfer.COPY_METHOD_FUNCTION_DICT.
    cbn [existsb Py.dict_get].
    destruct (String.eqb _ "copy"); [discriminate |].
    destruct (String.eqb _ "move"); [discriminate |].
    destruct (String.eqb _ "link"); [discriminate |].
    destruct (String.eqb _ "symlink"); discriminate.
Qed.

End PerformTasks.

Lemma perform_tasks_skips_directories_witness :
  FileTransfer.perform_tasks LINUX glob_re (copy_args false false)
    [("/src/sub", "/dst/sub"); ("/src", "/dst")] src_tree
  = FileTransfer.perform_tasks LINUX glob_re (copy_args false false) []
      src_tree
  /\ fst (FileTransfer.perform_tasks LINUX glob_re (copy_args false false)
            [("/src/sub", "/dst/sub"); ("/src", "/dst")] src_tree)
     = ([], src_tree).
Proof.
  apply (perform_tasks_skips_directories LINUX glob_re
           (copy_args false false)
           [("/src/sub", "/dst/sub"); ("/src", "/dst")] src_tree).
  intros t [<- | [<- | []]]; reflexivity.
Defined.

Lemma perform_tasks_silent_dryrun_witness :
  exists msg,
    FileTransfer.perform_tasks LINUX glob_re (copy_args true true)
      [("/src/a.txt", "/src/copy.txt")] src_tree
    = ([], src_tree, Raise (InvalidArgumentError msg)).
Proof.
  apply (perform_tasks_silent_dryrun LINUX glob_re (copy_args true true)
           [("/src/a.txt", "/src/copy.txt")] src_tree); reflexivity.
Defined.

(** A file task is carried out, a directory task is not. *)
Example perform_tasks_file_and_directory :
  let out := FileTransfer.perform_tasks LINUX glob_re (copy_args false true)
               [("/src/a.txt", "/src/copy.txt"); ("/src/sub", "/dst")]
               src_tree in
  fst (fst out) = [ExecCall "/src/a.txt" "/src/copy.txt";
                   CopyFn shutil_copy2 "/src/a.txt" "/src/copy.txt"]
  /\ snd out = Ok tt.
Proof. split; reflexivity. Qed.

(** ** Job submission *)

Lemma slurm_parts_unjoinable jobname time_hr time_min time_sec memory_gb
    node email envvars :
  Sched.as_opt_str email = None ->
  exists parts,
    Sched.jobsubmit_parts (Some Sched.SCHED_SLURM) jobname time_hr time_min
      time_sec memory_gb node email envvars = Some parts
    /\ Sched.join_parts parts = Raise TypeError.
Proof.
  intros Hemail. eexists. split; [reflexivity |].
  unfold Sched.join_parts. cbn [forallb].
  destruct email; try discriminate Hemail; reflexivity.
Qed.

Section SubmitMore.

Variable jobscript_condopts :
  string -> string -> list (string * Sched.pyval) -> result (list string).

(** X19.  For the [slurm] scheduler, [get_jobsubmit_cmd] builds a command
    only when [email] is a string: for any other value ([None], [True],
    [False], a number) the last element of the list it joins is [None]
    and the call raises [TypeError], whatever the other arguments are. *)
Theorem slurm_command_needs_email_address (self : Sched.ArgumentPasser)
    (jobscript jobname : option string)
    (time_hr time_min time_sec memory_gb : option nat) (node : option string)
    (email : Sched.pyval) (envvars : option (list Sched.pyval)) :
  Sched.as_opt_str email = None ->
  Sched.get_jobsubmit_cmd jobscript_condopts self (Some Sched.SCHED_SLURM)
    jobscript jobname time_hr time_min time_sec memory_gb node email envvars
  = Raise TypeError.
Proof.
  intros Hemail. unfold Sched.get_jobsubmit_cmd.
  destruct (slurm_parts_unjoinable jobname time_hr time_min time_sec
              memory_gb node email envvars Hemail) as (parts & -> & ->).
  reflexivity.
Qed.

End SubmitMore.

Lemma slurm_command_needs_email_address_witness :
  Sched.get_jobsubmit_cmd no_condopts (parent_args "slurm")
    (Some Sched.SCHED_SLURM) (Some "/opt/jobscripts/head.sh") (Some "Copy001")
    (Some 1) None None (Some 5) None (Sched.VBool true) None
  = Raise TypeError.
Proof.
  apply (slurm_command_needs_email_address no_condopts (parent_args "slurm")
           (Some "/opt/jobscripts/head.sh") (Some "Copy001") (Some 1) None
           None (Some 5) None (Sched.VBool true) None).
  reflexivity.
Defined.

Lemma write_task_bundles_some_file e task_list B dstdir prefix delim fmt
    (fs fs' : gmap string string) paths :
  Bundles.write_task_bundles e task_list B dstdir prefix delim fmt fs
  = Ok (fs', paths) ->
  task_list <> [] -> paths <> [].
Proof.
  unfold Bundles.write_task_bundles.
  destruct (negb (Bundles.imported_numpy e) && negb (String.eqb fmt "%s"));
    [discriminate |].
  destruct (Nat.eqb_spec B 0) as [-> | HB]; [discriminate |].
  rewrite todo_spec by lia.
  intros [= E] Hne. apply (f_equal snd) in E. cbn [snd] in E. subst paths.
  rewrite write_loop_paths. cbn [app].
  assert (HN : 0 < length task_list)
    by (destruct task_list; [congruence | simpl; lia]).
  destruct (ceil_div_bounds (length task_list) B HN ltac:(lia)) as [_ Hi].
  destruct (Bundles.ceil_div (length task_list) B); [simpl in Hi; lia |].
  discriminate.
Qed.

Section SubmitFails.

Variable jobscript_condopts :
  string -> string -> list (string * Sched.pyval) -> result (list string).
Variable parent_args : Sched.ArgumentPasser.
Variable email : Sched.pyval.
Hypothesis scheduler_is_slurm :
  Sched.get1 parent_args Sched.ARGSTR_SCHEDULER
  = Ok (Sched.VStr Sched.SCHED_SLURM).
Hypothesis email_value :
  Sched.get1 parent_args Sched.ARGSTR_EMAIL = Ok email.
Hypothesis email_not_address : Sched.as_opt_str email = None.

Lemma submit_loop_fails child_args child_task_argstrs jobname_fmt
    last_job_email python_version_accepted_min num_jobs job_num child_tasks :
  child_tasks <> [] ->
  exists ex,
    Sched.submit_loop jobscript_condopts parent_args child_args
      child_task_argstrs jobname_fmt last_job_email
      python_version_accepted_min num_jobs job_num child_tasks
    = Raise ex.
Proof.
  destruct child_tasks as [|task_items rest]; [congruence |]. intros _.
  cbn [Sched.submit_loop].
  destruct (Sched.set child_args child_task_argstrs task_items)
    as [child_args1 | ex]; cbn [rbind]; [| eauto].
  match goal with
  | |- context [rbind (if ?c then ?a else ?b) _] =>
      destruct (if c then a else b) as [child_args2 | ex]; cbn [rbind];
        [| eauto]
  end.
  rewrite scheduler_is_slurm. cbn [rbind].
  destruct (Sched.get1 parent_args Sched.ARGSTR_JOBSCRIPT)
    as [jobscript | ex]; cbn [rbind]; [| eauto].
  destruct (Sched.get1 parent_args Sched.ARGSTR_JOB_ABBREV)
    as [job_abbrev | ex]; cbn [rbind]; [| eauto].
  destruct (Sched.get1 parent_args Sched.ARGSTR_JOB_WALLTIME)
    as [walltime | ex]; cbn [rbind]; [| eauto].
  destruct (Sched.get1 parent_args Sched.ARGSTR_JOB_MEMORY)
    as [memory | ex]; cbn [rbind]; [| eauto].
  rewrite email_value. cbn [rbind Sched.as_opt_str].
  unfold Sched.get_jobsubmit_cmd.
  match goal with
  | |- context [Sched.jobsubmit_parts _ ?jn ?h ?m ?s ?g ?n _ ?ev] =>
      destruct (slurm_parts_unjoinable jn h m s g n email ev
                  email_not_address) as (parts & -> & ->)
  end.
  cbn [rbind]. eauto.
Qed.

(** X20.  Tasks cannot be submitted to [slurm] without an email address:
    when the parent's [--scheduler] is [slurm] and its [--email] is not a
    string, [submit_tasks_to_scheduler] called with at least one task
    raises an exception, whatever the other arguments, the bundle size and
    the job script are, and so reaches the end for no job list. *)
Theorem slurm_submission_needs_email_address (e : Bundles.env)
    (parent_tasks : list Bundles.task) (parent_task_argstrs : list string)
    (child_bundle_argstr : string) (child_args : option Sched.ArgumentPasser)
    (task_items_descr : option string)
    (task_delim python_version_accepted_min : string)
    (fs : gmap string string) :
  parent_tasks <> [] ->
  exists ex,
    Sched.submit_tasks_to_scheduler jobscript_condopts e parent_args
      parent_tasks parent_task_argstrs child_bundle_argstr child_args
      task_items_descr task_delim python_version_accepted_min fs
    = Raise ex.
Proof.
  intros Hne. unfold Sched.submit_tasks_to_scheduler.
  destruct (Sched.unset _ _) as [child_args0 | ex]; cbn [rbind]; [| eauto].
  destruct (Sched.get1 parent_args Sched.ARGSTR_TASKS_PER_JOB)
    as [tasks_per_job | ex]; cbn [rbind]; [| eauto].
  destruct (Sched.get1 parent_args Sched.ARGSTR_BUNDLEDIR)
    as [bundledir | ex]; cbn [rbind]; [| eauto].
  destruct (Sched.get1 parent_args Sched.ARGSTR_JOB_ABBREV)
    as [job_abbrev | ex]; cbn [rbind]; [| eauto].
  assert (Hloop : forall fs' child_tasks child_task_argstrs,
            child_tasks <> [] ->
            exists ex,
              rbind (Sched.get1 parent_args Sched.ARGSTR_EMAIL)
                (fun last_job_email =>
                   rbind (Sched.submit_loop jobscript_condopts parent_args
                            child_args0 child_task_argstrs
                            (fun n => Sched.format job_abbrev
                                      +:+ Bundles.get_index_fmtstr
                                            (length child_tasks) 3 n)
                            last_job_email python_version_accepted_min
                            (length child_tasks) 0 child_tasks)
                     (fun cmds => Ok (fs' : gmap string string, cmds)))
              = Raise ex).
  { intros fs' child_tasks child_task_argstrs Hct.
    rewrite email_value. cbn [rbind].
    destruct (submit_loop_fails child_args0 child_task_argstrs
                (fun n => Sched.format job_abbrev
                          +:+ Bundles.get_index_fmtstr (length child_tasks) 3 n)
                email python_version_accepted_min (length child_tasks) 0
                child_tasks Hct) as [ex ->].
    cbn [rbind]. eauto. }
  assert (Hplain : map (fun t : list string =>
                          Sched.VList (map Sched.VStr t)) parent_tasks <> [])
    by (destruct parent_tasks; [congruence | discriminate]).
  destruct tasks_per_job; cbn [rbind];
    try (destruct (Bundles.write_task_bundles _ _ _ _ _ _ _ _)
           as [[fs' bundle_file_list] | ex] eqn:Ew; cbn [rbind]; [| eauto];
         apply Hloop;
         pose proof (write_task_bundles_some_file _ _ _ _ _ _ _ _ _ _ Ew Hne);
         destruct bundle_file_list; [congruence | discriminate]).
  apply Hloop. exact Hplain.
Qed.

End SubmitFails.

Lemma slurm_submission_needs_email_address_witness :
  exists ex,
    Sched.submit_tasks_to_scheduler no_condopts env_plain
      (parent_args_no_email "slurm") two_tasks ["--src"; "--dst"] "--srclist"
      None (Some "srclist") "," "2.7" ∅
    = Raise ex.
Proof.
  apply (slurm_submission_needs_email_address no_condopts
           (parent_args_no_email "slurm") Sched.VNone eq_refl eq_refl eq_refl
           env_plain two_tasks ["--src"; "--dst"] "--srclist" None
           (Some "srclist") "," "2.7" ∅).
  discriminate.
Defined.

(** The same submission to [pbs] goes through. *)
Example pbs_submission_without_email :
  exists cmd1 cmd2,
    rbind (Sched.submit_tasks_to_scheduler no_condopts env_plain
             (parent_args_no_email "pbs") two_tasks ["--src"; "--dst"]
             "--srclist" None (Some "srclist") "," "2.7" ∅)
          (fun '(_, cmds) => Ok cmds)
    = Ok [cmd1; cmd2].
Proof. eexists _, _. vm_compute. reflexivity. Qed.

(** ** [ArgumentPasser] *)

Lemma dict_get_set_eq {V} (d : list (string * V)) (k : string) (v : V) :
  Py.dict_get (Sched.dict_set d k v) k = Some v.
Proof.
  induction d as [|[k' v'] d IH]; cbn [Sched.dict_set Py.dict_get].
  - now rewrite String.eqb_refl.
  - destruct (String.eqb k k') eqn:E; cbn [Py.dict_get].
    + now rewrite String.eqb_refl.
    + now rewrite E.
Qed.

Lemma dict_get_set_ne {V} (d : list (string * V)) (k k' : string) (v : V) :
  k' <> k -> Py.dict_get (Sched.dict_set d k v) k' = Py.dict_get d k'.
Proof.
  intros Hne. induction d as [|[k0 v0] d IH]; cbn [Sched.dict_set Py.dict_get].
  - now replace (String.eqb k' k) with false
      by (symmetry; now apply String.eqb_neq).
  - destruct (String.eqb_spec k k0) as [-> | Hk]; cbn [Py.dict_get].
    + now replace (String.eqb k' k0) with false
        by (symmetry; now apply String.eqb_neq).
    + now rewrite IH.
Qed.

Lemma update_cmd_keeps (self self' : Sched.ArgumentPasser) :
  Sched._update_cmd self = Ok self' ->
  Sched.parser_actions self' = Sched.parser_actions self
  /\ Sched.vars_dict self' = Sched.vars_dict self.
Proof.
  unfold Sched._update_cmd.
  destruct (Sched.posarg_list _ _); cbn [rbind]; [| discriminate].
  intros [= <-]. auto.
Qed.

Lemma refresh_keeps (self self' : Sched.ArgumentPasser)
    (argstr_list : list string) :
  Sched.refresh self argstr_list = Ok self' ->
  Sched.parser_actions self' = Sched.parser_actions self
  /\ Sched.vars_dict self' = Sched.vars_dict self.
Proof.
  unfold Sched.refresh, Sched._update_cmd_base.
  destruct (forallb _ _); [apply update_cmd_keeps |].
  destruct (Sched.optarg_list _ _); cbn [rbind]; [| discriminate].
  intros E. apply update_cmd_keeps in E. exact E.
Qed.

Lemma get1_by_parts (self self' : Sched.ArgumentPasser) (argstr : string) :
  Sched.parser_actions self' = Sched.parser_actions self ->
  Sched.get1 self' argstr
  = match Sched.lookup_last (Sched.argstr2varstr self) argstr with
    | None =>
        Raise (InvalidArgumentError
                 ("This ArgumentPasser object does not have the following "
                  +:+ "argument strings: " +:+ argstr))
    | Some varstr =>
        match Py.dict_get (Sched.vars_dict self') varstr with
        | Some v => Ok v
        | None => Raise Sched.KeyError
        end
    end.
Proof.
  intros Hact. unfold Sched.get1, Sched.argstr2varstr. now rewrite Hact.
Qed.

(** X21.  What [set] stores, [get] returns: after
    [args.set(argstr, newval)] with a [newval] other than [None] has
    succeeded, [args.get(argstr)] is [newval], and [get] of every argument
    string that belongs to another variable returns what it returned
    before. *)
Theorem set_then_get (self self' : Sched.ArgumentPasser) (argstr : string)
    (newval : Sched.pyval) :
  Sched.is_none newval = false ->
  Sched.set self (Sched.One argstr) newval = Ok self' ->
  Sched.get1 self' argstr = Ok newval
  /\ forall other,
       Sched.lookup_last (Sched.argstr2varstr self) other
       <> Sched.lookup_last (Sched.argstr2varstr self) argstr ->
       Sched.get1 self' other = Sched.get1 self other.
Proof.
  intros Hval Hset.
  assert (Hstep : exists varstr self1,
            Sched.lookup_last (Sched.argstr2varstr self) argstr = Some varstr
            /\ self1 = Sched.with_vars self
                         (Sched.dict_set (Sched.vars_dict self) varstr newval)
            /\ Sched.refresh self1 [argstr] = Ok self').
  { unfold Sched.set in Hset.
    assert (E : rbind (Sched.set_each self [argstr] newval)
                  (fun s => Sched.refresh s [argstr]) = Ok self')
      by (destruct newval; exact Hset).
    clear Hset. cbn [Sched.set_each] in E.
    destruct (Sched.lookup_last (Sched.argstr2varstr self) argstr)
      as [varstr |]; [| discriminate E].
    exists varstr, (Sched.with_vars self
                      (Sched.dict_set (Sched.vars_dict self) varstr newval)).
    split; [reflexivity |]. split; [reflexivity |].
    destruct newval; try discriminate Hval; exact E. }
  destruct Hstep as (varstr & self1 & Hlook & -> & Hrefresh).
  destruct (refresh_keeps _ _ _ Hrefresh) as [Hact Hvars].
  cbn [Sched.with_vars Sched.parser_actions Sched.vars_dict] in Hact, Hvars.
  split.
  - rewrite (get1_by_parts self self' argstr Hact), Hlook, Hvars.
    now rewrite dict_get_set_eq.
  - intros other Hother.
    rewrite (get1_by_parts self self' other Hact).
    rewrite (get1_by_parts self self other eq_refl).
    destruct (Sched.lookup_last (Sched.argstr2varstr self) other)
      as [varstr' |]; [| reflexivity].
    rewrite Hvars, dict_get_set_ne; [reflexivity |].
    intros ->. apply Hother. now rewrite Hlook.
Qed.

Lemma set_then_get_witness :
  exists self',
    Sched.set (parent_args "pbs") (Sched.One "--dst") (Sched.VStr "/dst/a")
    = Ok self'
    /\ Sched.get1 self' "--dst" = Ok (Sched.VStr "/dst/a")
    /\ forall other,
         Sched.lookup_last (Sched.argstr2varstr (parent_args "pbs")) other
         <> Sched.lookup_last (Sched.argstr2varstr (parent_args "pbs")) "--dst"
         ->
         Sched.get1 self' other = Sched.get1 (parent_args "pbs") other.
Proof.
  destruct (Sched.set (parent_args "pbs") (Sched.One "--dst")
              (Sched.VStr "/dst/a")) as [self' | ex] eqn:E;
    [| vm_compute in E; discriminate E].
  exists self'. split; [reflexivity |].
  exact (set_then_get (parent_args "pbs") self' "--dst" (Sched.VStr "/dst/a")
           eq_refl E).
Defined.

(** ** The width of an index *)

Lemma string_of_uint_length (d : Decimal.uint) :
  String.length (NilEmpty.string_of_uint d) = Decimal.nb_digits d.
Proof. induction d; simpl; congruence. Qed.

Lemma nb_digits_succ (d : Decimal.uint) :
  Decimal.nb_digits d <= Decimal.nb_digits (Decimal.Little.succ d).
Proof. induction d; simpl; lia. Qed.

Lemma str_length (n : nat) :
  String.length (Py.str n) = Decimal.nb_digits (Unsigned.to_lu n).
Proof.
  unfold Py.str.
  now rewrite string_of_uint_length, Unsigned.to_uint_alt,
    DecimalFacts.nb_digits_rev.
Qed.

Lemma str_length_mono (n m : nat) :
  n <= m -> String.length (Py.str n) <= String.length (Py.str m).
Proof.
  rewrite !str_length. induction 1 as [|m Hle IH]; [lia |].
  rewrite Unsigned.to_lu_succ.
  pose proof (nb_digits_succ (Unsigned.to_lu m)). lia.
Qed.

Lemma repeat_char_length (c : ascii) (k : nat) :
  String.length (Py.repeat_char c k) = k.
Proof. induction k as [|k IH]; simpl; congruence. Qed.

(** X22.  [get_index_fmtstr]: every index up to the item count formats
    to a string of one and the same length, the larger of [min_digits]
    and the number of digits of the item count; the names of the bundles
    and jobs of one call differ only in the digits of that fixed-width
    field. *)
Theorem index_format_fixed_width (num_items min_digits n : nat) :
  n <= num_items ->
  String.length (Bundles.get_index_fmtstr num_items min_digits n)
  = Nat.max min_digits (String.length (Py.str num_items)).
Proof.
  intros Hn. unfold Bundles.get_index_fmtstr, Py.rjust0.
  rewrite length_append, repeat_char_length.
  pose proof (str_length_mono n num_items Hn). lia.
Qed.

Lemma index_format_fixed_width_witness :
  String.length (Bundles.get_index_fmtstr 1200 3 7)
  = Nat.max 3 (String.length (Py.str 1200)).
Proof. apply (index_format_fixed_width 1200 3 7). lia. Defined.

(** ** The functions [walk] and [find] *)

Section FindProps.

Context {pattern world : Type} `{OS world}.
Variable SYSTYPE : CopyMethod.systype.
Variable re : WalkObject.regex pattern.

Lemma walk_function_no_copy_method (fuel : nat) (srcdir : string)
    (dstdir : option string) (a : WalkObject.init_args pattern) (w : world) :
  WalkObject.arg_copy_method a = None ->
  WalkObject.arg_copy_shcmd_fmtstr a = None ->
  exists ex, Find.walk SYSTYPE re fuel srcdir dstdir a w = ([], w, Raise ex).
Proof.
  intros Hcm Hfmt. unfold Find.walk.
  unfold bind at 1. unfold observe at 1.
  destruct (negb (os_path_isdir w srcdir)); [eexists; reflexivity |].
  destruct (_ && _); [eexists; reflexivity |].
  destruct (WalkObject.__init__ SYSTYPE re a) as [walker | ex0] eqn:Hinit;
    [| eexists; reflexivity].
  destruct (init_copy_method SYSTYPE re a walker Hinit) as [_ Hres].
  rewrite Hfmt, Hcm in Hres. cbn in Hres. injection Hres as Hnone.
  destruct (walk_no_copy_method SYSTYPE fuel walker srcdir dstdir
              (Some (WalkObject.arg_copy_overwrite a))
              (Some (WalkObject.arg_transplant_tree a))
              (Some (WalkObject.arg_collapse_tree a)) w (eq_sym Hnone))
    as [ex Hex].
  exists ex. unfold bind. now rewrite Hex.
Qed.

(** X23.  [find] cannot be used to search without copying: called
    without [copy_method] and [copy_shcmd_fmtstr] it raises an exception
    for every source directory and every other argument, before anything
    is listed, printed or returned (the error of the [vreturn] check, or
    the one that the walker of X9 raises). *)
Theorem find_without_copy_method_fails (fuel : nat) (srcdir : string)
    (dstdir : option string) (vreturn : option Find.items_arg) (debug : bool)
    (a : WalkObject.init_args pattern) (w : world) :
  WalkObject.arg_copy_method a = None ->
  WalkObject.arg_copy_shcmd_fmtstr a = None ->
  exists ex,
    Find.find SYSTYPE re fuel srcdir dstdir vreturn debug a w
    = ([], w, Raise ex).
Proof.
  intros Hcm Hfmt. unfold Find.find.
  destruct (rmapM Find.convert_item _) as [return_items | ex0];
    [| eexists; reflexivity].
  destruct (negb _); [eexists; reflexivity |].
  destruct (walk_function_no_copy_method fuel srcdir dstdir a w Hcm Hfmt)
    as [ex ->].
  exists ex. reflexivity.
Qed.

Lemma collect_without_mix (return_items : list Z) (tr : list event) :
  existsb (Z.eqb Find.FIND_RETURN_MIX) return_items = false ->
  snd (Find.collect return_items tr) = [].
Proof.
  intros Hmix. unfold Find.collect.
  assert (Hgen : forall acc : list string * list string * list string,
            snd acc = [] ->
            snd (fold_left
                   (fun '(dirs_all, files_all, mix_all) ev =>
                      match ev with
                      | Yield rootdir dnames fnames =>
                          let '(dirs, files, mix) :=
                            Find.item_lists return_items rootdir dnames
                                            fnames in
                          (dirs_all ++ default [] dirs,
                           files_all ++ default [] files,
                           mix_all ++ default [] mix)
                      | _ => (dirs_all, files_all, mix_all)
                      end) tr acc) = []).
  { induction tr as [|ev tr IH]; intros [[d f] m] Hacc; [exact Hacc |].
    cbn [fold_left]. apply IH. cbn [snd] in Hacc. subst m.
    destruct ev; try reflexivity.
    unfold Find.item_lists. rewrite Hmix. reflexivity. }
  now apply Hgen.
Qed.

(** X24.  [find] asked for the directories alone returns nothing: with
    [vreturn] the one item ['dirs'] (or 2), every call that returns does
    return the empty list, whatever directories the walk has met, because
    the final selection compares the item with [FIND_RETURN_FILES] twice
    and falls through to the list of mixed paths, which is filled only
    when ['mix'] is asked for. *)
Theorem find_dirs_returns_nothing (fuel : nat) (srcdir : string)
    (dstdir : option string) (i : Find.item) (debug : bool)
    (a : WalkObject.init_args pattern) (w w' : world) tr out :
  Find.convert_item i = Ok Find.FIND_RETURN_DIRS ->
  Find.find SYSTYPE re fuel srcdir dstdir (Some (Find.Single i)) debug a w
  = (tr, w', Ok out) ->
  out = Find.Paths [].
Proof.
  intros Hi. unfold Find.find. cbn [rmapM]. rewrite Hi. cbn [rbind].
  cbn [Find.count_distinct existsb Nat.leb negb andb].
  destruct (Find.walk SYSTYPE re fuel srcdir dstdir a w) as [[tr0 w0] [u | ex]];
    [| discriminate].
  intros [= _ _ <-]. f_equal.
  pose proof (collect_without_mix [Find.FIND_RETURN_DIRS] tr0 eq_refl) as E.
  destruct (Find.collect [Find.FIND_RETURN_DIRS] tr0) as [[d f] m].
  cbn [snd] in E. subst m. reflexivity.
Qed.

End FindProps.

Lemma find_without_copy_method_fails_witness :
  exists ex,
    Find.find LINUX glob_re 10 "/src" None
      (Some (Find.Single (Find.ItemStr "files"))) false default_args src_tree
    = ([], src_tree, Raise ex).
Proof.
  apply (find_without_copy_method_fails LINUX glob_re 10 "/src" None
           (Some (Find.Single (Find.ItemStr "files"))) false default_args
           src_tree); reflexivity.
Defined.

Lemma find_dirs_returns_nothing_witness :
  exists tr w',
    Find.find LINUX glob_re 10 "/src" (Some "/dst")
      (Some (Find.Single (Find.ItemStr "dirs"))) false
      (args_with "link" (Fin 0) PosInf None false) src_tree
    = (tr, w', Ok (Find.Paths [])).
Proof.
  destruct (Find.find LINUX glob_re 10 "/src" (Some "/dst")
              (Some (Find.Single (Find.ItemStr "dirs"))) false
              (args_with "link" (Fin 0) PosInf None false) src_tree)
    as [[tr w'] [out | ex]] eqn:E.
  - exists tr, w'.
    now rewrite (find_dirs_returns_nothing LINUX glob_re 10 "/src"
                   (Some "/dst") (Find.ItemStr "dirs") false
                   (args_with "link" (Fin 0) PosInf None false) src_tree w'
                   tr out eq_refl E).
  - exfalso. apply (f_equal snd) in E. vm_compute in E. discriminate E.
Defined.

(** The same call asked for the files, and for both kinds: the files are
    returned, the directories only inside the mixed list. *)
Example find_files_and_mix :
  snd (Find.find LINUX glob_re 10 "/src" (Some "/dst")
         (Some (Find.Single (Find.ItemStr "files"))) false
         (args_with "link" (Fin 0) (Fin 1) None false) src_tree)
  = Ok (Find.Paths ["/src/a.txt"; "/src/notes"])
  /\ snd (Find.find LINUX glob_re 10 "/src" (Some "/dst")
            (Some (Find.Single (Find.ItemStr "mix"))) false
            (args_with "link" (Fin 0) (Fin 1) None false) src_tree)
     = Ok (Find.Paths ["/src/sub"; "/src/a.txt"; "/src/notes"]).
Proof. split; vm_compute; reflexivity. Qed.

(** ** Dry-run walks *)

Lemma emits_weaken {world A} (P Q : event -> bool) (m : M world A) :
  (forall ev, P ev = true -> Q ev = true) -> emits P m -> emits Q m.
Proof.
  intros PQ Hm w tr w' r E. specialize (Hm w tr w' r E).
  rewrite forallb_forall in *. auto.
Qed.

Section DryRunWalk.

Context {pattern world : Type} `{OS world}.
Variable SYSTYPE : CopyMethod.systype.

Lemma exec_dryrun_keeps_files (cm : CopyMethod.t) (s d : string) :
  CopyMethod.dryrun cm = true -> emits keeps_files (CopyMethod.exec cm s d).
Proof.
  intros Hdry. apply (emits_weaken (fun ev => negb (mutating ev))).
  - intros ev Hev. unfold keeps_files. now rewrite Hev.
  - now apply exec_dryrun.
Qed.

Lemma _walk_dryrun (fuel : nat) (self : WalkObject.t pattern) :
  (forall cm, WalkObject.copy_method_inst self = Some cm ->
              CopyMethod.dryrun cm = true) ->
  forall (srcdir : string) (dstdir : option string) (depth dmatch_depth : Z),
    emits keeps_files
      (WalkObject._walk fuel self srcdir dstdir depth dmatch_depth).
Proof.
  intros Hdry.
  induction fuel as [|fuel IH]; intros srcdir dstdir depth dmatch_depth;
    cbn [WalkObject._walk]; [apply emits_raise |].
  destruct (num_ltb (WalkObject.maxdepth self) (Fin depth));
    [apply emits_ret |].
  set (passes := WalkObject.srcdname_passes self _).
  apply emits_bind;
    [unfold WalkObject.prepare_dstdir; repeat emits_step
    | intros dstdir_exists].
  apply emits_bind;
    [unfold WalkObject.list_entries; repeat emits_step | intros entries].
  destruct (WalkObject.scan self passes entries)
    as [[dnames dnames_pass] fnames_filtered].
  apply emits_bind; [| intros _].
  - destruct (num_leb (WalkObject.mindepth self) (Fin depth));
      [| apply emits_ret].
    apply emits_bind; [| intros _; apply emits_emit; reflexivity].
    destruct passes; [| apply emits_ret].
    destruct (WalkObject.copy_method_inst self) as [cm |] eqn:Ecm;
      [| apply emits_ret].
    destruct dstdir as [d |]; [| apply emits_ret].
    unfold WalkObject.transfer_files.
    apply emits_bind; [repeat emits_step | intros _].
    apply emits_for_each. intros fname.
    apply exec_dryrun_keeps_files. now apply Hdry.
  - destruct (_ && _); [| apply emits_ret].
    apply emits_for_each. intros [dn dn_pass]. apply IH.
Qed.

(** X25.  A walk with a strategy in dry-run mode never touches a file:
    when the copy method of the walker has [dryrun] set at the time
    [walk] is called, then, whatever the tree, the destination and the
    other arguments, the only calls of the walk that change the file
    system are [os.makedirs] calls (no removal, no copy function, no
    shell command). *)
Theorem dryrun_walk_keeps_files (fuel : nat) (self : WalkObject.t pattern)
    (srcdir : string) (dstdir : option string) (ov tp ct : option bool) :
  (forall cm, WalkObject.copy_method self = Some cm ->
              CopyMethod.dryrun cm = true) ->
  emits keeps_files (WalkObject.walk SYSTYPE fuel self srcdir dstdir ov tp ct).
Proof.
  intros Hdry. unfold WalkObject.walk.
  apply emits_bind; [repeat emits_step | intros copy_overwrite_1].
  apply emits_bind; [apply emits_observe | intros src_isdir].
  destruct (negb src_isdir); [apply emits_raise |].
  apply emits_bind; [repeat emits_step | intros dstdir_2].
  destruct (WalkObject.copy_method self) as [cm |] eqn:Ecm;
    [| apply emits_bind_raise].
  specialize (Hdry cm eq_refl).
  destruct (negb (Bool.eqb copy_overwrite_1 (CopyMethod.copy_overwrite cm)));
    apply emits_bind_ret;
    (apply emits_bind; [repeat emits_step | intros _]);
    (apply emits_bind; [| intros _; apply emits_ret]);
    apply _walk_dryrun; cbn [WalkObject.copy_method_inst];
    intros cm' [= <-]; exact Hdry.
Qed.

End DryRunWalk.

Lemma dryrun_walk_keeps_files_witness :
  exists self,
    WalkObject.__init__ LINUX glob_re
      (args_with "move" (Fin 0) PosInf None true) = Ok self
    /\ emits keeps_files
         (WalkObject.walk LINUX 10 self "/src" (Some "/dst") None None None).
Proof.
  destruct (WalkObject.__init__ LINUX glob_re
              (args_with "move" (Fin 0) PosInf None true))
    as [self | ex] eqn:Hinit; [| discriminate Hinit].
  exists self. split; [reflexivity |].
  apply (dryrun_walk_keeps_files LINUX 10 self "/src" (Some "/dst") None None
           None).
  intros cm Hcm. vm_compute in Hinit. injection Hinit as <-.
  injection Hcm as <-. reflexivity.
Defined.

(** The walk of the example in dry-run mode: the directories are made,
    nothing else changes. *)
Example dryrun_walk_of_src :
  mutations
    (fst (fst (walk_src (args_with "move" (Fin 0) PosInf None true) 10
                        src_tree)))
  = [Makedirs "/dst"; Makedirs "/dst/sub"; Makedirs "/dst/sub/deep"].
Proof. vm_compute. reflexivity. Qed.

(** ** Collapsed trees *)

Section Always.

Context {world : Type}.

Lemma always_ret {A} P (a : A) : always P (@ret world A a).
Proof. intros w tr w' r [= <- _ _]. constructor. Qed.

Lemma always_raise {A} P ex : always P (@raise world A ex).
Proof. intros w tr w' r [= <- _ _]. constructor. Qed.

Lemma always_bind {A B} P (m : M world A) (k : A -> M world B) :
  always P m -> (forall a, always P (k a)) -> always P (bind m k).
Proof.
  intros Hm Hk w tr w' r. unfold bind.
  destruct (m w) as [[tr1 w1] [a | ex]] eqn:Em.
  - destruct (k a w1) as [[tr2 w2] r2] eqn:Ek. intros [= <- _ _].
    apply List.Forall_app. split; [exact (Hm _ _ _ _ Em) | exact (Hk _ _ _ _ _ Ek)].
  - intros [= <- _ _]. exact (Hm _ _ _ _ Em).
Qed.

Lemma always_for_each {A} P (l : list A) (body : A -> M world unit) :
  (forall x, always P (body x)) -> always P (for_each l body).
Proof.
  intros Hb. induction l as [|x l IH]; simpl.
  - apply always_ret.
  - apply always_bind; [apply Hb | intros _; exact IH].
Qed.

Lemma always_emits {A} (Q : event -> bool) (P : event -> Prop)
    (m : M world A) :
  (forall ev, Q ev = true -> P ev) -> emits Q m -> always P m.
Proof.
  intros QP Hm w tr w' r E. specialize (Hm w tr w' r E).
  rewrite forallb_forall in Hm. apply List.Forall_forall. auto.
Qed.

End Always.

Section Collapse.

Context {pattern world : Type} `{OS world}.
Variable SYSTYPE : CopyMethod.systype.

Lemma exec_makes_nothing (d : string) (cm : CopyMethod.t) (s x : string) :
  always (makes_only d) (CopyMethod.exec cm s x).
Proof.
  apply (always_emits (fun ev => negb (is_makedirs ev))).
  - intros ev Hev. destruct ev; try exact I. discriminate Hev.
  - unfold CopyMethod.exec. repeat emits_step.
Qed.

Lemma _walk_collapsed (fuel : nat) (self : WalkObject.t pattern)
    (d : string) :
  WalkObject.collapse_tree_inst self = true ->
  forall (srcdir : string) (depth dmatch_depth : Z),
    always (makes_only d)
      (WalkObject._walk fuel self srcdir (Some d) depth dmatch_depth).
Proof.
  intros Hcollapse.
  assert (Hmk : always (makes_only d)
                  (mutate (Makedirs d) (fun w : world => os_makedirs w d))).
  { intros w tr w' r. unfold mutate.
    destruct (os_makedirs w d); intros [= <- _ _];
      (constructor; [reflexivity | constructor]). }
  assert (Hsilent : forall A (m : M world A),
            emits (fun _ => false) m -> always (makes_only d) m).
  { intros A m. apply always_emits. discriminate. }
  induction fuel as [|fuel IH]; intros srcdir depth dmatch_depth;
    cbn [WalkObject._walk]; [apply always_raise |].
  destruct (num_ltb (WalkObject.maxdepth self) (Fin depth));
    [apply always_ret |].
  set (passes := WalkObject.srcdname_passes self _).
  apply always_bind; [| intros dstdir_exists].
  { unfold WalkObject.prepare_dstdir.
    destruct (WalkObject.copy_method_inst self); [| apply always_ret].
    apply always_bind;
      [apply Hsilent, emits_observe | intros isdir].
    destruct isdir; [apply always_ret |].
    destruct (WalkObject.mkdir_upon_file_copy self); [apply always_ret |].
    destruct passes; [| apply always_ret].
    apply always_bind; [exact Hmk | intros _; apply always_ret]. }
  apply always_bind;
    [apply Hsilent; unfold WalkObject.list_entries; repeat emits_step
    | intros entries].
  destruct (WalkObject.scan self passes entries)
    as [[dnames dnames_pass] fnames_filtered].
  apply always_bind; [| intros _].
  - destruct (num_leb (WalkObject.mindepth self) (Fin depth));
      [| apply always_ret].
    apply always_bind.
    + destruct passes; [| apply always_ret].
      destruct (WalkObject.copy_method_inst self) as [cm |];
        [| apply always_ret].
      unfold WalkObject.transfer_files.
      apply always_bind; [| intros _].
      * destruct (_ && _); [exact Hmk | apply always_ret].
      * apply always_for_each. intros fname. apply exec_makes_nothing.
    + intros _ w tr w' r [= <- _ _]. constructor; [exact I | constructor].
  - destruct (_ && _); [| apply always_ret].
    apply always_for_each. intros [dn dn_pass]. rewrite Hcollapse. apply IH.
Qed.

Lemma always_bind_ret {A B} P (a : A) (k : A -> M world B) :
  always P (k a) -> always P (bind (ret a) k).
Proof.
  intros Hk w tr w' r. unfold bind, ret.
  destruct (k a w) as [[tr2 w2] r2] eqn:Ek. intros [= <- _ _].
  exact (Hk _ _ _ _ Ek).
Qed.

Lemma walk_makes_only_destination (fuel : nat)
    (self : WalkObject.t pattern) (srcdir dst : string)
    (ov tp ct : option bool) :
  default (WalkObject.collapse_tree self) ct = true ->
  default (WalkObject.transplant_tree self) tp = false ->
  always (makes_only (normpath_expanduser dst))
    (WalkObject.walk SYSTYPE fuel self srcdir (Some dst) ov tp ct).
Proof.
  intros Hcollapse Htransplant. unfold WalkObject.walk.
  rewrite Htransplant. cbn [option_map].
  set (d := normpath_expanduser dst).
  assert (Hsilent : forall A (m : M world A),
            emits (fun _ => false) m -> always (makes_only d) m).
  { intros A m. apply always_emits. discriminate. }
  apply always_bind; [apply Hsilent; repeat emits_step | intros ov1].
  apply always_bind; [apply Hsilent, emits_observe | intros src_isdir].
  destruct (negb src_isdir); [apply always_raise |].
  apply always_bind_ret.
  apply always_bind; [apply Hsilent; repeat emits_step | intros cmi].
  cbn [WalkObject.copy_method WalkObject.dstdir].
  apply always_bind; [| intros _].
  - destruct (WalkObject.copy_method self); [| apply always_ret].
    apply always_bind; [apply Hsilent, emits_observe | intros dst_isdir].
    destruct dst_isdir; [| apply always_ret].
    intros w tr w' r. unfold mutate.
    destruct (os_makedirs w d); intros [= <- _ _];
      (constructor; [reflexivity | constructor]).
  - apply always_bind; [| intros _; apply always_ret].
    apply _walk_collapsed. exact Hcollapse.
Qed.



End Collapse.


(** The files of [/src] at every depth, collapsed into [/dst]. *)
Example collapsed_walk_of_src :
  let tr :=
    fst (fst (WalkObject.walk LINUX 10 link_walker "/src" (Some "/dst")
                None None (Some true) src_tree)) in
  exec_calls tr
  = [("/src/a.txt", "/dst/a.txt"); ("/src/sub/b.txt", "/dst/b.txt");
     ("/src/sub/deep/c.txt", "/dst/c.txt")]
  /\ mutations tr
     = [Makedirs "/dst"; CopyFn os_link "/src/a.txt" "/dst/a.txt";
        CopyFn os_link "/src/sub/b.txt" "/dst/b.txt";
        CopyFn os_link "/src/sub/deep/c.txt" "/dst/c.txt"].
Proof. vm_compute. split; reflexivity. Qed.


(** With both bounds at 2 the one item is that of [/src/sub]. *)
Example depth_two_items :
  items (fst (fst (WalkObject.walk LINUX 10
                     (with_depths link_walker (Fin 2) (Fin 2)) "/src"
                     None None None None src_tree)))
  = [("/src/sub", ["b.txt"])].
Proof. vm_compute. reflexivity. Qed.
